(* ===== verification/_CoqProject ===== *)
-Q . S2P
Prelude.v
Paging.v
Memory.v
Storage.v
Gdt.v
Actor.v
Scheduler.v
Isolation.v
Ports.v
Pic.v
Keyboard.v
Rtc.v
Pci.v
Ata.v
Console.v
Net.v
E820.v
Access.v
Place.v
Loader.v
Syscall.v
Authority.v
Interrupts.v
Machine.v
VirtioNet.v
Smp.v
Boot.v
User.v
Demos.v
Shell.v
System.v
Outcomes.v
Simulation.v
Handover.v
