(* ===== verification/Prelude.v ===== *)
(** * Vajra: a verification of the kernel

    Vajra is a capability kernel for x86-64 in C: isolated ring-3 actors,
    preemptive scheduling, message passing, an object store with trust labels on
    an ATA disk, an Ethernet message transport, a program loader, an interactive
    shell, and a second core that is woken up.  This library models the C sources
    and the assembly they depend on, and proves what makes them correct.  Paths
    below are relative to src/src/.

    ** How the parts fit together

    [kernel_main] (Boot.v) initialises the devices and components, spawns fifteen
    actors, hands out the only capabilities that are not delegated later and
    starts the scheduler.  From then on the kernel is entered through the IDT's
    gates (Interrupts.v) by the timer, the keyboard, faults and [int 0x80];
    [syscall_handler] (Syscall.v) checks the caller's capability and calls the
    actor table (Actor.v), the object store (Storage.v), the transport (Net.v),
    the loader (Loader.v), the console, the keyboard or the clock.  The actors
    themselves (Demos.v, Shell.v) are programs over the wrappers of User.v.

    Three layers carry the main results.  Machine.v puts the components in one
    record and shows that every system call, interrupt and ring-3 action keeps
    the invariant of each; Authority.v says what a system call can do with the
    rights of its caller.  System.v is the abstract kernel: what the actors may
    rely on, one call at a time, in any order.  Simulation.v shows that the
    handler implements it, Handover.v that the boot starts in the abstract state
    the scenarios begin with, and Outcomes.v explores every interleaving of the
    scenarios the demo actors play.

    ** Files, sources, contents

    - Prelude.v: machine integers with their wrap-around ([u8] .. [u64],
      [int32]), search and state loops, arrays as total maps, tactics, hints.
    - Paging.v (hal/x86_64/paging.c, the tables of boards/pc-bios/boot.asm): the
      page-table pools, [hal_address_space_create],
      [hal_address_space_map_program], the hardware's walk.
    - Memory.v (core/memory.c): the page allocator, refined to a store of held
      pages.  E820.v (hal/x86_64/e820.c): the firmware's memory map.
    - Storage.v (core/storage.c): the object store over the class [BlockDevice];
      Ata.v (hal/x86_64/ata.c) is the instance the kernel uses, over the port
      bus of Ports.v and a model of the drive.
    - Gdt.v (gdt.c), Interrupts.v (interrupts.c, isr_stubs.asm,
      syscall_invoke.c), Pic.v (pic.c, timer.c), Keyboard.v, Rtc.v, Pci.v,
      Console.v (the files of those names): tables, stubs and drivers.
    - Actor.v (core/actor.c, context_switch.asm, usermode.asm): the actor table,
      capabilities, mailboxes, spawning, the scheduler, the switch of kernel
      stacks.  Scheduler.v: its invariant over reachable states, and fairness.
      Isolation.v: no frame belongs to two live actors, whatever was spawned and
      loaded.  Place.v: which actor, address space and kernel stack a switch
      leaves the processor with.
    - Net.v (core/net.c): frames, acknowledgement, retransmission, over the class
      [NetDevice]; VirtioNet.v (virtio_net.c) implements it.
    - Access.v: the kernel's accesses through user pointers.  Loader.v
      (core/loader.c): stored programs.
    - Syscall.v (syscall.c): the 24 calls over the record [world] of the whole
      machine.  Authority.v: the capabilities each call requires, what a call
      without them does, and what a call may change, over every outcome.
      Machine.v: the machine's steps and its invariant.
    - Smp.v (apic.c, smp.c, ap_trampoline.asm, spinlock.h): waking the second
      core, and the console shared by two cores.
    - Boot.v (core/main.c, [kernel_main] and its helpers).
    - User.v (core/main.c's wrappers, syscall_invoke.c, userland/): programs as
      interaction trees over one event, the trap.  Demos.v (core/main.c): the
      actors.  Shell.v (core/main.c): the shell.
    - System.v, Outcomes.v, Simulation.v, Handover.v: see above.

    ** What the theorems show

    - Refinement of the abstract kernel: [Simulation.kernel_implements_system],
      [Simulation.kernel_runs_the_programs], [Handover.boot_starts_the_scene];
      for twelve of the calls, with the exceptions of [falls_short] (no memory
      for a stack, a drive that refuses).
      Of its components: the allocator, the network driver, the keyboard, the
      shell's line.
    - Invariants: of the whole machine from boot on, of the actor table in every
      reachable state, of the object store.
    - Safety: in every state after boot live actors share no memory outside the
      common code, stacks are private, capabilities are not forged, every call is
      mediated and refused without its capability (the one that loads a program
      keeps the frames it claimed), the boot hands out exactly what is written there,
      data of one object is not touched by operations on another, only the
      system-call gate can be entered from ring 3, a character stays in its pane,
      the second core runs nothing but its own code, the intruder is confined.
    - Liveness and termination: the storage pipeline and the shell's pipe come to
      their end in every interleaving, a ready actor runs within 17 yields, a
      reliable send delivers, waking the second core returns.
    - Round trips: directory and disk, read and write, sectors through the ATA
      ports, context switches, frames, messages across the boundary.
    - Functional and error behaviour: sends, receives, quotas, refusals, the
      loader, the clock, PCI discovery, the memory map, panics.

    ** Conventions

    Fixed-width integers are [Z] with the wrap written out.  A C array is a total
    map from indices, so a read out of range gives a default where C reads past
    the array; invariants bound the indices.  A C string argument is the function
    that reads its bytes.  Addresses the linker chooses are the fields of the
    classes [layout], [klayout], [kcode] and [icode], with the placement the link
    script guarantees as their laws; each is instantiated once.  Devices and
    third parties are classes ([PortBus], [BlockDevice], [NetDevice]) or models of
    the documented hardware, named where a theorem needs them.  Hypotheses such
    as [drained] (the keyboard controller runs empty) or [directory_valid] (the
    fields of a directory on the disk are in range) are those of the theorems'
    statements, each met by a concrete machine.

    ** Bounds and fuel

    [hal_console_write] on a user string takes fuel for the bytes before the NUL;
    with fuel for the string it succeeds.  Draining the keyboard takes fuel for
    the bytes in the controller.  The spin limits of the ATA and virtio drivers,
    the polls of the second core and the loops over slots, capabilities, objects
    and registers are the code's own.  A shell buffer has 64 bytes, which bounds
    its loops.  In System.v a program is run through at most 100 output calls and
    yields to its next call, and through 8 internal steps between two calls.
    Running out of the first makes further output a step of its own; running out
    of the second stops the actor, which the theorems exclude, since they say
    which actors are gone at the end.  [layers] explores up to 40 steps; the
    theorems prove that no run is longer.

    ** Not modelled, and why

    - The 16-bit part of boot.asm and of ap_trampoline.asm: what it leaves behind
      (page tables, memory map, a core in long mode) is where the models start;
      the trampoline's mode switch is one step of Smp.v.
    - Below 1MB a store would change the kernel's statics, which the model keeps
      in its records: such a store ends in the outcome [Overwrote] of the call
      and the status [Overwritten] of the machine.  No theorem leaves this
      outcome out; what they say of it is which buffers it goes through.
    - The stack buffer [SYS_LIST_OBJECTS] copies a name through starts as zeros
      in the model; in the code it is not initialised.  The network device of
      VirtioNet.v is one conforming device that answers at the driver's first
      look.  The entry points of the boot actors are parameters, and Outcomes.v
      pairs them with the programs of Demos.v by their slot.
    - A fault at CPL 0 ends in [Crashed]: the handler panics and halts.  A name a
      call takes is first required to be mapped up to its end or its first
      sixteen bytes; the code would fault only at a byte it looks at.
    - DMA memory of the network card is state of the driver's model; the boot
      claims its pages.  [hal_smp_boot_ap] enters [kernel_main] as its answer.
    - Ring-3 code is arbitrary in Machine.v; in System.v it is the programs of
      Demos.v and Shell.v, whose pointers are the bytes they point at, and whose
      output and yields are private steps.
    - Timing, caches, the interleaving of devices within one kernel entry
      (interrupts are off there), and multicore execution beyond the second
      core's own loop, which touches only the console, under its lock.
    - tools/, docs/, the workflows, link scripts, and the empty directories of
      other boards; legacy-asm/ is the superseded assembly kernel. *)
From Stdlib Require Export ZArith Lia Bool.
From stdpp Require Export base gmap sets list option numbers.

#[global] Open Scope Z_scope.

(** * Machine integers

    C's unsigned types are [Z] values reduced by an explicit wrap; a cast to
    [int] is [int32]. *)

Definition u8 (x : Z) : Z := x mod 2 ^ 8.
Definition u16 (x : Z) : Z := x mod 2 ^ 16.
Definition u32 (x : Z) : Z := x mod 2 ^ 32.
Definition u64 (x : Z) : Z := x mod 2 ^ 64.

(** [(int)x] for any integer [x] (two's complement, as the target does it). *)
Definition int32 (x : Z) : Z :=
  let y := x mod 2 ^ 32 in if y <? 2 ^ 31 then y else y - 2 ^ 32.

Definition in_u8 (x : Z) : Prop := 0 <= x < 2 ^ 8.
Definition in_u32 (x : Z) : Prop := 0 <= x < 2 ^ 32.
Definition in_u64 (x : Z) : Prop := 0 <= x < 2 ^ 64.
Definition in_int32 (x : Z) : Prop := - 2 ^ 31 <= x < 2 ^ 31.

(** C truth values. *)
Definition cbool (b : bool) : Z := if b then 1 else 0.

Declare Scope vajra_scope.
Delimit Scope vajra_scope with vajra.
Notation "x '.|.' y" := (Z.lor x y) (at level 50, left associativity) : vajra_scope.
Notation "x '.&.' y" := (Z.land x y) (at level 40, left associativity) : vajra_scope.
Notation "x '.<<.' y" := (Z.shiftl x y) (at level 40, left associativity) : vajra_scope.
Notation "x '.>>.' y" := (Z.shiftr x y) (at level 40, left associativity) : vajra_scope.
#[global] Open Scope vajra_scope.

(** * Loops

    [scan p lo n] is the C search loop
    [for (i = lo; i < lo + n; i++) if (p(i)) return i;]
    and [loop f lo n s] the state loop
    [for (i = lo; i < lo + n; i++) s = f(i, s);]. *)

Fixpoint scan (p : Z -> bool) (lo : Z) (n : nat) : option Z :=
  match n with
  | O => None
  | S n' => if p lo then Some lo else scan p (lo + 1) n'
  end.

Fixpoint loop {S : Type} (f : Z -> S -> S) (lo : Z) (n : nat) (s : S) : S :=
  match n with
  | O => s
  | S n' => loop f (lo + 1) n' (f lo s)
  end.

(** * Tactics *)

(** Split every boolean comparison of the context or the goal into its
    arithmetic meaning. *)
Ltac bdestruct_one :=
  match goal with
  | |- context [?a <? ?b] => destruct (Z.ltb_spec a b)
  | |- context [?a <=? ?b] => destruct (Z.leb_spec a b)
  | |- context [?a =? ?b] => destruct (Z.eqb_spec a b)
  | H : context [?a <? ?b] |- _ => destruct (Z.ltb_spec a b)
  | H : context [?a <=? ?b] |- _ => destruct (Z.leb_spec a b)
  | H : context [?a =? ?b] |- _ => destruct (Z.eqb_spec a b)
  end.
Ltac bdestruct_all := repeat (bdestruct_one; cbn [andb orb negb] in *).

(** Evaluate the comparisons of the goal that arithmetic decides. *)
Ltac zcmp :=
  repeat match goal with
  | |- context [?a <? ?b] =>
      first [rewrite (proj2 (Z.ltb_lt a b)) by lia | rewrite (proj2 (Z.ltb_ge a b)) by lia]
  | |- context [?a <=? ?b] =>
      first [rewrite (proj2 (Z.leb_le a b)) by lia | rewrite (proj2 (Z.leb_gt a b)) by lia]
  | |- context [?a =? ?b] =>
      first [rewrite (proj2 (Z.eqb_eq a b)) by lia | rewrite (proj2 (Z.eqb_neq a b)) by lia]
  end; cbn [andb orb negb].

(** Turn boolean facts into propositions. *)
Ltac breflect :=
  repeat match goal with
  | H : (_ && _)%bool = true |- _ => apply andb_prop in H; destruct H
  | H : (_ || _)%bool = false |- _ => apply orb_false_elim in H; destruct H
  | H : (_ || _)%bool = true |- _ => apply orb_prop in H
  | H : negb _ = true |- _ => apply negb_true_iff in H
  | H : negb _ = false |- _ => apply negb_false_iff in H
  | H : (_ <? _) = true |- _ => apply Z.ltb_lt in H
  | H : (_ <? _) = false |- _ => apply Z.ltb_ge in H
  | H : (_ <=? _) = true |- _ => apply Z.leb_le in H
  | H : (_ <=? _) = false |- _ => apply Z.leb_gt in H
  | H : (_ =? _) = true |- _ => apply Z.eqb_eq in H
  | H : (_ =? _) = false |- _ => apply Z.eqb_neq in H
  end.

(** Case analysis on the innermost scrutinee of a [match] or [if]. *)
Ltac case_match_goal :=
  match goal with
  | |- context [match ?x with _ => _ end] =>
      lazymatch x with
      | context [match _ with _ => _ end] => fail
      | _ => destruct x eqn:?
      end
  end.
Ltac case_match_hyp H :=
  match type of H with
  | context [match ?x with _ => _ end] =>
      lazymatch x with
      | context [match _ with _ => _ end] => fail
      | _ => destruct x eqn:?
      end
  end.

(** Unfold [Z.div]/[Z.modulo] by their characteristic equations. *)
Ltac zdm := Z.div_mod_to_equations; nia.

(** * Search loops *)

Lemma scan_Some p lo n i :
  scan p lo n = Some i ->
  lo <= i < lo + Z.of_nat n /\ p i = true /\ (forall j, lo <= j < i -> p j = false).
Proof.
  revert lo; induction n as [|n IH]; intros lo; cbn [scan]; [discriminate|].
  destruct (p lo) eqn:E.
  - intros [= <-]. split_and!; [lia | lia | done | intros; lia].
  - intros H. destruct (IH _ H) as (? & ? & Hmin). split_and!; [lia | lia | done |].
    intros j Hj. destruct (decide (j = lo)) as [->|]; [done | apply Hmin; lia].
Qed.

Lemma scan_None p lo n :
  scan p lo n = None <-> (forall j, lo <= j < lo + Z.of_nat n -> p j = false).
Proof.
  revert lo; induction n as [|n IH]; intros lo; cbn [scan].
  - split; [intros _ j Hj; lia | done].
  - destruct (p lo) eqn:E; split.
    + done.
    + intros H. rewrite H in E by lia. done.
    + intros H j Hj. destruct (decide (j = lo)) as [->|]; [done|].
      apply (proj1 (IH _) H). lia.
    + intros H. apply IH. intros j Hj. apply H. lia.
Qed.

Lemma scan_complete p lo n i :
  lo <= i < lo + Z.of_nat n -> p i = true -> exists j, scan p lo n = Some j /\ j <= i.
Proof.
  intros Hi Hp. destruct (scan p lo n) as [j|] eqn:E.
  - exists j; split; [done|]. destruct (scan_Some _ _ _ _ E) as (? & ? & Hmin).
    destruct (Z.le_gt_cases j i); [done|]. rewrite Hmin in Hp by lia. done.
  - rewrite (proj1 (scan_None _ _ _) E) in Hp by lia. done.
Qed.

Lemma scan_ext p q lo n :
  (forall i, lo <= i < lo + Z.of_nat n -> p i = q i) -> scan p lo n = scan q lo n.
Proof.
  revert lo; induction n as [|n IH]; intros lo H; [done|].
  cbn [scan]. rewrite H by lia. destruct (q lo); [done|]. apply IH. intros; apply H; lia.
Qed.

(** * State loops *)

(** Invariant rule: [P i s] holds before iteration [i]. *)
Lemma loop_ind {S} (P : Z -> S -> Prop) (f : Z -> S -> S) lo n s :
  P lo s ->
  (forall i s, lo <= i < lo + Z.of_nat n -> P i s -> P (i + 1) (f i s)) ->
  P (lo + Z.of_nat n) (loop f lo n s).
Proof.
  revert lo s; induction n as [|n IH]; intros lo s H0 Hstep.
  - by replace (lo + Z.of_nat 0) with lo by lia.
  - replace (lo + Z.of_nat (Datatypes.S n)) with (lo + 1 + Z.of_nat n) by lia. cbn [loop].
    apply IH; [apply Hstep; [lia | done] |]. intros; apply Hstep; [lia | done].
Qed.

Lemma loop_add {S} (f : Z -> S -> S) lo n m s :
  loop f lo (n + m) s = loop f (lo + Z.of_nat n) m (loop f lo n s).
Proof.
  revert lo s; induction n as [|n IH]; intros lo s; cbn [loop Nat.add].
  - f_equal; lia.
  - rewrite IH. f_equal; lia.
Qed.

Lemma loop_S {S} (f : Z -> S -> S) lo n s :
  loop f lo (Datatypes.S n) s = f (lo + Z.of_nat n) (loop f lo n s).
Proof. replace (Datatypes.S n) with (n + 1)%nat by lia. by rewrite loop_add. Qed.

Lemma loop_ext {S} (f g : Z -> S -> S) lo n s :
  (forall i s, lo <= i < lo + Z.of_nat n -> f i s = g i s) -> loop f lo n s = loop g lo n s.
Proof.
  revert lo s; induction n as [|n IH]; intros lo s H; [done|].
  cbn [loop]. rewrite H by lia. apply IH. intros; apply H; lia.
Qed.

(** * Arrays

    A C array in [.bss] is a [gmap Z A] read with the total lookup [!!!]; an
    index that was never written reads as the zeroed value, which is the
    [Inhabited] instance of the element type.  Index bounds are separate
    theorems, not consequences of the representation. *)

#[export] Instance Z_inhabited_zero : Inhabited Z | 0 := populate 0.

Section arrays.
Context {A : Type} `{!Inhabited A}.

(** [for (i = lo; i < lo + n; i++) m[base + i] = g(i);] *)
Definition fill (base : Z) (g : Z -> A) (lo : Z) (n : nat) (m : gmap Z A) : gmap Z A :=
  loop (fun i m => <[base + i := g i]> m) lo n m.

Lemma aget_eq (m : gmap Z A) i x : <[i := x]> m !!! i = x.
Proof. apply lookup_total_insert_eq. Qed.

Lemma aget_ne (m : gmap Z A) i j x : i <> j -> <[i := x]> m !!! j = m !!! j.
Proof. intros. by apply lookup_total_insert_ne. Qed.

Lemma aget_insert (m : gmap Z A) i j x :
  <[i := x]> m !!! j = if i =? j then x else m !!! j.
Proof.
  destruct (Z.eqb_spec i j) as [->|]; [apply aget_eq | by apply aget_ne].
Qed.

Lemma fill_S base g lo n (m : gmap Z A) :
  fill base g lo (S n) m = <[base + (lo + Z.of_nat n) := g (lo + Z.of_nat n)]> (fill base g lo n m).
Proof. unfold fill. by rewrite loop_S. Qed.

Lemma fill_get base g lo n (m : gmap Z A) j :
  fill base g lo n m !!! j =
  if (base + lo <=? j) && (j <? base + lo + Z.of_nat n) then g (j - base) else m !!! j.
Proof.
  induction n as [|n IH].
  - unfold fill. cbn [loop]. bdestruct_all; done || lia.
  - rewrite fill_S, aget_insert, IH.
    bdestruct_all; try lia; try done. f_equal; lia.
Qed.

Lemma fill_out base g lo n (m : gmap Z A) j :
  j < base + lo \/ base + lo + Z.of_nat n <= j -> fill base g lo n m !!! j = m !!! j.
Proof. intros. rewrite fill_get. bdestruct_all; done || lia. Qed.

Lemma fill_in base g lo n (m : gmap Z A) j :
  base + lo <= j < base + lo + Z.of_nat n -> fill base g lo n m !!! j = g (j - base).
Proof. intros. rewrite fill_get. bdestruct_all; done || lia. Qed.
End arrays.

Create HintDb vajra.
Create Rewrite HintDb vajra.
#[export] Hint Rewrite @aget_eq : vajra.
#[export] Hint Rewrite @aget_ne using (lia || done) : vajra.

(** The first [n] elements of an array, as a list. *)
Definition take_arr {A} `{!Inhabited A} (m : gmap Z A) (lo : Z) (n : nat) : list A :=
  map (fun i => m !!! (lo + i)) (seqZ 0 (Z.of_nat n)).

(** A list as the array holding it from index 0. *)
Fixpoint of_list_from {A} (i : Z) (l : list A) : gmap Z A :=
  match l with
  | [] => ∅
  | x :: l => <[i := x]> (of_list_from (i + 1) l)
  end.
Definition of_list {A} (l : list A) : gmap Z A := of_list_from 0 l.

(** * Ring buffers

    [count] elements from [head], in an array of [n] indexed modulo [n]. *)
Section rings.
Context {A : Type} `{!Inhabited A}.
Implicit Types (m : gmap Z A).

Definition ring (n : Z) m (head count : Z) : list A :=
  map (fun j => m !!! ((head + j) mod n)) (seqZ 0 count).

Lemma length_ring n m h c : 0 <= c -> Z.of_nat (length (ring n m h c)) = c.
Proof. intros. unfold ring. rewrite length_map, length_seqZ. lia. Qed.

Lemma ring_push n m h c x :
  0 <= h -> 0 <= c < n -> ring n (<[(h + c) mod n := x]> m) h (c + 1) = ring n m h c ++ [x].
Proof.
  intros Hh Hc. unfold ring. change (c + 1) with (c + Z.of_nat 1). rewrite seqZ_app by lia.
  rewrite map_app. cbn [map seqZ]. f_equal.
  - apply map_ext_in. intros j Hj%list_elem_of_In%elem_of_seqZ.
    rewrite aget_ne; [done|]. intros E.
    assert (Ed : (h + c) - (h + j) = n * ((h + c) / n - (h + j) / n)).
    { pose proof (Z.div_mod (h + c) n). pose proof (Z.div_mod (h + j) n). lia. }
    clear E. set (q := (h + c) / n - (h + j) / n) in *. clearbody q.
    destruct (Z.le_gt_cases q 0); nia.
  - rewrite Z.add_0_l, seqZ_cons, seqZ_nil by lia. cbn [map]. by rewrite aget_eq.
Qed.

Lemma ring_pop n m h c :
  0 <= h < n -> 0 < c -> ring n m h c = (m !!! h) :: ring n m ((h + 1) mod n) (c - 1).
Proof.
  intros Hh Hc. unfold ring. rewrite seqZ_cons by lia. cbn [map].
  f_equal; [by rewrite Z.add_0_r, Z.mod_small by lia|].
  change (Z.succ 0) with (1 + 0). rewrite <- fmap_add_seqZ.
  etransitivity; [apply map_map|]. apply map_ext. intros j. f_equal.
  rewrite Zplus_mod_idemp_l. f_equal. lia.
Qed.
End rings.

(** * The console panes of [src/include/vajra/hal.h] *)
Definition CONSOLE_WIN_LOG : Z := 0.
Definition CONSOLE_WIN_SHELL : Z := 1.

(** * Little-endian words *)

(** [(uint8_t)(w >> (8 * i))] *)
Definition byte_of (w i : Z) : Z := u8 (w .>>. (8 * i)).

(** [v = 0; for (i = 0; i < n; i++) v |= ((uint64_t)p[i]) << (8 * i);] *)
Definition le_load (p : Z -> Z) (n : nat) : Z :=
  loop (fun i v => v .|. (p i .<<. (8 * i))) 0 n 0.

Lemma le_load_S p n : le_load p (S n) = le_load p n .|. (p (Z.of_nat n) .<<. (8 * Z.of_nat n)).
Proof. unfold le_load. rewrite loop_S. by rewrite Z.add_0_l. Qed.

Lemma le_load_ext p q n :
  (forall i, 0 <= i < Z.of_nat n -> p i = q i) -> le_load p n = le_load q n.
Proof. intros H. apply loop_ext. intros i s Hi. by rewrite H by lia. Qed.

Lemma u8_range x : in_u8 (u8 x).
Proof. apply Z.mod_pos_bound. lia. Qed.

Lemma byte_of_range w i : in_u8 (byte_of w i).
Proof. apply u8_range. Qed.

Lemma testbit_u8 x k : 0 <= k -> Z.testbit (u8 x) k = (k <? 8) && Z.testbit x k.
Proof.
  intros Hk. unfold u8. destruct (Z.ltb_spec k 8).
  - by rewrite Z.mod_pow2_bits_low by lia.
  - by rewrite Z.mod_pow2_bits_high by lia.
Qed.

Lemma in_u8_testbit b k : in_u8 b -> 8 <= k -> Z.testbit b k = false.
Proof.
  intros Hb Hk. rewrite <- (Z.mod_small b (2 ^ 8)) by exact Hb.
  apply Z.mod_pow2_bits_high. lia.
Qed.

Lemma le_load_byte_of w n : le_load (byte_of w) n = w mod 2 ^ (8 * Z.of_nat n).
Proof.
  induction n as [|n IH].
  - cbn. by rewrite Z.mod_1_r.
  - rewrite le_load_S, IH. apply Z.bits_inj'. intros k Hk.
    rewrite Z.lor_spec, Z.shiftl_spec by lia.
    unfold byte_of.
    destruct (Z.lt_ge_cases k (8 * Z.of_nat n)).
    + rewrite (Z.testbit_neg_r _ (k - _)), orb_false_r by lia.
      by rewrite !Z.mod_pow2_bits_low by lia.
    + rewrite Z.mod_pow2_bits_high, orb_false_l by lia.
      rewrite testbit_u8, Z.shiftr_spec by lia.
      replace (k - 8 * Z.of_nat n + 8 * Z.of_nat n) with k by lia.
      destruct (Z.ltb_spec (k - 8 * Z.of_nat n) 8).
      * by rewrite Z.mod_pow2_bits_low by lia.
      * by rewrite Z.mod_pow2_bits_high by lia.
Qed.

Lemma le_load_testbit p n k :
  (forall i, 0 <= i < Z.of_nat n -> in_u8 (p i)) -> 0 <= k ->
  Z.testbit (le_load p n) k = (k <? 8 * Z.of_nat n) && Z.testbit (p (k / 8)) (k mod 8).
Proof.
  intros Hp Hk. induction n as [|n IH].
  - cbn. rewrite Z.bits_0. bdestruct_all; lia || done.
  - rewrite le_load_S, Z.lor_spec, Z.shiftl_spec, IH by (lia || (intros; apply Hp; lia)).
    destruct (Z.ltb_spec k (8 * Z.of_nat n)).
    + rewrite (Z.testbit_neg_r _ (k - _)), orb_false_r by lia.
      bdestruct_all; done || lia.
    + rewrite andb_false_l, orb_false_l. destruct (Z.ltb_spec k (8 * Z.of_nat (S n))).
      * replace (k / 8) with (Z.of_nat n) by (Z.div_mod_to_equations; lia).
        rewrite andb_true_l. f_equal. Z.div_mod_to_equations; lia.
      * rewrite andb_false_l. apply in_u8_testbit; [apply Hp; lia | lia].
Qed.

Lemma le_load_range p n :
  (forall i, 0 <= i < Z.of_nat n -> in_u8 (p i)) -> 0 <= le_load p n < 2 ^ (8 * Z.of_nat n).
Proof.
  intros Hp. assert (le_load p n = le_load p n mod 2 ^ (8 * Z.of_nat n)) as ->.
  { apply Z.bits_inj'. intros k Hk. rewrite le_load_testbit by done.
    destruct (Z.ltb_spec k (8 * Z.of_nat n)).
    - rewrite Z.mod_pow2_bits_low by lia. rewrite le_load_testbit by done. bdestruct_all; done || lia.
    - by rewrite Z.mod_pow2_bits_high by lia. }
  apply Z.mod_pos_bound. apply Z.pow_pos_nonneg; lia.
Qed.

Lemma byte_of_le_load p n i :
  (forall i, 0 <= i < Z.of_nat n -> in_u8 (p i)) -> 0 <= i < Z.of_nat n ->
  byte_of (le_load p n) i = p i.
Proof.
  intros Hp Hi. apply Z.bits_inj'. intros k Hk. unfold byte_of.
  rewrite testbit_u8, Z.shiftr_spec by lia. rewrite le_load_testbit by (done || lia).
  destruct (Z.ltb_spec k 8).
  - rewrite andb_true_l. destruct (Z.ltb_spec (k + 8 * i) (8 * Z.of_nat n)); [|lia].
    rewrite andb_true_l. f_equal; [f_equal|]; Z.div_mod_to_equations; lia.
  - rewrite andb_false_l. symmetry. apply in_u8_testbit; [by apply Hp | lia].
Qed.

Lemma u64_small x : in_u64 x -> u64 x = x.
Proof. apply Z.mod_small. Qed.
Lemma u32_small x : in_u32 x -> u32 x = x.
Proof. apply Z.mod_small. Qed.
Lemma u8_small x : in_u8 x -> u8 x = x.
Proof. apply Z.mod_small. Qed.
Lemma u64_range x : in_u64 (u64 x).
Proof. apply Z.mod_pos_bound. lia. Qed.
Lemma u32_range x : in_u32 (u32 x).
Proof. apply Z.mod_pos_bound. lia. Qed.

Lemma int32_small x : in_int32 x -> int32 x = x.
Proof.
  unfold in_int32, int32. intros H.
  destruct (Z.ltb_spec (x mod 2 ^ 32) (2 ^ 31)); Z.div_mod_to_equations; lia.
Qed.

Lemma int32_range x : in_int32 (int32 x).
Proof.
  unfold in_int32, int32. pose proof (Z.mod_pos_bound x (2 ^ 32)).
  destruct (Z.ltb_spec (x mod 2 ^ 32) (2 ^ 31)); lia.
Qed.

Lemma int32_u64 x : int32 (u64 x) = int32 x.
Proof.
  unfold int32, u64. rewrite Z.mod_mod_divide; [done|].
  exists (2 ^ 32). lia.
Qed.

(** A word with aligned low bits, or-ed with flags below the alignment. *)
Lemma lor_low_flags a n f : 0 <= n -> 0 <= f < 2 ^ n -> a mod 2 ^ n = 0 -> a .|. f = a + f.
Proof.
  intros Hn Hf Ha. symmetry. rewrite Z.add_nocarry_lxor.
  - apply Z.bits_inj'. intros k Hk. rewrite Z.lxor_spec, Z.lor_spec.
    destruct (Z.lt_ge_cases k n).
    + rewrite <- (Z.mod_pow2_bits_low a n k), Ha, Z.bits_0 by lia. by destruct (Z.testbit f k).
    + rewrite <- (Z.mod_small f (2 ^ n)), Z.mod_pow2_bits_high by lia.
      by rewrite xorb_false_r, orb_false_r.
  - apply Z.bits_inj'. intros k Hk. rewrite Z.land_spec, Z.bits_0.
    destruct (Z.lt_ge_cases k n).
    + by rewrite <- (Z.mod_pow2_bits_low a n k), Ha, Z.bits_0 by lia.
    + rewrite <- (Z.mod_small f (2 ^ n)), Z.mod_pow2_bits_high by lia. by rewrite andb_false_r.
Qed.

(** * Address loops

    [for (a = from; a < to; a += step) s = f(a, s);] on addresses that do not
    wrap: the trip count is [ceil((to - from) / step)]. *)
Definition trips (from to step : Z) : nat := Z.to_nat ((to - from + step - 1) / step).
Definition for_step {S} (f : Z -> S -> S) (from to step : Z) (s : S) : S :=
  loop (fun k s => f (from + k * step) s) 0 (trips from to step) s.

Lemma trips_spec from to step k :
  0 < step -> 0 <= k -> (k < Z.of_nat (trips from to step) <-> from + k * step < to).
Proof.
  intros Hs Hk. unfold trips. rewrite ZifyInst.of_nat_to_nat_eq.
  Z.div_mod_to_equations; nia.
Qed.

(** [for (x = start; cond(x); x += step) if (test(x)) return x;], with fuel. *)
Fixpoint search_while (cond test : Z -> bool) (step : Z) (fuel : nat) (x : Z) : option Z :=
  match fuel with
  | O => None
  | S fuel =>
      if cond x then (if test x then Some x else search_while cond test step fuel (x + step))
      else None
  end.

Lemma search_while_Some cond test step fuel x y :
  search_while cond test step fuel x = Some y ->
  exists k, 0 <= k < Z.of_nat fuel /\ y = x + k * step /\ cond y = true /\ test y = true.
Proof.
  revert x; induction fuel as [|n IH]; intros x; cbn; [done|].
  destruct (cond x) eqn:Ec; [|done]. destruct (test x) eqn:Et.
  - intros [= <-]. exists 0. split_and!; [lia | lia | lia | done | done].
  - intros H. destruct (IH _ H) as (k & ? & -> & ? & ?). exists (k + 1). split_and!; [lia | lia | lia | |].
    + by replace (x + (k + 1) * step) with (x + step + k * step) by lia.
    + by replace (x + (k + 1) * step) with (x + step + k * step) by lia.
Qed.

(** With fuel that outlasts the loop condition, [None] means the loop ran to
    its end and no candidate passed the test. *)
Lemma search_while_None cond test step fuel x :
  (forall k, Z.of_nat fuel <= k -> cond (x + k * step) = false) ->
  (forall k, 0 <= k -> cond (x + (k + 1) * step) = true -> cond (x + k * step) = true) ->
  search_while cond test step fuel x = None ->
  forall k, 0 <= k -> cond (x + k * step) = true -> test (x + k * step) = false.
Proof.
  revert x; induction fuel as [|n IH]; intros x Hf Hm Hnone k Hk Hc.
  - rewrite Hf in Hc by lia. done.
  - cbn in Hnone. assert (Hc0 : cond x = true).
    { clear Hnone IH Hf. revert Hc. revert k Hk. apply (natlike_ind (fun k => cond (x + k * step) = true -> cond x = true)).
      - by rewrite Z.mul_0_l, Z.add_0_r.
      - intros k Hk IHk H. apply IHk, Hm; [lia|]. by rewrite Z.add_1_r. }
    rewrite Hc0 in Hnone. destruct (test x) eqn:Et; [done|].
    destruct (decide (k = 0)) as [->|]; [by rewrite Z.mul_0_l, Z.add_0_r|].
    replace (x + k * step) with (x + step + (k - 1) * step) by lia.
    apply IH.
    + intros j Hj. replace (x + step + j * step) with (x + (j + 1) * step) by lia. apply Hf. lia.
    + intros j Hj. replace (x + step + (j + 1) * step) with (x + (j + 1 + 1) * step) by lia.
      replace (x + step + j * step) with (x + (j + 1) * step) by lia. apply Hm. lia.
    + done.
    + lia.
    + by replace (x + step + (k - 1) * step) with (x + k * step) by lia.
Qed.

(** The four-byte decode written out, as the directory and the loader do. *)
Definition le32 (b0 b1 b2 b3 : Z) : Z :=
  ((b0 .|. (b1 .<<. 8)) .|. (b2 .<<. 16)) .|. (b3 .<<. 24).

Lemma le32_load p : le32 (p 0) (p 1) (p 2) (p 3) = le_load p 4.
Proof. unfold le_load, le32. cbn [loop]. by rewrite Z.lor_0_l, Z.mul_0_r, Z.shiftl_0_r. Qed.

Lemma le32_bytes w : in_u32 w -> le32 (u8 w) (u8 (w .>>. 8)) (u8 (w .>>. 16)) (u8 (w .>>. 24)) = w.
Proof.
  intros Hw. change (le32 (u8 (w .>>. (8 * 0))) (u8 (w .>>. (8 * 1))) (u8 (w .>>. (8 * 2))) (u8 (w .>>. (8 * 3))) = w).
  change (le32 (byte_of w 0) (byte_of w 1) (byte_of w 2) (byte_of w 3) = w).
  rewrite le32_load, le_load_byte_of. by apply Z.mod_small.
Qed.

Lemma le32_range b0 b1 b2 b3 :
  in_u8 b0 -> in_u8 b1 -> in_u8 b2 -> in_u8 b3 -> in_u32 (le32 b0 b1 b2 b3).
Proof.
  intros. change (in_u32 (le32 ((fun i => if i =? 0 then b0 else if i =? 1 then b1 else
    if i =? 2 then b2 else b3) 0) ((fun i => if i =? 0 then b0 else if i =? 1 then b1 else
    if i =? 2 then b2 else b3) 1) ((fun i => if i =? 0 then b0 else if i =? 1 then b1 else
    if i =? 2 then b2 else b3) 2) ((fun i => if i =? 0 then b0 else if i =? 1 then b1 else
    if i =? 2 then b2 else b3) 3))). rewrite le32_load.
  apply (le_load_range _ 4). intros i Hi. bdestruct_all; done.
Qed.

(** Little-endian fields of memory. *)
Definition load (n : nat) (a : Z) (ram : gmap Z Z) : Z := le_load (fun i => ram !!! (a + i)) n.
Definition store (n : nat) (a v : Z) (ram : gmap Z Z) : gmap Z Z := fill a (byte_of v) 0 n ram.

Lemma load_store n a v ram : 0 <= v < 2 ^ (8 * Z.of_nat n) -> load n a (store n a v ram) = v.
Proof.
  intros Hv. unfold load, store. rewrite (le_load_ext _ (byte_of v)).
  - rewrite le_load_byte_of. by apply Z.mod_small.
  - intros i Hi. rewrite fill_in by lia. f_equal. lia.
Qed.

Lemma load_ext n a ram ram' :
  (forall x, a <= x < a + Z.of_nat n -> ram' !!! x = ram !!! x) -> load n a ram' = load n a ram.
Proof. intros H. apply le_load_ext. intros i Hi. apply H. lia. Qed.

Lemma store_out n a v ram x : x < a \/ a + Z.of_nat n <= x -> store n a v ram !!! x = ram !!! x.
Proof. intros H. apply fill_out. lia. Qed.
