(* ===== verification/Paging.v ===== *)
(** * Per-actor address spaces

    Models [src/hal/x86_64/paging.c]: the static page-table pools, the
    construction of an actor's address space, the loaded-program window, page
    zeroing under the boot CR3 and the LAPIC mapping.  The addresses the linker
    chooses are the fields of a [layout]; the tables boot.asm builds are
    [boot_tables].  [walk] is the x86-64 four-level walk the hardware performs,
    so that what an address space maps is a statement about [walk]. *)
From S2P Require Import Prelude.

(** ** Constants (paging.c, actor.h, loader.h) *)

Definition MAX_ACTORS : Z := 17.
Definition PAGE_SIZE_4K : Z := 4096.
Definition PAGE_SIZE_2M : Z := 0x200000.
Definition PD_ENTRIES : Z := 512.
Definition PT_ENTRIES : Z := 512.
Definition COMMONS_END : Z := 0x100000.
Definition PRIVATE_WINDOW_END : Z := 0x200000.
Definition PROGRAM_POOL_SIZE : Z := 2.
Definition PROGRAM_VBASE : Z := 0x10000000.
Definition PROGRAM_WINDOW_MAX : Z := 0x200000.
Definition BOOT_PML4_PHYS_BASE : Z := 0x90000.
Definition BOOT_PDPT_PHYS_BASE : Z := 0x91000.
Definition PAGE_DIR_PHYS_BASE : Z := 0x92000.
Definition LAPIC_MMIO_PHYS : Z := 0xFEE00000.

(** A page table: 512 eight-byte entries. *)
Abbreviation table := (gmap Z Z).
#[export] Instance table_inhabited : Inhabited table := populate ∅.

(** ** The machine below the tables: RAM, CR3, and whether a store faulted. *)
Record machine := Machine { ram : gmap Z Z; cr3 : Z; faulted : bool }.

Definition set_cr3 (v : Z) (m : machine) : machine := Machine (ram m) v (faulted m).

(** An eight-byte store of 0 at virtual address [a].  Only the boot CR3 maps
    every physical page (boot.asm identity-maps 0-256MB); under any other CR3
    a page of the private window may be absent and the store faults. *)
Definition store_zero64 (a : Z) (m : machine) : machine :=
  if cr3 m =? BOOT_PML4_PHYS_BASE
  then Machine (fill a (fun _ => 0) 0 8 (ram m)) (cr3 m) (faulted m)
  else Machine (ram m) (cr3 m) true.

Definition hal_zero_page (phys_addr : Z) (m : machine) : machine :=
  let saved_cr3 := cr3 m in
  let m := if negb (saved_cr3 =? BOOT_PML4_PHYS_BASE) then set_cr3 BOOT_PML4_PHYS_BASE m else m in
  let m := loop (fun i m => store_zero64 (phys_addr + 8 * i) m) 0 (Z.to_nat (PAGE_SIZE_4K / 8)) m in
  if negb (saved_cr3 =? BOOT_PML4_PHYS_BASE) then set_cr3 saved_cr3 m else m.

(** ** Linker-assigned addresses *)
Class layout := Layout {
  as_pml4_addr : Z; as_pdpt_addr : Z; as_pd_addr : Z; as_pt0_addr : Z; as_pt1_addr : Z;
  lapic_pd_addr : Z; lapic_pt_addr : Z;
  user_text_start : Z; user_text_end : Z
}.

(** ** The static tables *)
Record pg_state := PgState {
  as_pml4 : gmap Z table; as_pdpt : gmap Z table; as_pd : gmap Z table; as_pt0 : gmap Z table;
  as_pt1 : gmap Z table; as_pt1_owner : gmap Z Z; as_pt1_pool_init_done : Z;
  boot_pd : table; boot_pdpt : table; lapic_pd : table; lapic_pt : table
}.

(** What boot.asm leaves at 0x92000: 128 present, writable 2MB pages. *)
Definition boot_pd_init : table :=
  fill 0 (fun i => (i * PAGE_SIZE_2M) .|. 0x83) 0 128 ∅.
Definition boot_pdpt_init : table := {[ 0 := 0x92003 ]}.
Definition boot_pml4 : table := {[ 0 := 0x91003 ]}.

Definition pg_boot : pg_state :=
  PgState ∅ ∅ ∅ ∅ ∅ ∅ 0 boot_pd_init boot_pdpt_init ∅ ∅.

Section paging.
Context {L : layout}.

Definition pml4_of (slot : Z) : Z := as_pml4_addr + slot * 4096.
Definition pdpt_of (slot : Z) : Z := as_pdpt_addr + slot * 4096.
Definition pd_of (slot : Z) : Z := as_pd_addr + slot * 4096.
Definition pt0_of (slot : Z) : Z := as_pt0_addr + slot * 4096.
Definition pt1_of (pool : Z) : Z := as_pt1_addr + pool * 4096.

(** The leaf entries of [pt0]: commons below 1MB, then the private pages. *)
Definition commons_entry (addr : Z) : Z :=
  let is_user_text := (user_text_start <=? addr) && (addr <? user_text_end) in
  addr .|. (if is_user_text then 0x7 else 0x3).

Definition hal_address_space_create (slot private_base private_size : Z) (st : pg_state)
    : Z * pg_state :=
  if (slot <? 0) || (MAX_ACTORS <=? slot) then (0, st)
  else if (private_base <? COMMONS_END) ||
          (PRIVATE_WINDOW_END <? u64 (private_base + private_size)) then (0, st)
  else
    let zero t := fill 0 (fun _ => 0) 0 (Z.to_nat PT_ENTRIES) t in
    let pml4 := zero (as_pml4 st !!! slot) in
    let pdpt := zero (as_pdpt st !!! slot) in
    let pd := zero (as_pd st !!! slot) in
    let pt0 := zero (as_pt0 st !!! slot) in
    let pt0 := for_step (fun addr pt0 => <[addr / PAGE_SIZE_4K := commons_entry addr]> pt0)
                 0 COMMONS_END PAGE_SIZE_4K pt0 in
    let pt0 := for_step (fun addr pt0 => <[addr / PAGE_SIZE_4K := addr .|. 0x7]> pt0)
                 private_base (private_base + private_size) PAGE_SIZE_4K pt0 in
    let pd := <[0 := pt0_of slot .|. 0x7]> pd in
    let pd := fill 0 (fun i => boot_pd st !!! i) 1 (Z.to_nat (PD_ENTRIES - 1)) pd in
    let pdpt := <[0 := pd_of slot .|. 0x7]> pdpt in
    let pml4 := <[0 := pdpt_of slot .|. 0x7]> pml4 in
    (pml4_of slot,
     PgState (<[slot := pml4]> (as_pml4 st)) (<[slot := pdpt]> (as_pdpt st))
             (<[slot := pd]> (as_pd st)) (<[slot := pt0]> (as_pt0 st))
             (as_pt1 st) (as_pt1_owner st) (as_pt1_pool_init_done st)
             (boot_pd st) (boot_pdpt st) (lapic_pd st) (lapic_pt st)).

Definition hal_address_space_map_program (slot phys_base size : Z) (st : pg_state)
    : Z * pg_state :=
  if (slot <? 0) || (MAX_ACTORS <=? slot) then (-1, st)
  else if (size =? 0) || (PROGRAM_WINDOW_MAX <? size) then (-1, st)
  else
    let fresh := as_pt1_pool_init_done st =? 0 in
    let owner := if fresh
                 then fill 0 (fun _ => -1) 0 (Z.to_nat PROGRAM_POOL_SIZE) (as_pt1_owner st)
                 else as_pt1_owner st in
    let done := if fresh then 1 else as_pt1_pool_init_done st in
    let with_pool owner pt1 pd :=
      PgState (as_pml4 st) (as_pdpt st) pd (as_pt0 st) pt1 owner done
              (boot_pd st) (boot_pdpt st) (lapic_pd st) (lapic_pt st) in
    match scan (fun i => (owner !!! i =? slot) || (owner !!! i =? -1)) 0 (Z.to_nat PROGRAM_POOL_SIZE) with
    | None => (-1, with_pool owner (as_pt1 st) (as_pd st))
    | Some pool_index =>
        let pt1 := fill 0 (fun _ => 0) 0 (Z.to_nat PT_ENTRIES) (as_pt1 st !!! pool_index) in
        let pt1 := for_step (fun off pt1 => <[off / PAGE_SIZE_4K := (phys_base + off) .|. 0x7]> pt1)
                     0 size PAGE_SIZE_4K pt1 in
        let pd_index := PROGRAM_VBASE / PAGE_SIZE_2M in
        let pd := <[pd_index := pt1_of pool_index .|. 0x7]> (as_pd st !!! slot) in
        (0, with_pool (<[pool_index := slot]> owner) (<[pool_index := pt1]> (as_pt1 st))
                      (<[slot := pd]> (as_pd st)))
    end.

Definition hal_map_lapic_mmio (st : pg_state) : pg_state :=
  let lpd := fill 0 (fun _ => 0) 0 (Z.to_nat PD_ENTRIES) (lapic_pd st) in
  let lpt := fill 0 (fun _ => 0) 0 (Z.to_nat PT_ENTRIES) (lapic_pt st) in
  let pt_index := (LAPIC_MMIO_PHYS mod PAGE_SIZE_2M) / PAGE_SIZE_4K in
  let lpt := <[pt_index := LAPIC_MMIO_PHYS .|. 0x3]> lpt in
  let pd_index := (LAPIC_MMIO_PHYS mod (PAGE_SIZE_2M * PD_ENTRIES)) / PAGE_SIZE_2M in
  let lpd := <[pd_index := lapic_pt_addr .|. 0x3]> lpd in
  let pdpt_index := LAPIC_MMIO_PHYS / (PAGE_SIZE_2M * PD_ENTRIES) in
  PgState (as_pml4 st) (as_pdpt st) (as_pd st) (as_pt0 st) (as_pt1 st) (as_pt1_owner st)
          (as_pt1_pool_init_done st) (boot_pd st)
          (<[pdpt_index := lapic_pd_addr .|. 0x3]> (boot_pdpt st)) lpd lpt.

(** ** The hardware page walk *)

Definition in_pool (base n a : Z) : bool :=
  (base <=? a) && (a <? base + n * 4096) && ((a - base) mod 4096 =? 0).

(** The table that lives at physical address [a]. *)
Definition table_at (st : pg_state) (a : Z) : option table :=
  if in_pool as_pml4_addr MAX_ACTORS a then Some (as_pml4 st !!! ((a - as_pml4_addr) / 4096))
  else if in_pool as_pdpt_addr MAX_ACTORS a then Some (as_pdpt st !!! ((a - as_pdpt_addr) / 4096))
  else if in_pool as_pd_addr MAX_ACTORS a then Some (as_pd st !!! ((a - as_pd_addr) / 4096))
  else if in_pool as_pt0_addr MAX_ACTORS a then Some (as_pt0 st !!! ((a - as_pt0_addr) / 4096))
  else if in_pool as_pt1_addr PROGRAM_POOL_SIZE a then Some (as_pt1 st !!! ((a - as_pt1_addr) / 4096))
  else if a =? BOOT_PML4_PHYS_BASE then Some boot_pml4
  else if a =? BOOT_PDPT_PHYS_BASE then Some (boot_pdpt st)
  else if a =? PAGE_DIR_PHYS_BASE then Some (boot_pd st)
  else if a =? lapic_pd_addr then Some (lapic_pd st)
  else if a =? lapic_pt_addr then Some (lapic_pt st)
  else None.

Record translation := Translation { t_pa : Z; t_writable : bool; t_user : bool }.

Definition pte_addr (e : Z) : Z := e .&. 0x000FFFFFFFFFF000.
Definition pte_large_addr (e : Z) : Z := e .&. 0x000FFFFFFFE00000.
Definition pte_present (e : Z) : bool := Z.testbit e 0.
Definition pte_w (e : Z) : bool := Z.testbit e 1.
Definition pte_u (e : Z) : bool := Z.testbit e 2.
Definition pte_ps (e : Z) : bool := Z.testbit e 7.
Definition va_index (va shift : Z) : Z := (va .>>. shift) .&. 511.

(** Permissions are the conjunction of every level walked. *)
Definition walk (st : pg_state) (root va : Z) : option translation :=
  t4 ← table_at st root; let e4 := t4 !!! va_index va 39 in
  if negb (pte_present e4) then None else
  t3 ← table_at st (pte_addr e4); let e3 := t3 !!! va_index va 30 in
  if negb (pte_present e3) then None else
  t2 ← table_at st (pte_addr e3); let e2 := t2 !!! va_index va 21 in
  if negb (pte_present e2) then None else
  if pte_ps e2 then
    Some (Translation (pte_large_addr e2 + va mod PAGE_SIZE_2M)
            (pte_w e4 && pte_w e3 && pte_w e2) (pte_u e4 && pte_u e3 && pte_u e2))
  else
  t1 ← table_at st (pte_addr e2); let e1 := t1 !!! va_index va 12 in
  if negb (pte_present e1) then None else
    Some (Translation (pte_addr e1 + va mod PAGE_SIZE_4K)
            (pte_w e4 && pte_w e3 && pte_w e2 && pte_w e1)
            (pte_u e4 && pte_u e3 && pte_u e2 && pte_u e1)).

End paging.

(** ** What the linker guarantees *)

(** The tables are page-aligned arrays below boot.asm's own structures and do
    not overlap; link.ld page-aligns both ends of [.user_text]. *)
Class layout_ok (L : layout) : Prop := {
  lo_aligned :
    Forall (fun a => a mod 4096 = 0)
      [as_pml4_addr; as_pdpt_addr; as_pd_addr; as_pt0_addr; as_pt1_addr;
       user_text_start; user_text_end];
  lo_bounds :
    Forall (fun '(a, n) => 0 < a /\ a + n * 4096 <= 0x90000)
      [(as_pml4_addr, 17); (as_pdpt_addr, 17); (as_pd_addr, 17); (as_pt0_addr, 17); (as_pt1_addr, 2)];
  lo_disjoint : forall i j a n b m,
    [(as_pml4_addr, 17); (as_pdpt_addr, 17); (as_pd_addr, 17); (as_pt0_addr, 17);
     (as_pt1_addr, 2)] !! i = Some (a, n) ->
    [(as_pml4_addr, 17); (as_pdpt_addr, 17); (as_pd_addr, 17); (as_pt0_addr, 17);
     (as_pt1_addr, 2)] !! j = Some (b, m) ->
    i <> j -> a + n * 4096 <= b \/ b + m * 4096 <= a;
  lo_user_text : 0 <= user_text_start /\ user_text_start <= user_text_end /\ user_text_end <= COMMONS_END
}.

(** A concrete layout, for witnesses. *)
Definition demo_layout : layout :=
  Layout 0x40000 0x51000 0x62000 0x73000 0x84000 0x86000 0x87000 0x2B000 0x2F000.

#[export] Instance demo_layout_ok : layout_ok demo_layout.
Proof.
  split.
  - repeat constructor.
  - repeat constructor; cbn; lia.
  - intros i j a n b m Hi Hj Hij.
    do 5 (destruct i as [|i]; [injection Hi as <- <-;
      do 5 (destruct j as [|j]; [first [done | injection Hj as <- <-; cbn; lia]|]); done|]). done.
  - cbn. unfold COMMONS_END. lia.
Qed.

(** ** Entries *)

Lemma entry_low a f k :
  a mod 4096 = 0 -> 0 <= k < 12 -> Z.testbit (a .|. f) k = Z.testbit f k.
Proof.
  intros Ha Hk. rewrite Z.lor_spec.
  rewrite <- (Z.mod_pow2_bits_low a 12 k) by lia.
  change (2 ^ 12) with 4096. by rewrite Ha, Z.bits_0.
Qed.

Lemma land_mask a lo hi : 0 <= a < 2 ^ hi -> 0 <= lo <= hi -> a mod 2 ^ lo = 0 ->
  a .&. Z.shiftl (Z.ones (hi - lo)) lo = a.
Proof.
  intros Ha Hl Hm. apply Z.bits_inj'. intros k Hk. rewrite Z.land_spec, Z.shiftl_spec by lia.
  destruct (Z.lt_ge_cases k lo).
  - rewrite <- (Z.mod_pow2_bits_low a lo k), Hm, Z.bits_0 by lia. done.
  - destruct (Z.lt_ge_cases k hi).
    + by rewrite Z.ones_spec_low, andb_true_r by lia.
    + rewrite <- (Z.mod_small a (2 ^ hi)), Z.mod_pow2_bits_high by lia. done.
Qed.

Lemma entry_addr a f :
  0 <= a < 2 ^ 52 -> a mod 4096 = 0 -> 0 <= f < 4096 -> pte_addr (a .|. f) = a.
Proof.
  intros Ha Hm Hf. unfold pte_addr.
  change 0x000FFFFFFFFFF000 with (Z.shiftl (Z.ones (52 - 12)) 12).
  rewrite Z.land_lor_distr_l, land_mask by (done || lia).
  replace (f .&. _) with 0; [by rewrite Z.lor_0_r|].
  apply Z.bits_inj'. intros k Hk. rewrite Z.land_spec, Z.shiftl_spec, Z.bits_0 by lia.
  destruct (Z.lt_ge_cases k 12).
  - by rewrite (Z.testbit_neg_r _ (k - 12)), andb_false_r by lia.
  - rewrite <- (Z.mod_small f (2 ^ 12)), Z.mod_pow2_bits_high by lia. done.
Qed.

Lemma entry_large_addr a f :
  0 <= a < 2 ^ 52 -> a mod 0x200000 = 0 -> 0 <= f < 4096 -> pte_large_addr (a .|. f) = a.
Proof.
  intros Ha Hm Hf. unfold pte_large_addr.
  change 0x000FFFFFFFE00000 with (Z.shiftl (Z.ones (52 - 21)) 21).
  rewrite Z.land_lor_distr_l, land_mask by (done || lia).
  replace (f .&. _) with 0; [by rewrite Z.lor_0_r|].
  apply Z.bits_inj'. intros k Hk. rewrite Z.land_spec, Z.shiftl_spec, Z.bits_0 by lia.
  destruct (Z.lt_ge_cases k 21).
  - by rewrite (Z.testbit_neg_r _ (k - 21)), andb_false_r by lia.
  - rewrite <- (Z.mod_small f (2 ^ 12)), Z.mod_pow2_bits_high by lia. done.
Qed.

Lemma va_index_spec va s : 0 <= va -> 0 <= s -> va_index va s = (va / 2 ^ s) mod 512.
Proof.
  intros. unfold va_index. rewrite Z.shiftr_div_pow2 by done.
  change 511 with (Z.ones 9). by rewrite Z.land_ones by lia.
Qed.

(** A present entry pointing at an aligned address with flag bits [f]. *)
Definition flags_of (e a : Z) (p w u ps : bool) : Prop :=
  pte_addr e = a /\ pte_present e = p /\ pte_w e = w /\ pte_u e = u /\ pte_ps e = ps.

Lemma entry7 a : 0 <= a < 2 ^ 52 -> a mod 4096 = 0 -> flags_of (a .|. 0x7) a true true true false.
Proof.
  intros. unfold flags_of, pte_present, pte_w, pte_u, pte_ps.
  rewrite entry_addr, !entry_low by (done || lia). done.
Qed.

Lemma entry3 a : 0 <= a < 2 ^ 52 -> a mod 4096 = 0 -> flags_of (a .|. 0x3) a true true false false.
Proof.
  intros. unfold flags_of, pte_present, pte_w, pte_u, pte_ps.
  rewrite entry_addr, !entry_low by (done || lia). done.
Qed.

(** Page of an address, and alignment helper facts. *)
Lemma page_split va : va = va / 4096 * 4096 + va mod 4096.
Proof. zdm. Qed.

(** ** What an address space maps *)
Section views.
Context {L : layout} {LOK : layout_ok L}.

(** The intended mapping of an address space whose private pages are
    [b, b + s) and whose loaded program, if any, is [phys, phys + size). *)
Definition view (b s : Z) (prog : option (Z * Z)) (va : Z) : option translation :=
  if va <? COMMONS_END then
    Some (Translation va true ((user_text_start <=? va) && (va <? user_text_end)))
  else if va <? PRIVATE_WINDOW_END then
    if (b <=? va) && (va <? b + s) then Some (Translation va true true) else None
  else if va <? PROGRAM_VBASE then Some (Translation va true false)
  else match prog with
       | Some (phys, size) =>
           if va <? PROGRAM_VBASE + size
           then Some (Translation (phys + (va - PROGRAM_VBASE)) true true) else None
       | None => None
       end.

(** The tables of [slot] describe that mapping; [pool] holds the program. *)
Record space_ok (st : pg_state) (slot b s : Z) (prog : option (Z * Z * Z)) : Prop := SpaceOk {
  sp_slot : 0 <= slot < MAX_ACTORS;
  sp_range : COMMONS_END <= b /\ 0 <= s /\ b + s <= PRIVATE_WINDOW_END;
  sp_align : b mod 4096 = 0 /\ s mod 4096 = 0;
  sp_pml4 : forall i, 0 <= i < 512 ->
    (as_pml4 st !!! slot) !!! i = if i =? 0 then pdpt_of slot .|. 0x7 else 0;
  sp_pdpt : forall i, 0 <= i < 512 ->
    (as_pdpt st !!! slot) !!! i = if i =? 0 then pd_of slot .|. 0x7 else 0;
  sp_pd : forall i, 0 <= i < 512 ->
    (as_pd st !!! slot) !!! i =
      if i =? 0 then pt0_of slot .|. 0x7
      else if i =? 128 then match prog with Some (pool, _, _) => pt1_of pool .|. 0x7 | None => 0 end
      else boot_pd_init !!! i;
  sp_pt0 : forall i, 0 <= i < 512 ->
    (as_pt0 st !!! slot) !!! i =
      if i <? 256 then commons_entry (i * 4096)
      else if (b <=? i * 4096) && (i * 4096 <? b + s) then i * 4096 .|. 0x7 else 0;
  sp_prog : match prog with
    | None => True
    | Some (pool, phys, size) =>
        0 <= pool < PROGRAM_POOL_SIZE /\ as_pt1_owner st !!! pool = slot /\
        as_pt1_pool_init_done st <> 0 /\
        0 < size <= PROGRAM_WINDOW_MAX /\ size mod 4096 = 0 /\
        phys mod 4096 = 0 /\ 0 <= phys /\ phys + size <= 2 ^ 52 /\
        forall i, 0 <= i < 512 ->
          (as_pt1 st !!! pool) !!! i = if i * 4096 <? size then (phys + i * 4096) .|. 0x7 else 0
    end
}.

Ltac layout_facts :=
  pose proof (@lo_aligned _ LOK) as Hal; pose proof (@lo_bounds _ LOK) as Hbd;
  pose proof (@lo_user_text _ LOK) as Hut;
  pose proof (fun i j a n b m => @lo_disjoint _ LOK i j a n b m) as Hdj;
  rewrite !List.Forall_cons_iff in Hal; rewrite !List.Forall_cons_iff in Hbd;
  destruct Hal as (? & ? & ? & ? & ? & ? & ? & _);
  destruct Hbd as (? & ? & ? & ? & ? & _);
  pose proof (Hdj 0%nat 1%nat _ _ _ _ eq_refl eq_refl ltac:(lia));
  pose proof (Hdj 0%nat 2%nat _ _ _ _ eq_refl eq_refl ltac:(lia));
  pose proof (Hdj 0%nat 3%nat _ _ _ _ eq_refl eq_refl ltac:(lia));
  pose proof (Hdj 0%nat 4%nat _ _ _ _ eq_refl eq_refl ltac:(lia));
  pose proof (Hdj 1%nat 2%nat _ _ _ _ eq_refl eq_refl ltac:(lia));
  pose proof (Hdj 1%nat 3%nat _ _ _ _ eq_refl eq_refl ltac:(lia));
  pose proof (Hdj 1%nat 4%nat _ _ _ _ eq_refl eq_refl ltac:(lia));
  pose proof (Hdj 2%nat 3%nat _ _ _ _ eq_refl eq_refl ltac:(lia));
  pose proof (Hdj 2%nat 4%nat _ _ _ _ eq_refl eq_refl ltac:(lia));
  pose proof (Hdj 3%nat 4%nat _ _ _ _ eq_refl eq_refl ltac:(lia)); clear Hdj.

Lemma in_pool_hit base n k : 0 <= k < n -> in_pool base n (base + k * 4096) = true.
Proof.
  intros. unfold in_pool. rewrite !andb_true_iff, Z.leb_le, Z.ltb_lt, Z.eqb_eq.
  split_and!; [lia..|]. rewrite Z.add_simpl_l. by apply Z.mod_mul.
Qed.

Lemma in_pool_miss base n a : a < base \/ base + n * 4096 <= a -> in_pool base n a = false.
Proof.
  intros H. unfold in_pool. apply andb_false_iff; left. apply andb_false_iff.
  rewrite Z.leb_gt, Z.ltb_ge. lia.
Qed.

Lemma pool_index base k : (base + k * 4096 - base) / 4096 = k.
Proof. rewrite Z.add_simpl_l. by apply Z.div_mul. Qed.

Ltac table_at_tac :=
  unfold table_at, MAX_ACTORS, PROGRAM_POOL_SIZE in *;
  repeat (rewrite in_pool_miss by lia); rewrite in_pool_hit by lia; by rewrite pool_index.

Lemma table_pml4 st slot : 0 <= slot < MAX_ACTORS ->
  table_at st (pml4_of slot) = Some (as_pml4 st !!! slot).
Proof. layout_facts. intros. unfold pml4_of. table_at_tac. Qed.
Lemma table_pdpt st slot : 0 <= slot < MAX_ACTORS ->
  table_at st (pdpt_of slot) = Some (as_pdpt st !!! slot).
Proof. layout_facts. intros. unfold pdpt_of. table_at_tac. Qed.
Lemma table_pd st slot : 0 <= slot < MAX_ACTORS ->
  table_at st (pd_of slot) = Some (as_pd st !!! slot).
Proof. layout_facts. intros. unfold pd_of. table_at_tac. Qed.
Lemma table_pt0 st slot : 0 <= slot < MAX_ACTORS ->
  table_at st (pt0_of slot) = Some (as_pt0 st !!! slot).
Proof. layout_facts. intros. unfold pt0_of. table_at_tac. Qed.
Lemma table_pt1 st pool : 0 <= pool < PROGRAM_POOL_SIZE ->
  table_at st (pt1_of pool) = Some (as_pt1 st !!! pool).
Proof. layout_facts. intros. unfold pt1_of. table_at_tac. Qed.

(** The structural entries point at their tables. *)
Lemma table_entry7 base n k : base mod 4096 = 0 -> 0 < base /\ base + n * 4096 <= 0x90000 ->
  0 <= k < n -> flags_of ((base + k * 4096) .|. 0x7) (base + k * 4096) true true true false.
Proof. intros. apply entry7; [lia|]. rewrite Z.mod_add by lia. done. Qed.

Lemma pdpt_entry slot : 0 <= slot < MAX_ACTORS ->
  flags_of (pdpt_of slot .|. 0x7) (pdpt_of slot) true true true false.
Proof. layout_facts. intros. eapply table_entry7; eauto. Qed.
Lemma pd_entry slot : 0 <= slot < MAX_ACTORS ->
  flags_of (pd_of slot .|. 0x7) (pd_of slot) true true true false.
Proof. layout_facts. intros. eapply table_entry7; eauto. Qed.
Lemma pt0_entry slot : 0 <= slot < MAX_ACTORS ->
  flags_of (pt0_of slot .|. 0x7) (pt0_of slot) true true true false.
Proof. layout_facts. intros. eapply table_entry7; eauto. Qed.
Lemma pt1_entry pool : 0 <= pool < PROGRAM_POOL_SIZE ->
  flags_of (pt1_of pool .|. 0x7) (pt1_of pool) true true true false.
Proof. layout_facts. intros. eapply table_entry7; eauto. Qed.

Lemma boot_pd_entry i : 0 <= i < 128 ->
  pte_large_addr (boot_pd_init !!! i) = i * 0x200000 /\ pte_present (boot_pd_init !!! i) = true /\
  pte_w (boot_pd_init !!! i) = true /\ pte_u (boot_pd_init !!! i) = false /\
  pte_ps (boot_pd_init !!! i) = true.
Proof.
  intros. unfold boot_pd_init. rewrite fill_in, Z.sub_0_r by lia. unfold PAGE_SIZE_2M.
  assert ((i * 0x200000) mod 4096 = 0) by zdm.
  unfold pte_present, pte_w, pte_u, pte_ps. rewrite !entry_low by (done || lia).
  split_and!; try done. rewrite entry_large_addr; try lia. by apply Z.mod_mul.
Qed.

Lemma boot_pd_none i : 128 <= i -> boot_pd_init !!! i = 0.
Proof. intros. unfold boot_pd_init. by rewrite fill_out by lia. Qed.

Lemma idx_range va k : 0 <= va -> 0 <= k -> 0 <= va_index va k < 512.
Proof. intros. rewrite va_index_spec by done. apply Z.mod_pos_bound. lia. Qed.

(** Above 1GB nothing is mapped: the upper-level tables have one entry. *)
Lemma walk_high st slot b s prog va :
  space_ok st slot b s prog -> 2 ^ 30 <= va < 2 ^ 48 -> walk st (pml4_of slot) va = None.
Proof.
  intros [? ? ? H4 H3 _ _ _] Hva. unfold walk. rewrite table_pml4 by done. cbn [mbind option_bind].
  rewrite H4 by (apply idx_range; lia).
  destruct (Z.eqb_spec (va_index va 39) 0) as [E4|]; [|done].
  destruct (pdpt_entry slot) as (-> & -> & _); [done|]. cbn [negb].
  rewrite table_pdpt by done. cbn [mbind option_bind].
  rewrite H3 by (apply idx_range; lia).
  destruct (Z.eqb_spec (va_index va 30) 0) as [E3|]; [|done].
  rewrite va_index_spec in E4, E3 by lia. exfalso.
  Z.div_mod_to_equations; lia.
Qed.

(** Below 1GB the walk is decided by the page directory of the slot. *)
Lemma walk_low st slot b s prog va :
  space_ok st slot b s prog -> 0 <= va < 2 ^ 30 ->
  walk st (pml4_of slot) va =
  let e2 := (as_pd st !!! slot) !!! (va / 0x200000) in
  if negb (pte_present e2) then None
  else if pte_ps e2 then
    Some (Translation (pte_large_addr e2 + va mod 0x200000) (pte_w e2) (pte_u e2))
  else t1 ← table_at st (pte_addr e2); let e1 := t1 !!! (va / 4096 mod 512) in
    if negb (pte_present e1) then None
    else Some (Translation (pte_addr e1 + va mod 4096) (pte_w e2 && pte_w e1) (pte_u e2 && pte_u e1)).
Proof.
  intros [? ? ? H4 H3 _ _ _] Hva. unfold walk. rewrite table_pml4 by done. cbn [mbind option_bind].
  rewrite H4 by (apply idx_range; lia).
  replace (va_index va 39) with 0 by (rewrite va_index_spec by lia; Z.div_mod_to_equations; lia).
  cbn [Z.eqb]. destruct (pdpt_entry slot) as (-> & -> & -> & -> & _); [done|]. cbn [negb].
  rewrite table_pdpt by done. cbn [mbind option_bind].
  rewrite H3 by (apply idx_range; lia).
  replace (va_index va 30) with 0 by (rewrite va_index_spec by lia; Z.div_mod_to_equations; lia).
  cbn [Z.eqb]. destruct (pd_entry slot) as (-> & -> & -> & -> & _); [done|]. cbn [negb].
  rewrite table_pd by done. cbn [mbind option_bind andb].
  replace (va_index va 21) with (va / 0x200000)
    by (rewrite va_index_spec by lia; Z.div_mod_to_equations; lia).
  rewrite (va_index_spec va 12) by lia. done.
Qed.

Lemma page_in va b s : b mod 4096 = 0 -> s mod 4096 = 0 ->
  ((b <=? va / 4096 * 4096) && (va / 4096 * 4096 <? b + s)) = ((b <=? va) && (va <? b + s)).
Proof. intros. apply eq_iff_eq_true. rewrite !andb_true_iff, !Z.leb_le, !Z.ltb_lt. zdm. Qed.

Lemma page_start a va : a mod 4096 = 0 -> (a <= va / 4096 * 4096 <-> a <= va).
Proof. intros. zdm. Qed.

Lemma user_text_page va :
  (user_text_start <= va / 4096 * 4096 <-> user_text_start <= va) /\
  (va / 4096 * 4096 < user_text_end <-> va < user_text_end).
Proof.
  layout_facts. split; [by apply page_start|].
  pose proof (page_start user_text_end va ltac:(done)). lia.
Qed.

(** The first 2MB: commons and the private window. *)
Lemma walk_2M st slot b s prog va :
  space_ok st slot b s prog -> 0 <= va < PRIVATE_WINDOW_END ->
  walk st (pml4_of slot) va = view b s (option_map (fun '(_, p, n) => (p, n)) prog) va.
Proof.
  intros Hok Hva. rewrite (walk_low _ _ _ _ _ _ Hok) by (unfold PRIVATE_WINDOW_END in *; lia).
  destruct Hok as [Hs Hr [Hab Has] _ _ Hpd Hpt _]. unfold PRIVATE_WINDOW_END, COMMONS_END in *.
  cbv zeta. rewrite Hpd by (Z.div_mod_to_equations; lia).
  replace (va / 0x200000) with 0 by (Z.div_mod_to_equations; lia). cbn [Z.eqb].
  destruct (pt0_entry slot) as (-> & -> & -> & -> & ->); [done|]. cbn [negb].
  rewrite table_pt0 by done. cbn [mbind option_bind andb].
  rewrite Hpt by (apply Z.mod_pos_bound; lia).
  replace (va / 4096 mod 512) with (va / 4096) by (Z.div_mod_to_equations; lia).
  unfold view, COMMONS_END, PRIVATE_WINDOW_END.
  assert (Hm : (va / 4096 * 4096) mod 4096 = 0) by (apply Z.mod_mul; lia).
  assert (Hrng : 0 <= va / 4096 * 4096 < 2 ^ 52) by zdm.
  destruct (Z.ltb_spec va 0x100000).
  - destruct (Z.ltb_spec (va / 4096) 256); [|Z.div_mod_to_equations; lia].
    unfold commons_entry. destruct user_text_page with (va := va) as [Hu1 Hu2].
    destruct (Z.leb_spec user_text_start (va / 4096 * 4096)), (Z.leb_spec user_text_start va);
      try (exfalso; lia); cbn [andb].
    + destruct (Z.ltb_spec (va / 4096 * 4096) user_text_end), (Z.ltb_spec va user_text_end);
        try (exfalso; lia).
      * destruct (entry7 _ Hrng Hm) as (-> & -> & -> & -> & _). by rewrite <- page_split.
      * destruct (entry3 _ Hrng Hm) as (-> & -> & -> & -> & _). by rewrite <- page_split.
    + destruct (entry3 _ Hrng Hm) as (-> & -> & -> & -> & _). by rewrite <- page_split.
  - destruct (Z.ltb_spec va 0x200000); [|lia].
    destruct (Z.ltb_spec (va / 4096) 256); [Z.div_mod_to_equations; lia|].
    rewrite page_in by done. destruct ((b <=? va) && (va <? b + s)); [|done].
    destruct (entry7 _ Hrng Hm) as (-> & -> & -> & -> & _). by rewrite <- page_split.
Qed.

(** Everything from 2MB on: boot.asm's huge pages, then the program window. *)
Lemma walk_rest st slot b s prog va :
  space_ok st slot b s prog -> PRIVATE_WINDOW_END <= va < 2 ^ 30 ->
  walk st (pml4_of slot) va = view b s (option_map (fun '(_, p, n) => (p, n)) prog) va.
Proof.
  intros Hok Hva. rewrite (walk_low _ _ _ _ _ _ Hok) by (unfold PRIVATE_WINDOW_END in *; lia).
  destruct Hok as [Hs _ _ _ _ Hpd _ Hp]. cbv zeta.
  unfold view, PRIVATE_WINDOW_END, COMMONS_END, PROGRAM_VBASE, PROGRAM_WINDOW_MAX in *.
  rewrite Hpd by (Z.div_mod_to_equations; lia).
  destruct (Z.ltb_spec va 0x100000), (Z.ltb_spec va 0x200000); try lia.
  destruct (Z.eqb_spec (va / 0x200000) 0); [Z.div_mod_to_equations; lia|].
  destruct (Z.ltb_spec va 0x10000000).
  - destruct (Z.eqb_spec (va / 0x200000) 128); [Z.div_mod_to_equations; lia|].
    destruct (boot_pd_entry (va / 0x200000)) as (-> & -> & -> & -> & ->); [Z.div_mod_to_equations; lia|].
    cbn [negb]. do 2 f_equal. Z.div_mod_to_equations; lia.
  - destruct (Z.eqb_spec (va / 0x200000) 128) as [E|].
    + destruct prog as [[[pool phys] size]|]; cbn [option_map]; [|done].
      destruct Hp as (Hpool & _ & _ & Hsz & Hsa & Hpa & Hp0 & Hp1 & Hpt).
      destruct (pt1_entry pool) as (-> & -> & -> & -> & ->); [done|]. cbn [negb].
      rewrite table_pt1 by done. cbn [mbind option_bind andb].
      assert (Hi : va / 4096 mod 512 = (va - 0x10000000) / 4096) by (Z.div_mod_to_equations; lia).
      rewrite Hpt by (apply Z.mod_pos_bound; lia). rewrite Hi.
      assert ((va - 0x10000000) / 4096 * 4096 < size <-> va < 0x10000000 + size) by zdm.
      destruct (Z.ltb_spec ((va - 0x10000000) / 4096 * 4096) size),
        (Z.ltb_spec va (0x10000000 + size)); try (exfalso; lia); [|done].
      destruct (entry7 (phys + (va - 0x10000000) / 4096 * 4096)) as (-> & -> & -> & -> & _);
        [Z.div_mod_to_equations; lia | by rewrite Z.mod_add by lia |].
      do 2 f_equal. Z.div_mod_to_equations; lia.
    + rewrite boot_pd_none by (Z.div_mod_to_equations; lia). cbn [pte_present Z.testbit negb].
      destruct prog as [[[pool phys] size]|]; cbn [option_map]; [|done].
      destruct Hp as (_ & _ & _ & Hsz & _).
      destruct (Z.ltb_spec va (0x10000000 + size)); [Z.div_mod_to_equations; lia | done].
Qed.

(** The hardware walk of a built address space is its intended view. *)
Lemma walk_view st slot b s prog va :
  space_ok st slot b s prog -> 0 <= va < 2 ^ 48 ->
  walk st (pml4_of slot) va = view b s (option_map (fun '(_, p, n) => (p, n)) prog) va.
Proof.
  intros Hok Hva. destruct (Z.lt_ge_cases va (2 ^ 30)).
  - destruct (Z.lt_ge_cases va PRIVATE_WINDOW_END); [eapply walk_2M | eapply walk_rest]; eauto; lia.
  - rewrite (walk_high _ _ _ _ _ _ Hok) by lia. destruct Hok as [_ _ _ _ _ _ _ Hp].
    unfold view, COMMONS_END, PRIVATE_WINDOW_END, PROGRAM_VBASE, PROGRAM_WINDOW_MAX in *.
    destruct (Z.ltb_spec va 0x100000), (Z.ltb_spec va 0x200000), (Z.ltb_spec va 0x10000000); try lia.
    destruct prog as [[[pool phys] size]|]; cbn; [|done].
    destruct (Z.ltb_spec va (0x10000000 + size)); [lia | done].
Qed.

(** ** The operations build and preserve such address spaces *)

Lemma for_step_entries g from to (t : table) i :
  from mod 4096 = 0 -> 0 <= from ->
  for_step (fun addr t => <[addr / PAGE_SIZE_4K := g addr]> t) from to PAGE_SIZE_4K t !!! i =
  if (from <=? i * 4096) && (i * 4096 <? to) then g (i * 4096) else t !!! i.
Proof.
  intros Hf H0. unfold for_step, PAGE_SIZE_4K.
  rewrite (loop_ext _ (fun k t => <[from / 4096 + k := g ((from / 4096 + k) * 4096)]> t)).
  2: { intros k t' Hk. rewrite Z.div_add by lia. do 2 f_equal. Z.div_mod_to_equations; lia. }
  change (fill (from / 4096) (fun k => g ((from / 4096 + k) * 4096)) 0 (trips from to 4096) t !!! i =
          if (from <=? i * 4096) && (i * 4096 <? to) then g (i * 4096) else t !!! i).
  rewrite fill_get. replace (from / 4096 + (i - from / 4096)) with i by lia.
  assert (Ht : from / 4096 + 0 <= i -> (i < from / 4096 + 0 + Z.of_nat (trips from to 4096) <-> i * 4096 < to)).
  { intros. pose proof (trips_spec from to 4096 (i - from / 4096) ltac:(lia) ltac:(lia)).
    Z.div_mod_to_equations; lia. }
  assert (from / 4096 + 0 <= i <-> from <= i * 4096) by zdm.
  destruct (Z.leb_spec (from / 4096 + 0) i), (Z.leb_spec from (i * 4096)); try lia; cbn [andb]; [|done].
  bdestruct_all; done || lia.
Qed.

Definition pg_frame (st st' : pg_state) (slot : Z) : Prop :=
  forall j, j <> slot ->
    as_pml4 st' !!! j = as_pml4 st !!! j /\ as_pdpt st' !!! j = as_pdpt st !!! j /\
    as_pd st' !!! j = as_pd st !!! j /\ as_pt0 st' !!! j = as_pt0 st !!! j.

Lemma create_ok slot b s st :
  boot_pd st = boot_pd_init -> 0 <= slot < MAX_ACTORS ->
  COMMONS_END <= b -> 0 <= s -> b + s <= PRIVATE_WINDOW_END -> b mod 4096 = 0 -> s mod 4096 = 0 ->
  exists st', hal_address_space_create slot b s st = (pml4_of slot, st') /\
    space_ok st' slot b s None /\ pg_frame st st' slot /\
    as_pt1 st' = as_pt1 st /\ as_pt1_owner st' = as_pt1_owner st /\
    as_pt1_pool_init_done st' = as_pt1_pool_init_done st /\ boot_pd st' = boot_pd st.
Proof.
  intros Hb Hs Hb0 Hs0 Hbs Hba Hsa. unfold hal_address_space_create, PT_ENTRIES, PD_ENTRIES.
  unfold COMMONS_END, PRIVATE_WINDOW_END in *. rewrite u64_small by (unfold in_u64; lia).
  unfold MAX_ACTORS in *. destruct (Z.ltb_spec slot 0), (Z.leb_spec 17 slot); try lia.
  destruct (Z.ltb_spec b 0x100000), (Z.ltb_spec 0x200000 (b + s)); try lia. cbn [orb].
  eexists; split; [reflexivity|]. split_and!; try done.
  - split; cbn [as_pml4 as_pdpt as_pd as_pt0]; unfold COMMONS_END, PRIVATE_WINDOW_END, MAX_ACTORS; try done;
      intros i Hi; rewrite aget_eq.
    + rewrite aget_insert, fill_in by lia. by rewrite Z.eqb_sym.
    + rewrite aget_insert, fill_in by lia. by rewrite Z.eqb_sym.
    + rewrite Hb. destruct (Z.eqb_spec i 0) as [->|].
      * rewrite fill_out by lia. by rewrite aget_eq.
      * rewrite fill_in by (unfold PD_ENTRIES; lia). rewrite Z.sub_0_r.
        destruct (Z.eqb_spec i 128) as [->|]; [by rewrite boot_pd_none|done].
    + rewrite !for_step_entries by (done || lia). rewrite fill_in by lia.
      destruct (Z.ltb_spec i 256), (Z.leb_spec 0 (i * 4096)), (Z.ltb_spec (i * 4096) 0x100000); try lia;
        cbn [andb]; bdestruct_all; done || lia.
  - intros j Hj. cbn. by rewrite !aget_ne by done.
Qed.

Lemma create_fails slot b s st :
  slot < 0 \/ MAX_ACTORS <= slot \/ b < COMMONS_END \/ PRIVATE_WINDOW_END < u64 (b + s) ->
  hal_address_space_create slot b s st = (0, st).
Proof.
  intros H. unfold hal_address_space_create.
  bdestruct_all; done || lia.
Qed.

(** Rebuilding one slot leaves every other slot's address space as it was. *)
Lemma space_ok_frame st st' slot j b s prog :
  pg_frame st st' slot -> j <> slot -> as_pt1 st' = as_pt1 st ->
  as_pt1_owner st' = as_pt1_owner st -> as_pt1_pool_init_done st' = as_pt1_pool_init_done st ->
  space_ok st j b s prog -> space_ok st' j b s prog.
Proof.
  intros Hf Hj E1 E2 E3 [? ? ? ? ? ? ? ?]. destruct (Hf j Hj) as (F1 & F2 & F3 & F4).
  split; rewrite ?E1, ?E2, ?E3, ?F1, ?F2, ?F3, ?F4; done.
Qed.

Lemma map_program_ok slot b s phys size st code st' :
  space_ok st slot b s None -> phys mod 4096 = 0 -> 0 <= phys -> size mod 4096 = 0 -> 0 <= size ->
  phys + size <= 2 ^ 52 ->
  hal_address_space_map_program slot phys size st = (code, st') ->
  code <> -1 ->
  exists pool, space_ok st' slot b s (Some (pool, phys, size)) /\ boot_pd st' = boot_pd st /\
    forall j b' s' prog, j <> slot -> space_ok st j b' s' prog -> space_ok st' j b' s' prog.
Proof.
  intros Hok Hpa Hp0 Hsa Hs0 Hps Heq Hcode. unfold hal_address_space_map_program, PT_ENTRIES in Heq. pose proof (sp_slot _ _ _ _ _ Hok) as Hslot.
  unfold MAX_ACTORS in *.
  destruct (Z.ltb_spec slot 0), (Z.leb_spec 17 slot); try lia. cbn [orb] in Heq.
  destruct (Z.eqb_spec size 0), (Z.ltb_spec PROGRAM_WINDOW_MAX size); try (cbn in Heq; congruence).
  cbn [orb] in Heq. cbv zeta in Heq.
  set (owner := if as_pt1_pool_init_done st =? 0 then _ else as_pt1_owner st) in Heq.
  set (dn := if as_pt1_pool_init_done st =? 0 then 1 else _) in Heq.
  assert (Hown : as_pt1_pool_init_done st <> 0 -> owner = as_pt1_owner st)
    by (unfold owner; destruct (Z.eqb_spec (as_pt1_pool_init_done st) 0); done).
  assert (Hdn : dn <> 0) by (unfold dn; destruct (Z.eqb_spec (as_pt1_pool_init_done st) 0); done).
  clearbody owner dn. destruct (scan _ 0 _) as [pool|] eqn:Escan; [|congruence].
  destruct (scan_Some _ _ _ _ Escan) as (Hpool & Hfree & _).
  injection Heq as <- <-. exists pool. split_and!.
  - destruct Hok as [? ? ? Q4 Q3 Q2 Q1 _]. split; cbn [as_pml4 as_pdpt as_pd as_pt0 as_pt1 as_pt1_owner
      as_pt1_pool_init_done]; try done.
    + intros i Hi. rewrite aget_eq. unfold PROGRAM_VBASE, PAGE_SIZE_2M.
      change (0x10000000 / 0x200000) with 128. rewrite aget_insert.
      destruct (Z.eqb_spec 128 i) as [<-|]; [done|]. rewrite Q2 by done.
      destruct (Z.eqb_spec i 128); [lia|done].
    + rewrite aget_eq. change (Z.of_nat (Z.to_nat PROGRAM_POOL_SIZE)) with PROGRAM_POOL_SIZE in *.
      split_and!; try done; try lia. intros i Hi. rewrite aget_eq.
      rewrite for_step_entries, fill_in by (try done; lia).
      bdestruct_all; done || lia.
  - done.
  - intros j b' s' prog Hj [? ? ? ? ? ? ? Hp]. split; cbn [as_pml4 as_pdpt as_pd as_pt0 as_pt1
      as_pt1_owner as_pt1_pool_init_done]; rewrite ?(aget_ne _ slot) by done; try done.
    destruct prog as [[[pool' phys'] size']|]; [|done].
    destruct Hp as (? & Hown' & Hd & ?). rewrite Hown in * by done.
    assert (pool <> pool').
    { intros <-. rewrite Hown' in Hfree. bdestruct_all; try lia; done. }
    rewrite !(aget_ne _ pool) by done. done.
Qed.
End views.

(** ** Properties *)
Section properties.
Context {L : layout} {LOK : layout_ok L}.

(** building an address space for a slot gives a CR3 whose hardware walk is
    exactly the intended view: the commons supervisor-only except [.user_text],
    the slot's own private pages user-accessible, nothing else in the 1MB-2MB
    window, boot.asm's huge pages up to 256MB, and nothing above; and it
    changes no other slot's walk. *)
Theorem address_space_create_walk st slot b s :
  boot_pd st = boot_pd_init -> 0 <= slot < MAX_ACTORS ->
  COMMONS_END <= b -> 0 <= s -> b + s <= PRIVATE_WINDOW_END -> b mod 4096 = 0 -> s mod 4096 = 0 ->
  exists st',
    hal_address_space_create slot b s st = (pml4_of slot, st') /\
    (forall va, 0 <= va < 2 ^ 48 -> walk st' (pml4_of slot) va = view b s None va) /\
    (forall j b' s' prog va, j <> slot -> space_ok st j b' s' prog -> 0 <= va < 2 ^ 48 ->
       walk st' (pml4_of j) va = walk st (pml4_of j) va).
Proof.
  intros. destruct (create_ok slot b s st) as (st' & E & Hok & Hf & E1 & E2 & E3 & _); try done.
  exists st'. split_and!; [done | |].
  - intros va Hva. exact (walk_view _ _ _ _ _ _ Hok Hva).
  - intros j b' s' prog va Hj Hokj Hva.
    rewrite (walk_view _ _ _ _ _ _ Hokj Hva).
    exact (walk_view _ _ _ _ _ _ (space_ok_frame _ _ _ _ _ _ _ Hf Hj E1 E2 E3 Hokj) Hva).
Qed.

(** mapping a loaded program adds exactly the pages of the program at
    [PROGRAM_VBASE] to the slot's walk and changes no other slot's walk, also
    when the pool entry is shared state. *)
Theorem map_program_walk st slot b s phys size st' :
  space_ok st slot b s None -> phys mod 4096 = 0 -> 0 <= phys -> size mod 4096 = 0 -> 0 <= size ->
  phys + size <= 2 ^ 52 ->
  hal_address_space_map_program slot phys size st = (0, st') ->
  (forall va, 0 <= va < 2 ^ 48 ->
     walk st' (pml4_of slot) va = view b s (Some (phys, size)) va) /\
  (forall j b' s' prog va, j <> slot -> space_ok st j b' s' prog -> 0 <= va < 2 ^ 48 ->
     walk st' (pml4_of j) va = walk st (pml4_of j) va).
Proof.
  intros Hok ? ? ? ? ? E.
  destruct (map_program_ok slot b s phys size st 0 st') as (pool & Hok' & _ & Hfr); try done.
  split.
  - intros va Hva. exact (walk_view _ _ _ _ _ _ Hok' Hva).
  - intros j b' s' prog va Hj Hokj Hva.
    rewrite (walk_view _ _ _ _ _ _ Hokj Hva). exact (walk_view _ _ _ _ _ _ (Hfr _ _ _ _ Hj Hokj) Hva).
Qed.

(** The physical ranges a ring-3 actor can reach through its own space. *)
Definition user_reach (b s : Z) (prog : option (Z * Z)) (pa : Z) : Prop :=
  user_text_start <= pa < user_text_end \/ b <= pa < b + s \/
  match prog with Some (phys, size) => phys <= pa < phys + size | None => False end.

Lemma view_user b s prog va t :
  0 <= va -> view b s prog va = Some t -> t_user t = true -> user_reach b s prog (t_pa t).
Proof.
  intros H0 Hv Hu. unfold view in Hv. unfold user_reach.
  destruct (va <? COMMONS_END); [|destruct (va <? PRIVATE_WINDOW_END)].
  - injection Hv as <-. cbn in *. breflect. left. lia.
  - destruct ((b <=? va) && (va <? b + s)) eqn:E; [|done]. injection Hv as <-. cbn in *.
    breflect. right; left. lia.
  - destruct (Z.ltb_spec va PROGRAM_VBASE); [by injection Hv as <-|].
    destruct prog as [[phys size]|]; [|done]. destruct (Z.ltb_spec va (PROGRAM_VBASE + size)); [|done].
    injection Hv as <-. cbn. right; right. lia.
Qed.

Definition disjoint_from (b s : Z) (prog : option (Z * Z * Z)) (b' s' : Z) (prog' : option (Z * Z * Z)) : Prop :=
  (b + s <= b' \/ b' + s' <= b) /\
  match prog with Some (_, p, n) => PRIVATE_WINDOW_END <= p | None => True end /\
  match prog' with Some (_, p, n) => PRIVATE_WINDOW_END <= p | None => True end /\
  match prog, prog' with
  | Some (_, p, n), Some (_, p', n') => p + n <= p' \/ p' + n' <= p
  | _, _ => True
  end.

(** Two address spaces whose stack pages and program pages are disjoint share no
    ring-3 reachable physical byte outside [.user_text]. *)
Lemma spaces_share_user_text_only st i j bi si pi bj sj pj va vb ti tj :
  space_ok st i bi si pi -> space_ok st j bj sj pj -> disjoint_from bi si pi bj sj pj ->
  0 <= va < 2 ^ 48 -> 0 <= vb < 2 ^ 48 ->
  walk st (pml4_of i) va = Some ti -> t_user ti = true ->
  walk st (pml4_of j) vb = Some tj -> t_user tj = true ->
  t_pa ti = t_pa tj -> user_text_start <= t_pa ti < user_text_end.
Proof.
  intros Hi Hj (Hb & Hp & Hp' & Hpp) Hva Hvb Wi Ui Wj Uj E.
  rewrite (walk_view _ _ _ _ _ _ Hi Hva) in Wi. rewrite (walk_view _ _ _ _ _ _ Hj Hvb) in Wj.
  apply view_user in Wi; [|lia|done]. apply view_user in Wj; [|lia|done].
  pose proof (@lo_user_text _ LOK). pose proof (sp_range _ _ _ _ _ Hi). pose proof (sp_range _ _ _ _ _ Hj).
  unfold user_reach, COMMONS_END, PRIVATE_WINDOW_END in *. rewrite E in *.
  destruct pi as [[[? p] n]|], pj as [[[? p'] n']|]; cbn in *; lia.
Qed.

(** every address space maps the whole of [.user_text] user-accessible AND
    writable: the entry is [addr | 0x7], so ring-3 code of any actor can
    overwrite the code every other actor executes.  The comments only intend
    user-mode instruction fetch. *)
Theorem user_text_is_user_writable st slot b s prog va :
  space_ok st slot b s prog -> user_text_start <= va < user_text_end ->
  walk st (pml4_of slot) va = Some (Translation va true true).
Proof.
  intros Hok Hva. pose proof (@lo_user_text _ LOK). unfold COMMONS_END in *.
  rewrite (walk_view _ _ _ _ _ _ Hok) by lia. unfold view, COMMONS_END.
  destruct (Z.ltb_spec va 0x100000); [|lia]. do 2 f_equal. bdestruct_all; done || lia.
Qed.

(** The same walk for the kernel's own pages: supervisor only. *)
Lemma commons_supervisor st slot b s prog va :
  space_ok st slot b s prog -> 0 <= va < COMMONS_END -> ~ (user_text_start <= va < user_text_end) ->
  walk st (pml4_of slot) va = Some (Translation va true false).
Proof.
  intros Hok Hva Hn. unfold COMMONS_END in *.
  rewrite (walk_view _ _ _ _ _ _ Hok) by lia. unfold view, COMMONS_END.
  destruct (Z.ltb_spec va 0x100000); [|lia]. do 2 f_equal. bdestruct_all; done || lia.
Qed.
End properties.

(** ** Page zeroing *)

Lemma zero_loop a n m :
  cr3 m = BOOT_PML4_PHYS_BASE ->
  let m' := loop (fun i m => store_zero64 (a + 8 * i) m) 0 n m in
  cr3 m' = cr3 m /\ faulted m' = faulted m /\
  forall x, ram m' !!! x = if (a <=? x) && (x <? a + 8 * Z.of_nat n) then 0 else ram m !!! x.
Proof.
  intros Hc. induction n as [|n IH]; cbv zeta.
  - split_and!; try done. intros x. cbn [loop]. bdestruct_all; done || lia.
  - rewrite loop_S. destruct IH as (I1 & I2 & I3). rewrite Z.add_0_l.
    unfold store_zero64 at 1 3 5. rewrite !I1, Hc, Z.eqb_refl. cbn [cr3 faulted ram].
    split_and!; try done. intros x. rewrite fill_get, I3. bdestruct_all; done || lia.
Qed.

(** [hal_zero_page] zeroes exactly the 4096 bytes of the page, whatever CR3
    is active, restores that CR3, and its stores never fault. *)
Theorem hal_zero_page_spec a m :
  cr3 (hal_zero_page a m) = cr3 m /\ faulted (hal_zero_page a m) = faulted m /\
  forall x, ram (hal_zero_page a m) !!! x = if (a <=? x) && (x <? a + 4096) then 0 else ram m !!! x.
Proof.
  unfold hal_zero_page. set (m1 := if negb _ then set_cr3 BOOT_PML4_PHYS_BASE m else m).
  assert (H1 : cr3 m1 = BOOT_PML4_PHYS_BASE /\ faulted m1 = faulted m /\ ram m1 = ram m).
  { unfold m1. destruct (Z.eqb_spec (cr3 m) BOOT_PML4_PHYS_BASE); done. }
  destruct H1 as (Hc & Hf & Hr). clearbody m1.
  assert (Hn : 8 * Z.of_nat (Z.to_nat (PAGE_SIZE_4K / 8)) = 4096) by reflexivity.
  revert Hn. generalize (Z.to_nat (PAGE_SIZE_4K / 8)) as n. intros n Hn.
  destruct (zero_loop a n m1 Hc) as (Z1 & Z2 & Z3). rewrite Hn, Hr in Z3. rewrite Hf in Z2.
  destruct (Z.eqb_spec (cr3 m) BOOT_PML4_PHYS_BASE) as [E|]; cbn [negb set_cr3 cr3 faulted ram];
    split_and!; try done; congruence.
Qed.

(** ** Witnesses *)
Section witnesses.
#[local] Existing Instance demo_layout.

Lemma address_space_create_walk_witness :
  exists st, hal_address_space_create 3 0x110000 4096 pg_boot = (pml4_of 3, st) /\
    walk st (pml4_of 3) 0x110010 = Some (Translation 0x110010 true true).
Proof.
  destruct (address_space_create_walk pg_boot 3 0x110000 4096) as (st & E & H & _);
    try reflexivity; try (unfold MAX_ACTORS, COMMONS_END, PRIVATE_WINDOW_END; lia).
  exists st. split; [exact E|]. rewrite H by lia. reflexivity.
Defined.

(** One space for slot 3, then a two-page program at 4MB in it. *)
Lemma space3 : exists st, hal_address_space_create 3 0x110000 4096 pg_boot = (pml4_of 3, st) /\ space_ok st 3 0x110000 4096 None /\
  boot_pd st = boot_pd_init /\ as_pt1_pool_init_done st = 0.
Proof.
  destruct (create_ok 3 0x110000 4096 pg_boot) as (st & E & H & _ & _ & _ & Hd & Hb);
    try reflexivity; try (unfold MAX_ACTORS, COMMONS_END, PRIVATE_WINDOW_END; lia).
  by exists st.
Qed.

Lemma first_program_fits st : as_pt1_pool_init_done st = 0 ->
  (hal_address_space_map_program 3 0x400000 8192 st).1 = 0.
Proof.
  intros Hd. unfold hal_address_space_map_program. rewrite Hd. change ((3 <? 0) || (MAX_ACTORS <=? 3)) with false.
  change ((8192 =? 0) || (PROGRAM_WINDOW_MAX <? 8192)) with false. cbv zeta. change (0 =? 0) with true. cbv iota.
  destruct (scan _ 0 _) eqn:E; [done|]. apply (proj1 (scan_None _ _ _)) with (j := 0) in E; [|done].
  cbv beta in E. rewrite fill_in in E by done. done.
Qed.

Lemma map_program_walk_witness :
  exists st, space_ok st 3 0x110000 4096 None /\
     walk (hal_address_space_map_program 3 0x400000 8192 st).2 (pml4_of 3) (PROGRAM_VBASE + 16) =
     Some (Translation 0x400010 true true).
Proof.
  destruct space3 as (st & _ & H & _ & Hd). exists st. split; [exact H|].
  destruct (map_program_walk st 3 0x110000 4096 0x400000 8192 (hal_address_space_map_program 3 0x400000 8192 st).2)
    as [Hw _]; try (reflexivity || lia || exact H).
  - rewrite <- (first_program_fits st Hd). apply surjective_pairing.
  - rewrite Hw by (unfold PROGRAM_VBASE; lia). reflexivity.
Defined.

Lemma user_text_is_user_writable_witness :
  exists st, walk st (pml4_of 3) 0x2C000 = Some (Translation 0x2C000 true true).
Proof.
  destruct space3 as (st & _ & H & _). exists st.
  apply (user_text_is_user_writable st 3 0x110000 4096 None 0x2C000 H). cbn. lia.
Defined.
End witnesses.
