(* ===== verification/Memory.v ===== *)
(** * Physical memory manager

    Models [src/core/memory.c]: the bitmap, the bump scan of [alloc_page], the
    free list, and the contiguous search behind [alloc_pages_contig] and
    [alloc_dma_pages].  The E820 regions of [hal_get_memory_map] are the
    argument of [memory_init]. *)
From S2P Require Import Prelude Paging.

Definition MEM_BASE : Z := 0x100000.
Definition MEM_CAP : Z := 0x10000000.
Definition PAGE_SIZE : Z := 4096.
Definition BITMAP_SIZE : Z := 8192.
Definition FALLBACK_TOP : Z := 0x1000000.
Definition FREE_LIST_CAPACITY : Z := 32.

Record mem_state := MemState {
  bitmap : gmap Z Z;
  next_free_page : Z;
  mem_top : Z;
  free_list : gmap Z Z;
  free_list_count : Z;
  mach : machine
}.

Definition set_bitmap (b : gmap Z Z) (st : mem_state) : mem_state :=
  MemState b (next_free_page st) (mem_top st) (free_list st) (free_list_count st) (mach st).
Definition set_next (a : Z) (st : mem_state) : mem_state :=
  MemState (bitmap st) a (mem_top st) (free_list st) (free_list_count st) (mach st).
Definition set_top (a : Z) (st : mem_state) : mem_state :=
  MemState (bitmap st) (next_free_page st) a (free_list st) (free_list_count st) (mach st).
Definition set_free_list (l : gmap Z Z) (n : Z) (st : mem_state) : mem_state :=
  MemState (bitmap st) (next_free_page st) (mem_top st) l n (mach st).
Definition set_mach (m : machine) (st : mem_state) : mem_state :=
  MemState (bitmap st) (next_free_page st) (mem_top st) (free_list st) (free_list_count st) m.

(** ** The bitmap *)

Definition bitmap_set_used (page_index : Z) (b : gmap Z Z) : gmap Z Z :=
  <[page_index / 8 := u8 ((b !!! (page_index / 8)) .|. u8 (1 .<<. (page_index mod 8)))]> b.
Definition bitmap_clear_used (page_index : Z) (b : gmap Z Z) : gmap Z Z :=
  <[page_index / 8 := u8 ((b !!! (page_index / 8)) .&. u8 (Z.lnot (1 .<<. (page_index mod 8))))]> b.
Definition bitmap_is_used (page_index : Z) (b : gmap Z Z) : bool :=
  negb (((b !!! (page_index / 8)) .&. u8 (1 .<<. (page_index mod 8))) =? 0).

(** [x & ~(PAGE_SIZE - 1)] *)
Definition page_align (x : Z) : Z := Z.ldiff x (PAGE_SIZE - 1).

Definition mark_range_free (base end_ : Z) (b : gmap Z Z) : gmap Z Z :=
  let base := page_align (u64 (base + PAGE_SIZE - 1)) in
  let end_ := page_align end_ in
  if end_ <=? base then b
  else for_step (fun addr b => bitmap_clear_used ((addr - MEM_BASE) / PAGE_SIZE) b) base end_ PAGE_SIZE b.

(** One region of the map: clip, remember the top, mark free. *)
Definition init_region (region : Z * Z) (acc : Z * gmap Z Z) : Z * gmap Z Z :=
  let '(highest_usable_end, b) := acc in
  let base := region.1 in
  let end_ := u64 (base + region.2) in
  let base := if base <? MEM_BASE then MEM_BASE else base in
  let end_ := if MEM_CAP <? end_ then MEM_CAP else end_ in
  if end_ <=? base then (highest_usable_end, b)
  else
    let highest := if highest_usable_end <? end_ then end_ else highest_usable_end in
    (highest, mark_range_free base end_ b).

Definition memory_init (regions : list (Z * Z)) (st : mem_state) : mem_state :=
  let b := fill 0 (fun _ => 0xFF) 0 (Z.to_nat BITMAP_SIZE) (bitmap st) in
  let st := set_top FALLBACK_TOP (set_next MEM_BASE (set_bitmap b st)) in
  match regions with
  | [] => set_bitmap (mark_range_free MEM_BASE FALLBACK_TOP b) st
  | _ =>
      let '(highest_usable_end, b) := fold_left (fun acc r => init_region r acc) regions (0, b) in
      if highest_usable_end <=? MEM_BASE
      then set_top FALLBACK_TOP (set_bitmap (mark_range_free MEM_BASE FALLBACK_TOP b) st)
      else set_top highest_usable_end (set_bitmap b st)
  end.

(** ** Allocation *)

Definition zero_page (addr : Z) (st : mem_state) : mem_state :=
  set_mach (hal_zero_page addr (mach st)) st.

(** The [while (next_free_page < mem_top)] scan; [fuel] bounds the pages left. *)
Fixpoint alloc_scan (fuel : nat) (st : mem_state) : Z * mem_state :=
  match fuel with
  | O => (0, st)
  | S fuel =>
      if next_free_page st <? mem_top st then
        let page_index := (next_free_page st - MEM_BASE) / PAGE_SIZE in
        if negb (bitmap_is_used page_index (bitmap st)) then
          let addr := next_free_page st in
          let st := set_bitmap (bitmap_set_used page_index (bitmap st)) st in
          let st := set_next (addr + PAGE_SIZE) st in
          (addr, zero_page addr st)
        else alloc_scan fuel (set_next (next_free_page st + PAGE_SIZE) st)
      else (0, st)
  end.

Definition scan_fuel (st : mem_state) : nat :=
  trips (next_free_page st) (mem_top st) PAGE_SIZE.

Definition alloc_page (st : mem_state) : Z * mem_state :=
  if 0 <? free_list_count st then
    let n := free_list_count st - 1 in
    let addr := free_list st !!! n in
    (addr, zero_page addr (set_free_list (free_list st) n st))
  else alloc_scan (scan_fuel st) st.

Definition free_page (addr : Z) (st : mem_state) : mem_state :=
  if addr =? 0 then st
  else if free_list_count st <? FREE_LIST_CAPACITY
  then set_free_list (<[free_list_count st := addr]> (free_list st)) (free_list_count st + 1) st
  else st.

(** No page of the candidate run is marked used. *)
Definition run_free (count : Z) (b : gmap Z Z) (start : Z) : bool :=
  match scan (fun i => bitmap_is_used ((start - MEM_BASE) / PAGE_SIZE + i) b) 0 (Z.to_nat count) with
  | Some _ => false
  | None => true
  end.

Definition contig_fuel (search_start : Z) (st : mem_state) : nat :=
  trips search_start (mem_top st) PAGE_SIZE.

Definition find_and_claim_contig (search_start count : Z) (st : mem_state) : Z * mem_state :=
  if count <=? 0 then (0, st)
  else
    match search_while (fun start => u64 (start + count * PAGE_SIZE) <=? mem_top st)
            (run_free count (bitmap st)) PAGE_SIZE (contig_fuel search_start st) search_start with
    | None => (0, st)
    | Some start =>
        let b := loop (fun i b => bitmap_set_used ((start - MEM_BASE) / PAGE_SIZE + i) b)
                   0 (Z.to_nat count) (bitmap st) in
        (start, loop (fun i st => zero_page (start + i * PAGE_SIZE) st)
                  0 (Z.to_nat count) (set_bitmap b st))
    end.

Definition alloc_pages_contig (count : Z) (st : mem_state) : Z * mem_state :=
  find_and_claim_contig MEM_BASE count st.
Definition alloc_dma_pages (count : Z) (st : mem_state) : Z * mem_state :=
  find_and_claim_contig 0x200000 count st.

Definition memory_get_total_bytes (st : mem_state) : Z := mem_top st.

(** ** Bitmap lemmas *)

Lemma bit_mask_test b i : 0 <= i ->
  bitmap_is_used i b = Z.testbit (b !!! (i / 8)) (i mod 8).
Proof.
  intros Hi. unfold bitmap_is_used. pose proof (Z.mod_pos_bound i 8 ltac:(lia)) as Hm.
  set (k := i mod 8) in *. set (v := b !!! (i / 8)). clearbody k v.
  rewrite u8_small.
  2: { unfold in_u8. rewrite Z.shiftl_mul_pow2, Z.mul_1_l by lia.
       split; [apply Z.pow_nonneg; lia | apply Z.pow_lt_mono_r; lia]. }
  destruct (Z.testbit v k) eqn:E.
  - apply negb_true_iff, Z.eqb_neq. intros Hz.
    assert (Z.testbit (v .&. (1 .<<. k)) k = true) as Ht.
    { rewrite Z.land_spec, E, Z.shiftl_spec by lia. by rewrite Z.sub_diag. }
    by rewrite Hz, Z.bits_0 in Ht.
  - apply negb_false_iff, Z.eqb_eq. apply Z.bits_inj'. intros j Hj.
    rewrite Z.land_spec, Z.shiftl_spec, Z.bits_0 by lia.
    destruct (decide (j = k)) as [->|]; [by rewrite E|].
    replace (Z.testbit 1 (j - k)) with false; [by rewrite andb_false_r|].
    destruct (Z.lt_ge_cases (j - k) 0); [by rewrite Z.testbit_neg_r|].
    change 1 with (2 ^ 0). rewrite Z.pow2_bits_eqb by lia. symmetry. apply Z.eqb_neq. lia.
Qed.

Lemma same_bit i j : 0 <= i -> 0 <= j -> i / 8 = j / 8 -> i mod 8 = j mod 8 -> i = j.
Proof. intros. Z.div_mod_to_equations; lia. Qed.

Lemma shift1_bit k j : 0 <= k -> 0 <= j -> Z.testbit (1 .<<. k) j = (j =? k).
Proof.
  intros. rewrite Z.shiftl_mul_pow2, Z.mul_1_l by lia. rewrite Z.pow2_bits_eqb by lia.
  apply Z.eqb_sym.
Qed.

Lemma set_used_spec b i j : 0 <= i -> 0 <= j ->
  bitmap_is_used j (bitmap_set_used i b) = (j =? i) || bitmap_is_used j b.
Proof.
  intros Hi Hj. rewrite !bit_mask_test by done. unfold bitmap_set_used.
  pose proof (Z.mod_pos_bound i 8 ltac:(lia)). pose proof (Z.mod_pos_bound j 8 ltac:(lia)).
  rewrite aget_insert. destruct (Z.eqb_spec (i / 8) (j / 8)) as [E|].
  - rewrite !testbit_u8, Z.lor_spec, testbit_u8, shift1_bit, E by lia.
    destruct (Z.ltb_spec (j mod 8) 8); [|lia]. cbn [andb]. rewrite orb_comm. f_equal.
    apply eq_iff_eq_true. rewrite !Z.eqb_eq. split; [intros; apply same_bit; done || lia | congruence].
  - destruct (Z.eqb_spec j i); [congruence | done].
Qed.

Lemma clear_used_spec b i j : 0 <= i -> 0 <= j ->
  bitmap_is_used j (bitmap_clear_used i b) = negb (j =? i) && bitmap_is_used j b.
Proof.
  intros Hi Hj. rewrite !bit_mask_test by done. unfold bitmap_clear_used.
  pose proof (Z.mod_pos_bound i 8 ltac:(lia)). pose proof (Z.mod_pos_bound j 8 ltac:(lia)).
  rewrite aget_insert. destruct (Z.eqb_spec (i / 8) (j / 8)) as [E|].
  - rewrite testbit_u8, Z.land_spec, testbit_u8, Z.lnot_spec, shift1_bit, E by lia.
    destruct (Z.ltb_spec (j mod 8) 8); [|lia]. cbn [andb]. rewrite andb_comm. do 2 f_equal.
    apply eq_iff_eq_true. rewrite !Z.eqb_eq. split; [intros; apply same_bit; done || lia | congruence].
  - destruct (Z.eqb_spec j i); [congruence | done].
Qed.

Lemma page_align_spec x : 0 <= x -> page_align x = x / 4096 * 4096.
Proof.
  intros. unfold page_align, PAGE_SIZE. change (4096 - 1) with (Z.ones 12).
  rewrite Z.ldiff_ones_r by lia. rewrite Z.shiftl_mul_pow2, Z.shiftr_div_pow2 by lia. done.
Qed.

(** ** Invariant: which pages the bitmap, the free list and the clients own *)

Definition page_ok (st : mem_state) (a : Z) : Prop :=
  a mod 4096 = 0 /\ MEM_BASE <= a /\ a + 4096 <= mem_top st.
Definition idx (a : Z) : Z := (a - MEM_BASE) / PAGE_SIZE.
Definition bits : Z := BITMAP_SIZE * 8.

(** [live] is the set of pages clients currently hold. *)
Record mem_inv (st : mem_state) (live : gset Z) : Prop := MemInv {
  mi_next : MEM_BASE <= next_free_page st /\ next_free_page st mod 4096 = 0;
  mi_top : 0 <= mem_top st <= MEM_CAP;
  mi_bits : forall j, 0 <= j < bits -> bitmap_is_used j (bitmap st) = false ->
    MEM_BASE + (j + 1) * 4096 <= mem_top st;
  mi_live : forall a, a ∈ live -> page_ok st a /\ bitmap_is_used (idx a) (bitmap st) = true;
  mi_count : 0 <= free_list_count st <= FREE_LIST_CAPACITY;
  mi_list : forall k, 0 <= k < free_list_count st ->
    page_ok st (free_list st !!! k) /\ bitmap_is_used (idx (free_list st !!! k)) (bitmap st) = true /\
    (free_list st !!! k) ∉ live;
  mi_nodup : forall k k', 0 <= k < free_list_count st -> 0 <= k' < free_list_count st ->
    free_list st !!! k = free_list st !!! k' -> k = k'
}.

Ltac mem_unfold := unfold page_ok, idx, bits, MEM_BASE, MEM_CAP, PAGE_SIZE, BITMAP_SIZE in *.

Lemma page_idx_range st a : 0 <= mem_top st <= MEM_CAP -> page_ok st a -> 0 <= idx a < bits.
Proof. intros ? (? & ? & ?). mem_unfold. Z.div_mod_to_equations; lia. Qed.

Lemma idx_inj st a b : page_ok st a -> page_ok st b -> idx a = idx b -> a = b.
Proof. intros (? & ? & ?) (? & ? & ?). mem_unfold. Z.div_mod_to_equations; lia. Qed.

(** every bitmap byte the allocator touches for a page below the cap lies in
    the 8192-byte array. *)
Theorem bitmap_index_in_bounds a :
  MEM_BASE <= a < MEM_CAP -> 0 <= ((a - MEM_BASE) / PAGE_SIZE) / 8 < BITMAP_SIZE.
Proof. mem_unfold. intros. Z.div_mod_to_equations; lia. Qed.

(** Claiming an unused page [a]: it is fresh, and becomes live. *)
Lemma claim_fresh st live a :
  mem_inv st live -> a mod 4096 = 0 -> MEM_BASE <= a -> a < mem_top st ->
  bitmap_is_used (idx a) (bitmap st) = false ->
  page_ok st a /\ (a ∉ live) /\ (forall k, 0 <= k < free_list_count st -> (free_list st !!! k) <> a).
Proof.
  intros Hinv Ha Hb Ht Hu. pose proof (mi_top _ _ Hinv) as Hcap.
  assert (Hr : 0 <= idx a < bits) by (mem_unfold; Z.div_mod_to_equations; lia).
  pose proof (mi_bits _ _ Hinv _ Hr Hu) as Hbound.
  split_and!.
  - mem_unfold. Z.div_mod_to_equations; lia.
  - intros Hin. destruct (mi_live _ _ Hinv _ Hin) as [_ Hused]. congruence.
  - intros k Hk E. destruct (mi_list _ _ Hinv _ Hk) as (_ & Hused & _). congruence.
Qed.

Lemma set_used_inv st live a :
  mem_inv st live -> page_ok st a -> a ∉ live ->
  (forall k, 0 <= k < free_list_count st -> (free_list st !!! k) <> a) ->
  mem_inv (set_bitmap (bitmap_set_used (idx a) (bitmap st)) st) ({[a]} ∪ live).
Proof.
  intros Hinv Hok Hl Hf. pose proof (mi_top _ _ Hinv) as Hcap.
  pose proof (page_idx_range _ _ Hcap Hok) as Hr.
  destruct Hinv as [I1 I2 I3 I4 I5 I6 I7]. split; cbn [bitmap next_free_page mem_top free_list free_list_count set_bitmap]; try done.
  - intros j Hj. rewrite set_used_spec by lia. intros H. breflect. auto.
  - intros x Hx. apply elem_of_union in Hx as [->%elem_of_singleton|Hx].
    + split; [done|]. by rewrite set_used_spec, Z.eqb_refl by lia.
    + destruct (I4 _ Hx) as [Hp Hu]. split; [done|].
      pose proof (page_idx_range _ _ Hcap Hp). by rewrite set_used_spec, Hu, orb_true_r by lia.
  - intros k Hk. destruct (I6 _ Hk) as (Hp & Hu & Hn). split_and!; [done | |].
    + pose proof (page_idx_range _ _ Hcap Hp). by rewrite set_used_spec, Hu, orb_true_r by lia.
    + pose proof (Hf _ Hk). by rewrite not_elem_of_union, not_elem_of_singleton.
Qed.

Lemma set_mach_inv st live m : mem_inv (set_mach m st) live <-> mem_inv st live.
Proof. split; intros [? ? ? ? ? ? ?]; by split. Qed.

Lemma set_next_inv st live a :
  MEM_BASE <= a -> a mod 4096 = 0 -> mem_inv st live -> mem_inv (set_next a st) live.
Proof. intros ? ? [? ? ? ? ? ? ?]; by split. Qed.

(** What one allocation of the run [a, a + n pages) promises. *)
Definition run_pages (a n : Z) : gset Z := list_to_set (map (fun i => a + i * 4096) (seqZ 0 n)).

Lemma elem_run_pages a n x : x ∈ run_pages a n <-> exists i, 0 <= i < n /\ x = a + i * 4096.
Proof.
  unfold run_pages. rewrite elem_of_list_to_set, list_elem_of_In, in_map_iff. split.
  - intros (i & <- & Hi%list_elem_of_In%elem_of_seqZ). exists i. split; [lia|done].
  - intros (i & Hi & ->). exists i. split; [done|]. apply list_elem_of_In, elem_of_seqZ. lia.
Qed.

Lemma alloc_scan_spec fuel st live a st' :
  mem_inv st live -> (trips (next_free_page st) (mem_top st) PAGE_SIZE <= fuel)%nat ->
  alloc_scan fuel st = (a, st') ->
  free_list_count st' = free_list_count st /\ free_list st' = free_list st /\
  ((a = 0 /\ mem_inv st' live /\ mach st' = mach st /\
    (forall x, page_ok st x -> next_free_page st <= x -> bitmap_is_used (idx x) (bitmap st) = true)) \/
   (page_ok st a /\ (a ∉ live) /\ (forall k, 0 <= k < free_list_count st -> (free_list st !!! k) <> a) /\
    mem_inv st' ({[a]} ∪ live) /\ mach st' = hal_zero_page a (mach st))).
Proof.
  revert st; induction fuel as [|fuel IH]; intros st Hinv Hfuel Heq; cbn [alloc_scan] in Heq;
    pose proof (mi_next _ _ Hinv) as [Hnb Hna]; unfold MEM_BASE, PAGE_SIZE in *.
  - injection Heq as <- <-. split_and!; try done. left. split_and!; try done.
    intros x (? & ? & ?) ?. pose proof (trips_spec (next_free_page st) (mem_top st) 4096 0 ltac:(lia) ltac:(lia)).
    lia.
  - destruct (Z.ltb_spec (next_free_page st) (mem_top st)) as [Hlt|Hge].
    2: { injection Heq as <- <-. split_and!; try done. left. split_and!; try done.
         intros x (? & ? & ?) ?. lia. }
    destruct (bitmap_is_used _ (bitmap st)) eqn:Eu; cbn [negb] in Heq.
    + destruct (IH (set_next (next_free_page st + 4096) st)) as (F1 & F2 & Hres); try done.
      { apply set_next_inv; [unfold MEM_BASE; lia | | done].
        rewrite <- Zplus_mod_idemp_l, Hna. done. }
      { cbn. unfold trips in *. replace (next_free_page st + 4096) with (next_free_page st + 1 * 4096) by lia.
        replace ((mem_top st - (next_free_page st + 1 * 4096) + 4096 - 1) / 4096)
          with ((mem_top st - next_free_page st + 4096 - 1) / 4096 - 1) by zdm. lia. }
      cbn in F1, F2, Hres. split_and!; [done..|].
      destruct Hres as [(-> & Hi & Hm & Hall)|Hres]; [left | right; exact Hres].
      split_and!; try done. intros x Hx Hn.
      destruct (decide (x = next_free_page st)) as [->|]; [exact Eu|].
      apply Hall; [done|]. destruct Hx as (? & ? & ?). Z.div_mod_to_equations; lia.
    + injection Heq as <- <-. split_and!; try done. right.
      destruct (claim_fresh _ _ _ Hinv Hna Hnb Hlt Eu) as (Hok & Hfresh & Hfl).
      split_and!; try done. apply set_mach_inv, set_next_inv; [unfold MEM_BASE; lia | |].
      { rewrite <- Zplus_mod_idemp_l, Hna. done. }
      by apply set_used_inv.
Qed.

(** [alloc_page] never hands out a page a client still holds; the page is
    whole, page-aligned RAM, freshly zeroed through the boot CR3; it returns 0
    only when the free list is empty and no usable page is left ahead. *)
Lemma alloc_page_spec st live a st' :
  mem_inv st live -> alloc_page st = (a, st') ->
  (a = 0 /\ mem_inv st' live /\ free_list_count st = 0 /\
   (forall x, page_ok st x -> next_free_page st <= x -> bitmap_is_used (idx x) (bitmap st) = true)) \/
  (a <> 0 /\ page_ok st a /\ (a ∉ live) /\ mem_inv st' ({[a]} ∪ live) /\
   mach st' = hal_zero_page a (mach st)).
Proof.
  intros Hinv. unfold alloc_page. destruct (Z.ltb_spec 0 (free_list_count st)) as [Hc|Hc].
  - intros [= <- <-]. right. set (n := free_list_count st - 1). pose proof (mi_count _ _ Hinv).
    destruct (mi_list _ _ Hinv n ltac:(lia)) as (Hok & Hu & Hn).
    split_and!; try done; [destruct Hok; mem_unfold; lia|].
    apply set_mach_inv. destruct Hinv as [I1 I2 I3 I4 I5 I6 I7]. split; cbn; try done; try lia.
    + intros x [->%elem_of_singleton|Hx]%elem_of_union; [done | by apply I4].
    + intros k Hk. destruct (I6 k ltac:(lia)) as (? & ? & ?). split_and!; try done.
      rewrite not_elem_of_union, not_elem_of_singleton. split; [|done].
      intros E. apply I7 in E; lia.
    + intros k k' ? ?. apply I7; lia.
  - intros Heq. destruct (alloc_scan_spec _ _ _ _ _ Hinv (le_n _) Heq) as (_ & _ & [Hz|Hs]).
    + left. destruct Hz as (-> & ? & ? & ?). pose proof (mi_count _ _ Hinv). split_and!; try done. lia.
    + right. destruct Hs as (Hok & ? & ? & ? & ?). split_and!; try done. destruct Hok. mem_unfold. lia.
Qed.

(** Freeing a held page returns it to the allocator and to nobody else. *)
Lemma free_page_spec st live a :
  mem_inv st live -> a ∈ live -> mem_inv (free_page a st) (live ∖ {[a]}).
Proof.
  intros Hinv Ha. unfold free_page. destruct (mi_live _ _ Hinv _ Ha) as [Hok Hu].
  destruct (Z.eqb_spec a 0); [destruct Hok; mem_unfold; lia|].
  destruct Hinv as [I1 I2 I3 I4 I5 I6 I7]. unfold FREE_LIST_CAPACITY in *.
  destruct (Z.ltb_spec (free_list_count st) 32); split; cbn; try done.
  - intros x Hx. apply I4. set_solver.
  - unfold FREE_LIST_CAPACITY. lia.
  - intros k Hk. rewrite aget_insert. destruct (Z.eqb_spec (free_list_count st) k); [split_and!; set_solver|].
    destruct (I6 k ltac:(lia)) as (? & ? & ?). split_and!; set_solver.
  - intros k k' Hk Hk'. rewrite !aget_insert.
    assert (H0 : forall j, 0 <= j < free_list_count st -> (free_list st !!! j) <> a)
      by (intros j Hj E; destruct (I6 _ Hj) as (_ & _ & Hn'); rewrite E in Hn'; done).
    destruct (Z.eqb_spec (free_list_count st) k), (Z.eqb_spec (free_list_count st) k'); try lia.
    + intros E. exfalso. apply (H0 k'); [lia|done].
    + intros E. exfalso. apply (H0 k); [lia|done].
    + apply I7; lia.
  - intros x Hx. apply I4. set_solver.
  - intros k Hk. destruct (I6 k Hk) as (? & ? & ?). split_and!; set_solver.
Qed.

Lemma run_pages_S a n : 0 <= n -> run_pages a (n + 1) = {[a + n * 4096]} ∪ run_pages a n.
Proof.
  intros. apply set_eq. intros x. rewrite elem_of_union, elem_of_singleton, !elem_run_pages. split.
  - intros (i & Hi & ->). destruct (decide (i = n)) as [->|]; [by left | right; exists i; split; [lia|done]].
  - intros [->|(i & Hi & ->)]; [exists n | exists i]; split; done || lia.
Qed.

Lemma idx_add a i : MEM_BASE <= a -> idx (a + i * 4096) = idx a + i.
Proof. mem_unfold. intros. replace (a + i * 4096 - 0x100000) with (a - 0x100000 + i * 4096) by lia.
  by rewrite Z.div_add by lia. Qed.

Lemma claim_loop st live a n :
  mem_inv st live -> a mod 4096 = 0 -> MEM_BASE <= a -> a + Z.of_nat n * 4096 <= mem_top st ->
  (forall i, 0 <= i < Z.of_nat n -> bitmap_is_used (idx a + i) (bitmap st) = false) ->
  (forall i, 0 <= i < Z.of_nat n -> page_ok st (a + i * 4096) /\ (a + i * 4096 ∉ live)) /\
  mem_inv (set_bitmap (loop (fun i b => bitmap_set_used (idx a + i) b) 0 n (bitmap st)) st)
    (run_pages a (Z.of_nat n) ∪ live).
Proof.
  intros Hinv Ha Hb Ht Hfree. pose proof (mi_top _ _ Hinv) as Hcap.
  assert (Hok : forall i, 0 <= i < Z.of_nat n -> page_ok st (a + i * 4096)).
  { intros i Hi. split_and!; [by rewrite Z.mod_add by lia | lia | lia]. }
  assert (Hfresh : forall i, 0 <= i < Z.of_nat n -> (a + i * 4096 ∉ live) /\
            forall k, 0 <= k < free_list_count st -> (free_list st !!! k) <> a + i * 4096).
  { intros i Hi. destruct (Hok _ Hi) as (? & ? & ?).
    destruct (claim_fresh st live (a + i * 4096)) as (_ & ? & ?); try done; [lia|].
    rewrite idx_add by done. by apply Hfree. }
  split; [intros i Hi; split; [by apply Hok | by apply Hfresh] |].
  set (P := fun i b => 0 <= i -> i <= Z.of_nat n -> mem_inv (set_bitmap b st) (run_pages a i ∪ live) /\
        forall j, 0 <= j < bits -> bitmap_is_used j b =
          bitmap_is_used j (bitmap st) || ((idx a <=? j) && (j <? idx a + i))).
  assert (HP : P (0 + Z.of_nat n) (loop (fun i b => bitmap_set_used (idx a + i) b) 0 n (bitmap st))).
  { apply loop_ind.
    - intros _ _. split.
      + replace (run_pages a 0 ∪ live) with live; [by destruct st|]. apply set_eq. intros x.
        rewrite elem_of_union, elem_run_pages. split; [by right | intros [(i & ? & _)|]; [lia|done]].
      + intros j Hj. bdestruct_all; try lia; by rewrite orb_false_r.
    - intros i b Hi HPi _ _. destruct (HPi ltac:(lia) ltac:(lia)) as [Hm Hbits]. clear HPi.
      assert (Hi' : 0 <= i < Z.of_nat n) by lia.
      destruct (Hfresh _ Hi') as [Hf1 Hf2]. pose proof (Hok _ Hi') as Hpo.
      pose proof (page_idx_range _ _ Hcap Hpo) as Hr. rewrite idx_add in Hr by done.
      pose proof (page_idx_range _ _ Hcap (Hok 0 ltac:(lia))) as Hr0. rewrite idx_add in Hr0 by done.
      split.
      + rewrite run_pages_S by lia. rewrite <- (union_assoc_L _ _ live).
        rewrite <- idx_add by done. apply (set_used_inv (set_bitmap b st)); try done.
        rewrite not_elem_of_union. split; [|done].
        rewrite elem_run_pages. intros (k & ? & ?). lia.
      + intros j Hj. rewrite set_used_spec, Hbits by lia.
        destruct (bitmap_is_used j (bitmap st)); bdestruct_all; try lia; done. }
  rewrite Z.add_0_l in HP. destruct (HP ltac:(lia) ltac:(lia)) as [Hm _]. exact Hm.
Qed.

(** Zeroing the run only changes the machine. *)
Lemma zero_loop_inv a n st live :
  mem_inv st live -> mem_inv (loop (fun i st => zero_page (a + i * PAGE_SIZE) st) 0 n st) live.
Proof.
  intros H. apply (loop_ind (fun _ st => mem_inv st live)); [done|].
  intros i s _ Hs. by apply set_mach_inv.
Qed.

(** The contiguous search returns a run of [count] whole, unheld, zeroable
    pages at or above its start and marks them held; on failure it changes
    nothing. *)
Lemma find_and_claim_contig_spec st live search_start count a st' :
  mem_inv st live -> MEM_BASE <= search_start <= MEM_CAP -> search_start mod 4096 = 0 ->
  count <= 2 ^ 31 -> find_and_claim_contig search_start count st = (a, st') ->
  (a = 0 /\ st' = st) \/
  (search_start <= a /\ 0 < count /\
   (forall i, 0 <= i < count -> page_ok st (a + i * 4096) /\ (a + i * 4096 ∉ live)) /\
   mem_inv st' (run_pages a count ∪ live)).
Proof.
  intros Hinv Hss Hsa Hc. unfold find_and_claim_contig.
  destruct (Z.leb_spec count 0); [intros [= <- <-]; by left|].
  destruct (search_while _ _ _ _ _) as [start|] eqn:Es; [|intros [= <- <-]; by left].
  intros Heq. injection Heq as -> <-. right.
  destruct (search_while_Some _ _ _ _ _ _ Es) as (k & Hk & -> & Hcond & Hfree).
  pose proof (mi_top _ _ Hinv) as Hcap. unfold PAGE_SIZE in *.
  set (a := search_start + k * 4096) in *.
  assert (Ha0 : MEM_BASE <= a) by (unfold a; lia).
  assert (Hamod : a mod 4096 = 0) by (unfold a; by rewrite Z.mod_add by lia).
  assert (Hbound : a + count * 4096 <= mem_top st).
  { apply Z.leb_le in Hcond. rewrite u64_small in Hcond; [done|].
    unfold contig_fuel, trips, in_u64, a in *. mem_unfold. Z.div_mod_to_equations; lia. }
  assert (Hunused : forall i, 0 <= i < Z.of_nat (Z.to_nat count) ->
            bitmap_is_used (idx a + i) (bitmap st) = false).
  { unfold run_free in Hfree. destruct (scan _ 0 _) eqn:Esc; [done|].
    intros i Hi. apply (proj1 (scan_None _ _ _) Esc). lia. }
  destruct (claim_loop st live a (Z.to_nat count)) as [Hpages Hm]; try done; [lia|].
  rewrite Z2Nat.id in Hpages, Hm by lia. split_and!; [unfold a; lia | lia | done |].
  by apply zero_loop_inv.
Qed.

(** ** Refinement of an abstract page store *)

Inductive mem_op := OpAlloc | OpFree (a : Z) | OpContig (n : Z) | OpDma (n : Z).

Definition run_op (op : mem_op) (st : mem_state) : Z * mem_state :=
  match op with
  | OpAlloc => alloc_page st
  | OpFree a => (0, free_page a st)
  | OpContig n => alloc_pages_contig n st
  | OpDma n => alloc_dma_pages n st
  end.

(** The abstract store is the set of held pages: an allocation adds pages
    nobody holds, or fails and adds none; a free removes a held page. *)
Inductive abs_step : gset Z -> mem_op -> Z -> gset Z -> Prop :=
| abs_alloc_fail live op : abs_step live op 0 live
| abs_alloc live a : a ∉ live -> a <> 0 -> abs_step live OpAlloc a ({[a]} ∪ live)
| abs_free live a : a ∈ live -> abs_step live (OpFree a) 0 (live ∖ {[a]})
| abs_contig live a n : (forall x, x ∈ run_pages a n -> x ∉ live) ->
    abs_step live (OpContig n) a (run_pages a n ∪ live)
| abs_dma live a n : (forall x, x ∈ run_pages a n -> x ∉ live) -> 0x200000 <= a ->
    abs_step live (OpDma n) a (run_pages a n ∪ live).

(** Clients free only what they hold and ask for at most [INT_MAX] pages. *)
Definition op_legal (live : gset Z) (op : mem_op) : Prop :=
  match op with
  | OpAlloc => True | OpFree a => a ∈ live | OpContig n | OpDma n => n <= 2 ^ 31
  end.

(** C15: every allocator operation refines a step of the abstract page store, so
    no history of legal calls makes two clients hold the same page. *)
Theorem allocator_refines_page_store st live op r st' :
  mem_inv st live -> op_legal live op -> run_op op st = (r, st') ->
  exists live', abs_step live op r live' /\ mem_inv st' live'.
Proof.
  intros Hinv Hlegal Hrun. destruct op as [|a|n|n]; cbn in Hlegal, Hrun.
  - destruct (alloc_page_spec _ _ _ _ Hinv Hrun) as [(-> & H & _)|(? & ? & ? & ? & _)];
      eexists; split; eauto using abs_step.
  - injection Hrun as <- <-. exists (live ∖ {[a]}). split; [by constructor | by apply free_page_spec].
  - destruct (find_and_claim_contig_spec _ _ MEM_BASE n _ _ Hinv ltac:(done) ltac:(done) Hlegal Hrun)
      as [[-> ->]|(? & ? & Hp & ?)]; eexists; (split; [|eauto]); constructor.
    intros x (i & Hi & ->)%elem_run_pages. by apply Hp.
  - destruct (find_and_claim_contig_spec _ _ 0x200000 n _ _ Hinv ltac:(done) ltac:(done) Hlegal Hrun)
      as [[-> ->]|(? & ? & Hp & ?)]; eexists; (split; [|eauto]); constructor; [|done].
    intros x (i & Hi & ->)%elem_run_pages. by apply Hp.
Qed.

(** ** Initialisation *)

Lemma mark_range_spec base end_ b j :
  MEM_BASE <= base -> base + 4096 < 2 ^ 64 -> 0 <= end_ -> 0 <= j ->
  bitmap_is_used j (mark_range_free base end_ b) =
  negb ((base <=? MEM_BASE + j * 4096) && (MEM_BASE + (j + 1) * 4096 <=? end_)) && bitmap_is_used j b.
Proof.
  intros Hb Hw He Hj. unfold mark_range_free. rewrite u64_small by (unfold in_u64; mem_unfold; lia).
  rewrite !page_align_spec by (mem_unfold; lia). mem_unfold.
  set (lo := (base + 4096 - 1) / 4096 * 4096). set (hi := end_ / 4096 * 4096).
  assert (Hlo : lo mod 4096 = 0 /\ base <= lo < base + 4096) by (unfold lo; zdm).
  assert (Hhi : hi mod 4096 = 0 /\ hi <= end_ < hi + 4096) by (unfold hi; zdm). clearbody lo hi.
  assert (Hin : (base <=? 0x100000 + j * 4096) && (0x100000 + (j + 1) * 4096 <=? end_) =
                (lo <=? 0x100000 + j * 4096) && (0x100000 + j * 4096 <? hi)).
  { apply eq_iff_eq_true. rewrite !andb_true_iff, !Z.leb_le, Z.ltb_lt. Z.div_mod_to_equations; lia. }
  rewrite Hin. destruct (Z.leb_spec hi lo).
  { bdestruct_all; try lia; done. }
  unfold for_step.
  set (P := fun k b' => 0 <= k -> bitmap_is_used j b' =
      negb ((lo <=? 0x100000 + j * 4096) && (0x100000 + j * 4096 <? lo + k * 4096)) && bitmap_is_used j b).
  assert (HP : P (0 + Z.of_nat (trips lo hi 4096))
    (loop (fun k s => bitmap_clear_used ((lo + k * 4096 - 0x100000) / 4096) s) 0 (trips lo hi 4096) b)).
  { apply loop_ind.
    - intros _. bdestruct_all; try lia; done.
    - intros k b' Hk HPk _. rewrite clear_used_spec, HPk by (Z.div_mod_to_equations; lia).
      destruct (Z.eqb_spec j ((lo + k * 4096 - 0x100000) / 4096)) as [E|];
        destruct (bitmap_is_used j b); rewrite ?andb_false_r, ?andb_true_r; try done; cbn [negb];
        bdestruct_all; try done; exfalso; Z.div_mod_to_equations; lia. }
  rewrite (HP ltac:(lia)). do 3 f_equal.
  assert (Ht : 0x100000 + j * 4096 < lo + (0 + Z.of_nat (trips lo hi 4096)) * 4096 <-> 0x100000 + j * 4096 < hi).
  { unfold trips. Z.div_mod_to_equations; lia. }
  apply eq_iff_eq_true. rewrite !Z.ltb_lt. exact Ht.
Qed.

Definition region_ok (r : Z * Z) : Prop := in_u64 r.1 /\ in_u64 r.2.
Definition page_in_region (j : Z) (r : Z * Z) : Prop :=
  r.1 <= MEM_BASE + j * 4096 /\ MEM_BASE + (j + 1) * 4096 <= u64 (r.1 + r.2).

(** Every page the bitmap shows free is whole and inside a region seen so far. *)
Definition init_inv (seen : list (Z * Z)) (acc : Z * gmap Z Z) : Prop :=
  0 <= acc.1 <= MEM_CAP /\
  forall j, 0 <= j < bits -> bitmap_is_used j acc.2 = false ->
    MEM_BASE + (j + 1) * 4096 <= acc.1 /\ exists r, r ∈ seen /\ page_in_region j r.

Lemma init_region_inv seen r acc :
  region_ok r -> init_inv seen acc -> init_inv (seen ++ [r]) (init_region r acc).
Proof.
  intros [Hr1 Hr2] [Htop Hbits]. destruct acc as [top b]; cbn [fst snd] in *.
  assert (Hmono : forall j, 0 <= j < bits -> bitmap_is_used j b = false ->
            MEM_BASE + (j + 1) * 4096 <= top /\ exists r', r' ∈ seen ++ [r] /\ page_in_region j r').
  { intros j Hj Hu. destruct (Hbits j Hj Hu) as (? & r' & ? & ?). split; [done|].
    exists r'. rewrite elem_of_app. auto. }
  unfold init_region. pose proof (u64_range (r.1 + r.2)) as He. unfold in_u64 in *.
  set (base := if r.1 <? MEM_BASE then MEM_BASE else r.1).
  set (end_ := if MEM_CAP <? u64 (r.1 + r.2) then MEM_CAP else u64 (r.1 + r.2)).
  assert (Hbase : MEM_BASE <= base /\ r.1 <= base)
    by (unfold base; destruct (Z.ltb_spec r.1 MEM_BASE); lia).
  assert (Hend : 0 <= end_ <= MEM_CAP /\ end_ <= u64 (r.1 + r.2))
    by (unfold end_; destruct (Z.ltb_spec MEM_CAP (u64 (r.1 + r.2))); mem_unfold; lia).
  clearbody base end_. destruct (Z.leb_spec end_ base); [split; cbn; done|].
  set (top' := if top <? end_ then end_ else top).
  assert (Htop' : top <= top' /\ end_ <= top' /\ top' <= MEM_CAP)
    by (unfold top'; destruct (Z.ltb_spec top end_); lia).
  clearbody top'. split; cbn [fst snd]; [mem_unfold; lia|].
  intros j Hj Hu. rewrite mark_range_spec in Hu by (mem_unfold; lia).
  destruct (bitmap_is_used j b) eqn:Eb.
  - rewrite andb_true_r in Hu. breflect. split; [lia|]. exists r. split; [|split; lia].
    rewrite elem_of_app, list_elem_of_singleton. auto.
  - destruct (Hmono j Hj Eb) as (? & ?). split; [lia|done].
Qed.

Lemma init_fold regions : forall seen acc,
  Forall region_ok regions -> init_inv seen acc ->
  init_inv (seen ++ regions) (fold_left (fun acc r => init_region r acc) regions acc).
Proof.
  induction regions as [|r rs IH]; intros seen acc Hok Hinv; cbn [fold_left].
  - by rewrite app_nil_r.
  - inversion_clear Hok. rewrite cons_middle, app_assoc. apply IH; [done|]. by apply init_region_inv.
Qed.

Lemma all_used j b : 0 <= j < bits ->
  bitmap_is_used j (fill 0 (fun _ => 0xFF) 0 (Z.to_nat BITMAP_SIZE) b) = true.
Proof.
  intros. rewrite bit_mask_test by lia. rewrite fill_in by (mem_unfold; Z.div_mod_to_equations; lia).
  change 0xFF with (Z.ones 8). apply Z.ones_spec_low. apply Z.mod_pos_bound. lia.
Qed.

(** The conservative range, used when the map yields nothing above 1MB. *)
Definition in_fallback (j : Z) : Prop := MEM_BASE + (j + 1) * 4096 <= FALLBACK_TOP.

Lemma fallback_bits j b : 0 <= j < bits -> bitmap_is_used j b = true ->
  bitmap_is_used j (mark_range_free MEM_BASE FALLBACK_TOP b) = false -> in_fallback j.
Proof.
  intros Hj Hb Hu. rewrite mark_range_spec in Hu; [|unfold FALLBACK_TOP, MEM_BASE; lia..].
  rewrite Hb, andb_true_r in Hu. breflect. done.
Qed.

#[local] Opaque mark_range_free.

(** The state and the bitmap after [memory_init]. *)
Lemma memory_init_ok regions st :
  Forall region_ok regions -> free_list_count st = 0 ->
  mem_inv (memory_init regions st) ∅ /\
  forall j, 0 <= j < bits -> bitmap_is_used j (bitmap (memory_init regions st)) = false ->
    (exists r, r ∈ regions /\ page_in_region j r) \/ in_fallback j.
Proof.
  intros Hok Hfl. unfold memory_init.
  set (b0 := fill 0 (fun _ => 0xFF) 0 (Z.to_nat BITMAP_SIZE) (bitmap st)).
  assert (Hb0 : forall j, 0 <= j < bits -> bitmap_is_used j b0 = true) by (intros; by apply all_used).
  clearbody b0.
  assert (Hwrap : forall b t, 0 <= t <= MEM_CAP ->
    (forall j, 0 <= j < bits -> bitmap_is_used j b = false -> MEM_BASE + (j + 1) * 4096 <= t) ->
    mem_inv (MemState b MEM_BASE t (free_list st) (free_list_count st) (mach st)) ∅).
  { intros b t Ht Hb. split; cbn; rewrite ?Hfl; try done; try (intros; lia); try (intros ? []%not_elem_of_empty). }
  assert (Hfall : forall b, (forall j, 0 <= j < bits -> bitmap_is_used j b = true) ->
    forall j, 0 <= j < bits -> bitmap_is_used j (mark_range_free MEM_BASE FALLBACK_TOP b) = false -> in_fallback j).
  { intros b Hb j Hj. apply fallback_bits; [done | by apply Hb]. }
  destruct regions as [|r rs].
  - split; [|intros j Hj Hu; right; exact (Hfall b0 Hb0 j Hj Hu)].
    apply Hwrap; [done | exact (Hfall b0 Hb0)].
  - pose proof (init_fold (r :: rs) [] (0, b0) Hok) as Hfold. rewrite app_nil_l in Hfold.
    destruct (fold_left _ (r :: rs) (0, b0)) as [top b]. destruct Hfold as [Htop Hbits].
    { split; cbn; [mem_unfold; lia|]. intros j Hj Hu. by rewrite Hb0 in Hu. }
    cbn [fst snd] in *. destruct (Z.leb_spec top MEM_BASE).
    + assert (Hall : forall j, 0 <= j < bits -> bitmap_is_used j b = true).
      { intros j Hj. destruct (bitmap_is_used j b) eqn:E; [done|]. destruct (Hbits j Hj E). mem_unfold. lia. }
      split; [|intros j Hj Hu; right; exact (Hfall b Hall j Hj Hu)].
      apply Hwrap; [done | exact (Hfall b Hall)].
    + split; [|intros j Hj Hu; left; by apply Hbits].
      apply Hwrap; [lia|]. intros j Hj Hu. by apply Hbits.
Qed.

(** after [memory_init] on any firmware map no page is held, and a page the
    allocator may hand out lies wholly inside a reported region (or inside the
    fallback range when the map has nothing usable above 1MB), below the cap. *)
Theorem memory_init_sound regions st :
  Forall region_ok regions -> free_list_count st = 0 ->
  mem_inv (memory_init regions st) ∅ /\
  forall j, 0 <= j < bits -> bitmap_is_used j (bitmap (memory_init regions st)) = false ->
    (exists r, r ∈ regions /\ page_in_region j r) \/ in_fallback j.
Proof. by apply memory_init_ok. Qed.

(** The state of the static variables before [memory_init]. *)
Definition mem_boot : mem_state := MemState ∅ 0 0 ∅ 0 (Machine ∅ BOOT_PML4_PHYS_BASE false).

(** A 15MB machine: no firmware map, so the fallback range is used. *)
Definition mem_demo : mem_state := memory_init [] mem_boot.

Lemma mem_demo_inv : mem_inv mem_demo ∅.
Proof. apply memory_init_ok; [constructor | reflexivity]. Qed.

Lemma allocator_refines_page_store_witness :
  exists live', abs_step ∅ OpAlloc (alloc_page mem_demo).1 live' /\ mem_inv (alloc_page mem_demo).2 live'.
Proof.
  exact (allocator_refines_page_store mem_demo ∅ OpAlloc (alloc_page mem_demo).1 (alloc_page mem_demo).2
           mem_demo_inv I (surjective_pairing (alloc_page mem_demo))).
Defined.

Lemma bitmap_index_in_bounds_witness : 0 <= ((0xFFFF000 - MEM_BASE) / PAGE_SIZE) / 8 < BITMAP_SIZE.
Proof. apply (bitmap_index_in_bounds 0xFFFF000). unfold MEM_BASE, MEM_CAP. lia. Defined.

Lemma memory_init_sound_witness :
  mem_inv (memory_init [(0, 0x9FC00); (0x100000, 0x7EE0000)] mem_boot) ∅ /\
  forall j, 0 <= j < bits ->
    bitmap_is_used j (bitmap (memory_init [(0, 0x9FC00); (0x100000, 0x7EE0000)] mem_boot)) = false ->
    (exists r, r ∈ [(0, 0x9FC00); (0x100000, 0x7EE0000)] /\ page_in_region j r) \/ in_fallback j.
Proof.
  apply (memory_init_sound [(0, 0x9FC00); (0x100000, 0x7EE0000)] mem_boot); [|reflexivity].
  repeat constructor; cbn; lia.
Defined.
