(* ===== verification/Storage.v ===== *)
(** * Object store

    Models [src/core/storage.c] (and the constants of
    [src/include/vajra/storage.h]) over the [BlockDevice] interface, which is
    what [hal_disk_read]/[hal_disk_write] promise.  A C string argument is the
    function reading its bytes; characters are bytes. *)
From S2P Require Import Prelude.

(** ** The block-device interface *)

(** [disk_read lba n buf d] and [disk_write lba n buf d] return the C result
    code, the caller's buffer and the device. *)
Class BlockDevice (D : Type) := {
  disk_read : Z -> Z -> gmap Z Z -> D -> Z * gmap Z Z * D;
  disk_write : Z -> Z -> gmap Z Z -> D -> Z * D;
  disk_byte : D -> Z -> Z
}.

(** A run of sectors a 28-bit LBA command can address. *)
Definition sectors_ok (lba n : Z) : Prop := 0 <= lba /\ 0 < n <= 255 /\ lba + n <= 2 ^ 28.

Class BlockDeviceLaws (D : Type) `{!BlockDevice D} : Prop := {
  disk_byte_u8 : forall d x, in_u8 (disk_byte d x);
  disk_read_spec : forall lba n buf d rc buf' d',
    disk_read lba n buf d = (rc, buf', d') -> 0 <= n ->
    (rc = 0 -> sectors_ok lba n ->
       forall i, 0 <= i < n * 512 -> buf' !!! i = disk_byte d (lba * 512 + i)) /\
    (forall i, n * 512 <= i -> buf' !!! i = buf !!! i) /\
    forall x, disk_byte d' x = disk_byte d x;
  disk_write_spec : forall lba n buf d rc d',
    disk_write lba n buf d = (rc, d') -> sectors_ok lba n ->
    (rc = 0 -> (forall i, 0 <= i < n * 512 -> in_u8 (buf !!! i)) ->
       forall i, 0 <= i < n * 512 -> disk_byte d' (lba * 512 + i) = buf !!! i) /\
    forall x, x < lba * 512 \/ (lba + n) * 512 <= x -> disk_byte d' x = disk_byte d x
}.

(** ** Constants and state *)

Definition OBJ_UNTRUSTED : Z := 0.
Definition OBJ_QUARANTINED : Z := 1.
Definition OBJ_ANALYZED : Z := 2.
Definition OBJ_TRUSTED : Z := 3.
Definition OBJ_REJECTED : Z := 4.

Definition MAX_OBJECTS : Z := 8.
Definition SECTORS_PER_OBJECT : Z := 4.
Definition OBJECT_MAX_BYTES : Z := SECTORS_PER_OBJECT * 512.
Definition OBJECT_DATA_BASE_LBA : Z := 130.
Definition DIRECTORY_LBA : Z := 125.
Definition DIRECTORY_MAGIC : Z := 0x52494456.

Record object := Object {
  in_use : Z; name : gmap Z Z; lba : Z; size_bytes : Z; trust : Z
}.
#[export] Instance object_inhabited : Inhabited object := populate (Object 0 ∅ 0 0 0).

Record storage (D : Type) := Storage {
  objects : gmap Z object; object_count : Z; scratch : gmap Z Z; dir_buf : gmap Z Z; disk : D
}.
Arguments Storage {D}. Arguments objects {D}. Arguments object_count {D}.
Arguments scratch {D}. Arguments dir_buf {D}. Arguments disk {D}.

Section storage.
Context {D : Type} `{!BlockDevice D}.
Implicit Types (st : storage D) (nm : Z -> Z).

Definition obj st (id : Z) : object := objects st !!! id.
Definition set_obj (id : Z) (o : object) st : storage D :=
  Storage (<[id := o]> (objects st)) (object_count st) (scratch st) (dir_buf st) (disk st).
Definition set_count (n : Z) st : storage D :=
  Storage (objects st) n (scratch st) (dir_buf st) (disk st).
Definition set_scratch (b : gmap Z Z) (d : D) st : storage D :=
  Storage (objects st) (object_count st) b (dir_buf st) d.
Definition set_dir (b : gmap Z Z) (d : D) st : storage D :=
  Storage (objects st) (object_count st) (scratch st) b d.

(** ** Names *)

Fixpoint name_eq_from (n : nat) (i : Z) (stored : gmap Z Z) (given : Z -> Z) : bool :=
  match n with
  | O => true
  | S n =>
      if negb (stored !!! i =? given i) then false
      else if stored !!! i =? 0 then true
      else name_eq_from n (i + 1) stored given
  end.
Definition name_eq (stored : gmap Z Z) (given : Z -> Z) : bool := name_eq_from 16 0 stored given.

Definition live st (id : Z) : bool := negb (in_use (obj st id) =? 0).

Definition find_by_name nm st : Z :=
  match scan (fun id => live st id && name_eq (name (obj st id)) nm) 0 (Z.to_nat (object_count st)) with
  | Some id => id
  | None => -1
  end.

(** [for (; i < 15 && src[i]; i++) dst[i] = src[i]; dst[i] = 0;] *)
Definition name_len (src : Z -> Z) : Z :=
  match scan (fun i => src i =? 0) 0 15 with Some i => i | None => 15 end.
Definition copy_name (base : Z) (src : Z -> Z) (dst : gmap Z Z) : gmap Z Z :=
  <[base + name_len src := 0]> (fill base src 0 (Z.to_nat (name_len src)) dst).

(** ** The on-disk directory *)

Definition save_entry (id : Z) (o : object) (buf : gmap Z Z) : gmap Z Z :=
  let off := 8 + id * 32 in
  let buf := <[off + 0 := u8 (in_use o)]> buf in
  let buf := <[off + 1 := u8 (trust o)]> buf in
  let buf := <[off + 4 := u8 (size_bytes o)]> buf in
  let buf := <[off + 5 := u8 (size_bytes o .>>. 8)]> buf in
  let buf := <[off + 6 := u8 (size_bytes o .>>. 16)]> buf in
  let buf := <[off + 7 := u8 (size_bytes o .>>. 24)]> buf in
  copy_name (off + 8) (fun j => u8 (name o !!! j)) buf.

Definition directory_bytes st : gmap Z Z :=
  let buf := fill 0 (fun _ => 0) 0 512 (dir_buf st) in
  let buf := <[0 := u8 DIRECTORY_MAGIC]> buf in
  let buf := <[1 := u8 (DIRECTORY_MAGIC .>>. 8)]> buf in
  let buf := <[2 := u8 (DIRECTORY_MAGIC .>>. 16)]> buf in
  let buf := <[3 := u8 (DIRECTORY_MAGIC .>>. 24)]> buf in
  let buf := <[4 := u8 (object_count st)]> buf in
  loop (fun id buf => save_entry id (obj st id) buf) 0 (Z.to_nat (object_count st)) buf.

(** The result of the directory write is not looked at. *)
Definition directory_save st : storage D :=
  let buf := directory_bytes st in
  let '(_, d) := disk_write DIRECTORY_LBA 1 buf (disk st) in
  set_dir buf d st.

Definition load_entry (id : Z) (buf : gmap Z Z) (o : object) : object :=
  let off := 8 + id * 32 in
  Object (buf !!! (off + 0))
    (copy_name 0 (fun j => buf !!! (off + 8 + j)) (name o))
    (OBJECT_DATA_BASE_LBA + id * SECTORS_PER_OBJECT)
    (le32 (buf !!! (off + 4)) (buf !!! (off + 5)) (buf !!! (off + 6)) (buf !!! (off + 7)))
    (buf !!! (off + 1)).

Definition directory_load st : storage D :=
  let '(rc, buf, d) := disk_read DIRECTORY_LBA 1 (dir_buf st) (disk st) in
  let st := set_dir buf d st in
  if negb (rc =? 0) then st
  else
    let magic := le32 (buf !!! 0) (buf !!! 1) (buf !!! 2) (buf !!! 3) in
    if negb (magic =? DIRECTORY_MAGIC) then st
    else
      let count := buf !!! 4 in
      let count := if MAX_OBJECTS <? count then MAX_OBJECTS else count in
      let st := loop (fun id st => set_obj id (load_entry id buf (obj st id)) st) 0 (Z.to_nat count) st in
      set_count count st.

Definition storage_init st : storage D :=
  let st := loop (fun i st =>
      set_obj i (Object 0 (<[0 := 0]> (name (obj st i))) 0 0 OBJ_UNTRUSTED) st)
    0 (Z.to_nat MAX_OBJECTS) st in
  directory_load (set_count 0 st).

(** ** Creation and lookup *)

Definition init_object (id : Z) nm st : Z * storage D :=
  (id, directory_save
         (set_obj id (Object 1 (copy_name 0 nm (name (obj st id)))
                        (OBJECT_DATA_BASE_LBA + id * SECTORS_PER_OBJECT) 0 OBJ_UNTRUSTED) st)).

Definition alloc_object nm st : Z * storage D :=
  match scan (fun i => in_use (obj st i) =? 0) 0 (Z.to_nat (object_count st)) with
  | Some id => init_object id nm st
  | None =>
      if MAX_OBJECTS <=? object_count st then (-1, st)
      else init_object (object_count st) nm (set_count (object_count st + 1) st)
  end.

Definition storage_create_object nm st : Z * storage D :=
  let existing := find_by_name nm st in
  if 0 <=? existing then (existing, st) else alloc_object nm st.

Definition storage_create_named nm st : Z * storage D :=
  if 0 <=? find_by_name nm st then (-1, st) else alloc_object nm st.

Definition storage_lookup_by_name nm st : Z := find_by_name nm st.

(** The [nth] live object: its id, or [None] past the end.  The loop counts
    live objects in [seen]. *)
Fixpoint nth_live (n : nat) (id seen nth : Z) st : option Z :=
  match n with
  | O => None
  | S n =>
      if negb (live st id) then nth_live n (id + 1) seen nth st
      else if seen =? nth then Some id
      else nth_live n (id + 1) (seen + 1) nth st
  end.

Record index_out := IndexOut { io_name : gmap Z Z; io_id : Z; io_trust : Z; io_size : Z }.

(** The out-parameters keep their old contents [out] where nothing is written;
    [name_out] is written up to and including its NUL only. *)
Definition storage_get_by_index (nth : Z) (out : index_out) st : Z * index_out :=
  match nth_live (Z.to_nat (object_count st)) 0 0 nth st with
  | Some id =>
      (1, IndexOut (copy_name 0 (fun j => name (obj st id) !!! j) (io_name out)) id
            (trust (obj st id)) (size_bytes (obj st id)))
  | None => (0, out)
  end.

(** ** Rename, delete, read, write, trust *)

Definition storage_rename (id : Z) nm st : Z * storage D :=
  if (id <? 0) || (object_count st <=? id) || negb (live st id) then (-1, st)
  else
    let existing := find_by_name nm st in
    if (0 <=? existing) && negb (existing =? id) then (-1, st)
    else
      let o := obj st id in
      (0, directory_save (set_obj id (Object (in_use o) (copy_name 0 nm (name o)) (lba o)
                                        (size_bytes o) (trust o)) st)).

Definition storage_delete (id : Z) st : Z * storage D :=
  if (id <? 0) || (object_count st <=? id) || negb (live st id) then (-1, st)
  else
    let o := obj st id in
    (0, directory_save (set_obj id (Object 0 (<[0 := 0]> (name o)) (lba o) 0 OBJ_UNTRUSTED) st)).

(** The check the id-based operations share. *)
Definition bad_id (id : Z) st : bool := (id <? 0) || (MAX_OBJECTS <=? id) || negb (live st id).

Definition storage_read (id : Z) (buf : gmap Z Z) (buf_len : Z) st : Z * gmap Z Z * storage D :=
  if bad_id id st then (-1, buf, st)
  else if trust (obj st id) =? OBJ_REJECTED then (-1, buf, st)
  else
    let '(rc, sc, d) := disk_read (lba (obj st id)) SECTORS_PER_OBJECT (scratch st) (disk st) in
    let st := set_scratch sc d st in
    if negb (rc =? 0) then (-1, buf, st)
    else
      let n := size_bytes (obj st id) in
      let n := if buf_len <? n then buf_len else n in
      (int32 n, fill 0 (fun i => sc !!! i) 0 (Z.to_nat n) buf, st).

Definition storage_write (id : Z) (buf : Z -> Z) (len : Z) st : Z * storage D :=
  if bad_id id st then (-1, st)
  else if OBJECT_MAX_BYTES <? len then (-1, st)
  else
    let sc := fill 0 (fun i => if i <? len then buf i else 0) 0 (Z.to_nat OBJECT_MAX_BYTES) (scratch st) in
    let '(rc, d) := disk_write (lba (obj st id)) SECTORS_PER_OBJECT sc (disk st) in
    let st := set_scratch sc d st in
    if negb (rc =? 0) then (-1, st)
    else
      let o := obj st id in
      (int32 len, directory_save (set_obj id (Object (in_use o) (name o) (lba o) len OBJ_UNTRUSTED) st)).

Definition with_trust (t : Z) (o : object) : object :=
  Object (in_use o) (name o) (lba o) (size_bytes o) t.

Definition storage_promote (id : Z) st : Z * storage D :=
  if bad_id id st then (-1, st)
  else
    let o := obj st id in
    if (trust o =? OBJ_TRUSTED) || (trust o =? OBJ_REJECTED) then (-1, st)
    else (trust o + 1, directory_save (set_obj id (with_trust (trust o + 1) o) st)).

Definition storage_reject (id : Z) st : Z * storage D :=
  if bad_id id st then (-1, st)
  else (0, directory_save (set_obj id (with_trust OBJ_REJECTED (obj st id)) st)).

Definition storage_get_trust (id : Z) st : Z :=
  if bad_id id st then -1 else trust (obj st id).

End storage.

(** ** Names as C strings *)

(** A stored name: NUL-terminated within its 16 bytes. *)
Definition stored_ok (s : Z -> Z) : Prop := exists k, 0 <= k <= 15 /\ s k = 0.

(** Two C strings are equal: same bytes up to and including the first NUL. *)
Definition same_str (a b : Z -> Z) : Prop :=
  forall j, 0 <= j <= name_len a -> a j = b j.

Lemma name_len_range s : 0 <= name_len s <= 15.
Proof.
  unfold name_len. destruct (scan _ 0 15) eqn:E; [|lia]. apply scan_Some in E as (? & _). lia.
Qed.

Lemma name_len_before s j : 0 <= j < name_len s -> s j <> 0.
Proof.
  unfold name_len. destruct (scan _ 0 15) as [k|] eqn:E; intros Hj Hz.
  - apply scan_Some in E as (_ & _ & Hmin). specialize (Hmin j Hj). cbn in Hmin. breflect. done.
  - apply (proj1 (scan_None _ _ _)) with (j := j) in E; [|lia]. cbn in E. breflect. done.
Qed.

Lemma name_len_at s : name_len s < 15 -> s (name_len s) = 0.
Proof.
  unfold name_len. destruct (scan _ 0 15) as [k|] eqn:E; [|lia]. intros _.
  apply scan_Some in E as (_ & Hz & _). by breflect.
Qed.

Lemma name_len_stored s : stored_ok s -> s (name_len s) = 0.
Proof.
  intros (k & Hk & Hz). pose proof (name_len_range s).
  destruct (decide (name_len s < 15)); [by apply name_len_at|].
  destruct (decide (k < name_len s)); [by destruct (name_len_before s k); lia|].
  replace (name_len s) with k by lia. done.
Qed.

Lemma name_len_unique s n : 0 <= n <= 15 -> (forall j, 0 <= j < n -> s j <> 0) ->
  (n < 15 -> s n = 0) -> name_len s = n.
Proof.
  intros Hn Hb Ha. pose proof (name_len_range s).
  destruct (Z.lt_trichotomy (name_len s) n) as [Hlt|[?|Hgt]]; [|done|].
  - destruct (Hb (name_len s)); [lia|]. apply name_len_at. lia.
  - destruct (name_len_before s n); [lia|]. apply Ha. lia.
Qed.

Lemma name_eq_from_spec n i stored given :
  name_eq_from n i stored given = true <->
  forall j, i <= j < i + Z.of_nat n -> (forall k, i <= k < j -> stored !!! k <> 0) ->
    stored !!! j = given j.
Proof.
  revert i; induction n as [|n IH]; intros i; cbn [name_eq_from].
  - split; [intros; lia | done].
  - destruct (Z.eqb_spec (stored !!! i) (given i)) as [E|E]; cbn [negb].
    + destruct (Z.eqb_spec (stored !!! i) 0) as [Ez|Ez].
      * split; [|done]. intros _ j Hj Hk. destruct (decide (j = i)) as [->|]; [done|].
        by destruct (Hk i ltac:(lia)).
      * rewrite IH. split.
        -- intros H j Hj Hk. destruct (decide (j = i)) as [->|]; [done|]. apply H; [lia|].
           intros; apply Hk; lia.
        -- intros H j Hj Hk. apply H; [lia|]. intros k ?. destruct (decide (k = i)) as [->|]; [done|].
           apply Hk; lia.
    + split; [done|]. intros H. destruct E. apply H; [lia | intros; lia].
Qed.

Lemma name_eq_spec stored given : stored_ok (fun j => stored !!! j) ->
  name_eq stored given = true <-> same_str (fun j => stored !!! j) given.
Proof.
  intros Hs. pose proof (name_len_range (fun j => stored !!! j)) as Hr.
  unfold name_eq, same_str. rewrite name_eq_from_spec. split.
  - intros H j Hj. apply H; [lia|]. intros k Hk. apply (name_len_before (fun j => stored !!! j)). lia.
  - intros H j Hj Hk. destruct (decide (j <= name_len (fun j => stored !!! j))); [by apply H; lia|].
    destruct (Hk (name_len (fun j => stored !!! j))); [lia|].
    exact (name_len_stored _ Hs).
Qed.

Lemma copy_name_get base src dst j :
  copy_name base src dst !!! j =
  if j =? base + name_len src then 0
  else if (base <=? j) && (j <? base + name_len src) then src (j - base) else dst !!! j.
Proof.
  pose proof (name_len_range src). unfold copy_name.
  rewrite aget_insert, Z.eqb_sym, fill_get, Z2Nat.id, Z.add_0_r by lia. done.
Qed.

Lemma copy_name_u8 base src dst j :
  (forall i, in_u8 (src i)) -> (forall i, in_u8 (dst !!! i)) -> in_u8 (copy_name base src dst !!! j).
Proof.
  intros Hs Hd. rewrite copy_name_get.
  destruct (j =? base + name_len src); [unfold in_u8; lia|].
  destruct ((base <=? j) && (j <? base + name_len src)); auto.
Qed.

Lemma copy_name_len src dst : name_len (fun j => copy_name 0 src dst !!! j) = name_len src.
Proof.
  pose proof (name_len_range src). apply name_len_unique; [done| |].
  - intros j Hj. rewrite copy_name_get. bdestruct_all; try lia. rewrite Z.sub_0_r.
    apply name_len_before. lia.
  - intros _. rewrite copy_name_get. bdestruct_all; lia || done.
Qed.

Lemma copy_name_stored src dst : stored_ok (fun j => copy_name 0 src dst !!! j).
Proof.
  exists (name_len src). split; [apply name_len_range|]. rewrite copy_name_get.
  bdestruct_all; lia || done.
Qed.

Lemma copy_name_str src dst j : 0 <= j < name_len src -> copy_name 0 src dst !!! j = src j.
Proof. intros. rewrite copy_name_get, Z.sub_0_r. bdestruct_all; lia || done. Qed.

Lemma copy_name_nul src dst : copy_name 0 src dst !!! name_len src = 0.
Proof. rewrite copy_name_get. bdestruct_all; lia || done. Qed.

(** A name of at most 15 characters is stored unchanged. *)
Definition short_name (nm : Z -> Z) : Prop := nm (name_len nm) = 0.

Lemma copy_name_same src dst : short_name src -> same_str (fun j => copy_name 0 src dst !!! j) src.
Proof.
  intros Hs j Hj. rewrite copy_name_len in Hj. destruct (decide (j = name_len src)) as [->|].
  - by rewrite copy_name_nul.
  - apply copy_name_str. lia.
Qed.

Lemma same_str_len a b : stored_ok a -> same_str a b -> name_len b = name_len a.
Proof.
  intros Ha H. pose proof (name_len_range a). apply name_len_unique; [done| |].
  - intros j Hj. rewrite <- H by lia. by apply name_len_before.
  - intros _. rewrite <- H by lia. by apply name_len_stored.
Qed.

Lemma same_str_sym a b : stored_ok a -> same_str a b -> same_str b a.
Proof. intros Ha H j Hj. rewrite (same_str_len _ _ Ha H) in Hj. symmetry. by apply H. Qed.

Lemma same_str_trans a b c : stored_ok a -> same_str a b -> same_str b c -> same_str a c.
Proof. intros Ha H1 H2 j Hj. rewrite H1 by done. apply H2. by rewrite (same_str_len _ _ Ha H1). Qed.

Lemma same_str_ext a a' b : (forall j, a j = a' j) -> same_str a b -> same_str a' b.
Proof.
  intros He H j Hj. rewrite <- He. apply H. unfold name_len in *.
  rewrite (scan_ext _ (fun i => a' i =? 0)); [done|]. intros; by rewrite He.
Qed.

(** ** The namespace invariant *)
Section invariant.
Context {D : Type} `{!BlockDevice D}.
Implicit Types (st : storage D) (nm : Z -> Z).

Definition chars (o : object) : Z -> Z := fun j => name o !!! j.

Record obj_ok (id : Z) (o : object) : Prop := ObjOk {
  ok_use : in_use o = 0 \/ in_use o = 1;
  ok_name : stored_ok (chars o);
  ok_chars : forall j, in_u8 (chars o j);
  ok_lba : in_use o = 1 -> lba o = OBJECT_DATA_BASE_LBA + id * SECTORS_PER_OBJECT;
  ok_size : 0 <= size_bytes o <= OBJECT_MAX_BYTES;
  ok_trust : 0 <= trust o <= OBJ_REJECTED
}.

Record sto_inv st : Prop := StoInv {
  si_count : 0 <= object_count st <= MAX_OBJECTS;
  si_obj : forall id, 0 <= id < MAX_OBJECTS -> obj_ok id (obj st id);
  si_beyond : forall id, object_count st <= id < MAX_OBJECTS -> in_use (obj st id) = 0
}.

(** No two live objects carry the same name. *)
Definition unique_names st : Prop :=
  forall i j, 0 <= i < MAX_OBJECTS -> 0 <= j < MAX_OBJECTS ->
    live st i = true -> live st j = true ->
    same_str (chars (obj st i)) (chars (obj st j)) -> i = j.

Lemma obj_set st id o j : obj (set_obj id o st) j = if id =? j then o else obj st j.
Proof. apply aget_insert. Qed.

Lemma obj_save st id : obj (directory_save st) id = obj st id.
Proof. unfold directory_save. by destruct (disk_write _ _ _ _). Qed.

Lemma count_save st : object_count (directory_save st) = object_count st.
Proof. unfold directory_save. by destruct (disk_write _ _ _ _). Qed.

Lemma live_save st id : live (directory_save st) id = live st id.
Proof. unfold live. by rewrite obj_save. Qed.

Lemma live_true st id : sto_inv st -> 0 <= id < MAX_OBJECTS -> live st id = true <-> in_use (obj st id) = 1.
Proof.
  intros Hi Hid. unfold live. destruct (ok_use _ _ (si_obj _ Hi id Hid)) as [->| ->]; done.
Qed.

Lemma live_count st id : sto_inv st -> 0 <= id < MAX_OBJECTS -> live st id = true -> id < object_count st.
Proof.
  intros Hi Hid Hl. destruct (Z.lt_ge_cases id (object_count st)); [done|].
  rewrite live_true in Hl by done. rewrite (si_beyond _ Hi) in Hl by lia. done.
Qed.

Lemma sto_inv_save st : sto_inv st -> sto_inv (directory_save st).
Proof.
  intros [? Ho Hb]. split; rewrite ?count_save; [done|..]; intros; rewrite obj_save; auto.
Qed.

Lemma unique_save st : unique_names st -> unique_names (directory_save st).
Proof. intros H i j. rewrite !live_save, !obj_save. apply H. Qed.

(** Replacing the object at [id < object_count] by a well-formed one. *)
Lemma sto_inv_set st id o :
  sto_inv st -> 0 <= id < object_count st -> obj_ok id o -> sto_inv (set_obj id o st).
Proof.
  intros [Hc Ho Hb] Hid Hok. split; [done|..]; intros j Hj; rewrite obj_set;
    destruct (Z.eqb_spec id j) as [<-|]; auto; cbn in *; lia.
Qed.

(** [find_by_name] returns the id of a live object with that name, or -1. *)
Lemma find_by_name_spec nm st : sto_inv st ->
  (find_by_name nm st = -1 /\
     forall j, 0 <= j < MAX_OBJECTS -> live st j = true -> ~ same_str (chars (obj st j)) nm) \/
  (0 <= find_by_name nm st < object_count st /\ live st (find_by_name nm st) = true /\
     same_str (chars (obj st (find_by_name nm st))) nm).
Proof.
  intros Hi. pose proof (si_count _ Hi) as Hc. unfold find_by_name.
  destruct (scan _ 0 _) as [id|] eqn:E.
  - right. apply scan_Some in E as (Hid & Hp & _). rewrite Z2Nat.id in Hid by lia. breflect.
    split_and!; try lia; try done.
    apply name_eq_spec; [|done]. apply (ok_name id), si_obj; [done | lia].
  - left. split; [done|]. intros j Hj Hl Hs.
    pose proof (live_count _ _ Hi Hj Hl).
    pose proof (proj1 (scan_None _ _ _) E j ltac:(lia)) as Hn. cbv beta in Hn.
    rewrite Hl in Hn. cbn [andb] in Hn. rewrite <- not_true_iff_false in Hn. apply Hn.
    apply name_eq_spec; [|done]. apply (ok_name j). by apply si_obj.
Qed.

(** ** Creation *)

Lemma new_obj_ok id nm o0 :
  (forall j, in_u8 (nm j)) -> obj_ok id o0 ->
  obj_ok id (Object 1 (copy_name 0 nm (name o0))
               (OBJECT_DATA_BASE_LBA + id * SECTORS_PER_OBJECT) 0 OBJ_UNTRUSTED).
Proof.
  intros Hnm [_ _ Hch _ _ _]. split; cbn; unfold OBJECT_MAX_BYTES, SECTORS_PER_OBJECT, OBJ_REJECTED, OBJ_UNTRUSTED; try lia.
  - apply copy_name_stored.
  - intros j. by apply copy_name_u8.
Qed.

(** What [alloc_object] does: refuse on a full table, or install a fresh,
    empty, untrusted object in a free slot. *)
Lemma alloc_object_spec nm st r st' :
  sto_inv st -> (forall j, in_u8 (nm j)) -> alloc_object nm st = (r, st') ->
  (r = -1 /\ st' = st /\ object_count st = MAX_OBJECTS /\ forall j, 0 <= j < MAX_OBJECTS -> live st j = true) \/
  (0 <= r < MAX_OBJECTS /\ live st r = false /\ sto_inv st' /\ live st' r = true /\
   (forall j, j <> r -> obj st' j = obj st j) /\
   obj st' r = Object 1 (copy_name 0 nm (name (obj st r)))
                 (OBJECT_DATA_BASE_LBA + r * SECTORS_PER_OBJECT) 0 OBJ_UNTRUSTED).
Proof.
  intros Hi Hnm. pose proof (si_count _ Hi) as Hc. unfold alloc_object, init_object.
  assert (Hgo : forall st1 id, sto_inv st1 -> 0 <= id < object_count st1 -> in_use (obj st1 id) = 0 ->
    (forall j, obj st1 j = obj st j) -> forall o,
    o = Object 1 (copy_name 0 nm (name (obj st1 id))) (OBJECT_DATA_BASE_LBA + id * SECTORS_PER_OBJECT) 0 OBJ_UNTRUSTED ->
    let st2 := directory_save (set_obj id o st1) in
    0 <= id < MAX_OBJECTS /\ live st id = false /\ sto_inv st2 /\ live st2 id = true /\
    (forall j, j <> id -> obj st2 j = obj st j) /\ obj st2 id = Object 1 (copy_name 0 nm (name (obj st id)))
      (OBJECT_DATA_BASE_LBA + id * SECTORS_PER_OBJECT) 0 OBJ_UNTRUSTED).
  { intros st1 id Hi1 Hid Hu Heq o -> st2. pose proof (si_count _ Hi1).
    split_and!; try lia.
    - unfold live. by rewrite <- Heq, Hu.
    - apply sto_inv_save, sto_inv_set; try done. apply new_obj_ok; [done|]. apply si_obj; [done|lia].
    - unfold st2, live. by rewrite obj_save, obj_set, Z.eqb_refl.
    - intros j Hj. unfold st2. rewrite obj_save, obj_set. destruct (Z.eqb_spec id j); [done|apply Heq].
    - unfold st2. by rewrite obj_save, obj_set, Z.eqb_refl, Heq. }
  destruct (scan _ 0 _) as [id|] eqn:E.
  - intros [= <- <-]. right. apply scan_Some in E as (Hid & Hu & _). rewrite Z2Nat.id in Hid by lia.
    breflect. by eapply Hgo.
  - assert (Hall : forall j, 0 <= j < object_count st -> live st j = true).
    { intros j Hj. unfold live. by rewrite (proj1 (scan_None _ _ _) E) by lia. }
    destruct (Z.leb_spec MAX_OBJECTS (object_count st)); intros [= <- <-].
    + left. split_and!; try done; try lia. intros; apply Hall; lia.
    + right. set (st1 := set_count (object_count st + 1) st).
      assert (Hi1 : sto_inv st1).
      { split; [cbn; lia | intros j Hj; exact (si_obj _ Hi j Hj) | intros; apply (si_beyond _ Hi); cbn in *; lia]. }
      eapply (Hgo st1); try done; [cbn; lia|]. apply (si_beyond _ Hi). lia.
Qed.

Lemma create_unique nm st r st' :
  sto_inv st -> unique_names st -> (forall j, in_u8 (nm j)) -> short_name nm ->
  (forall j, 0 <= j < MAX_OBJECTS -> live st j = true -> ~ same_str (chars (obj st j)) nm) ->
  alloc_object nm st = (r, st') -> unique_names st'.
Proof.
  intros Hi Hu Hnm Hshort Hno Heq.
  destruct (alloc_object_spec _ _ _ _ Hi Hnm Heq) as [(_ & -> & _)|(Hr & Hfree & Hi' & Hlive & Hoth & Hnew)]; [done|].
  assert (Hl : forall j, j <> r -> live st' j = live st j) by (intros j Hj; unfold live; by rewrite Hoth).
  assert (Hname : same_str (chars (obj st' r)) nm) by (rewrite Hnew; by apply copy_name_same).
  assert (Hst : forall j, 0 <= j < MAX_OBJECTS -> stored_ok (chars (obj st' j)))
    by (intros; by eapply ok_name, si_obj).
  intros i j Hii Hjj Li Lj Hs.
  destruct (decide (i = r)) as [->|], (decide (j = r)) as [->|]; [done | | |].
  - exfalso. rewrite Hl in Lj by done. apply (Hno j Hjj Lj). rewrite <- Hoth by done.
    eapply same_str_trans; [by apply Hst | | exact Hname]. apply same_str_sym; [by apply Hst|done].
  - exfalso. rewrite Hl in Li by done. apply (Hno i Hii Li). rewrite <- Hoth by done.
    eapply same_str_trans; [by apply Hst | exact Hs | exact Hname].
  - rewrite Hl in Li, Lj by done. rewrite !Hoth in Hs by done. by apply Hu.
Qed.

(** Updating an object without touching its name or liveness. *)
Lemma keep_name_inv st id o :
  sto_inv st -> unique_names st -> 0 <= id < MAX_OBJECTS -> live st id = true ->
  obj_ok id o -> in_use o = in_use (obj st id) -> name o = name (obj st id) ->
  sto_inv (directory_save (set_obj id o st)) /\ unique_names (directory_save (set_obj id o st)).
Proof.
  intros Hi Hu Hid Hl Hok Huse Hname. pose proof (live_count _ _ Hi Hid Hl). split.
  - apply sto_inv_save, sto_inv_set; [done | lia | done].
  - apply unique_save. intros i j Hii Hjj. unfold live, chars. rewrite !obj_set.
    intros Li Lj Hs. apply Hu; try done; unfold live, chars;
      destruct (Z.eqb_spec id i) as [<-|], (Z.eqb_spec id j) as [<-|];
      rewrite <- ?Huse, <- ?Hname; done.
Qed.

Lemma bad_id_false st id : bad_id id st = false -> 0 <= id < MAX_OBJECTS /\ live st id = true.
Proof. unfold bad_id. intros H. breflect. split; [lia|done]. Qed.

Lemma range_guard_false st id : sto_inv st ->
  (id <? 0) || (object_count st <=? id) || negb (live st id) = false ->
  0 <= id < MAX_OBJECTS /\ live st id = true.
Proof. intros Hi H. pose proof (si_count _ Hi). breflect. split; [lia|done]. Qed.

Lemma deleted_ok id o : obj_ok id o ->
  obj_ok id (Object 0 (<[0 := 0]> (name o)) (lba o) 0 OBJ_UNTRUSTED).
Proof.
  intros [_ _ Hch _ _ _]. split; cbn; unfold OBJECT_MAX_BYTES, SECTORS_PER_OBJECT, OBJ_REJECTED, OBJ_UNTRUSTED; try lia.
  - exists 0. unfold chars; cbn. rewrite aget_eq. lia.
  - intros j. unfold chars; cbn. rewrite aget_insert. destruct (_ =? _); [unfold in_u8; lia | apply Hch].
Qed.

Lemma delete_inv st id r st' :
  sto_inv st -> unique_names st -> storage_delete id st = (r, st') -> sto_inv st' /\ unique_names st'.
Proof.
  intros Hi Hu. unfold storage_delete. destruct (_ || _) eqn:E; intros [= <- <-]; [done|].
  destruct (range_guard_false _ _ Hi E) as [Hid Hl]. pose proof (live_count _ _ Hi Hid Hl).
  split.
  - apply sto_inv_save, sto_inv_set; [done | lia | by apply deleted_ok, si_obj].
  - apply unique_save. intros i j Hii Hjj. unfold live, chars. rewrite !obj_set.
    destruct (Z.eqb_spec id i), (Z.eqb_spec id j); try done. apply Hu; done.
Qed.

Lemma rename_inv st id nm r st' :
  sto_inv st -> unique_names st -> (forall j, in_u8 (nm j)) -> short_name nm ->
  storage_rename id nm st = (r, st') -> sto_inv st' /\ unique_names st'.
Proof.
  intros Hi Hu Hnm Hshort. unfold storage_rename. destruct (_ || _) eqn:E; [intros [= <- <-]; done|].
  destruct (range_guard_false _ _ Hi E) as [Hid Hl]. pose proof (live_count _ _ Hi Hid Hl).
  destruct (_ && _) eqn:Ex; intros [= <- <-]; [done|].
  assert (Hno : forall j, 0 <= j < MAX_OBJECTS -> j <> id -> live st j = true ->
            ~ same_str (chars (obj st j)) nm).
  { intros j Hj Hne Lj Hs. destruct (find_by_name_spec nm st Hi) as [[_ Hn]|(F1 & F2 & F3)].
    - by apply (Hn j).
    - pose proof (si_count _ Hi).
      assert (Hf : find_by_name nm st = id).
      { destruct (Z.leb_spec 0 (find_by_name nm st)); [|lia].
        destruct (Z.eqb_spec (find_by_name nm st) id); [done|]. by cbn in Ex. }
      apply Hne. rewrite <- Hf. apply Hu; [done | lia | done | done |].
      eapply same_str_trans; [by eapply ok_name, si_obj | exact Hs |].
      apply same_str_sym; [eapply ok_name, si_obj; try done; lia | done]. }
  destruct (si_obj _ Hi id Hid) as [H1 H2 H3 H4 H5 H6]. split.
  - apply sto_inv_save, sto_inv_set; [done | lia |]. split; cbn; try done.
    + apply copy_name_stored.
    + intros j. by apply copy_name_u8.
  - apply unique_save. set (o' := Object _ _ _ _ _).
    assert (Hname : same_str (chars o') nm) by (by apply copy_name_same).
    assert (Hst : stored_ok (chars o')) by apply copy_name_stored.
    intros i j Hii Hjj. unfold live. rewrite !obj_set.
    destruct (Z.eqb_spec id i) as [<-|Ni], (Z.eqb_spec id j) as [<-|Nj]; try done; intros Li Lj Hs.
    + exfalso. apply (Hno j Hjj); try done.
      eapply same_str_trans; [by eapply ok_name, si_obj | | exact Hname]. by apply same_str_sym.
    + exfalso. apply (Hno i Hii); try done.
      eapply same_str_trans; [by eapply ok_name, si_obj | exact Hs | exact Hname].
    + by apply Hu.
Qed.

Lemma create_inv nm st r st' :
  sto_inv st -> unique_names st -> (forall j, in_u8 (nm j)) -> short_name nm ->
  find_by_name nm st < 0 -> alloc_object nm st = (r, st') -> sto_inv st' /\ unique_names st'.
Proof.
  intros Hi Hu Hnm Hs Hf Heq. split.
  - destruct (alloc_object_spec _ _ _ _ Hi Hnm Heq) as [(_ & -> & _)|(_ & _ & ? & _)]; done.
  - eapply create_unique; eauto.
    destruct (find_by_name_spec nm st Hi) as [[_ H]|(H1 & _)]; [done|lia].
Qed.

Lemma set_scratch_inv b d st :
  (sto_inv (set_scratch b d st) <-> sto_inv st) /\ (unique_names (set_scratch b d st) <-> unique_names st).
Proof. split; [|done]. split; intros [? ? ?]; by split. Qed.

Lemma trust_ok id o t : obj_ok id o -> 0 <= t <= OBJ_REJECTED -> obj_ok id (with_trust t o).
Proof. intros [? ? ? ? ? ?] ?. by split. Qed.

(** Every operation of the store, as one step. *)
Inductive sto_op :=
| OpCreateObject (nm : Z -> Z) | OpCreateNamed (nm : Z -> Z) | OpRename (id : Z) (nm : Z -> Z)
| OpDelete (id : Z) | OpRead (id : Z) (len : Z) | OpWrite (id : Z) (buf : Z -> Z) (len : Z)
| OpPromote (id : Z) | OpReject (id : Z).

Definition sto_step (op : sto_op) st : Z * storage D :=
  match op with
  | OpCreateObject nm => storage_create_object nm st
  | OpCreateNamed nm => storage_create_named nm st
  | OpRename id nm => storage_rename id nm st
  | OpDelete id => storage_delete id st
  | OpRead id len => let '(r, _, st) := storage_read id ∅ len st in (r, st)
  | OpWrite id buf len => storage_write id buf len st
  | OpPromote id => storage_promote id st
  | OpReject id => storage_reject id st
  end.

(** Names are C strings of at most 15 characters; lengths are unsigned. *)
Definition op_args_ok (op : sto_op) : Prop :=
  match op with
  | OpCreateObject nm | OpCreateNamed nm | OpRename _ nm => (forall j, in_u8 (nm j)) /\ short_name nm
  | OpRead _ len | OpWrite _ _ len => in_u32 len
  | _ => True
  end.

(** Every operation with a short name, on every branch and for every device
    behaviour, keeps the table well formed and live names unique. *)
Lemma short_step_inv op st r st' :
  sto_inv st -> unique_names st -> op_args_ok op -> sto_step op st = (r, st') ->
  sto_inv st' /\ unique_names st'.
Proof.
  intros Hi Hu Hop. destruct op as [nm|nm|id nm|id|id len|id buf len|id|id]; cbn in Hop |- *.
  - unfold storage_create_object. destruct (Z.leb_spec 0 (find_by_name nm st)); [by intros [= <- <-]|].
    destruct Hop. by apply create_inv.
  - unfold storage_create_named. destruct (Z.leb_spec 0 (find_by_name nm st)); [by intros [= <- <-]|].
    destruct Hop. by apply create_inv.
  - destruct Hop. by apply rename_inv.
  - by apply delete_inv.
  - unfold storage_read. destruct (bad_id id st); [by intros [= <- <-]|].
    destruct (_ =? OBJ_REJECTED); [by intros [= <- <-]|].
    destruct (disk_read _ _ _ _) as [[rc sc] d]. destruct (negb _); intros [= <- <-]; by rewrite !(proj1 (set_scratch_inv _ _ _)), !(proj2 (set_scratch_inv _ _ _)).
  - unfold storage_write. destruct (bad_id id st) eqn:Eb; [by intros [= <- <-]|].
    destruct (Z.ltb_spec OBJECT_MAX_BYTES len); [by intros [= <- <-]|].
    destruct (disk_write _ _ _ _) as [rc d]. destruct (bad_id_false _ _ Eb) as [Hid Hl].
    destruct (negb _); intros [= <- <-].
    + by rewrite (proj1 (set_scratch_inv _ _ _)), (proj2 (set_scratch_inv _ _ _)).
    + apply keep_name_inv; try done; [by apply set_scratch_inv|].
      destruct (si_obj _ Hi id Hid). unfold in_u32 in Hop. split; cbn; try done; lia.
  - unfold storage_promote. destruct (bad_id id st) eqn:Eb; [by intros [= <- <-]|].
    destruct (bad_id_false _ _ Eb) as [Hid Hl]. destruct (_ || _) eqn:Et; intros [= <- <-]; [done|].
    pose proof (si_obj _ Hi id Hid) as Hok. pose proof (ok_trust _ _ Hok). breflect.
    apply keep_name_inv; try done. apply trust_ok; [done|]. unfold OBJ_TRUSTED, OBJ_REJECTED in *. lia.
  - unfold storage_reject. destruct (bad_id id st) eqn:Eb; intros [= <- <-]; [done|].
    destruct (bad_id_false _ _ Eb) as [Hid Hl]. pose proof (si_obj _ Hi id Hid) as Hok.
    apply keep_name_inv; try done. by apply trust_ok.
Qed.
End invariant.

(** ** The directory survives a reboot *)
Section persistence.
Context {D : Type} `{!BlockDevice D} `{!BlockDeviceLaws D}.
Implicit Types (st : storage D) (nm : Z -> Z).

(** The bytes [directory_save] writes for one object. *)
Record entry_bytes (buf : gmap Z Z) (id : Z) (o : object) : Prop := {
  eb_use : buf !!! (8 + id * 32 + 0) = u8 (in_use o);
  eb_trust : buf !!! (8 + id * 32 + 1) = u8 (trust o);
  eb_size : le32 (buf !!! (8 + id * 32 + 4)) (buf !!! (8 + id * 32 + 5))
              (buf !!! (8 + id * 32 + 6)) (buf !!! (8 + id * 32 + 7)) = u32 (size_bytes o);
  eb_name : forall j, 0 <= j < name_len (chars o) -> buf !!! (8 + id * 32 + 8 + j) = u8 (chars o j);
  eb_nul : buf !!! (8 + id * 32 + 8 + name_len (chars o)) = 0
}.

Lemma name_len_ext a b : (forall j, 0 <= j < 15 -> a j = b j) -> name_len a = name_len b.
Proof. intros H. unfold name_len. erewrite scan_ext; [done|]. intros i Hi. cbv beta. by rewrite H by lia. Qed.

Lemma chars_u8 id o : obj_ok id o -> name_len (fun j => u8 (name o !!! j)) = name_len (chars o).
Proof. intros Hok. apply name_len_ext. intros j _. apply u8_small. apply (ok_chars _ _ Hok). Qed.

Lemma save_entry_out id o buf x :
  x < 8 + id * 32 \/ 8 + id * 32 + 24 <= x -> save_entry id o buf !!! x = buf !!! x.
Proof.
  intros Hx. unfold save_entry. rewrite copy_name_get.
  pose proof (name_len_range (fun j => u8 (name o !!! j))).
  bdestruct_all; try lia; by rewrite !aget_ne by lia.
Qed.

Lemma u32_le32 w : le32 (u8 w) (u8 (w .>>. 8)) (u8 (w .>>. 16)) (u8 (w .>>. 24)) = u32 w.
Proof.
  change (le32 (byte_of w 0) (u8 (w .>>. (8 * 1))) (u8 (w .>>. (8 * 2))) (u8 (w .>>. (8 * 3))) = u32 w).
  change (le32 (byte_of w 0) (byte_of w 1) (byte_of w 2) (byte_of w 3) = u32 w).
  by rewrite le32_load, le_load_byte_of.
Qed.

Lemma save_entry_in id o buf : obj_ok id o -> entry_bytes (save_entry id o buf) id o.
Proof.
  intros Hok. pose proof (chars_u8 _ _ Hok) as Hn. pose proof (name_len_range (chars o)) as Hr.
  assert (Hlow : forall k, 0 <= k < 8 -> save_entry id o buf !!! (8 + id * 32 + k) =
     if k =? 7 then u8 (size_bytes o .>>. 24) else if k =? 6 then u8 (size_bytes o .>>. 16)
     else if k =? 5 then u8 (size_bytes o .>>. 8) else if k =? 4 then u8 (size_bytes o)
     else if k =? 1 then u8 (trust o) else if k =? 0 then u8 (in_use o) else buf !!! (8 + id * 32 + k)).
  { intros k Hk. unfold save_entry. rewrite copy_name_get, Hn, !aget_insert.
    bdestruct_all; try lia; done. }
  split.
  - by rewrite Hlow by lia.
  - by rewrite Hlow by lia.
  - rewrite !Hlow by lia. cbn [Z.eqb Pos.eqb]. apply u32_le32.
  - intros j Hj. unfold save_entry. rewrite copy_name_get, Hn.
    replace (8 + id * 32 + 8 + j - (8 + id * 32 + 8)) with j by lia. bdestruct_all; lia || done.
  - unfold save_entry. rewrite copy_name_get, Hn. bdestruct_all; lia || done.
Qed.

Lemma entry_bytes_ext buf buf' id o :
  (forall x, 8 + id * 32 <= x < 8 + id * 32 + 24 -> buf' !!! x = buf !!! x) ->
  entry_bytes buf id o -> entry_bytes buf' id o.
Proof.
  intros He [? ? ? Hn ?]. pose proof (name_len_range (chars o)).
  split; rewrite ?He by lia; try done. intros j Hj. rewrite He by lia. by apply Hn.
Qed.

(** Header and entries of the serialised directory. *)
Lemma directory_bytes_spec st : sto_inv st ->
  le32 (directory_bytes st !!! 0) (directory_bytes st !!! 1) (directory_bytes st !!! 2)
       (directory_bytes st !!! 3) = DIRECTORY_MAGIC /\
  directory_bytes st !!! 4 = object_count st /\
  (forall id, 0 <= id < object_count st -> entry_bytes (directory_bytes st) id (obj st id)).
Proof.
  intros Hi. pose proof (si_count _ Hi) as Hc. unfold directory_bytes. set (hdr := <[4 := _]> _).
  set (P := fun id buf => 0 <= id -> (forall x, x < 8 -> buf !!! x = hdr !!! x) /\
              (forall i, 0 <= i < id -> entry_bytes buf i (obj st i))).
  assert (HP : P (0 + Z.of_nat (Z.to_nat (object_count st)))
     (loop (fun id buf => save_entry id (obj st id) buf) 0 (Z.to_nat (object_count st)) hdr)).
  { apply loop_ind; [split; [done | intros; lia]|].
    intros id buf Hid HPi _. destruct (HPi ltac:(lia)) as [H1 H2]. split.
    - intros x Hx. rewrite save_entry_out by lia. by apply H1.
    - intros i Hii. destruct (decide (i = id)) as [->|].
      + apply save_entry_in, si_obj; [done|lia].
      + eapply entry_bytes_ext; [|by apply H2; lia]. intros x Hx. apply save_entry_out. lia. }
  destruct (HP ltac:(lia)) as [H1 H2]. rewrite Z.add_0_l, Z2Nat.id in H2 by lia.
  unfold MAX_OBJECTS in *. split_and!; [| |exact H2].
  - rewrite !H1 by lia. unfold hdr. rewrite !(aget_ne _ 4) by lia. rewrite aget_eq.
    rewrite !(aget_ne _ 3) by lia. rewrite aget_eq. rewrite !(aget_ne _ 2) by lia. rewrite aget_eq.
    rewrite !(aget_ne _ 1) by lia. by rewrite !aget_eq.
  - rewrite H1 by lia. unfold hdr. rewrite aget_eq. apply u8_small. unfold in_u8. lia.
Qed.

(** The bytes of the directory buffer are bytes. *)
Lemma save_entry_u8 id o buf :
  (forall x, in_u8 (buf !!! x)) -> forall x, in_u8 (save_entry id o buf !!! x).
Proof.
  intros Hb x. unfold save_entry. apply copy_name_u8; [intros; apply u8_range|].
  intros i. rewrite !aget_insert. repeat (case_match_goal; [apply u8_range|]). apply Hb.
Qed.

Lemma directory_bytes_u8 st x : 0 <= x < 512 -> in_u8 (directory_bytes st !!! x).
Proof.
  unfold directory_bytes. set (hdr := <[4 := _]> _).
  set (P := fun (_ : Z) (buf : gmap Z Z) => forall x, 0 <= x < 512 -> in_u8 (buf !!! x)).
  revert x. apply (loop_ind P).
  - intros x Hx. unfold hdr. rewrite !aget_insert.
    repeat (case_match_goal; [apply u8_range|]). rewrite fill_in by lia. unfold in_u8. lia.
  - intros id buf _ Hb x Hx. unfold save_entry. rewrite copy_name_get.
    destruct (x =? _); [unfold in_u8; lia|]. destruct (_ && (x <? _)); [apply u8_range|].
    rewrite !aget_insert. repeat (case_match_goal; [apply u8_range|]). by apply Hb.
Qed.

(** Two objects a client cannot tell apart through the namespace. *)
Definition obj_equiv (o o' : object) : Prop :=
  in_use o' = in_use o /\ trust o' = trust o /\ size_bytes o' = size_bytes o /\
  same_str (chars o) (chars o').

Lemma load_entry_equiv id o buf o0 :
  obj_ok id o -> entry_bytes buf id o ->
  obj_equiv o (load_entry id buf o0) /\
  lba (load_entry id buf o0) = OBJECT_DATA_BASE_LBA + id * SECTORS_PER_OBJECT.
Proof.
  intros Hok [E1 E2 E3 E4 E5]. split; [|done]. pose proof (name_len_range (chars o)) as Hr.
  destruct Hok as [H1 H2 H3 H4 H5 H6]. unfold OBJECT_MAX_BYTES, SECTORS_PER_OBJECT, OBJ_REJECTED in *.
  assert (Hlen : name_len (fun j => buf !!! (8 + id * 32 + 8 + j)) = name_len (chars o)).
  { apply name_len_unique; [lia| |done]. intros j Hj. rewrite E4 by done.
    rewrite u8_small by apply H3. by apply name_len_before. }
  unfold obj_equiv, load_entry. cbn [in_use trust size_bytes]. split_and!.
  - rewrite E1. apply u8_small. unfold in_u8. lia.
  - rewrite E2. apply u8_small. unfold in_u8. lia.
  - rewrite E3. apply u32_small. unfold in_u32. lia.
  - intros j Hj. unfold chars at 2; cbn [name]. rewrite copy_name_get, Hlen, !Z.add_0_l, Z.sub_0_r.
    destruct (Z.eqb_spec j (name_len (chars o))) as [->|]; [by apply name_len_stored|].
    destruct (Z.leb_spec 0 j), (Z.ltb_spec j (name_len (chars o))); try lia. cbn [andb].
    rewrite E4 by lia. symmetry. apply u8_small, H3.
Qed.

Lemma load_loop buf n st id :
  obj (loop (fun id st => set_obj id (load_entry id buf (obj st id)) st) 0 n st) id =
  if (0 <=? id) && (id <? Z.of_nat n) then load_entry id buf (obj st id) else obj st id.
Proof.
  induction n as [|n IH]; [cbn [loop]; bdestruct_all; done || lia|].
  rewrite loop_S, obj_set, Z.add_0_l.
  assert (Hn : obj (loop (fun id st => set_obj id (load_entry id buf (obj st id)) st) 0 n st) (Z.of_nat n)
               = obj st (Z.of_nat n)).
  { clear IH. assert (forall m, (m <= n)%nat -> obj (loop (fun id st => set_obj id (load_entry id buf (obj st id)) st) 0 m st) (Z.of_nat n)
               = obj st (Z.of_nat n)) as H; [|by apply H].
    induction m as [|m IHm]; intros Hm; [done|]. rewrite loop_S, obj_set, Z.add_0_l.
    destruct (Z.eqb_spec (Z.of_nat m) (Z.of_nat n)); [lia|]. apply IHm. lia. }
  rewrite Hn, IH. bdestruct_all; subst; done || lia.
Qed.

Lemma init_loop n st id :
  in_use (obj (loop (fun i st => set_obj i (Object 0 (<[0 := 0]> (name (obj st i))) 0 0 OBJ_UNTRUSTED) st) 0 n st) id) =
  if (0 <=? id) && (id <? Z.of_nat n) then 0 else in_use (obj st id).
Proof.
  induction n as [|n IH]; [cbn [loop]; bdestruct_all; done || lia|].
  rewrite loop_S, obj_set, Z.add_0_l.
  destruct (Z.eqb_spec (Z.of_nat n) id); [cbn [in_use]; bdestruct_all; done || lia|].
  rewrite IH. bdestruct_all; done || lia.
Qed.

Lemma find_by_name_sync nm st st' :
  sto_inv st -> object_count st' = object_count st ->
  (forall id, 0 <= id < object_count st -> live st' id = live st id /\
     (live st id = true -> stored_ok (chars (obj st' id)) /\ same_str (chars (obj st id)) (chars (obj st' id)))) ->
  find_by_name nm st' = find_by_name nm st.
Proof.
  intros Hi Hc H. pose proof (si_count _ Hi) as Hr. unfold find_by_name. rewrite Hc.
  erewrite scan_ext; [done|]. intros id Hid. rewrite Z2Nat.id in Hid by lia. cbv beta.
  destruct (H id ltac:(lia)) as [-> Hs]. destruct (live st id) eqn:El; [|done]. cbn [andb].
  destruct (Hs eq_refl) as [Hok Hsame].
  assert (Hok0 : stored_ok (chars (obj st id))) by (apply (ok_name id), si_obj; [done|lia]).
  apply eq_true_iff_eq. rewrite !name_eq_spec by done. split; intros Hn.
  - by eapply same_str_trans.
  - eapply same_str_trans; [exact Hok | | exact Hn]. by apply same_str_sym.
Qed.

Lemma load_entry_stored id buf o0 : stored_ok (chars (load_entry id buf o0)).
Proof. apply copy_name_stored. Qed.

(** The state right after [storage_init]'s clearing loop, before the load. *)
Lemma count_set_loop (f : Z -> storage D -> object) n lo st :
  object_count (loop (fun i st => set_obj i (f i st) st) lo n st) = object_count st /\
  dir_buf (loop (fun i st => set_obj i (f i st) st) lo n st) = dir_buf st /\
  disk (loop (fun i st => set_obj i (f i st) st) lo n st) = disk st.
Proof.
  revert lo st; induction n as [|n IH]; intros lo st; [done|]. cbn [loop].
  destruct (IH (lo + 1) (set_obj lo (f lo st) st)) as (-> & -> & ->). done.
Qed.

(** C17: once [directory_save]'s sector write has succeeded, a reboot whose
    sector read succeeds rebuilds the same namespace: the same table size, the
    same live ids, each with its name, size, trust level and data sectors, and
    the same answer to every lookup, whatever the kernel's memory held. *)
Theorem directory_survives_reboot st d st2 buf d2 :
  sto_inv st ->
  disk_write DIRECTORY_LBA 1 (directory_bytes st) (disk st) = (0, d) ->
  disk st2 = d -> disk_read DIRECTORY_LBA 1 (dir_buf st2) d = (0, buf, d2) ->
  let st' := storage_init st2 in
  object_count st' = object_count st /\
  (forall id, 0 <= id < MAX_OBJECTS -> live st' id = live st id /\
     (live st id = true -> obj_equiv (obj st id) (obj st' id) /\ lba (obj st' id) = lba (obj st id))) /\
  (forall nm, storage_lookup_by_name nm st' = storage_lookup_by_name nm st).
Proof.
  intros Hi Hw Hd Hr. cbv zeta. pose proof (si_count _ Hi) as Hc.
  destruct (directory_bytes_spec st Hi) as (Hmagic & Hcount & Hent).
  destruct (disk_write_spec _ _ _ _ _ _ Hw ltac:(done)) as [Hwr _].
  destruct (disk_read_spec _ _ _ _ _ _ _ Hr ltac:(done)) as [Hrd _].
  assert (Hbuf : forall i, 0 <= i < 512 -> buf !!! i = directory_bytes st !!! i).
  { intros i Hii. rewrite Hrd by (done || lia). apply Hwr; [done | | lia]. intros; apply directory_bytes_u8; lia. }
  assert (Hentry : forall id, 0 <= id < object_count st -> entry_bytes buf id (obj st id)).
  { intros id Hid. eapply entry_bytes_ext; [|by apply Hent]. intros x Hx. apply Hbuf.
    unfold MAX_OBJECTS in *. lia. }
  unfold storage_init, directory_load.
  set (st0 := loop _ 0 (Z.to_nat MAX_OBJECTS) st2).
  pose proof (count_set_loop (fun i st => Object 0 (<[0 := 0]> (name (obj st i))) 0 0 OBJ_UNTRUSTED)
     (Z.to_nat MAX_OBJECTS) 0 st2) as (_ & Hdb & Hdk).
  fold st0 in Hdb, Hdk. cbn [set_count dir_buf disk]. rewrite Hdb, Hdk, Hd, Hr. cbn [Z.eqb negb].
  rewrite !Hbuf, Hmagic, Hcount by lia. rewrite Z.eqb_refl. cbn [negb].
  destruct (Z.ltb_spec MAX_OBJECTS (object_count st)); [lia|].
  set (st1 := set_dir buf d2 (set_count 0 st0)).
  set (st' := set_count _ _).
  assert (Hobj : forall id, 0 <= id < MAX_OBJECTS -> (id < object_count st -> obj st' id = load_entry id buf (obj st1 id)) /\
     (object_count st <= id -> in_use (obj st' id) = 0)).
  { intros id Hid. change (obj st' id) with (obj (loop (fun id st => set_obj id (load_entry id buf (obj st id)) st)
      0 (Z.to_nat (object_count st)) st1) id). rewrite load_loop, Z2Nat.id by lia. split; intros Hlt.
    - bdestruct_all; done || lia.
    - assert (Hu : in_use (obj st1 id) = 0); [|by bdestruct_all; try lia].
      change (in_use (obj st0 id) = 0). unfold st0. rewrite init_loop. unfold MAX_OBJECTS in *. bdestruct_all; done || lia. }
  assert (Hlive : forall id, 0 <= id < MAX_OBJECTS -> live st' id = live st id /\
     (live st id = true -> obj_equiv (obj st id) (obj st' id) /\ lba (obj st' id) = lba (obj st id))).
  { intros id Hid. destruct (Hobj id Hid) as [Hlt Hge]. pose proof (si_obj _ Hi id Hid) as Hok.
    destruct (Z.lt_ge_cases id (object_count st)) as [Hlt'|Hge'].
    - destruct (load_entry_equiv id (obj st id) buf (obj st1 id) Hok (Hentry id ltac:(lia))) as [He Hl].
      rewrite <- Hlt in He, Hl by done. split.
      + unfold live. by destruct He as (-> & _).
      + intros Hlv. split; [done|]. rewrite Hl. symmetry. apply (ok_lba _ _ Hok). by apply live_true.
    - unfold live. rewrite Hge, (si_beyond _ Hi) by lia. done. }
  split_and!; [done | exact Hlive |]. intros nm. apply find_by_name_sync; [done | done |].
  intros id Hid. destruct (Hlive id ltac:(lia)) as [Hl He]. split; [done|]. intros Ht. split.
  - rewrite (proj1 (Hobj id ltac:(lia))) by lia. apply load_entry_stored.
  - apply He, Ht.
Qed.
(** What a disk must hold for the namespace read from it to be sound: no
    directory, or one whose used entries are in bounds, as [directory_save]
    writes them.  The kernel itself does not check this. *)
Definition dir_byte (d : D) (i : Z) : Z := disk_byte d (DIRECTORY_LBA * 512 + i).
Definition directory_valid (d : D) : Prop :=
  let b := dir_byte d in
  le32 (b 0) (b 1) (b 2) (b 3) = DIRECTORY_MAGIC ->
  forall id, 0 <= id < Z.min (b 4) MAX_OBJECTS ->
    let off := 8 + id * 32 in
    (b off = 0 \/ b off = 1) /\ b (off + 1) <= OBJ_REJECTED /\
    le32 (b (off + 4)) (b (off + 5)) (b (off + 6)) (b (off + 7)) <= OBJECT_MAX_BYTES.

Lemma clear_loop n st id :
  obj (loop (fun i st => set_obj i (Object 0 (<[0 := 0]> (name (obj st i))) 0 0 OBJ_UNTRUSTED) st) 0 n st) id =
  if (0 <=? id) && (id <? Z.of_nat n) then Object 0 (<[0 := 0]> (name (obj st id))) 0 0 OBJ_UNTRUSTED else obj st id.
Proof.
  revert id. induction n as [|n IH]; intros id; [cbn [loop]; bdestruct_all; done || lia|].
  rewrite loop_S, obj_set, Z.add_0_l, !IH.
  destruct (Z.eqb_spec (Z.of_nat n) id) as [<-|]; bdestruct_all; done || lia.
Qed.

(** [storage_init] establishes the invariant, whatever the disk answers. *)
Lemma storage_init_inv st :
  (forall id j, in_u8 (chars (obj st id) j)) -> directory_valid (disk st) -> sto_inv (storage_init st).
Proof.
  intros Hu Hv. unfold storage_init, directory_load.
  set (f := fun i st => Object 0 (<[0 := 0]> (name (obj st i))) 0 0 OBJ_UNTRUSTED).
  set (st0 := loop _ 0 (Z.to_nat MAX_OBJECTS) st).
  destruct (count_set_loop f (Z.to_nat MAX_OBJECTS) 0 st) as (_ & Hdb & Hdk).
  change (loop (fun i st => set_obj i (f i st) st) 0 (Z.to_nat MAX_OBJECTS) st) with st0 in Hdb, Hdk. clearbody f.
  assert (H0 : forall id, 0 <= id < MAX_OBJECTS -> obj_ok id (obj st0 id) /\ in_use (obj st0 id) = 0).
  { intros id Hid. unfold st0. rewrite clear_loop. unfold MAX_OBJECTS in *. zcmp. cbn [andb]. split; [|done]. split; cbn [in_use lba size_bytes trust].
    - by left.
    - exists 0. split; [lia|]. unfold chars. cbn [name]. by rewrite aget_eq.
    - intros j. unfold chars. cbn [name]. rewrite aget_insert. destruct (_ =? _); [done | apply Hu].
    - done.
    - done.
    - done. }
  assert (He : forall b d, sto_inv (set_dir b d (set_count 0 st0))).
  { intros b d. split; [done | intros id Hid; by apply H0 | intros id Hid; cbn in Hid; apply H0; lia]. }
  cbn [set_count dir_buf disk]. rewrite Hdb, Hdk.
  destruct (disk_read DIRECTORY_LBA 1 (dir_buf st) (disk st)) as [[rc buf] d] eqn:Er.
  destruct (disk_read_spec _ _ _ _ _ _ _ Er ltac:(done)) as [Hrd _].
  destruct (Z.eqb_spec rc 0) as [->|]; cbn [negb]; [|apply He].
  assert (Hbuf : forall i, 0 <= i < 512 -> buf !!! i = dir_byte (disk st) i) by (intros i Hi; apply Hrd; done || lia).
  assert (Hb8 : forall i, in_u8 (dir_byte (disk st) i)) by (intros i; apply disk_byte_u8).
  destruct (Z.eqb_spec (le32 (buf !!! 0) (buf !!! 1) (buf !!! 2) (buf !!! 3)) DIRECTORY_MAGIC) as [Em|]; cbn [negb]; [|apply He].
  rewrite !Hbuf in Em by lia. specialize (Hv Em). rewrite Hbuf by lia.
  set (count := if MAX_OBJECTS <? dir_byte (disk st) 4 then MAX_OBJECTS else dir_byte (disk st) 4).
  assert (Hc : count = Z.min (dir_byte (disk st) 4) MAX_OBJECTS) by (unfold count; bdestruct_all; lia).
  pose proof (Hb8 4) as H4. unfold in_u8 in H4.
  clearbody count. set (st1 := set_dir buf d (set_count 0 st0)).
  assert (Hobj : forall id, 0 <= id < MAX_OBJECTS -> obj_ok id (obj (loop (fun id st => set_obj id (load_entry id buf (obj st id)) st)
      0 (Z.to_nat count) st1) id) /\ (count <= id -> in_use (obj (loop (fun id st => set_obj id (load_entry id buf (obj st id)) st)
      0 (Z.to_nat count) st1) id) = 0)).
  { intros id Hid. rewrite load_loop, Z2Nat.id by lia. change (obj st1 id) with (obj st0 id).
    destruct (Z.ltb_spec id count) as [Hlt|Hge]; [|rewrite andb_false_r; split; [by apply H0 | intros _; by apply H0]].
    zcmp. cbn [andb]. split; [|lia]. rewrite Hc in Hlt. destruct (Hv id) as (V1 & V2 & V3); [lia|].
    unfold MAX_OBJECTS in *. split; cbn [in_use lba size_bytes trust load_entry].
    - rewrite Z.add_0_r, Hbuf by lia. exact V1.
    - apply load_entry_stored.
    - intros j. unfold chars, load_entry. cbn [name]. rewrite copy_name_get.
      pose proof (name_len_range (fun j => buf !!! (8 + id * 32 + 8 + j))) as Hn.
      destruct (_ =? _); [done|]. destruct (Z.leb_spec 0 j), (Z.ltb_spec j (0 + name_len (fun j => buf !!! (8 + id * 32 + 8 + j))));
        cbn [andb]; try (apply (ok_chars id), H0; unfold MAX_OBJECTS; lia). rewrite Hbuf by lia. apply Hb8.
    - done.
    - rewrite !Hbuf by lia. split; [|exact V3]. apply le32_range; apply Hb8.
    - rewrite Hbuf by lia. split; [apply Hb8 | exact V2]. }
  split; [cbn [object_count set_count]; unfold MAX_OBJECTS in *; lia | intros id Hid; by apply Hobj |].
  intros id Hid. cbn [object_count set_count] in Hid. apply Hobj; unfold MAX_OBJECTS in *; lia.
Qed.
End persistence.

(** ** Data: round trip and isolation *)
Section data.
Context {D : Type} `{!BlockDevice D} `{!BlockDeviceLaws D}.
Implicit Types (st : storage D) (nm : Z -> Z).

(** Byte [i] of the data region of object [id]. *)
Definition data_byte st (id i : Z) : Z :=
  disk_byte (disk st) ((OBJECT_DATA_BASE_LBA + id * SECTORS_PER_OBJECT) * 512 + i).

Lemma save_disk st x :
  x < DIRECTORY_LBA * 512 \/ (DIRECTORY_LBA + 1) * 512 <= x ->
  disk_byte (disk (directory_save st)) x = disk_byte (disk st) x.
Proof.
  intros Hx. unfold directory_save. destruct (disk_write _ _ _ _) as [rc d] eqn:E.
  destruct (disk_write_spec _ _ _ _ _ _ E ltac:(done)) as [_ H]. by apply H.
Qed.

Lemma object_sectors id :
  0 <= id < MAX_OBJECTS -> sectors_ok (OBJECT_DATA_BASE_LBA + id * SECTORS_PER_OBJECT) SECTORS_PER_OBJECT.
Proof. unfold sectors_ok, OBJECT_DATA_BASE_LBA, SECTORS_PER_OBJECT, MAX_OBJECTS. lia. Qed.

Lemma save_data st id i : 0 <= id -> 0 <= i -> data_byte (directory_save st) id i = data_byte st id i.
Proof.
  intros. unfold data_byte. apply save_disk.
  unfold OBJECT_DATA_BASE_LBA, SECTORS_PER_OBJECT, DIRECTORY_LBA. lia.
Qed.

Lemma int32_len n : 0 <= n <= OBJECT_MAX_BYTES -> int32 n = n.
Proof. intros. apply int32_small. unfold in_int32, OBJECT_MAX_BYTES, SECTORS_PER_OBJECT in *. lia. Qed.

(** C35: what a successful [storage_write] stored, every later [storage_read] of
    the same object whose sector read succeeds returns: the number of bytes is
    the smaller of the written length and the caller's buffer, and the bytes
    are the written ones. *)
Theorem storage_write_read_roundtrip st id buf len r st1 out buf_len r2 out' st2 :
  sto_inv st -> in_u32 len -> in_u32 buf_len -> (forall i, in_u8 (buf i)) ->
  storage_write id buf len st = (r, st1) -> r <> -1 ->
  storage_read id out buf_len st1 = (r2, out', st2) -> r2 <> -1 ->
  r = len /\ r2 = Z.min len buf_len /\ (forall i, 0 <= i < r2 -> out' !!! i = buf i).
Proof.
  intros Hi Hlen Hbl Hb. unfold storage_write.
  destruct (bad_id id st) eqn:Eb; [by intros [= <- <-]|].
  destruct (Z.ltb_spec OBJECT_MAX_BYTES len) as [|Hle]; [by intros [= <- <-]|].
  set (sc := fill 0 _ 0 _ _). destruct (disk_write _ _ sc _) as [rc d] eqn:Ew.
  destruct (Z.eqb_spec rc 0) as [->|]; cbn [negb]; [|by intros [= <- <-]].
  intros [= <- <-] _. destruct (bad_id_false _ _ Eb) as [Hid Hl].
  set (o' := Object _ _ _ len _). set (st1 := directory_save _).
  assert (Ho : obj st1 id = o') by (unfold st1; by rewrite obj_save, obj_set, Z.eqb_refl).
  assert (Hlba : lba (obj st id) = OBJECT_DATA_BASE_LBA + id * SECTORS_PER_OBJECT).
  { apply (ok_lba _ _ (si_obj _ Hi id Hid)). by apply live_true. }
  unfold storage_read, bad_id, live. rewrite Ho. unfold o'. cbn [in_use trust lba size_bytes].
  destruct (_ || _); [by intros [= <- <- <-]|]. cbn [Z.eqb OBJ_UNTRUSTED OBJ_REJECTED].
  destruct (disk_read _ _ _ _) as [[rc2 sc2] d2] eqn:Er.
  destruct (Z.eqb_spec rc2 0) as [->|]; cbn [negb]; [|by intros [= <- <- <-]].
  intros [= <- <- <-] _. unfold in_u32 in *.
  assert (Hmin : (if buf_len <? len then buf_len else len) = Z.min len buf_len) by (bdestruct_all; lia).
  change (obj (set_scratch sc2 d2 st1) id) with (obj st1 id). rewrite Ho. cbn [o' size_bytes].
  rewrite !Hmin, !int32_len by lia. split_and!; try lia. intros i Hii.
  rewrite fill_in by lia. rewrite Z.sub_0_r.
  change (obj (set_scratch sc d st) id) with (obj st id) in Er. rewrite Hlba in Er, Ew.
  destruct (disk_read_spec _ _ _ _ _ _ _ Er ltac:(done)) as [Hrd _].
  assert (Hs : sectors_ok (OBJECT_DATA_BASE_LBA + id * SECTORS_PER_OBJECT) SECTORS_PER_OBJECT) by by apply object_sectors.
  destruct (disk_write_spec _ _ _ _ _ _ Ew Hs) as [Hwr _].
  unfold OBJECT_MAX_BYTES, SECTORS_PER_OBJECT in *. rewrite Hrd by (done || lia). unfold st1.
  rewrite save_disk by (unfold DIRECTORY_LBA, OBJECT_DATA_BASE_LBA in *; lia). cbn [set_obj set_scratch disk].
  clear Ho Er Ew Hrd. clearbody st1 o'.
  rewrite Hwr; [| reflexivity | | lia].
  2: { intros j Hj. unfold sc. rewrite fill_in by lia. case_match_goal; [apply Hb | unfold in_u8; lia]. }
  unfold sc. rewrite fill_in by lia. rewrite Z.sub_0_r. bdestruct_all; done || lia.
Qed.

Lemma data_isolation op st r st' j i :
  sto_inv st -> sto_step op st = (r, st') ->
  0 <= j < MAX_OBJECTS -> 0 <= i < OBJECT_MAX_BYTES ->
  match op with OpWrite id _ _ => id <> j | _ => True end ->
  data_byte st' j i = data_byte st j i.
Proof.
  intros Hi Hop Hj Hii Hne.
  assert (Halloc : forall nm r st', alloc_object nm st = (r, st') -> data_byte st' j i = data_byte st j i).
  { intros nm r0 st0. unfold alloc_object, init_object. destruct (scan _ _ _); [|destruct (_ <=? _)];
      intros [= <- <-]; rewrite ?save_data by lia; done. }
  destruct op as [nm|nm|id nm|id|id len|id buf len|id|id]; cbn in Hop.
  - unfold storage_create_object in Hop. destruct (_ <=? _); [by injection Hop as <- <-|by eapply Halloc].
  - unfold storage_create_named in Hop. destruct (_ <=? _); [by injection Hop as <- <-|by eapply Halloc].
  - unfold storage_rename in Hop. repeat case_match_hyp Hop; injection Hop as <- <-; rewrite ?save_data by lia; done.
  - unfold storage_delete in Hop. repeat case_match_hyp Hop; injection Hop as <- <-; rewrite ?save_data by lia; done.
  - unfold storage_read in Hop. destruct (bad_id id st); [by injection Hop as <- <-|].
    destruct (_ =? OBJ_REJECTED); [by injection Hop as <- <-|].
    destruct (disk_read _ _ _ _) as [[rc sc] d] eqn:Er.
    destruct (disk_read_spec _ _ _ _ _ _ _ Er ltac:(done)) as (_ & _ & H).
    destruct (negb _); injection Hop as <- <-; apply H.
  - unfold storage_write in Hop. destruct (bad_id id st) eqn:Eb; [by injection Hop as <- <-|].
    destruct (bad_id_false _ _ Eb) as [Hid Hl]. destruct (_ <? _); [by injection Hop as <- <-|].
    destruct (disk_write _ _ _ _) as [rc d] eqn:Ew.
    rewrite (ok_lba _ _ (si_obj _ Hi id Hid)) in Ew by by apply live_true.
    destruct (disk_write_spec _ _ _ _ _ _ Ew (object_sectors _ Hid)) as [_ H].
    unfold OBJECT_MAX_BYTES, SECTORS_PER_OBJECT in *.
    destruct (negb _); injection Hop as <- <-; rewrite ?save_data by lia; unfold data_byte; cbn [disk set_obj set_scratch];
      apply H; unfold SECTORS_PER_OBJECT; lia.
  - unfold storage_promote in Hop. repeat case_match_hyp Hop; injection Hop as <- <-; rewrite ?save_data by lia; done.
  - unfold storage_reject in Hop. repeat case_match_hyp Hop; injection Hop as <- <-; rewrite ?save_data by lia; done.
Qed.

(** C36: the store's operations touch no data but the written object's: every
    operation leaves the 2048 data bytes of every other object as they were,
    and only [storage_write] changes any. *)
Theorem storage_data_isolation op st r st' j i :
  sto_inv st -> sto_step op st = (r, st') ->
  0 <= j < MAX_OBJECTS -> 0 <= i < OBJECT_MAX_BYTES ->
  match op with OpWrite id _ _ => id <> j | _ => True end ->
  data_byte st' j i = data_byte st j i.
Proof. intros. by eapply data_isolation. Qed.
End data.

(** ** Trust *)
Section trust.
Context {D : Type} `{!BlockDevice D}.
Implicit Types (st : storage D) (nm : Z -> Z).

(** The moves of one object's trust level. *)
Inductive trust_move : sto_op -> Z -> Z -> Z -> Prop :=
| TrustKeep op id t : trust_move op id t t
| TrustPromote id t : 0 <= t < OBJ_TRUSTED -> trust_move (OpPromote id) id t (t + 1)
| TrustReject id t : trust_move (OpReject id) id t OBJ_REJECTED
| TrustRewrite id t buf len : trust_move (OpWrite id buf len) id t OBJ_UNTRUSTED.

Lemma alloc_keeps_live nm st r st' j :
  sto_inv st -> 0 <= j < MAX_OBJECTS -> alloc_object nm st = (r, st') -> live st j = true ->
  obj st' j = obj st j.
Proof.
  intros Hi Hj. unfold alloc_object, init_object. destruct (scan _ _ _) as [id|] eqn:E.
  - intros [= <- <-] Hl. rewrite obj_save, obj_set. destruct (Z.eqb_spec id j) as [<-|]; [|done].
    apply scan_Some in E as (_ & Hz & _). unfold live in Hl. by rewrite Hz in Hl.
  - destruct (_ <=? _); intros [= <- <-] Hl; [done|]. rewrite obj_save, obj_set.
    pose proof (live_count _ _ Hi Hj Hl). destruct (Z.eqb_spec (object_count st) j); [lia|done].
Qed.

(** An object that stays live across one operation moves by [trust_move]. *)
Lemma step_trust_move op st r st' j :
  sto_inv st -> 0 <= j < MAX_OBJECTS -> sto_step op st = (r, st') ->
  live st j = true -> live st' j = true -> trust_move op j (trust (obj st j)) (trust (obj st' j)).
Proof.
  intros Hi Hj Hop Hl Hl'.
  assert (Hset : forall id o, trust_move op j (trust (obj st j)) (trust o) \/ id <> j ->
    trust_move op j (trust (obj st j)) (trust (obj (directory_save (set_obj id o st)) j))).
  { intros id o H. rewrite obj_save, obj_set. destruct (Z.eqb_spec id j), H; try done; constructor. }
  pose proof (ok_trust _ _ (si_obj _ Hi j Hj)) as Ht.
  destruct op as [nm|nm|id nm|id|id len|id buf len|id|id]; cbn in Hop.
  - unfold storage_create_object in Hop. destruct (_ <=? _); [injection Hop as <- <-; constructor|].
    rewrite (alloc_keeps_live _ _ _ _ _ Hi Hj Hop Hl). constructor.
  - unfold storage_create_named in Hop. destruct (_ <=? _); [injection Hop as <- <-; constructor|].
    rewrite (alloc_keeps_live _ _ _ _ _ Hi Hj Hop Hl). constructor.
  - unfold storage_rename in Hop. repeat case_match_hyp Hop; injection Hop as <- <-; try constructor.
    apply Hset. destruct (decide (id = j)) as [->|]; [left; constructor | by right].
  - unfold storage_delete in Hop. case_match_hyp Hop; injection Hop as <- <-; try constructor.
    apply Hset. right. intros ->. unfold live in Hl'. by rewrite obj_save, obj_set, Z.eqb_refl in Hl'.
  - unfold storage_read in Hop. destruct (bad_id _ _); [injection Hop as <- <-; constructor|].
    destruct (_ =? OBJ_REJECTED); [injection Hop as <- <-; constructor|].
    destruct (disk_read _ _ _ _) as [[rc sc] d]. destruct (negb _); injection Hop as <- <-; constructor.
  - unfold storage_write in Hop. destruct (bad_id _ _); [injection Hop as <- <-; constructor|].
    destruct (_ <? _); [injection Hop as <- <-; constructor|].
    destruct (disk_write _ _ _ _) as [rc d]. destruct (negb _); injection Hop as <- <-; [constructor|].
    rewrite obj_save, obj_set. destruct (Z.eqb_spec id j) as [->|]; constructor.
  - unfold storage_promote in Hop. destruct (bad_id _ _); [injection Hop as <- <-; constructor|].
    destruct (_ || _) eqn:Eo; injection Hop as <- <-; [constructor|]. breflect.
    apply Hset. destruct (decide (id = j)) as [->|]; [left|by right]. constructor.
    unfold OBJ_TRUSTED, OBJ_REJECTED in *. lia.
  - unfold storage_reject in Hop. destruct (bad_id _ _); injection Hop as <- <-; [constructor|].
    apply Hset. destruct (decide (id = j)) as [->|]; [left; constructor | by right].
Qed.

(** A sequence of store operations. *)
Fixpoint sto_run (ops : list sto_op) st : storage D :=
  match ops with
  | [] => st
  | op :: ops => sto_run ops (snd (sto_step op st))
  end.

(** [op] does not rewrite or delete object [j]. *)
Definition keeps_object (j : Z) (op : sto_op) : Prop :=
  match op with OpWrite id _ _ | OpDelete id => id <> j | _ => True end.

(** Well-formedness does not need short names: a long name is truncated. *)
Definition op_bytes_ok (op : sto_op) : Prop :=
  match op with
  | OpCreateObject nm | OpCreateNamed nm | OpRename _ nm => forall j, in_u8 (nm j)
  | OpRead _ len | OpWrite _ _ len => in_u32 len
  | _ => True
  end.

Lemma sto_step_inv_bytes op st r st' :
  sto_inv st -> op_bytes_ok op -> sto_step op st = (r, st') -> sto_inv st'.
Proof.
  intros Hi Hop Heq. destruct op as [nm|nm|id nm|id|id len|id buf len|id|id]; cbn in Hop, Heq.
  - unfold storage_create_object in Heq. destruct (_ <=? _); [by injection Heq as <- <-|].
    destruct (alloc_object_spec _ _ _ _ Hi Hop Heq) as [(_ & -> & _)|(_ & _ & H & _)]; done.
  - unfold storage_create_named in Heq. destruct (_ <=? _); [by injection Heq as <- <-|].
    destruct (alloc_object_spec _ _ _ _ Hi Hop Heq) as [(_ & -> & _)|(_ & _ & H & _)]; done.
  - unfold storage_rename in Heq. destruct (_ || _) eqn:E; [by injection Heq as <- <-|].
    destruct (_ && _); injection Heq as <- <-; [done|].
    destruct (range_guard_false _ _ Hi E) as [Hid Hl]. pose proof (live_count _ _ Hi Hid Hl).
    apply sto_inv_save, sto_inv_set; [done|lia|]. destruct (si_obj _ Hi id Hid). split; cbn; try done.
    + apply copy_name_stored.
    + intros j. apply copy_name_u8; [apply Hop|done].
  - unfold storage_delete in Heq. destruct (_ || _) eqn:E; injection Heq as <- <-; [done|].
    destruct (range_guard_false _ _ Hi E) as [Hid Hl]. pose proof (live_count _ _ Hi Hid Hl).
    apply sto_inv_save, sto_inv_set; [done|lia|]. by apply deleted_ok, si_obj.
  - unfold storage_read in Heq. destruct (bad_id id st); [by injection Heq as <- <-|].
    destruct (_ =? OBJ_REJECTED); [by injection Heq as <- <-|].
    destruct (disk_read _ _ _ _) as [[rc sc] d]. destruct (negb _); injection Heq as <- <-; by apply set_scratch_inv.
  - unfold storage_write in Heq. destruct (bad_id id st) eqn:Eb; [by injection Heq as <- <-|].
    destruct (Z.ltb_spec OBJECT_MAX_BYTES len); [by injection Heq as <- <-|].
    destruct (disk_write _ _ _ _) as [rc d]. destruct (bad_id_false _ _ Eb) as [Hid Hl].
    pose proof (live_count _ _ Hi Hid Hl).
    destruct (negb _); injection Heq as <- <-; [by apply set_scratch_inv|].
    apply sto_inv_save, sto_inv_set; [by apply set_scratch_inv | by split; [lia|] |].
    destruct (si_obj _ Hi id Hid). unfold in_u32 in Hop. split; cbn; try done; lia.
  - unfold storage_promote in Heq. destruct (bad_id id st) eqn:Eb; [by injection Heq as <- <-|].
    destruct (bad_id_false _ _ Eb) as [Hid Hl]. pose proof (live_count _ _ Hi Hid Hl).
    destruct (_ || _) eqn:Et; injection Heq as <- <-; [done|].
    pose proof (si_obj _ Hi id Hid) as Hok. pose proof (ok_trust _ _ Hok). breflect.
    apply sto_inv_save, sto_inv_set; [done|lia|]. apply trust_ok; [done|].
    unfold OBJ_TRUSTED, OBJ_REJECTED in *. lia.
  - unfold storage_reject in Heq. destruct (bad_id id st) eqn:Eb; injection Heq as <- <-; [done|].
    destruct (bad_id_false _ _ Eb) as [Hid Hl]. pose proof (live_count _ _ Hi Hid Hl).
    apply sto_inv_save, sto_inv_set; [done|lia|]. apply trust_ok; [by apply si_obj|done].
Qed.

Lemma sto_step_inv op st r st' :
  sto_inv st -> op_args_ok op -> sto_step op st = (r, st') -> sto_inv st'.
Proof. intros Hi Hop. apply sto_step_inv_bytes; [exact Hi|]. destruct op; cbn in *; tauto. Qed.

(** The name an operation stores has at most 15 characters. *)
Definition op_name_short (op : sto_op) : Prop :=
  match op with OpCreateObject nm | OpCreateNamed nm | OpRename _ nm => short_name nm | _ => True end.

(** C16: every store operation, on every branch and for every device behaviour,
    preserves the table's well-formedness (ids below [MAX_OBJECTS], stored
    names NUL-terminated, data sectors fixed by the id, sizes within 2048
    bytes, trust one of the five levels), whatever name it is given; and it
    preserves the uniqueness of live names unless it stores a name of more than
    15 characters, which the table cuts off ([long_name_creates_duplicates]
    shows that uniqueness is then lost). *)
Theorem storage_step_invariant op st r st' :
  sto_inv st -> op_bytes_ok op -> sto_step op st = (r, st') ->
  sto_inv st' /\ (unique_names st -> op_name_short op -> unique_names st').
Proof.
  intros Hi Hop Heq. split; [by eapply sto_step_inv_bytes|]. intros Hu Hs.
  apply (short_step_inv op st r st' Hi Hu); [|exact Heq]. by destruct op.
Qed.

(** A live object outlives every operation that is not its deletion. *)
Lemma step_keeps_live op st r st' j :
  sto_inv st -> 0 <= j < MAX_OBJECTS -> sto_step op st = (r, st') -> keeps_object j op ->
  live st j = true -> live st' j = true.
Proof.
  intros Hi Hj Hop Hk Hl.
  assert (Hset : forall id o st0, (id = j -> in_use o = 1) -> live st0 j = true ->
    live (directory_save (set_obj id o st0)) j = true).
  { intros id o st0 H Hl0. unfold live. rewrite obj_save, obj_set. destruct (Z.eqb_spec id j); [by rewrite H|done]. }
  assert (Hu : in_use (obj st j) = 1) by by apply live_true.
  destruct op as [nm|nm|id nm|id|id len|id buf len|id|id]; cbn in Hop, Hk.
  - unfold storage_create_object in Hop. destruct (_ <=? _); [by injection Hop as <- <-|].
    unfold live. by rewrite (alloc_keeps_live _ _ _ _ _ Hi Hj Hop Hl), Hu.
  - unfold storage_create_named in Hop. destruct (_ <=? _); [by injection Hop as <- <-|].
    unfold live. by rewrite (alloc_keeps_live _ _ _ _ _ Hi Hj Hop Hl), Hu.
  - unfold storage_rename in Hop. repeat case_match_hyp Hop; injection Hop as <- <-; try done.
    apply Hset; [by intros ->|done].
  - unfold storage_delete in Hop. case_match_hyp Hop; injection Hop as <- <-; [done|]. by apply Hset.
  - unfold storage_read in Hop. destruct (bad_id _ _); [by injection Hop as <- <-|].
    destruct (_ =? OBJ_REJECTED); [by injection Hop as <- <-|].
    destruct (disk_read _ _ _ _) as [[rc sc] d]. destruct (negb _); by injection Hop as <- <-.
  - unfold storage_write in Hop. destruct (bad_id _ _); [by injection Hop as <- <-|].
    destruct (_ <? _); [by injection Hop as <- <-|].
    destruct (disk_write _ _ _ _) as [rc d]. destruct (negb _); injection Hop as <- <-; [done|].
    by apply Hset.
  - unfold storage_promote in Hop. destruct (bad_id _ _); [by injection Hop as <- <-|].
    destruct (_ || _); injection Hop as <- <-; [done|]. apply Hset; [by intros ->|done].
  - unfold storage_reject in Hop. destruct (bad_id _ _); injection Hop as <- <-; [done|].
    apply Hset; [by intros ->|done].
Qed.

(** trust is a one-way ladder with a terminal rejection: an operation on a
    live object leaves its level alone, raises it by exactly one step below
    [OBJ_TRUSTED], rejects it, or resets it because its contents were
    rewritten; nothing else. *)
Theorem trust_ladder op st r st' j :
  sto_inv st -> 0 <= j < MAX_OBJECTS -> sto_step op st = (r, st') ->
  live st j = true -> live st' j = true -> trust_move op j (trust (obj st j)) (trust (obj st' j)).
Proof. by apply step_trust_move. Qed.

(** a rejected object can never be read again: through any sequence of
    store operations that neither rewrites nor deletes it, it stays rejected
    and every read of it fails, delivering nothing. *)
Theorem rejected_stays_unreadable ops st j buf len :
  sto_inv st -> Forall op_args_ok ops -> Forall (keeps_object j) ops ->
  0 <= j < MAX_OBJECTS -> live st j = true -> trust (obj st j) = OBJ_REJECTED ->
  trust (obj (sto_run ops st) j) = OBJ_REJECTED /\
  storage_read j buf len (sto_run ops st) = (-1, buf, sto_run ops st).
Proof.
  intros Hi Hargs Hkeep Hj. revert st Hi. induction ops as [|op ops IH]; intros st Hi Hl Ht; cbn [sto_run].
  - split; [done|]. unfold storage_read, bad_id. rewrite Hl, Ht. cbn [negb].
    by destruct (_ || _).
  - apply List.Forall_cons_iff in Hargs as [Ha Hargs]. apply List.Forall_cons_iff in Hkeep as [Hk Hkeep].
    destruct (sto_step op st) as [r st1] eqn:E. cbn [snd].
    pose proof (step_keeps_live _ _ _ _ _ Hi Hj E Hk Hl) as Hl1.
    apply IH; try done; [by eapply sto_step_inv|].
    pose proof (step_trust_move _ _ _ _ _ Hi Hj E Hl Hl1) as Hm. rewrite Ht in Hm.
    inversion Hm; subst; unfold OBJ_REJECTED, OBJ_TRUSTED in *; cbn in Hk; lia || done.
Qed.
End trust.

(** ** Creation and enumeration *)
Section namespace.
Context {D : Type} `{!BlockDevice D}.
Implicit Types (st : storage D) (nm : Z -> Z).

Lemma find_unique nm st id :
  sto_inv st -> unique_names st -> 0 <= id < MAX_OBJECTS -> live st id = true ->
  same_str (chars (obj st id)) nm -> find_by_name nm st = id.
Proof.
  intros Hi Hu Hid Hl Hs. destruct (find_by_name_spec nm st Hi) as [[_ H]|(H1 & H2 & H3)].
  - by destruct (H id Hid Hl).
  - pose proof (si_count _ Hi). apply Hu; [lia|done|done|done|].
    eapply same_str_trans; [apply (ok_name (find_by_name nm st)), si_obj; [done|lia] | exact H3 |].
    apply same_str_sym; [by apply (ok_name _ _ (si_obj _ Hi id Hid)) | done].
Qed.

(** creating a short name either returns the live object that already has
    it, unchanged, or fails only because all eight slots are live, or makes a
    fresh empty untrusted object; afterwards looking the name up returns the
    id, creating it again returns the same id and changes nothing, and the
    exclusive create refuses it. *)
Theorem create_then_lookup nm st r st' :
  sto_inv st -> unique_names st -> (forall j, in_u8 (nm j)) -> short_name nm ->
  storage_create_object nm st = (r, st') ->
  (r = -1 /\ st' = st /\ forall j, 0 <= j < MAX_OBJECTS -> live st j = true) \/
  (0 <= r < MAX_OBJECTS /\ storage_lookup_by_name nm st' = r /\
   storage_create_object nm st' = (r, st') /\ storage_create_named nm st' = (-1, st') /\
   (live st r = true /\ st' = st \/
    live st r = false /\ size_bytes (obj st' r) = 0 /\ trust (obj st' r) = OBJ_UNTRUSTED /\
    forall j, j <> r -> obj st' j = obj st j)).
Proof.
  intros Hi Hu Hnm Hs. unfold storage_create_object at 1.
  destruct (Z.leb_spec 0 (find_by_name nm st)) as [Hf|Hf].
  - intros [= <- <-]. right. destruct (find_by_name_spec nm st Hi) as [[H _]|(H1 & H2 & H3)]; [lia|].
    pose proof (si_count _ Hi). unfold storage_lookup_by_name, storage_create_object, storage_create_named.
    destruct (Z.leb_spec 0 (find_by_name nm st)); [|lia].
    split_and!; try done; try lia. by left.
  - intros Heq. destruct (create_inv _ _ _ _ Hi Hu Hnm Hs Hf Heq) as [Hi' Hu'].
    destruct (alloc_object_spec _ _ _ _ Hi Hnm Heq) as [(-> & -> & _ & H)|(Hr & Hfree & _ & Hl & Ho & Hnew)];
      [by left|right].
    assert (Hfind : find_by_name nm st' = r).
    { apply find_unique; try done. rewrite Hnew. by apply copy_name_same. }
    unfold storage_lookup_by_name, storage_create_object, storage_create_named. rewrite Hfind.
    destruct (Z.leb_spec 0 r); [|lia]. split_and!; try done; try lia.
    right. by rewrite Hnew.
Qed.

(** The live ids below [object_count], in order. *)
Definition live_ids st : list Z :=
  filter (fun id => live st id = true) (seqZ 0 (object_count st)).

Lemma nth_live_spec n id seen nth st :
  nth_live n id seen nth st =
  if nth <? seen then None
  else filter (fun id => live st id = true) (seqZ id (Z.of_nat n)) !! Z.to_nat (nth - seen).
Proof.
  revert id seen; induction n as [|n IH]; intros id seen; cbn [nth_live].
  - by destruct (nth <? seen).
  - rewrite seqZ_cons by lia. rewrite filter_cons. replace (Z.pred (Z.of_nat (S n))) with (Z.of_nat n) by lia.
    destruct (live st id) eqn:E; cbn [negb].
    + rewrite decide_True by done. destruct (Z.eqb_spec seen nth) as [->|].
      * rewrite Z.ltb_irrefl, Z.sub_diag. done.
      * rewrite IH. bdestruct_all; try lia; try done.
        replace (Z.to_nat (nth - seen)) with (S (Z.to_nat (nth - (seen + 1)))) by lia. done.
    + rewrite decide_False by done. rewrite IH. done.
Qed.

(** [storage_get_by_index] enumerates the namespace exactly: index [nth]
    succeeds precisely for the [nth] live object, in id order, reports that
    object's id, name, trust and size, and fails without writing anything for
    every other index, negative ones included. *)
Theorem get_by_index_enumerates nth out st :
  storage_get_by_index nth out st =
  match (if nth <? 0 then None else live_ids st !! Z.to_nat nth) with
  | Some id => (1, IndexOut (copy_name 0 (fun j => name (obj st id) !!! j) (io_name out)) id
                     (trust (obj st id)) (size_bytes (obj st id)))
  | None => (0, out)
  end.
Proof.
  unfold storage_get_by_index, live_ids. rewrite nth_live_spec.
  destruct (Z.ltb_spec nth 0); [done|]. rewrite Z.sub_0_r.
  replace (seqZ 0 (Z.of_nat (Z.to_nat (object_count st)))) with (seqZ 0 (object_count st)); [done|].
  unfold seqZ. do 2 f_equal. lia.
Qed.
End namespace.

(** ** A RAM disk, for closed examples *)
Module RamDisk.
Abbreviation ram_disk := (gmap Z Z).

#[export] Instance ram_device : BlockDevice ram_disk := {
  disk_read lba n buf d := (0, fill 0 (fun i => u8 (d !!! (lba * 512 + i))) 0 (Z.to_nat (n * 512)) buf, d);
  disk_write lba n buf d := (0, fill (lba * 512) (fun i => buf !!! i) 0 (Z.to_nat (n * 512)) d);
  disk_byte d x := u8 (d !!! x)
}.

#[export] Instance ram_device_laws : BlockDeviceLaws ram_disk.
Proof.
  split.
  - intros. apply u8_range.
  - intros lba n buf d rc buf' d' [= <- <- <-] _. split_and!; [|intros; apply fill_out; lia|done].
    intros _ _ i Hi. rewrite fill_in by lia. by rewrite Z.sub_0_r.
  - intros lba n buf d rc d' [= <- <-] [Hl [Hn _]]. cbn [disk_byte ram_device]. split.
    + intros _ Hb i Hi. rewrite fill_in by lia. replace (lba * 512 + i - lba * 512) with i by lia.
      by apply u8_small, Hb.
    + intros x Hx. by rewrite fill_out by lia.
Qed.

Lemma ram_write_rc lba n buf (d d' : ram_disk) rc : disk_write lba n buf d = (rc, d') -> rc = 0.
Proof. by intros [= <- _]. Qed.
Lemma ram_read_rc lba n buf buf' (d d' : ram_disk) rc : disk_read lba n buf d = (rc, buf', d') -> rc = 0.
Proof. by intros [= <- _ _]. Qed.

(** A zeroed disk and kernel, initialised. *)
Definition fresh : storage ram_disk := Storage ∅ 0 ∅ ∅ ∅.
Definition store0 : storage ram_disk := storage_init fresh.

(** A name given as a list of character codes. *)
Definition str (l : list Z) (j : Z) : Z := default 0 (l !! Z.to_nat j).
Definition str_short (l : list Z) : bool := forallb (fun c => (0 <=? c) && (c <? 256)) l && (Z.of_nat (length l) <=? 15).
Definition notes := str [110; 111; 116; 101; 115].

Lemma obj0 id : 0 <= id < MAX_OBJECTS -> obj store0 id = Object 0 {[0 := 0]} 0 0 OBJ_UNTRUSTED.
Proof.
  intros H. assert (Hin : id ∈ [0;1;2;3;4;5;6;7]) by (unfold MAX_OBJECTS in H; set_unfold; lia).
  set_unfold. repeat (destruct Hin as [->|Hin]; [vm_compute; reflexivity|]). done.
Qed.

Lemma store0_inv : sto_inv store0.
Proof.
  split.
  - vm_compute. split; discriminate.
  - intros id Hid. rewrite obj0 by done. split; cbn; unfold OBJECT_MAX_BYTES, SECTORS_PER_OBJECT, OBJ_REJECTED, OBJ_UNTRUSTED; try lia.
    + by exists 0.
    + intros j. unfold chars; cbn. change {[0 := 0]} with (<[0 := 0]> (∅ : gmap Z Z)). rewrite aget_insert.
      destruct (_ =? _); [by unfold in_u8|]. rewrite lookup_total_empty. by unfold in_u8.
  - intros id Hid. rewrite obj0; [done|]. replace (object_count store0) with 0 in Hid by (by vm_compute). done.
Qed.

Lemma store0_unique : unique_names store0.
Proof.
  intros i j Hi Hj Hl. exfalso. apply (eq_true_false_abs _ Hl).
  unfold live. generalize (obj0 i Hi). generalize (obj store0 i). intros o ->. reflexivity.
Qed.

Lemma str_u8 l : forallb (fun c => (0 <=? c) && (c <? 256)) l = true -> forall j, in_u8 (str l j).
Proof.
  intros H j. unfold str. destruct (l !! Z.to_nat j) as [c|] eqn:E; cbn; [|by unfold in_u8].
  rewrite forallb_forall in H. apply list_elem_of_lookup_2, list_elem_of_In, H in E. breflect. unfold in_u8. lia.
Qed.

Lemma notes_u8 : forall j, in_u8 (notes j).
Proof. by apply str_u8. Qed.

(** The store with one object ["notes"]. *)
Definition store1 : storage ram_disk := snd (storage_create_object notes store0).

Lemma notes_short : short_name notes.
Proof. by vm_compute. Qed.

Lemma notes_absent : find_by_name notes store0 < 0.
Proof. by vm_compute. Qed.

Lemma store1_inv : sto_inv store1 /\ unique_names store1.
Proof.
  unfold store1, storage_create_object. destruct (Z.leb_spec 0 (find_by_name notes store0)).
  - split; [apply store0_inv | apply store0_unique].
  - destruct (alloc_object notes store0) as [r st] eqn:E.
    apply (create_inv notes store0 r st); [apply store0_inv | apply store0_unique | apply notes_u8 | apply notes_short | done | done].
Qed.

Lemma store1_object : live store1 0 = true.
Proof. by vm_compute. Qed.

(** Contents for the examples. *)
Definition data3 := str [7; 8; 9].

Lemma data3_u8 : forall j, in_u8 (data3 j).
Proof. by apply str_u8. Qed.
End RamDisk.

(** ** What the code does outside its contract *)
Module Divergence.
Import RamDisk.

(** Sixteen letters: stored as fifteen, so never found again. *)
Definition name16 := str (repeat 97 16).

(** names longer than 15 characters break the uniqueness the exclusive
    create promises: two [storage_create_named] calls with the same 16-letter
    name both succeed, and leave two live objects with the same stored name. *)
Theorem long_name_creates_duplicates :
  let '(r1, s1) := storage_create_named name16 store0 in
  let '(r2, s2) := storage_create_named name16 s1 in
  r1 = 0 /\ r2 = 1 /\ live s2 0 = true /\ live s2 1 = true /\
  name_eq (name (obj s2 0)) (fun j => name (obj s2 1) !!! j) = true.
Proof. vm_compute. split_and!; reflexivity. Qed.

(** A directory sector with one live entry that claims 4096 bytes. *)
Definition corrupt_disk : ram_disk :=
  fill (DIRECTORY_LBA * 512) (str ([0x56; 0x44; 0x49; 0x52; 1; 0; 0; 0; 1; 0; 0; 0; 0; 16; 0; 0; 97])) 0 17 ∅.

(** [directory_load] takes the entry's size as it is, so after loading a
    corrupt directory [storage_read] copies more bytes than the 2048-byte
    scratch buffer holds. *)
Theorem corrupt_directory_overread :
  let st := storage_init (Storage ∅ 0 ∅ ∅ corrupt_disk) in
  fst (fst (storage_read 0 ∅ 8192 st)) = 4096 /\ OBJECT_MAX_BYTES = 2048.
Proof. vm_compute. split; reflexivity. Qed.

(** A device that reads but refuses every write. *)
Record ro_disk := ReadOnly { ro_bytes : gmap Z Z }.
#[local] Instance ro_device : BlockDevice ro_disk := {
  disk_read lba n buf d := (0, fill 0 (fun i => u8 (ro_bytes d !!! (lba * 512 + i))) 0 (Z.to_nat (n * 512)) buf, d);
  disk_write lba n buf d := (-1, d);
  disk_byte d x := u8 (ro_bytes d !!! x)
}.

(** a directory write that the disk refuses is not reported: the creation
    succeeds and is visible until the next boot, which has lost it. *)
Theorem save_failure_unreported :
  let st0 := storage_init (Storage ∅ 0 ∅ ∅ (ReadOnly ∅)) in
  let '(r, st) := storage_create_named notes st0 in
  r = 0 /\ storage_lookup_by_name notes st = 0 /\
  storage_lookup_by_name notes (storage_init st) = -1.
Proof. vm_compute. split_and!; reflexivity. Qed.
End Divergence.

(** ** Witnesses *)
Section witnesses.
Import RamDisk.

Lemma storage_step_invariant_witness :
  let st' := snd (sto_step (OpCreateObject notes) store0) in sto_inv st' /\ unique_names st'.
Proof.
  destruct (storage_step_invariant (OpCreateObject notes) store0 (fst (sto_step (OpCreateObject notes) store0)) _ store0_inv notes_u8
    (surjective_pairing _)) as [M1 M2].
  split; [exact M1 | exact (M2 store0_unique notes_short)].
Defined.

Lemma directory_survives_reboot_witness :
  exists d, forall st2, disk st2 = d -> dir_buf st2 = ∅ ->
    object_count (storage_init st2) = object_count store1 /\
    storage_lookup_by_name notes (storage_init st2) = storage_lookup_by_name notes store1.
Proof.
  destruct (disk_write DIRECTORY_LBA 1 (directory_bytes store1) (disk store1)) as [rc d] eqn:E.
  assert (Hrc : rc = 0) by exact (ram_write_rc _ _ _ _ _ _ E).
  destruct (disk_read DIRECTORY_LBA 1 ∅ d) as [[rc2 buf] d2] eqn:E2.
  assert (Hrc2 : rc2 = 0) by exact (ram_read_rc _ _ _ _ _ _ _ E2).
  subst rc rc2. exists d. intros st2 Hd Hb. rewrite <- Hb in E2.
  destruct (directory_survives_reboot store1 d st2 buf d2 (proj1 store1_inv) E Hd E2) as (H1 & _ & H3).
  split; [exact H1 | apply H3].
Defined.

Lemma storage_write_read_roundtrip_witness :
  exists st1 out st2, storage_write 0 data3 3 store1 = (3, st1) /\
    storage_read 0 ∅ 8 st1 = (3, out, st2) /\ (forall i, 0 <= i < 3 -> out !!! i = data3 i).
Proof.
  assert (Hw : fst (storage_write 0 data3 3 store1) = 3) by (vm_compute; reflexivity).
  assert (Hr : fst (fst (storage_read 0 ∅ 8 (snd (storage_write 0 data3 3 store1)))) = 3) by (vm_compute; reflexivity).
  destruct (storage_write 0 data3 3 store1) as [r st1] eqn:E1. cbn [fst snd] in Hw, Hr.
  destruct (storage_read 0 ∅ 8 st1) as [[r2 out] st2] eqn:E2. cbn [fst] in Hr. subst r r2.
  exists st1, out, st2. split; [reflexivity|]. split; [exact E2|].
  refine (proj2 (proj2 (storage_write_read_roundtrip store1 0 data3 3 3 st1 ∅ 8 3 out st2
    (proj1 store1_inv) _ _ data3_u8 E1 _ E2 _))); unfold in_u32; lia.
Defined.

Lemma storage_data_isolation_witness :
  exists r st', sto_step (OpWrite 0 data3 3) store1 = (r, st') /\ data_byte st' 1 5 = data_byte store1 1 5.
Proof.
  destruct (sto_step (OpWrite 0 data3 3) store1) as [r st'] eqn:E. exists r, st'. split; [reflexivity|].
  apply (storage_data_isolation (OpWrite 0 data3 3) store1 r st' 1 5 (proj1 store1_inv) E);
    [unfold MAX_OBJECTS | unfold OBJECT_MAX_BYTES, SECTORS_PER_OBJECT |]; lia.
Defined.

Lemma trust_ladder_witness :
  exists st', sto_step (OpPromote 0) store1 = (1, st') /\
    trust_move (OpPromote 0) 0 (trust (obj store1 0)) (trust (obj st' 0)).
Proof.
  assert (Hr : fst (sto_step (OpPromote 0) store1) = 1) by (vm_compute; reflexivity).
  assert (Hl : live (snd (sto_step (OpPromote 0) store1)) 0 = true) by (vm_compute; reflexivity).
  destruct (sto_step (OpPromote 0) store1) as [r st'] eqn:E. cbn [fst snd] in Hr, Hl. subst r.
  exists st'. split; [reflexivity|].
  refine (trust_ladder (OpPromote 0) store1 1 st' 0 (proj1 store1_inv) _ E store1_object Hl).
  unfold MAX_OBJECTS; lia.
Defined.

Definition rejected1 : storage ram_disk := snd (storage_reject 0 store1).

Lemma rejected1_ok : sto_inv rejected1 /\ live rejected1 0 = true /\ trust (obj rejected1 0) = OBJ_REJECTED.
Proof.
  split; [|split; vm_compute; reflexivity]. unfold rejected1.
  destruct (storage_reject 0 store1) as [r st'] eqn:E. cbn [snd].
  exact (sto_step_inv (OpReject 0) store1 r st' (proj1 store1_inv) I E).
Qed.

Lemma rejected_stays_unreadable_witness :
  let st := sto_run [OpPromote 0; OpCreateObject data3] rejected1 in
  trust (obj st 0) = OBJ_REJECTED /\ storage_read 0 ∅ 8 st = (-1, ∅, st).
Proof.
  refine (rejected_stays_unreadable [OpPromote 0; OpCreateObject data3] rejected1 0 ∅ 8
    (proj1 rejected1_ok) _ _ _ (proj1 (proj2 rejected1_ok)) (proj2 (proj2 rejected1_ok))).
  - constructor; [exact I|]. constructor; [|constructor]. split; [exact data3_u8 | vm_compute; reflexivity].
  - constructor; [exact I|]. constructor; [exact I | constructor].
  - unfold MAX_OBJECTS; lia.
Defined.

Lemma create_then_lookup_witness :
  exists st', storage_create_object notes store0 = (0, st') /\ storage_lookup_by_name notes st' = 0.
Proof.
  assert (Hr : fst (storage_create_object notes store0) = 0) by (vm_compute; reflexivity).
  destruct (storage_create_object notes store0) as [r st'] eqn:E. cbn [fst] in Hr. subst r.
  exists st'. split; [reflexivity|].
  destruct (create_then_lookup notes store0 0 st' store0_inv store0_unique notes_u8 notes_short E)
    as [(H & _)|(_ & H & _)]; [discriminate H | exact H].
Defined.
End witnesses.
