(* ===== verification/Gdt.v ===== *)
(** * Descriptor tables and kernel stacks

    Models [src/hal/x86_64/gdt.c]: the kernel's GDT with its two TSS
    descriptors, [TSS.RSP0], and the static per-slot ring-0 stacks.  Addresses
    the linker chooses are the fields of [klayout]. *)
From S2P Require Import Prelude Paging.

Class klayout := KLayout {
  kernel_stacks_addr : Z; df_stack_addr : Z; tss_addr : Z; tss_ap_addr : Z; gdt_addr : Z
}.

Definition GDT_ENTRIES : Z := 10.
Definition GDT_TSS_SELECTOR : Z := 0x20.
Definition GDT_USER_DATA_SEL : Z := 0x33.
Definition GDT_USER_CODE_SEL : Z := 0x3B.
Definition GDT_AP_TSS_SELECTOR : Z := 0x40.
Definition DF_STACK_SIZE : Z := 4096.
Definition KERNEL_STACK_SIZE : Z := 4096.
Definition SIZEOF_TSS : Z := 104.

Record tss64 := Tss { rsp0 : Z; ist : gmap Z Z; iomap_base : Z }.

(** The table, the two TSS, and what [lgdt], the segment reload and [ltr] put
    in the boot core's and the AP's registers. *)
Record gdt_state := GdtState {
  gdt : gmap Z Z; gdtp : Z * Z; tss : tss64; tss_ap : tss64;
  gdtr : Z * Z; cs : Z; ds : Z; tr : Z; ap_gdtr : Z * Z; ap_tr : Z
}.

Section gdt.
Context {K : klayout}.

Definition hal_get_kernel_stack_top (slot : Z) : Z :=
  if (slot <? 0) || (MAX_ACTORS <=? slot) then 0
  else kernel_stacks_addr + slot * KERNEL_STACK_SIZE + KERNEL_STACK_SIZE.

Definition set_rsp0 (v : Z) (t : tss64) : tss64 := Tss v (ist t) (iomap_base t).
Definition hal_set_kernel_stack (slot : Z) (t : tss64) : tss64 :=
  if (slot <? 0) || (MAX_ACTORS <=? slot) then t
  else set_rsp0 (kernel_stacks_addr + slot * KERNEL_STACK_SIZE + KERNEL_STACK_SIZE) t.

(** The two words of an available 64-bit TSS descriptor. *)
Definition tss_descriptor_low (base limit : Z) : Z :=
  ((((0 .|. (limit .&. 0xFFFF)) .|. ((base .&. 0xFFFFFF) .<<. 16)) .|. (0x89 .<<. 40))
     .|. (((limit .>>. 16) .&. 0xF) .<<. 48)) .|. (((base .>>. 24) .&. 0xFF) .<<. 56).
Definition tss_descriptor_high (base : Z) : Z := (base .>>. 32) .&. 0xFFFFFFFF.

Definition clear_ist (t : tss64) : tss64 :=
  Tss (rsp0 t) (fill 0 (fun _ => 0) 0 7 (ist t)) (iomap_base t).

Definition hal_gdt_init (g : gdt_state) : gdt_state :=
  let tab := <[0 := 0]> (gdt g) in
  let tab := <[1 := 0x00CF9A000000FFFF]> tab in
  let tab := <[2 := 0x00CF92000000FFFF]> tab in
  let tab := <[3 := 0x00AF9A000000FFFF]> tab in
  let tab := <[6 := 0x00CFF2000000FFFF]> tab in
  let tab := <[7 := 0x00AFFA000000FFFF]> tab in
  let t := clear_ist (tss g) in
  let t := Tss (rsp0 t) (<[0 := df_stack_addr + DF_STACK_SIZE]> (ist t)) SIZEOF_TSS in
  let t := hal_set_kernel_stack 0 t in
  let tab := <[4 := tss_descriptor_low tss_addr (SIZEOF_TSS - 1)]> tab in
  let tab := <[5 := tss_descriptor_high tss_addr]> tab in
  let p := (GDT_ENTRIES * 8 - 1, gdt_addr) in
  GdtState tab p t (tss_ap g) p 0x18 0x10 GDT_TSS_SELECTOR (ap_gdtr g) (ap_tr g).

Definition hal_gdt_load_ap (sp : Z) (g : gdt_state) : gdt_state :=
  let t := clear_ist (tss_ap g) in
  let t := Tss sp (ist t) SIZEOF_TSS in
  let tab := <[8 := tss_descriptor_low tss_ap_addr (SIZEOF_TSS - 1)]> (gdt g) in
  let tab := <[9 := tss_descriptor_high tss_ap_addr]> tab in
  GdtState tab (gdtp g) (tss g) t (gdtr g) (cs g) (ds g) (tr g) (gdtp g) GDT_AP_TSS_SELECTOR.
End gdt.

(** ** How the hardware reads a descriptor *)

(** Field of a 64-bit word: [len] bits from bit [lo]. *)
Definition field (w lo len : Z) : Z := (w .>>. lo) .&. Z.ones len.

Definition desc_base (low high : Z) : Z :=
  (field low 16 24 .|. (field low 56 8 .<<. 24)) .|. (field high 0 32 .<<. 32).
Definition desc_limit (low : Z) : Z := field low 0 16 .|. (field low 48 4 .<<. 16).
Definition desc_access (low : Z) : Z := field low 40 8.
Definition desc_dpl (low : Z) : Z := field low 45 2.
(** Long-mode code: present, S, executable, L set, D clear. *)
Definition desc_code64 (d : Z) : bool :=
  (field d 47 1 =? 1) && (field d 44 1 =? 1) && (field d 43 1 =? 1) && (field d 53 1 =? 1) && (field d 54 1 =? 0).
Definition desc_data (d : Z) : bool :=
  (field d 47 1 =? 1) && (field d 44 1 =? 1) && (field d 43 1 =? 0) && (field d 41 1 =? 1).

Lemma field_bit w lo len k : 0 <= lo -> 0 <= len -> 0 <= k ->
  Z.testbit (field w lo len) k = (k <? len) && Z.testbit w (lo + k).
Proof.
  intros. unfold field. rewrite Z.land_spec, Z.shiftr_spec, Z.testbit_ones by lia.
  rewrite (Z.add_comm k lo). bdestruct_all; try lia; destruct (Z.testbit w (lo + k)); done.
Qed.

Lemma shl_bit x n k : 0 <= n -> 0 <= k -> Z.testbit (x .<<. n) k = (n <=? k) && Z.testbit x (k - n).
Proof.
  intros. rewrite Z.shiftl_spec by lia. destruct (Z.leb_spec n k); [done|].
  by rewrite Z.testbit_neg_r by lia.
Qed.

Lemma land_ones_bit x len k : 0 <= len -> 0 <= k ->
  Z.testbit (x .&. Z.ones len) k = (k <? len) && Z.testbit x k.
Proof.
  intros. rewrite Z.land_spec, Z.testbit_ones by lia.
  bdestruct_all; try lia; destruct (Z.testbit x k); done.
Qed.

Lemma ones_width n w : 0 <= n -> 0 <= w < 2 ^ n -> forall k, n <= k -> Z.testbit w k = false.
Proof.
  intros Hn Hw k Hk. rewrite <- (Z.mod_small w (2 ^ n)) by done. by apply Z.mod_pow2_bits_high.
Qed.

(** Bit [k] of the low descriptor word. *)
Lemma tss_low_bit base limit k : 0 <= k ->
  Z.testbit (tss_descriptor_low base limit) k =
  ((k <? 16) && Z.testbit limit k) || ((16 <=? k) && (k <? 40) && Z.testbit base (k - 16)) ||
  ((40 <=? k) && (k <? 48) && Z.testbit 0x89 (k - 40)) ||
  ((48 <=? k) && (k <? 52) && Z.testbit limit (k - 32)) ||
  ((56 <=? k) && (k <? 64) && Z.testbit base (k - 32)).
Proof.
  intros Hk. unfold tss_descriptor_low.
  change 0xFFFF with (Z.ones 16). change 0xFFFFFF with (Z.ones 24). change 0xFF with (Z.ones 8).
  change 0xF with (Z.ones 4). rewrite Z.lor_0_l, !Z.lor_spec, !shl_bit by lia.
  rewrite land_ones_bit by lia.
  assert (H24 : (16 <=? k) && Z.testbit (base .&. Z.ones 24) (k - 16) =
     (16 <=? k) && (k <? 40) && Z.testbit base (k - 16)).
  { destruct (Z.leb_spec 16 k); [|done]. rewrite land_ones_bit by lia. bdestruct_all; done || lia. }
  assert (H89 : (40 <=? k) && Z.testbit 0x89 (k - 40) = (40 <=? k) && (k <? 48) && Z.testbit 0x89 (k - 40)).
  { destruct (Z.ltb_spec k 48); [by rewrite andb_true_r|].
    rewrite (ones_width 8 0x89) by lia. by rewrite !andb_false_r. }
  assert (H4 : (48 <=? k) && Z.testbit ((limit .>>. 16) .&. Z.ones 4) (k - 48) =
     (48 <=? k) && (k <? 52) && Z.testbit limit (k - 32)).
  { destruct (Z.leb_spec 48 k); [|done]. rewrite land_ones_bit, Z.shiftr_spec by lia.
    replace (k - 48 + 16) with (k - 32) by lia. bdestruct_all; done || lia. }
  assert (H8 : (56 <=? k) && Z.testbit ((base .>>. 24) .&. Z.ones 8) (k - 56) =
     (56 <=? k) && (k <? 64) && Z.testbit base (k - 32)).
  { destruct (Z.leb_spec 56 k); [|done]. rewrite land_ones_bit, Z.shiftr_spec by lia.
    replace (k - 56 + 24) with (k - 32) by lia. bdestruct_all; done || lia. }
  by rewrite H24, H89, H4, H8.
Qed.

Lemma tss_base_roundtrip base limit : in_u64 base ->
  desc_base (tss_descriptor_low base limit) (tss_descriptor_high base) = base.
Proof.
  intros Hb. apply Z.bits_inj'. intros k Hk. unfold desc_base, tss_descriptor_high.
  change 0xFFFFFFFF with (Z.ones 32).
  rewrite !Z.lor_spec, !shl_bit, field_bit by lia. rewrite tss_low_bit by lia.
  assert (H1 : (24 <=? k) && Z.testbit (field (tss_descriptor_low base limit) 56 8) (k - 24) =
     (24 <=? k) && (k <? 32) && Z.testbit base k).
  { destruct (Z.leb_spec 24 k); [|done]. rewrite field_bit, tss_low_bit by lia.
    replace (56 + (k - 24) - 32) with k by lia.
    destruct (Z.lt_ge_cases k 32); zcmp; done. }
  assert (H2 : (32 <=? k) && Z.testbit (field ((base .>>. 32) .&. Z.ones 32) 0 32) (k - 32) =
     (32 <=? k) && Z.testbit base k).
  { destruct (Z.leb_spec 32 k); [|done]. rewrite field_bit, Z.add_0_l, land_ones_bit, Z.shiftr_spec by lia.
    replace (k - 32 + 32) with k by lia. destruct (Z.ltb_spec (k - 32) 32); [done|].
    cbn. symmetry. apply (ones_width 64); [lia|exact Hb|lia]. }
  rewrite H1, H2. replace (16 + k - 16) with k by lia.
  destruct (Z.lt_ge_cases k 24); [|destruct (Z.lt_ge_cases k 32)]; zcmp; by rewrite ?orb_false_r.
Qed.

Lemma tss_access base limit : desc_access (tss_descriptor_low base limit) = 0x89.
Proof.
  apply Z.bits_inj'. intros k Hk. unfold desc_access. rewrite field_bit, tss_low_bit by lia.
  replace (40 + k - 40) with k by lia. destruct (Z.ltb_spec k 8).
  - bdestruct_all; try lia. by rewrite !orb_false_r.
  - symmetry. apply (ones_width 8); lia.
Qed.

Lemma tss_limit base limit : 0 <= limit < 2 ^ 20 -> desc_limit (tss_descriptor_low base limit) = limit.
Proof.
  intros Hl. apply Z.bits_inj'. intros k Hk. unfold desc_limit.
  rewrite Z.lor_spec, shl_bit, field_bit, Z.add_0_l, tss_low_bit by lia.
  assert (H1 : (16 <=? k) && Z.testbit (field (tss_descriptor_low base limit) 48 4) (k - 16) =
     (16 <=? k) && (k <? 20) && Z.testbit limit k).
  { destruct (Z.leb_spec 16 k); [|done]. rewrite field_bit, tss_low_bit by lia.
    replace (48 + (k - 16) - 32) with k by lia.
    destruct (Z.lt_ge_cases k 20); zcmp; by rewrite ?orb_false_r. }
  rewrite H1. destruct (Z.lt_ge_cases k 20).
  - destruct (Z.lt_ge_cases k 16); zcmp; by rewrite ?orb_false_r.
  - rewrite (ones_width 20 limit) by lia. zcmp. done.
Qed.

(** after [hal_gdt_init] the selectors the kernel uses mean what it relies
    on, as the CPU decodes them: 0x18 and 0x3B are 64-bit code at ring 0 and
    ring 3, 0x10 and 0x33 writable data at ring 0 and ring 3, and 0x20 is an
    available TSS whose base is the TSS's address and whose limit is its last
    byte; the ring-3 selectors carry RPL 3. *)
Theorem gdt_selectors `{K : klayout} g : in_u64 tss_addr ->
  let tab := gdt (hal_gdt_init g) in
  desc_code64 (tab !!! (0x18 / 8)) = true /\ desc_dpl (tab !!! (0x18 / 8)) = 0 /\
  desc_data (tab !!! (0x10 / 8)) = true /\ desc_dpl (tab !!! (0x10 / 8)) = 0 /\
  desc_code64 (tab !!! (GDT_USER_CODE_SEL / 8)) = true /\ desc_dpl (tab !!! (GDT_USER_CODE_SEL / 8)) = 3 /\
  desc_data (tab !!! (GDT_USER_DATA_SEL / 8)) = true /\ desc_dpl (tab !!! (GDT_USER_DATA_SEL / 8)) = 3 /\
  GDT_USER_CODE_SEL mod 4 = 3 /\ GDT_USER_DATA_SEL mod 4 = 3 /\
  (let low := tab !!! (GDT_TSS_SELECTOR / 8) in let high := tab !!! (GDT_TSS_SELECTOR / 8 + 1) in
   desc_access low = 0x89 /\ desc_base low high = tss_addr /\ desc_limit low = SIZEOF_TSS - 1).
Proof.
  intros Hb tab. unfold tab, hal_gdt_init. cbn [gdt].
  change (GDT_TSS_SELECTOR / 8) with 4. change (4 + 1) with 5. change (0x18 / 8) with 3. change (0x10 / 8) with 2.
  change (GDT_USER_CODE_SEL / 8) with 7. change (GDT_USER_DATA_SEL / 8) with 6.
  rewrite !aget_insert. cbn [Z.eqb Pos.eqb]. cbv zeta.
  split_and!; [reflexivity.. | apply tss_access | by apply tss_base_roundtrip | apply tss_limit; unfold SIZEOF_TSS; lia].
Qed.

(** [hal_set_kernel_stack] makes RSP0 the top of the slot's own stack, and
    the stacks of two slots never overlap, so a trap taken by one actor cannot
    run on another's kernel stack; an out-of-range slot changes nothing. *)
Theorem kernel_stacks_disjoint `{K : klayout} i j t a b :
  0 <= i < MAX_ACTORS -> 0 <= j < MAX_ACTORS -> i <> j ->
  rsp0 (hal_set_kernel_stack i t) - KERNEL_STACK_SIZE <= a < rsp0 (hal_set_kernel_stack i t) ->
  rsp0 (hal_set_kernel_stack j t) - KERNEL_STACK_SIZE <= b < rsp0 (hal_set_kernel_stack j t) ->
  a <> b /\ rsp0 (hal_set_kernel_stack i t) = hal_get_kernel_stack_top i /\
  hal_set_kernel_stack (-1) t = t /\ hal_set_kernel_stack MAX_ACTORS t = t.
Proof.
  intros Hi Hj Hne. unfold hal_set_kernel_stack, hal_get_kernel_stack_top, set_rsp0, MAX_ACTORS, KERNEL_STACK_SIZE in *.
  destruct (Z.ltb_spec i 0), (Z.leb_spec 17 i), (Z.ltb_spec j 0), (Z.leb_spec 17 j); try lia.
  cbn. intros. split_and!; try done. lia.
Qed.

#[export] Instance demo_klayout : klayout := KLayout 0x20000 0x1F000 0x1E000 0x1E100 0x1E200.

Definition gdt_boot : gdt_state :=
  GdtState ∅ (0, 0) (Tss 0 ∅ 0) (Tss 0 ∅ 0) (0, 0) 0 0 0 (0, 0) 0.

Lemma gdt_selectors_witness :
  in_u64 tss_addr /\ desc_code64 (gdt (hal_gdt_init gdt_boot) !!! (0x18 / 8)) = true.
Proof.
  assert (H : in_u64 tss_addr) by (unfold in_u64; cbn; lia).
  split; [exact H | exact (proj1 (gdt_selectors gdt_boot H))].
Defined.

Lemma kernel_stacks_disjoint_witness : 0x20FF8 <> 0x21008.
Proof.
  apply (kernel_stacks_disjoint 0 1 (Tss 0 ∅ 0) 0x20FF8 0x21008); unfold hal_set_kernel_stack, KERNEL_STACK_SIZE, MAX_ACTORS; cbn; unfold KERNEL_STACK_SIZE; lia.
Defined.
