(* ===== verification/Actor.v ===== *)
(** * Actors: scheduling, capabilities, mailboxes

    Models [src/core/actor.c] with [hal_context_switch]
    (context_switch.asm) and [hal_enter_user_mode] (usermode.asm), over the
    memory manager, the page tables and the kernel stacks.

    Kernel stack memory is a map from addresses to 8-byte words.  The C frames
    above [schedule_next] on a suspended actor's kernel stack are summarised by
    [frames]: which function called [schedule_next]. *)
From Stdlib Require Import Ascii String.
From S2P Require Import Prelude Paging Gdt Memory.
#[local] Open Scope Z_scope.

(** ** Data *)

Inductive actor_state := ACTOR_DEAD | ACTOR_READY | ACTOR_RUNNING | ACTOR_BLOCKED.
#[export] Instance actor_state_eq_dec : EqDecision actor_state.
Proof. solve_decision. Defined.

Definition MAILBOX_CAPACITY : Z := 8.
Definition MAX_CAPS_PER_ACTOR : Z := 20.
Definition MAX_SPAWNS_PER_ACTOR : Z := 2.
Definition ACTOR_STACK_SIZE : Z := 4096.

Definition CAP_SEND : Z := 1.
Definition CAP_SPAWN : Z := 2.
Definition CAP_TERMINATE : Z := 3.
Definition CAP_READ_OBJECT : Z := 4.
Definition CAP_WRITE_OBJECT : Z := 5.
Definition CAP_PROMOTE_OBJECT : Z := 6.
Definition CAP_NET : Z := 7.
Definition CAP_LIST_NAMES : Z := 8.
Definition CAP_CREATE_OBJECT : Z := 9.
Definition CAP_RENAME_OBJECT : Z := 10.
Definition CAP_DELETE_OBJECT : Z := 11.
Definition CAP_CONSOLE : Z := 12.

Record message := Message { m_type : Z; m_sender : Z; m_data : Z }.
#[export] Instance message_inhabited : Inhabited message := populate (Message 0 0 0).

Record capability := Capability { c_op : Z; c_target : Z }.
#[export] Instance capability_inhabited : Inhabited capability := populate (Capability 0 0).
#[export] Instance capability_eq_dec : EqDecision capability.
Proof. solve_decision. Defined.

Record actor := Actor {
  rsp : Z; a_cr3 : Z; state : actor_state; stack_page : Z; entry : Z;
  mailbox : gmap Z message; mailbox_head : Z; mailbox_count : Z;
  caps : gmap Z capability; spawn_count : Z; spawn_quota : Z; window : Z
}.
#[export] Instance actor_inhabited : Inhabited actor :=
  populate (Actor 0 0 ACTOR_DEAD 0 0 ∅ 0 0 ∅ 0 0 0).

Definition set_rsp (v : Z) (a : actor) : actor :=
  Actor v (a_cr3 a) (state a) (stack_page a) (entry a) (mailbox a) (mailbox_head a) (mailbox_count a)
        (caps a) (spawn_count a) (spawn_quota a) (window a).
Definition set_state (v : actor_state) (a : actor) : actor :=
  Actor (rsp a) (a_cr3 a) v (stack_page a) (entry a) (mailbox a) (mailbox_head a) (mailbox_count a)
        (caps a) (spawn_count a) (spawn_quota a) (window a).
Definition set_stack_page (v : Z) (a : actor) : actor :=
  Actor (rsp a) (a_cr3 a) (state a) v (entry a) (mailbox a) (mailbox_head a) (mailbox_count a)
        (caps a) (spawn_count a) (spawn_quota a) (window a).
Definition set_mailbox (m : gmap Z message) (h c : Z) (a : actor) : actor :=
  Actor (rsp a) (a_cr3 a) (state a) (stack_page a) (entry a) m h c
        (caps a) (spawn_count a) (spawn_quota a) (window a).
Definition set_caps (c : gmap Z capability) (a : actor) : actor :=
  Actor (rsp a) (a_cr3 a) (state a) (stack_page a) (entry a) (mailbox a) (mailbox_head a) (mailbox_count a)
        c (spawn_count a) (spawn_quota a) (window a).
Definition set_spawn_count (v : Z) (a : actor) : actor :=
  Actor (rsp a) (a_cr3 a) (state a) (stack_page a) (entry a) (mailbox a) (mailbox_head a) (mailbox_count a)
        (caps a) v (spawn_quota a) (window a).
Definition set_quota (v : Z) (a : actor) : actor :=
  Actor (rsp a) (a_cr3 a) (state a) (stack_page a) (entry a) (mailbox a) (mailbox_head a) (mailbox_count a)
        (caps a) (spawn_count a) v (window a).
Definition set_window (v : Z) (a : actor) : actor :=
  Actor (rsp a) (a_cr3 a) (state a) (stack_page a) (entry a) (mailbox a) (mailbox_head a) (mailbox_count a)
        (caps a) (spawn_count a) (spawn_quota a) v.

(** ** The processor and the kernel's state *)

Record regs := Regs { r_rbx : Z; r_rbp : Z; r_r12 : Z; r_r13 : Z; r_r14 : Z; r_r15 : Z }.
Record cpu := Cpu { c_rsp : Z; c_rip : Z; c_cpl : Z; c_regs : regs }.

(** Which C function's call of [schedule_next] an actor is suspended in;
    [FTrampoline] for the frame [actor_spawn] fabricates. *)
Inductive frame := FTrampoline | FYield | FExit | FReceive.
#[export] Instance frame_inhabited : Inhabited frame := populate FTrampoline.

Record kern := Kern {
  actors : gmap Z actor; scheduler_rsp : Z; current_actor : Z;
  irq : bool; mem : mem_state; pg : pg_state; ktss : tss64;
  kstack : gmap Z Z; kcpu : cpu; frames : gmap Z frame;
  console_out : list string; halted : bool
}.

Definition set_actors (v : gmap Z actor) (k : kern) : kern :=
  Kern v (scheduler_rsp k) (current_actor k) (irq k) (mem k) (pg k) (ktss k) (kstack k) (kcpu k) (frames k)
       (console_out k) (halted k).
Definition set_current (v : Z) (k : kern) : kern :=
  Kern (actors k) (scheduler_rsp k) v (irq k) (mem k) (pg k) (ktss k) (kstack k) (kcpu k) (frames k)
       (console_out k) (halted k).
Definition set_irq (v : bool) (k : kern) : kern :=
  Kern (actors k) (scheduler_rsp k) (current_actor k) v (mem k) (pg k) (ktss k) (kstack k) (kcpu k) (frames k)
       (console_out k) (halted k).
Definition set_mem (v : mem_state) (k : kern) : kern :=
  Kern (actors k) (scheduler_rsp k) (current_actor k) (irq k) v (pg k) (ktss k) (kstack k) (kcpu k) (frames k)
       (console_out k) (halted k).
Definition set_pg (v : pg_state) (k : kern) : kern :=
  Kern (actors k) (scheduler_rsp k) (current_actor k) (irq k) (mem k) v (ktss k) (kstack k) (kcpu k) (frames k)
       (console_out k) (halted k).
Definition set_tss (v : tss64) (k : kern) : kern :=
  Kern (actors k) (scheduler_rsp k) (current_actor k) (irq k) (mem k) (pg k) v (kstack k) (kcpu k) (frames k)
       (console_out k) (halted k).
Definition set_kstack (v : gmap Z Z) (k : kern) : kern :=
  Kern (actors k) (scheduler_rsp k) (current_actor k) (irq k) (mem k) (pg k) (ktss k) v (kcpu k) (frames k)
       (console_out k) (halted k).
Definition set_cpu (v : cpu) (k : kern) : kern :=
  Kern (actors k) (scheduler_rsp k) (current_actor k) (irq k) (mem k) (pg k) (ktss k) (kstack k) v (frames k)
       (console_out k) (halted k).
Definition set_frame (i : Z) (v : frame) (k : kern) : kern :=
  Kern (actors k) (scheduler_rsp k) (current_actor k) (irq k) (mem k) (pg k) (ktss k) (kstack k) (kcpu k)
       (<[i := v]> (frames k)) (console_out k) (halted k).
Definition set_scheduler_rsp (v : Z) (k : kern) : kern :=
  Kern (actors k) v (current_actor k) (irq k) (mem k) (pg k) (ktss k) (kstack k) (kcpu k) (frames k)
       (console_out k) (halted k).

Definition hal_disable_interrupts (k : kern) : kern := set_irq false k.
Definition hal_enable_interrupts (k : kern) : kern := set_irq true k.
Definition hal_console_write (s : string) (k : kern) : kern :=
  Kern (actors k) (scheduler_rsp k) (current_actor k) (irq k) (mem k) (pg k) (ktss k) (kstack k) (kcpu k)
       (frames k) (console_out k ++ [s])%list (halted k).
Definition hal_halt_forever (k : kern) : kern :=
  Kern (actors k) (scheduler_rsp k) (current_actor k) (irq k) (mem k) (pg k) (ktss k) (kstack k) (kcpu k)
       (frames k) (console_out k) true.

Definition act (k : kern) (i : Z) : actor := actors k !!! i.
Definition upd (i : Z) (f : actor -> actor) (k : kern) : kern :=
  set_actors (<[i := f (act k i)]> (actors k)) k.

(** Addresses of the two places a suspended kernel context resumes at. *)
Class kcode := KCode { actor_trampoline_addr : Z; schedule_next_ret : Z }.

Section actor.
Context {L : layout} {KL : klayout} {KC : kcode}.
Implicit Types (k : kern).

(** ** Initialisation and capabilities *)

Definition init_actor (a : actor) : actor :=
  Actor 0 0 ACTOR_DEAD 0 0 (mailbox a) 0 0
        (fill 0 (fun _ => Capability 0 0) 0 (Z.to_nat MAX_CAPS_PER_ACTOR) (caps a))
        0 MAX_SPAWNS_PER_ACTOR CONSOLE_WIN_LOG.

Definition scheduler_init k : kern :=
  set_current (-1) (loop (fun i k => upd i init_actor k) 0 (Z.to_nat MAX_ACTORS) k).

Definition cap_is (c : capability) (op target : Z) : bool := (c_op c =? op) && (c_target c =? target).

Definition actor_has_cap (slot op target : Z) k : bool :=
  match scan (fun i => cap_is (caps (act k slot) !!! i) op target) 0 (Z.to_nat MAX_CAPS_PER_ACTOR) with
  | Some _ => true
  | None => false
  end.

Definition actor_add_cap (slot op target : Z) k : Z * kern :=
  match scan (fun i => c_op (caps (act k slot) !!! i) =? 0) 0 (Z.to_nat MAX_CAPS_PER_ACTOR) with
  | Some i => (0, upd slot (fun a => set_caps (<[i := Capability op target]> (caps a)) a) k)
  | None => (-1, k)
  end.

Definition bad_slot (i : Z) : bool := (i <? 0) || (MAX_ACTORS <=? i).

Definition actor_grant (dest op target : Z) k : Z * kern :=
  if bad_slot dest then (-1, k) else actor_add_cap dest op target k.

Definition actor_set_spawn_quota (slot quota : Z) k : Z * kern :=
  if bad_slot slot then (-1, k) else (0, upd slot (set_quota quota) k).

Definition actor_set_window (slot win : Z) k : Z * kern :=
  if bad_slot slot then (-1, k) else (0, upd slot (set_window win) k).

Definition actor_current_window k : Z :=
  if current_actor k <? 0 then CONSOLE_WIN_LOG else window (act k (current_actor k)).

Definition actor_current_has_cap (op target : Z) k : bool :=
  if current_actor k <? 0 then false else actor_has_cap (current_actor k) op target k.

Definition actor_current_slot k : Z := current_actor k.

Definition actor_delegate (dest op target : Z) k : Z * kern :=
  if bad_slot dest then (-1, k)
  else
    let k := hal_disable_interrupts k in
    if negb (actor_has_cap (current_actor k) op target k) then (-1, hal_enable_interrupts k)
    else
      let '(rc, k) := actor_add_cap dest op target k in
      (rc, hal_enable_interrupts k).

(** ** Spawning *)

(** [*(--sp) = v] *)
Definition push_word (v : Z) (s : gmap Z Z * Z) : gmap Z Z * Z := (<[s.2 - 8 := v]> s.1, s.2 - 8).

(** The fabricated frame: the trampoline's address and six zeroed registers. *)
Definition fake_frame (top : Z) (m : gmap Z Z) : gmap Z Z * Z :=
  let s := push_word actor_trampoline_addr (m, top) in
  push_word 0 (push_word 0 (push_word 0 (push_word 0 (push_word 0 (push_word 0 s))))).

Definition fresh_actor (sp cr3 stack_mem entry : Z) (a : actor) : actor :=
  Actor sp cr3 ACTOR_READY stack_mem entry (mailbox a) 0 0
        (fill 0 (fun _ => Capability 0 0) 0 (Z.to_nat MAX_CAPS_PER_ACTOR) (caps a))
        0 MAX_SPAWNS_PER_ACTOR CONSOLE_WIN_LOG.

Definition is_dead (a : actor) : bool := bool_decide (state a = ACTOR_DEAD).

Definition actor_spawn (entry : Z) k : Z * kern :=
  match scan (fun i => is_dead (act k i)) 0 (Z.to_nat MAX_ACTORS) with
  | None => (-1, k)
  | Some i =>
      let '(stack_mem, m) := alloc_page (mem k) in
      let k := set_mem m k in
      if stack_mem =? 0 then (-1, k)
      else
        let '(cr3, p) := hal_address_space_create i stack_mem ACTOR_STACK_SIZE (pg k) in
        let k := set_pg p k in
        if cr3 =? 0 then (-1, set_mem (free_page stack_mem (mem k)) k)
        else
          let '(ks, sp) := fake_frame (hal_get_kernel_stack_top i) (kstack k) in
          let k := set_frame i FTrampoline (set_kstack ks k) in
          (i, upd i (fresh_actor sp cr3 stack_mem entry) k)
  end.

Definition actor_spawn_program (phys_base phys_size entry_offset : Z) k : Z * kern :=
  let '(slot, k) := actor_spawn (PROGRAM_VBASE + entry_offset) k in
  if slot <? 0 then (-1, k)
  else
    let '(rc, p) := hal_address_space_map_program slot phys_base phys_size (pg k) in
    let k := set_pg p k in
    if negb (rc =? 0) then (-1, upd slot (set_state ACTOR_DEAD) k) else (slot, k).

(** The checked wrapper around a raw spawn; the source writes it twice. *)
Definition spawn_checked (raw : kern -> Z * kern) k : Z * kern :=
  let k := hal_disable_interrupts k in
  if negb (actor_has_cap (current_actor k) CAP_SPAWN 0 k) then (-1, hal_enable_interrupts k)
  else if spawn_quota (act k (current_actor k)) <=? spawn_count (act k (current_actor k))
  then (-1, hal_enable_interrupts k)
  else
    let spawner := current_actor k in
    let '(child, k) := raw k in
    if child <? 0 then (-1, hal_enable_interrupts k)
    else
      let k := upd spawner (fun a => set_spawn_count (spawn_count a + 1) a) k in
      let '(_, k) := actor_add_cap spawner CAP_SEND child k in
      let '(_, k) := actor_add_cap spawner CAP_TERMINATE child k in
      let '(_, k) := actor_add_cap child CAP_SEND spawner k in
      (child, hal_enable_interrupts k).

Definition actor_spawn_child (entry : Z) k : Z * kern := spawn_checked (actor_spawn entry) k.
Definition actor_spawn_program_child (phys_base phys_size entry_offset : Z) k : Z * kern :=
  spawn_checked (actor_spawn_program phys_base phys_size entry_offset) k.

Definition actor_terminate (target : Z) k : Z * kern :=
  if bad_slot target || (target =? current_actor k) then (-1, k)
  else
    let k := hal_disable_interrupts k in
    if negb (actor_has_cap (current_actor k) CAP_TERMINATE target k) then (-1, hal_enable_interrupts k)
    else (0, hal_enable_interrupts (upd target (set_state ACTOR_DEAD) k)).

(** ** The scheduler *)

Definition reap_one (i : Z) k : kern :=
  if i =? current_actor k then k
  else if is_dead (act k i) && negb (stack_page (act k i) =? 0) then
    upd i (set_stack_page 0) (set_mem (free_page (stack_page (act k i)) (mem k)) k)
  else k.

Definition reap_dead_actors k : kern := loop reap_one 0 (Z.to_nat MAX_ACTORS) k.

(** Where [hal_context_switch] stores the outgoing stack pointer. *)
Inductive save_slot := SaveActor (i : Z) | SaveScheduler.

Definition save_rsp (s : save_slot) (v : Z) k : kern :=
  match s with
  | SaveActor i => upd i (set_rsp v) k
  | SaveScheduler => set_scheduler_rsp v k
  end.

(** [call hal_context_switch]: the return address, the six callee-saved
    registers, the swap of RSP and CR3, the six pops and the [ret]. *)
Definition hal_context_switch (s : save_slot) (new_rsp new_cr3 : Z) k : kern :=
  let c := kcpu k in
  let r := c_regs c in
  let '(m, sp) := push_word (r_r15 r) (push_word (r_r14 r) (push_word (r_r13 r) (push_word (r_r12 r)
                    (push_word (r_rbp r) (push_word (r_rbx r)
                      (push_word schedule_next_ret (kstack k, c_rsp c))))))) in
  let k := save_rsp s sp (set_kstack m k) in
  let k := set_mem (set_mach (set_cr3 new_cr3 (mach (mem k))) (mem k)) k in
  set_cpu (Cpu (new_rsp + 56) (m !!! (new_rsp + 48)) (c_cpl c)
             (Regs (m !!! (new_rsp + 40)) (m !!! (new_rsp + 32)) (m !!! (new_rsp + 24))
                   (m !!! (new_rsp + 16)) (m !!! (new_rsp + 8)) (m !!! new_rsp))) k.

Definition runnable (a : actor) : bool :=
  match state a with ACTOR_READY | ACTOR_RUNNING => true | _ => false end.

Definition pick_next k : option Z :=
  let start := if current_actor k <? 0 then 0 else current_actor k in
  match scan (fun i => runnable (act k ((start + i) mod MAX_ACTORS))) 1 (Z.to_nat MAX_ACTORS) with
  | Some i => Some ((start + i) mod MAX_ACTORS)
  | None => None
  end.

Definition newline : string := String (Ascii.ascii_of_nat 10) EmptyString.
Definition no_runnable_text : string :=
  (newline ++ "Scheduler: no runnable actors left." ++ newline)%string.

(** The part of [schedule_next] after reaping: pick and switch.  [true] when
    the call returned to its caller, [false] when the processor went elsewhere:
    to another context, or to the final halt. *)
Definition switch_to_next (s : save_slot) k : bool * kern :=
  match pick_next k with
  | None =>
      (false, hal_halt_forever (hal_console_write no_runnable_text k))
  | Some next =>
      if next =? current_actor k then
        (true, hal_enable_interrupts (upd next (set_state ACTOR_RUNNING) k))
      else
        let k := set_current next k in
        let k := upd next (set_state ACTOR_RUNNING) k in
        let k := set_tss (hal_set_kernel_stack next (ktss k)) k in
        (false, hal_context_switch s (rsp (act k next)) (a_cr3 (act k next)) k)
  end.

Definition schedule_next (s : save_slot) k : bool * kern :=
  let k := hal_disable_interrupts k in
  let k := reap_dead_actors k in
  switch_to_next s k.

Definition actor_yield k : bool * kern :=
  if current_actor k <? 0 then (true, k)
  else
    let k := hal_disable_interrupts k in
    let cur := current_actor k in
    schedule_next (SaveActor cur) (set_frame cur FYield (upd cur (set_state ACTOR_READY) k)).

Definition actor_exit k : bool * kern :=
  let k := hal_disable_interrupts k in
  let cur := current_actor k in
  schedule_next (SaveActor cur) (set_frame cur FExit (upd cur (set_state ACTOR_DEAD) k)).

Definition scheduler_start k : bool * kern := schedule_next SaveScheduler k.

(** ** Mailboxes *)

Definition actor_send (dest type data : Z) k : Z * kern :=
  if bad_slot dest then (-1, k)
  else
    let k := hal_disable_interrupts k in
    if negb (actor_has_cap (current_actor k) CAP_SEND dest k) then (-1, hal_enable_interrupts k)
    else if is_dead (act k dest) then (-1, hal_enable_interrupts k)
    else if MAILBOX_CAPACITY <=? mailbox_count (act k dest) then (-1, hal_enable_interrupts k)
    else
      let a := act k dest in
      let tail := (mailbox_head a + mailbox_count a) mod MAILBOX_CAPACITY in
      let k := upd dest (fun a => set_mailbox (<[tail := Message type (u64 (current_actor k)) data]> (mailbox a))
                                    (mailbox_head a) (mailbox_count a + 1) a) k in
      let k := match state (act k dest) with
               | ACTOR_BLOCKED => upd dest (set_state ACTOR_READY) k
               | _ => k
               end in
      (0, hal_enable_interrupts k).

(** The loop of [actor_receive].  The message is [None] when the call has
    suspended the actor.  [schedule_next] never returns into a blocked actor
    directly, so one turn of the loop is all a call takes. *)
Fixpoint receive_loop (fuel : nat) k : option message * kern :=
  let cur := current_actor k in
  if mailbox_count (act k cur) =? 0 then
    match fuel with
    | O => (None, k)
    | S fuel =>
        let '(returned, k) :=
          schedule_next (SaveActor cur) (set_frame cur FReceive (upd cur (set_state ACTOR_BLOCKED) k)) in
        if returned then receive_loop fuel (hal_disable_interrupts k) else (None, k)
    end
  else
    let a := act k cur in
    let head := mailbox_head a in
    (Some (mailbox a !!! head),
     hal_enable_interrupts (upd cur (fun a => set_mailbox (mailbox a) ((head + 1) mod MAILBOX_CAPACITY)
                                                (mailbox_count a - 1) a) k)).

Definition actor_receive k : option message * kern := receive_loop 1 (hal_disable_interrupts k).

(** ** What the processor does where a context switch landed *)

(** [hal_enter_user_mode]: ring 3 at [entry], on the user stack, with the
    interrupt flag set. *)
Definition hal_enter_user_mode (entry user_stack_top : Z) k : kern :=
  set_irq true (set_cpu (Cpu user_stack_top entry 3 (c_regs (kcpu k))) k).

Definition actor_trampoline k : kern :=
  let self := act k (current_actor k) in
  hal_enter_user_mode (entry self) (stack_page self + ACTOR_STACK_SIZE) k.

Inductive landing := LUser | LReturns | LReceived (m : message) | LExited | LStopped.

(** Continue at the address the switch loaded.  [schedule_next] re-enables
    interrupts and returns into the frame that called it. *)
Definition resume k : landing * kern :=
  if halted k then (LStopped, k)
  else if c_rip (kcpu k) =? actor_trampoline_addr then (LUser, actor_trampoline k)
  else
    let k := hal_enable_interrupts k in
    match frames k !!! current_actor k with
    | FReceive =>
        match receive_loop 1 (hal_disable_interrupts k) with
        | (Some m, k) => (LReceived m, k)
        | (None, k) => (LStopped, k)
        end
    | FExit => (LExited, k)
    | FYield | FTrampoline => (LReturns, k)
    end.

End actor.

(** ** Events: the kernel entered, one operation run, control handed back *)

Inductive event :=
| EvGrant (dest op target : Z) | EvQuota (slot quota : Z) | EvWindow (slot win : Z) | EvSpawn (entry : Z)
| EvStart
| EvYield | EvExit | EvSend (dest type data : Z) | EvReceive | EvDelegate (dest op target : Z)
| EvSpawnChild (entry : Z) | EvSpawnProgram (phys_base phys_size entry_offset : Z) | EvTerminate (target : Z).

(** What only [kernel_main] does, before the first actor runs. *)
Definition boot_event (ev : event) : bool :=
  match ev with EvGrant _ _ _ | EvQuota _ _ | EvWindow _ _ | EvSpawn _ | EvStart => true | _ => false end.

Section events.
Context {L : layout} {KL : klayout} {KC : kcode}.
Implicit Types (k : kern).

(** The result an event delivers to whoever runs next. *)
Inductive result := RCode (rc : Z) | RLanding (l : landing).

Definition settle (r : bool * kern) : result * kern :=
  let '(returned, k) := r in
  if returned then (RLanding LReturns, k) else let '(l, k) := resume k in (RLanding l, k).

Definition coded (r : Z * kern) : result * kern := (RCode r.1, r.2).

Definition run_event (ev : event) k : result * kern :=
  match ev with
  | EvGrant d o t => coded (actor_grant d o t k)
  | EvQuota s q => coded (actor_set_spawn_quota s q k)
  | EvWindow s w => coded (actor_set_window s w k)
  | EvSpawn e => coded (actor_spawn e k)
  | EvStart => settle (scheduler_start k)
  | EvYield => settle (actor_yield k)
  | EvExit => settle (actor_exit k)
  | EvSend d t x => coded (actor_send d t x k)
  | EvReceive =>
      match actor_receive k with
      | (Some m, k) => (RLanding (LReceived m), k)
      | (None, k) => settle (false, k)
      end
  | EvDelegate d o t => coded (actor_delegate d o t k)
  | EvSpawnChild e => coded (actor_spawn_child e k)
  | EvSpawnProgram p s e => coded (actor_spawn_program_child p s e k)
  | EvTerminate t => coded (actor_terminate t k)
  end.

(** The trap gate: the processor's state at entry, interrupts off. *)
Definition enter (c : cpu) k : kern := set_irq false (set_cpu c k).
End events.

(** ** Reading an updated table *)
Lemma act_set_irq b (k : kern) j : act (set_irq b k) j = act k j. Proof. done. Qed.
Lemma act_enable (k : kern) j : act (hal_enable_interrupts k) j = act k j. Proof. done. Qed.
Lemma act_disable (k : kern) j : act (hal_disable_interrupts k) j = act k j. Proof. done. Qed.
Lemma act_set_current v (k : kern) j : act (set_current v k) j = act k j. Proof. done. Qed.
Lemma act_set_mem v (k : kern) j : act (set_mem v k) j = act k j. Proof. done. Qed.
Lemma act_set_pg v (k : kern) j : act (set_pg v k) j = act k j. Proof. done. Qed.
Lemma act_set_tss v (k : kern) j : act (set_tss v k) j = act k j. Proof. done. Qed.
Lemma act_set_kstack v (k : kern) j : act (set_kstack v k) j = act k j. Proof. done. Qed.
Lemma act_set_cpu v (k : kern) j : act (set_cpu v k) j = act k j. Proof. done. Qed.
Lemma act_set_frame i v (k : kern) j : act (set_frame i v k) j = act k j. Proof. done. Qed.
Lemma act_set_scheduler_rsp v (k : kern) j : act (set_scheduler_rsp v k) j = act k j. Proof. done. Qed.
Lemma act_console s (k : kern) j : act (hal_console_write s k) j = act k j. Proof. done. Qed.
Lemma act_halt (k : kern) j : act (hal_halt_forever k) j = act k j. Proof. done. Qed.
Create Rewrite HintDb kact.
#[export] Hint Rewrite act_set_irq act_enable act_disable act_set_current act_set_mem act_set_pg act_set_tss
  act_set_kstack act_set_cpu act_set_frame act_set_scheduler_rsp act_console act_halt : kact.

Section lookups.
Context {L : layout} {KL : klayout} {KC : kcode}.
Implicit Types (k : kern).

Lemma act_upd i f k j : act (upd i f k) j = if i =? j then f (act k j) else act k j.
Proof.
  unfold act, upd, set_actors. cbn [actors]. rewrite aget_insert.
  destruct (Z.eqb_spec i j) as [->|]; done.
Qed.

Lemma act_upd_eq i f k : act (upd i f k) i = f (act k i).
Proof. by rewrite act_upd, Z.eqb_refl. Qed.

Lemma act_upd_ne i f k j : i <> j -> act (upd i f k) j = act k j.
Proof. intros. rewrite act_upd. by destruct (Z.eqb_spec i j). Qed.

Lemma bad_slot_false i : bad_slot i = false <-> 0 <= i < MAX_ACTORS.
Proof. unfold bad_slot. split; intros; [breflect; lia | bdestruct_all; done || lia]. Qed.

Lemma is_dead_true a : is_dead a = true <-> state a = ACTOR_DEAD.
Proof. unfold is_dead. by rewrite bool_decide_eq_true. Qed.
Lemma is_dead_false a : is_dead a = false <-> state a <> ACTOR_DEAD.
Proof. unfold is_dead. by rewrite bool_decide_eq_false. Qed.

(** A field the scheduler never writes: it survives reaping, switching and
    rescheduling. *)
Section kept.
Context {A : Type} (f : actor -> A)
  (Hrsp : forall v a, f (set_rsp v a) = f a) (Hstate : forall v a, f (set_state v a) = f a)
  (Hpage : forall v a, f (set_stack_page v a) = f a).

Lemma upd_kept i g k j : (forall a, f (g a) = f a) -> f (act (upd i g k) j) = f (act k j).
Proof. intros H. rewrite act_upd. destruct (i =? j); [apply H | done]. Qed.

Lemma reap_kept k j : f (act (reap_dead_actors k) j) = f (act k j).
Proof.
  unfold reap_dead_actors.
  refine (loop_ind (fun _ k' => f (act k' j) = f (act k j)) _ _ _ _ eq_refl _).
  intros i k' _ IH. unfold reap_one. destruct (_ =? _); [done|]. destruct (_ && _); [|done].
  rewrite upd_kept by auto. exact IH.
Qed.

Lemma switch_kept s sp cr k j : f (act (hal_context_switch s sp cr k) j) = f (act k j).
Proof. unfold hal_context_switch. cbn. destruct s; [|done]. exact (upd_kept i _ k j (Hrsp _)). Qed.

Lemma schedule_kept s k j : f (act (schedule_next s k).2 j) = f (act k j).
Proof.
  unfold schedule_next, switch_to_next. destruct (pick_next _) as [next|]; [destruct (_ =? _)|]; cbn [snd];
    rewrite ?switch_kept; autorewrite with kact; rewrite ?upd_kept by auto; autorewrite with kact;
    by rewrite reap_kept.
Qed.

Lemma receive_loop_kept (Hmail : forall m h c a, f (set_mailbox m h c a) = f a) fuel k j :
  f (act (receive_loop fuel k).2 j) = f (act k j).
Proof.
  assert (Hd : forall k head h, f (act (hal_enable_interrupts (upd (current_actor k)
     (fun a => set_mailbox (mailbox a) head (h a) a) k)) j) = f (act k j)).
  { intros k0 head h. autorewrite with kact. apply upd_kept. intros a. apply Hmail. }
  revert k; induction fuel as [|n IH]; intros k; cbn [receive_loop]; destruct (_ =? 0); try done; try apply Hd.
  destruct (schedule_next _ _) as [b k1] eqn:E.
  assert (H1 : f (act k1 j) = f (act k j)).
  { pose proof (f_equal snd E) as E'. cbn [snd] in E'. rewrite <- E', schedule_kept.
    autorewrite with kact. apply upd_kept, Hstate. }
  destruct b; [|done]. rewrite IH. exact H1.
Qed.

Lemma resume_kept (Hmail : forall m h c a, f (set_mailbox m h c a) = f a) k j :
  f (act (resume k).2 j) = f (act k j).
Proof.
  unfold resume. destruct (halted k); [done|]. destruct (_ =? _); [done|].
  destruct (frames _ !!! _); try done.
  destruct (receive_loop _ _) as [[m|] k1] eqn:E; cbn [snd];
    pose proof (receive_loop_kept Hmail 1 (hal_disable_interrupts (hal_enable_interrupts k)) j) as H;
    rewrite E in H; exact H.
Qed.

Lemma settle_kept (Hmail : forall m h c a, f (set_mailbox m h c a) = f a) b k j :
  f (act (settle (b, k)).2 j) = f (act k j).
Proof.
  unfold settle. destruct b; [done|]. destruct (resume k) as [l k1] eqn:E. cbn [snd].
  pose proof (resume_kept Hmail k j) as H. by rewrite E in H.
Qed.
End kept.
End lookups.

(** ** Capabilities *)
Section capabilities.
Context {L : layout} {KL : klayout} {KC : kcode}.
Implicit Types (k : kern).

(** Actor [slot] holds the right [op] over [target]. *)
Definition in_table (c : gmap Z capability) (op target : Z) : Prop :=
  exists i, 0 <= i < MAX_CAPS_PER_ACTOR /\ c !!! i = Capability op target.
Definition holds k (slot op target : Z) : Prop := in_table (caps (act k slot)) op target.

Lemma cap_is_true c op target : cap_is c op target = true <-> c = Capability op target.
Proof.
  unfold cap_is. destruct c as [o t]; cbn. split.
  - intros H. breflect. by subst.
  - intros [= -> ->]. by rewrite !Z.eqb_refl.
Qed.

Lemma has_cap_spec slot op target k : actor_has_cap slot op target k = true <-> holds k slot op target.
Proof.
  unfold actor_has_cap, holds, in_table, MAX_CAPS_PER_ACTOR. destruct (scan _ 0 _) as [i|] eqn:E; split; try done.
  - intros _. apply scan_Some in E as (Hi & Hp & _). exists i. split; [lia|]. by apply cap_is_true.
  - intros (i & Hi & Hc). apply (proj1 (scan_None _ _ _)) with (j := i) in E; [|lia].
    cbv beta in E. by rewrite (proj2 (cap_is_true _ _ _) Hc) in E.
Qed.

Lemma add_cap_spec slot op target k rc k' :
  actor_add_cap slot op target k = (rc, k') ->
  (rc = -1 /\ k' = k /\ forall i, 0 <= i < MAX_CAPS_PER_ACTOR -> c_op (caps (act k slot) !!! i) <> 0) \/
  (rc = 0 /\ exists i, 0 <= i < MAX_CAPS_PER_ACTOR /\ c_op (caps (act k slot) !!! i) = 0 /\
     k' = upd slot (fun a => set_caps (<[i := Capability op target]> (caps a)) a) k).
Proof.
  unfold actor_add_cap, MAX_CAPS_PER_ACTOR. destruct (scan _ 0 _) as [i|] eqn:E; intros [= <- <-].
  - right. apply scan_Some in E as (Hi & Hp & _). breflect. split; [done|]. exists i. split_and!; [lia|lia|done|done].
  - left. split_and!; try done. intros i Hi Hz.
    apply (proj1 (scan_None _ _ _)) with (j := i) in E; [|lia]. cbv beta in E. breflect. done.
Qed.

(** Adding a capability gives exactly that one. *)
Lemma add_cap_holds slot op target k rc k' j o t :
  actor_add_cap slot op target k = (rc, k') -> o <> 0 ->
  (holds k' j o t <-> holds k j o t \/ (rc = 0 /\ j = slot /\ o = op /\ t = target)).
Proof.
  intros Heq Ho. destruct (add_cap_spec _ _ _ _ _ _ Heq) as [(-> & -> & _)|(-> & i & Hi & Hz & ->)].
  - split; [auto|]. by intros [?|(? & _)].
  - unfold holds. rewrite act_upd. destruct (Z.eqb_spec slot j) as [<-|Hne].
    2: { split; [auto|]. by intros [?|(_ & -> & _)]. }
    cbn [caps set_caps]. split.
    + intros (n & Hn & Hc). rewrite aget_insert in Hc. destruct (Z.eqb_spec i n) as [->|].
      * right. by injection Hc as <- <-.
      * left. by exists n.
    + intros [(n & Hn & Hc)|(_ & _ & -> & ->)].
      * exists n. split; [done|]. rewrite aget_insert. destruct (Z.eqb_spec i n) as [->|]; [|done].
        rewrite Hc in Hz. done.
      * exists i. split; [done|]. apply aget_eq.
Qed.

Lemma add_cap_other {A} (f : actor -> A) slot op target k j :
  (forall c a, f (set_caps c a) = f a) ->
  f (act (actor_add_cap slot op target k).2 j) = f (act k j).
Proof.
  intros H. unfold actor_add_cap. destruct (scan _ _ _); [|done]. apply (upd_kept f). intros; apply H.
Qed.

Lemma empty_caps c op target : op <> 0 ->
  ~ in_table (fill 0 (fun _ => Capability 0 0) 0 (Z.to_nat MAX_CAPS_PER_ACTOR) c) op target.
Proof.
  intros Ho (i & Hi & Hc). unfold MAX_CAPS_PER_ACTOR in *. rewrite fill_in in Hc by lia. by injection Hc.
Qed.

(** A successful raw spawn takes a dead slot; other slots are untouched. *)
Lemma spawn_slots e k r k' :
  actor_spawn e k = (r, k') ->
  current_actor k' = current_actor k /\ irq k' = irq k /\ halted k' = halted k /\
  ((r = -1 /\ actors k' = actors k) \/
   (0 <= r < MAX_ACTORS /\ state (act k r) = ACTOR_DEAD /\ (forall j, j <> r -> act k' j = act k j) /\
    exists sp cr m, act k' r = fresh_actor sp cr m e (act k r))).
Proof.
  unfold actor_spawn. destruct (scan _ 0 _) as [i|] eqn:E; [|intros [= <- <-]; auto 10].
  apply scan_Some in E as (Hi & Hd & _). apply is_dead_true in Hd.
  destruct (alloc_page (mem k)) as [a m]. destruct (a =? 0); [intros [= <- <-]; cbn; auto 10|].
  destruct (hal_address_space_create _ _ _ _) as [cr p]. destruct (cr =? 0); [intros [= <- <-]; cbn; auto 10|].
  destruct (fake_frame _ _) as [ks sp]. intros [= <- <-]. split_and!; try done. right.
  unfold MAX_ACTORS in *. split; [lia|]. split; [done|]. split.
  - intros j Hj. by rewrite act_upd_ne by done.
  - exists sp, cr, a. by rewrite act_upd_eq.
Qed.

Lemma spawn_program_slots p s e k r k' :
  actor_spawn_program p s e k = (r, k') ->
  current_actor k' = current_actor k /\ halted k' = halted k /\
  ((r = -1 /\ forall j, caps (act k' j) = caps (act k j) \/ forall op t, op <> 0 -> ~ in_table (caps (act k' j)) op t) \/
   (0 <= r < MAX_ACTORS /\ state (act k r) = ACTOR_DEAD /\ (forall j, j <> r -> act k' j = act k j) /\
    exists sp cr m e', act k' r = fresh_actor sp cr m e' (act k r))).
Proof.
  unfold actor_spawn_program. destruct (actor_spawn _ k) as [i k1] eqn:E.
  destruct (spawn_slots _ _ _ _ E) as (H1 & _ & H2 & [(-> & H3)|(H3 & H4 & H5 & sp & cr & m & H6)]).
  - cbn. intros [= <- <-]. split_and!; try done. left. split; [done|]. intros j. left. unfold act. by rewrite H3.
  - destruct (Z.ltb_spec i 0); [lia|]. destruct (hal_address_space_map_program _ _ _ _) as [rc pg'].
    destruct (negb _); intros [= <- <-]; (split; [done|]; split; [done|]).
    + left. split; [done|]. intros j. rewrite act_upd. destruct (Z.eqb_spec i j) as [<-|].
      * right. intros op t Hop. change (act (set_pg pg' k1) i) with (act k1 i). rewrite H6. by apply empty_caps.
      * left. change (act (set_pg pg' k1) j) with (act k1 j). by rewrite H5.
    + right. split_and!; try done; try lia. by exists sp, cr, m, (PROGRAM_VBASE + e).
Qed.

(** The capabilities a checked spawn creates. *)
Definition spawn_grants (child spawner j o t : Z) : Prop :=
  (j = spawner /\ (o = CAP_SEND \/ o = CAP_TERMINATE) /\ t = child) \/ (j = child /\ o = CAP_SEND /\ t = spawner).

Lemma spawn_checked_caps raw k r k' j o t :
  (forall k0 r0 k1, raw k0 = (r0, k1) ->
     (forall j o t, o <> 0 -> holds k1 j o t -> holds k0 j o t)) ->
  spawn_checked raw k = (r, k') -> o <> 0 -> holds k' j o t ->
  holds k j o t \/ (holds k (current_actor k) CAP_SPAWN 0 /\ 0 <= r /\ spawn_grants r (current_actor k) j o t).
Proof.
  intros Hraw. unfold spawn_checked. cbv zeta.
  destruct (actor_has_cap _ _ _ _) eqn:Ec; cbn [negb]; [|intros [= <- <-]; auto].
  apply has_cap_spec in Ec. destruct (_ <=? _); [intros [= <- <-]; auto|].
  destruct (raw _) as [child k1] eqn:E1. pose proof (Hraw _ _ _ E1) as H1.
  destruct (Z.ltb_spec child 0) as [|Hc]; [intros [= <- <-] Ho Hh; left; by apply H1|].
  set (k2 := upd _ _ k1).
  destruct (actor_add_cap _ CAP_SEND child k2) as [r3 k3] eqn:E3.
  destruct (actor_add_cap _ CAP_TERMINATE child k3) as [r4 k4] eqn:E4.
  destruct (actor_add_cap child CAP_SEND _ k4) as [r5 k5] eqn:E5.
  intros [= <- <-] Ho Hh. change (holds k5 j o t) in Hh.
  rewrite (add_cap_holds _ _ _ _ _ _ _ _ _ E5 Ho), (add_cap_holds _ _ _ _ _ _ _ _ _ E4 Ho),
    (add_cap_holds _ _ _ _ _ _ _ _ _ E3 Ho) in Hh.
  unfold spawn_grants. cbn [current_actor hal_disable_interrupts set_irq] in Hh.
  destruct Hh as [[[Hh|(_ & -> & -> & ->)]|(_ & -> & -> & ->)]|(_ & -> & -> & ->)]; [|right; auto 10..].
  left. apply H1; [done|]. unfold holds in *. revert Hh. unfold k2. rewrite act_upd. by destruct (_ =? _).
Qed.

(** The child of a checked spawn takes a dead slot. *)
Lemma spawn_checked_slot raw k r k' :
  (forall k0 r0 k1, raw k0 = (r0, k1) -> 0 <= r0 -> r0 < MAX_ACTORS /\ state (act k0 r0) = ACTOR_DEAD) ->
  spawn_checked raw k = (r, k') -> 0 <= r -> r < MAX_ACTORS /\ state (act k r) = ACTOR_DEAD.
Proof.
  intros Hraw. unfold spawn_checked. cbv zeta. destruct (negb _); [intros [= <- <-]; lia|].
  destruct (_ <=? _); [intros [= <- <-]; lia|]. destruct (raw _) as [child k1] eqn:E1.
  destruct (Z.ltb_spec child 0); [intros [= <- <-]; lia|].
  destruct (actor_add_cap _ CAP_SEND child _) as [r3 k3]. destruct (actor_add_cap _ CAP_TERMINATE child k3) as [r4 k4].
  destruct (actor_add_cap child CAP_SEND _ k4) as [r5 k5]. intros [= <- _] H0. exact (Hraw _ _ _ E1 H0).
Qed.

Lemma spawn_caps_shrink e k0 r0 k1 :
  actor_spawn e k0 = (r0, k1) -> forall j o t, o <> 0 -> holds k1 j o t -> holds k0 j o t.
Proof.
  intros E j o t Ho Hh. unfold holds in *. destruct (spawn_slots _ _ _ _ E) as (_ & _ & _ & [(_ & H)|(_ & _ & H & sp & cr & m & Hr)]).
  - unfold act in *. by rewrite H in Hh.
  - destruct (decide (j = r0)) as [->|]; [|by rewrite H in Hh]. rewrite Hr in Hh.
    by destruct (empty_caps _ _ _ Ho Hh).
Qed.

Lemma spawn_program_caps_shrink p s e k0 r0 k1 :
  actor_spawn_program p s e k0 = (r0, k1) -> forall j o t, o <> 0 -> holds k1 j o t -> holds k0 j o t.
Proof.
  intros E j o t Ho Hh. unfold holds in *.
  destruct (spawn_program_slots _ _ _ _ _ _ E) as (_ & _ & [(_ & H)|(_ & _ & H & sp & cr & m & e' & Hr)]).
  - destruct (H j) as [Hj|Hj]; [by rewrite Hj in Hh | by destruct (Hj o t Ho)].
  - destruct (decide (j = r0)) as [->|]; [|by rewrite H in Hh]. rewrite Hr in Hh.
    by destruct (empty_caps _ _ _ Ho Hh).
Qed.
End capabilities.

(** ** Authority *)
Section authority.
Context {L : layout} {KL : klayout} {KC : kcode}.
Implicit Types (k : kern).

Lemma holds_caps k k' j o t : caps (act k' j) = caps (act k j) -> holds k' j o t -> holds k j o t.
Proof. unfold holds. by intros ->. Qed.

Lemma switch_event_caps r k j :
  (forall j, caps (act r.2 j) = caps (act k j)) -> caps (act (settle r).2 j) = caps (act k j).
Proof. destruct r as [b k1]. intros H. rewrite (settle_kept caps) by done. apply H. Qed.

Lemma send_caps d t x k j : caps (act (actor_send d t x k).2 j) = caps (act k j).
Proof.
  unfold actor_send. destruct (bad_slot d); [done|]. cbv zeta.
  destruct (negb _); [done|]. destruct (is_dead _); [done|]. destruct (_ <=? _); [done|].
  cbn [snd]. autorewrite with kact.
  destruct (state _); rewrite ?(upd_kept caps) by done; by autorewrite with kact.
Qed.

Lemma terminate_caps t k j : caps (act (actor_terminate t k).2 j) = caps (act k j).
Proof.
  unfold actor_terminate. destruct (_ || _); [done|]. cbv zeta. destruct (negb _); [done|].
  cbn [snd]. autorewrite with kact. rewrite (upd_kept caps) by done. by autorewrite with kact.
Qed.

Lemma receive_caps k j : caps (act (actor_receive k).2 j) = caps (act k j).
Proof. unfold actor_receive. by rewrite (receive_loop_kept caps). Qed.

(** Where a right comes from.  After any event, whatever right an actor holds it
    held before, or the event is a grant of it, or the calling actor, holding
    exactly that right, delegated it, or it is one of the three rights a spawn
    authorised by [CAP_SPAWN] creates between the spawner and its new child. *)
Lemma event_origins ev k j o t :
  o <> 0 -> holds (run_event ev k).2 j o t ->
  holds k j o t \/
  match ev with
  | EvGrant d o' t' => j = d /\ o = o' /\ t = t'
  | EvDelegate d o' t' => j = d /\ o = o' /\ t = t' /\ holds k (current_actor k) o t
  | EvSpawnChild _ | EvSpawnProgram _ _ _ =>
      holds k (current_actor k) CAP_SPAWN 0 /\
      exists child, (run_event ev k).1 = RCode child /\ 0 <= child /\
        spawn_grants child (current_actor k) j o t
  | _ => False
  end.
Proof.
  intros Ho. destruct ev as [d o' t'|s q|s w|e| | | |d ty x| |d o' t'|e|p s e|tg]; cbn [run_event coded fst snd].
  - unfold actor_grant. destruct (bad_slot d); [auto|].
    destruct (actor_add_cap d o' t' k) as [rc k'] eqn:E. cbn [snd]. rewrite (add_cap_holds _ _ _ _ _ _ _ _ _ E Ho).
    intros [?|(_ & ?)]; auto.
  - unfold actor_set_spawn_quota. destruct (bad_slot s); [auto|]. intros H. left. revert H. apply holds_caps.
    by apply (upd_kept caps).
  - unfold actor_set_window. destruct (bad_slot s); [auto|]. intros H. left. revert H. apply holds_caps.
    by apply (upd_kept caps).
  - destruct (actor_spawn e k) as [r k'] eqn:E. intros H. left. by eapply spawn_caps_shrink.
  - intros H. left. revert H. apply holds_caps, switch_event_caps. intros. by apply (schedule_kept caps).
  - intros H. left. revert H. apply holds_caps, switch_event_caps. intros i. unfold actor_yield.
    destruct (_ <? 0); [done|]. rewrite (schedule_kept caps) by done. autorewrite with kact. by rewrite (upd_kept caps).
  - intros H. left. revert H. apply holds_caps, switch_event_caps. intros i. unfold actor_exit.
    rewrite (schedule_kept caps) by done. autorewrite with kact. by rewrite (upd_kept caps).
  - intros H. left. revert H. apply holds_caps, send_caps.
  - intros H. left. revert H. apply holds_caps. pose proof (receive_caps k j) as Hc.
    destruct (actor_receive k) as [[m|] k1]; [exact Hc|]. rewrite (settle_kept caps) by done. exact Hc.
  - unfold actor_delegate. destruct (bad_slot d); [auto|]. cbv zeta.
    destruct (actor_has_cap _ _ _ _) eqn:Ec; cbn [negb]; [|intros H; left; exact H].
    apply has_cap_spec in Ec. destruct (actor_add_cap d o' t' _) as [rc k'] eqn:E. cbn [snd].
    intros H. change (holds k' j o t) in H. rewrite (add_cap_holds _ _ _ _ _ _ _ _ _ E Ho) in H.
    destruct H as [?|(_ & -> & -> & ->)]; [by left | right; split_and!; try done].
  - unfold actor_spawn_child. destruct (spawn_checked _ k) as [r k'] eqn:E. cbn [fst snd]. intros H.
    destruct (spawn_checked_caps _ _ _ _ j o t (spawn_caps_shrink e) E Ho H) as [?|(? & ? & ?)]; eauto 10.
  - unfold actor_spawn_program_child. destruct (spawn_checked _ k) as [r k'] eqn:E. cbn [fst snd]. intros H.
    destruct (spawn_checked_caps _ _ _ _ j o t (spawn_program_caps_shrink p s e) E Ho H) as [?|(? & ? & ?)]; eauto 10.
  - intros H. left. revert H. apply holds_caps, terminate_caps.
Qed.

(** what a denied actor can do to others is nothing: an actor without the
    capability gets -1 from delegate, spawn, terminate and send, and the actor
    table is exactly as it was. *)
Theorem denied_operation_is_a_noop ev k :
  match ev with
  | EvSend d _ _ => ~ holds k (current_actor k) CAP_SEND d
  | EvDelegate _ o t => ~ holds k (current_actor k) o t
  | EvSpawnChild _ | EvSpawnProgram _ _ _ => ~ holds k (current_actor k) CAP_SPAWN 0
  | EvTerminate t => ~ holds k (current_actor k) CAP_TERMINATE t
  | _ => False
  end ->
  (run_event ev k).1 = RCode (-1) /\ actors (run_event ev k).2 = actors k /\
  mem (run_event ev k).2 = mem k /\ pg (run_event ev k).2 = pg k.
Proof.
  assert (Hn : forall k i o t, ~ holds k i o t -> actor_has_cap i o t k = false).
  { intros k0 i o t H. apply not_true_iff_false. by rewrite has_cap_spec. }
  intros H. destruct ev as [| | | | | | |d ty x| |d o' t'|e|p s e|tg]; try done;
    cbn [run_event coded fst snd]; apply Hn in H.
  - unfold actor_send. destruct (bad_slot d); [done|]. cbv zeta.
    change (actor_has_cap _ CAP_SEND d _) with (actor_has_cap (current_actor k) CAP_SEND d k). by rewrite H.
  - unfold actor_delegate. destruct (bad_slot d); [done|]. cbv zeta.
    change (actor_has_cap _ o' t' _) with (actor_has_cap (current_actor k) o' t' k). by rewrite H.
  - unfold actor_spawn_child, spawn_checked. cbv zeta.
    change (actor_has_cap _ CAP_SPAWN 0 _) with (actor_has_cap (current_actor k) CAP_SPAWN 0 k). by rewrite H.
  - unfold actor_spawn_program_child, spawn_checked. cbv zeta.
    change (actor_has_cap _ CAP_SPAWN 0 _) with (actor_has_cap (current_actor k) CAP_SPAWN 0 k). by rewrite H.
  - unfold actor_terminate. destruct (_ || _); [done|]. cbv zeta.
    change (actor_has_cap _ CAP_TERMINATE tg _) with (actor_has_cap (current_actor k) CAP_TERMINATE tg k). by rewrite H.
Qed.
End authority.

(** ** Mailboxes as queues *)
Section mailboxes.
Context {L : layout} {KL : klayout} {KC : kcode}.
Implicit Types (k : kern).

(** The messages waiting in a mailbox, oldest first. *)
Definition queue (a : actor) : list message :=
  ring MAILBOX_CAPACITY (mailbox a) (mailbox_head a) (mailbox_count a).

Record mailbox_ok (a : actor) : Prop := {
  mb_head : 0 <= mailbox_head a < MAILBOX_CAPACITY;
  mb_count : 0 <= mailbox_count a <= MAILBOX_CAPACITY
}.

Lemma queue_push a m :
  mailbox_ok a -> mailbox_count a < MAILBOX_CAPACITY ->
  let a' := set_mailbox (<[(mailbox_head a + mailbox_count a) mod MAILBOX_CAPACITY := m]> (mailbox a))
              (mailbox_head a) (mailbox_count a + 1) a in
  queue a' = queue a ++ [m] /\ mailbox_ok a'.
Proof.
  intros [Hh Hc] Hlt. split; [|by split; cbn; unfold MAILBOX_CAPACITY in *; lia].
  apply ring_push; lia.
Qed.

Lemma queue_pop a :
  mailbox_ok a -> 0 < mailbox_count a ->
  let a' := set_mailbox (mailbox a) ((mailbox_head a + 1) mod MAILBOX_CAPACITY) (mailbox_count a - 1) a in
  queue a = (mailbox a !!! mailbox_head a) :: queue a' /\ mailbox_ok a'.
Proof.
  intros [Hh Hc] Hlt. split; [by apply ring_pop|].
  split; cbn [mailbox_head mailbox_count set_mailbox];
    [apply Z.mod_pos_bound; unfold MAILBOX_CAPACITY|]; lia.
Qed.

Lemma send_spec dest type data k rc k' :
  (forall i, 0 <= i < MAX_ACTORS -> mailbox_ok (act k i)) -> 0 <= current_actor k < MAX_ACTORS ->
  actor_send dest type data k = (rc, k') ->
  (rc = 0 <-> 0 <= dest < MAX_ACTORS /\ holds k (current_actor k) CAP_SEND dest /\
              state (act k dest) <> ACTOR_DEAD /\
              Z.of_nat (length (queue (act k dest))) < MAILBOX_CAPACITY) /\
  (rc <> 0 -> rc = -1 /\ actors k' = actors k) /\
  (rc = 0 ->
     queue (act k' dest) = queue (act k dest) ++ [Message type (current_actor k) data] /\
     state (act k' dest) = match state (act k dest) with ACTOR_BLOCKED => ACTOR_READY | s => s end /\
     forall j, j <> dest -> act k' j = act k j).
Proof.
  intros Hok Hcur. unfold actor_send. destruct (bad_slot dest) eqn:Eb.
  { intros [= <- <-]. split_and!; try done. split; [done|]. intros [H _]. apply bad_slot_false in H. by rewrite H in Eb. }
  apply bad_slot_false in Eb. cbv zeta. pose proof (Hok dest Eb) as Hm.
  assert (Hlen : Z.of_nat (length (queue (act k dest))) = mailbox_count (act k dest)).
  { apply length_ring. pose proof (mb_count _ Hm). lia. }
  rewrite Hlen. change (actor_has_cap _ CAP_SEND dest _) with (actor_has_cap (current_actor k) CAP_SEND dest k).
  autorewrite with kact.
  destruct (actor_has_cap _ _ _ _) eqn:Ec; cbn [negb].
  2: { intros [= <- <-]. split_and!; try done. split; [done|]. intros (_ & H & _).
       apply has_cap_spec in H. congruence. }
  apply has_cap_spec in Ec. destruct (is_dead _) eqn:Ed.
  { intros [= <- <-]. split_and!; try done. split; [done|]. intros (_ & _ & H & _). by apply is_dead_true in Ed. }
  apply is_dead_false in Ed. destruct (Z.leb_spec MAILBOX_CAPACITY (mailbox_count (act k dest))) as [|Hlt].
  { intros [= <- <-]. split_and!; try done. split; [done|]. intros (_ & _ & _ & Hn). lia. }
  destruct (queue_push (act k dest) (Message type (u64 (current_actor k)) data) Hm Hlt) as [Hq _].
  change (current_actor (hal_disable_interrupts k)) with (current_actor k).
  rewrite u64_small in * by (unfold in_u64, MAX_ACTORS in *; lia).
  set (k1 := upd dest _ _). assert (Hk1 : act k1 dest = set_mailbox (<[(mailbox_head (act k dest) + mailbox_count (act k dest))
    mod MAILBOX_CAPACITY := Message type (current_actor k) data]> (mailbox (act k dest))) (mailbox_head (act k dest))
    (mailbox_count (act k dest) + 1) (act k dest)).
  { unfold k1. by rewrite act_upd_eq. }
  assert (Hk1' : forall j, j <> dest -> act k1 j = act k j) by (intros; unfold k1; by rewrite act_upd_ne by done).
  clearbody k1. intros [= <- <-]. split_and!; [done|done|]. intros _. autorewrite with kact.
  rewrite Hk1. cbn [state set_mailbox].
  destruct (state (act k dest)) eqn:Es; rewrite ?act_upd_eq, ?Hk1; split_and!; try done;
    intros j Hj; rewrite ?act_enable, ?act_upd_ne by done; auto.
Qed.

(** C32: [actor_send] is exactly a bounded, authorised enqueue.  It succeeds iff
    the destination is a live slot the caller holds [CAP_SEND] for and whose
    mailbox is not full; then precisely one message, stamped with the caller's
    slot by the kernel, is appended to that mailbox and a blocked receiver
    becomes ready; otherwise it returns -1 and changes no actor. *)
Theorem send_is_authorised_enqueue dest type data k rc k' :
  (forall i, 0 <= i < MAX_ACTORS -> mailbox_ok (act k i)) -> 0 <= current_actor k < MAX_ACTORS ->
  actor_send dest type data k = (rc, k') ->
  (rc = 0 <-> 0 <= dest < MAX_ACTORS /\ holds k (current_actor k) CAP_SEND dest /\
              state (act k dest) <> ACTOR_DEAD /\
              Z.of_nat (length (queue (act k dest))) < MAILBOX_CAPACITY) /\
  (rc <> 0 -> rc = -1 /\ actors k' = actors k) /\
  (rc = 0 ->
     queue (act k' dest) = queue (act k dest) ++ [Message type (current_actor k) data] /\
     state (act k' dest) = match state (act k dest) with ACTOR_BLOCKED => ACTOR_READY | s => s end /\
     forall j, j <> dest -> act k' j = act k j).
Proof. apply send_spec. Qed.

Definition dequeue k : kern :=
  upd (current_actor k) (fun a => set_mailbox (mailbox a)
         ((mailbox_head (act k (current_actor k)) + 1) mod MAILBOX_CAPACITY) (mailbox_count a - 1) a) k.

Lemma receive_loop_nonempty fuel k : mailbox_count (act k (current_actor k)) <> 0 ->
  receive_loop fuel k =
  (Some (mailbox (act k (current_actor k)) !!! mailbox_head (act k (current_actor k))),
   hal_enable_interrupts (dequeue k)).
Proof.
  intros H. destruct fuel; cbn [receive_loop]; by destruct (Z.eqb_spec (mailbox_count (act k (current_actor k))) 0).
Qed.

Lemma receive_spec k m q :
  mailbox_ok (act k (current_actor k)) -> queue (act k (current_actor k)) = m :: q ->
  exists k', actor_receive k = (Some m, k') /\
    queue (act k' (current_actor k)) = q /\ state (act k' (current_actor k)) = state (act k (current_actor k)) /\
    current_actor k' = current_actor k /\ (forall j, j <> current_actor k -> act k' j = act k j).
Proof.
  intros Hm Hq. pose proof (mb_count _ Hm).
  assert (Hc : 0 < mailbox_count (act k (current_actor k))).
  { destruct (Z.eqb_spec (mailbox_count (act k (current_actor k))) 0) as [E|]; [|lia].
    unfold queue in Hq. by rewrite E in Hq. }
  destruct (queue_pop _ Hm Hc) as [Hpop _]. rewrite Hpop in Hq. injection Hq as <- <-.
  unfold actor_receive. set (k0 := hal_disable_interrupts k).
  assert (Hcur : current_actor k0 = current_actor k) by done.
  assert (Ha : forall j, act k0 j = act k j) by done. clearbody k0.
  rewrite receive_loop_nonempty by (rewrite Hcur, Ha; lia). rewrite Hcur, Ha.
  eexists. split; [reflexivity|]. unfold dequeue. autorewrite with kact. rewrite Hcur, act_upd_eq, Ha.
  split_and!; try done. intros j Hj. autorewrite with kact. by rewrite act_upd_ne.
Qed.

(** C33: [actor_receive] on a non-empty mailbox delivers the oldest message and
    removes exactly that one, without blocking and without touching any other
    actor; together with the enqueue this makes each mailbox a FIFO. *)
Theorem receive_delivers_oldest k m q :
  mailbox_ok (act k (current_actor k)) -> queue (act k (current_actor k)) = m :: q ->
  exists k', actor_receive k = (Some m, k') /\
    queue (act k' (current_actor k)) = q /\ state (act k' (current_actor k)) = state (act k (current_actor k)) /\
    current_actor k' = current_actor k /\ (forall j, j <> current_actor k -> act k' j = act k j).
Proof. apply receive_spec. Qed.
End mailboxes.

(** ** Spawn quotas *)
Section quota.
Context {L : layout} {KL : klayout} {KC : kcode}.
Implicit Types (k : kern).

Lemma spawn_checked_quota raw k r k' :
  (forall k0 r0 k1, raw k0 = (r0, k1) -> current_actor k1 = current_actor k0 /\
     (state (act k0 (current_actor k0)) <> ACTOR_DEAD -> act k1 (current_actor k0) = act k0 (current_actor k0))) ->
  state (act k (current_actor k)) <> ACTOR_DEAD ->
  spawn_checked raw k = (r, k') ->
  (0 <= r -> spawn_count (act k (current_actor k)) < spawn_quota (act k (current_actor k))) /\
  spawn_count (act k' (current_actor k)) = spawn_count (act k (current_actor k)) + (if 0 <=? r then 1 else 0) /\
  spawn_quota (act k' (current_actor k)) = spawn_quota (act k (current_actor k)).
Proof.
  intros Hraw Hst. unfold spawn_checked. cbv zeta. autorewrite with kact.
  destruct (negb _); [intros [= <- <-]; autorewrite with kact; cbn; split_and!; lia|].
  destruct (Z.leb_spec (spawn_quota (act k (current_actor (hal_disable_interrupts k))))
     (spawn_count (act k (current_actor (hal_disable_interrupts k))))) as [|Hq];
    [intros [= <- <-]; autorewrite with kact; cbn; split_and!; lia|].
  destruct (raw _) as [child k1] eqn:E. destruct (Hraw _ _ _ E) as [Hc Ha].
  cbn [hal_disable_interrupts set_irq current_actor] in *. specialize (Ha Hst).
  change (act (hal_disable_interrupts k)) with (act k) in Ha.
  destruct (Z.ltb_spec child 0).
  - intros [= <- <-]. autorewrite with kact. rewrite Ha. cbn. split_and!; try lia; done.
  - set (k2 := upd _ _ k1).
    destruct (actor_add_cap _ CAP_SEND child k2) as [r3 k3] eqn:E3.
    destruct (actor_add_cap _ CAP_TERMINATE child k3) as [r4 k4] eqn:E4.
    destruct (actor_add_cap child CAP_SEND _ k4) as [r5 k5] eqn:E5.
    intros [= <- <-]. rewrite act_enable.
    assert (Hf : forall A (f : actor -> A), (forall c a, f (set_caps c a) = f a) ->
       f (act k5 (current_actor k)) = f (act k2 (current_actor k))).
    { intros A f Hcaps.
      pose proof (add_cap_other f child CAP_SEND (current_actor k) k4 (current_actor k) Hcaps) as H5. rewrite E5 in H5.
      pose proof (add_cap_other f (current_actor k) CAP_TERMINATE child k3 (current_actor k) Hcaps) as H4. rewrite E4 in H4.
      pose proof (add_cap_other f (current_actor k) CAP_SEND child k2 (current_actor k) Hcaps) as H3. rewrite E3 in H3.
      cbn [snd] in *. congruence. }
    rewrite (Hf _ spawn_count), (Hf _ spawn_quota) by done. unfold k2. rewrite act_upd_eq, Ha.
    cbn [spawn_count spawn_quota set_spawn_count]. zcmp. split_and!; [intros; exact Hq | lia | done].
Qed.

(** C40: the fork-bomb guard: whichever way an actor spawns, a success needs its
    count below its quota and raises the count by exactly one; a refusal or a
    failure leaves it; so no actor creates more children than its quota. *)
Theorem spawn_quota_enforced k r k' (prog : option (Z * Z)) e :
  state (act k (current_actor k)) <> ACTOR_DEAD ->
  (match prog with
   | None => actor_spawn_child e k
   | Some (phys, size) => actor_spawn_program_child phys size e k
   end) = (r, k') ->
  (0 <= r -> spawn_count (act k (current_actor k)) < spawn_quota (act k (current_actor k))) /\
  spawn_count (act k' (current_actor k)) = spawn_count (act k (current_actor k)) + (if 0 <=? r then 1 else 0) /\
  spawn_quota (act k' (current_actor k)) = spawn_quota (act k (current_actor k)).
Proof.
  intros Hst. destruct prog as [[phys size]|]; apply spawn_checked_quota; try done; intros k0 r0 k1 E.
  - unfold actor_spawn_program in E. destruct (actor_spawn _ k0) as [i k2] eqn:E1.
    destruct (spawn_slots _ _ _ _ E1) as (H1 & _ & _ & Hc).
    destruct (Z.ltb_spec i 0).
    { injection E as <- <-. split; [done|]. intros Hd. destruct Hc as [(_ & Ha)|(? & _)]; [|lia]. unfold act. by rewrite Ha. }
    destruct (hal_address_space_map_program _ _ _ _) as [rc p].
    destruct Hc as [[-> _]|(_ & Hd & Ho & _)]; [lia|].
    destruct (negb _); injection E as <- <-; (split; [done|]; intros Hal).
    + rewrite act_upd_ne by congruence. autorewrite with kact. apply Ho. congruence.
    + autorewrite with kact. apply Ho. congruence.
  - destruct (spawn_slots _ _ _ _ E) as (H1 & _ & _ & Hc). split; [done|]. intros Hal.
    destruct Hc as [(_ & Ha)|(_ & Hd & Ho & _)]; [unfold act; by rewrite Ha | apply Ho; congruence].
Qed.
End quota.

(** ** A small table, for closed examples *)
Module ActorDemo.
#[local] Existing Instance demo_layout.
#[local] Instance demo_code : kcode := KCode 0x8000 0x9000.

Definition idle (st : actor_state) (c : list capability) : actor :=
  Actor 0 0 st 0x100000 0x2B000 ∅ 0 0 (of_list c) 0 2 0.
(** Actor 0 runs and may message actor 1, which is blocked. *)
Definition pair_kern : kern :=
  Kern (<[0 := idle ACTOR_RUNNING [Capability CAP_SEND 1; Capability CAP_SPAWN 0]]>
       (<[1 := idle ACTOR_BLOCKED []]> ∅)) 0 0 false mem_demo pg_boot (Tss 0 ∅ 0) ∅
       (Cpu 0x21000 0 0 (Regs 0 0 0 0 0 0)) ∅ [] false.
Definition sent_kern : kern := (actor_send 1 5 42 pair_kern).2.

Lemma pair_boxes i : 0 <= i < MAX_ACTORS -> mailbox_ok (act pair_kern i).
Proof.
  intros Hi. unfold act, pair_kern. cbn [actors].
  rewrite !aget_insert, lookup_total_empty. destruct (0 =? i); [|destruct (1 =? i)]; by split; cbn.
Qed.

Lemma send_is_authorised_enqueue_witness :
  actor_send 1 5 42 pair_kern = (0, sent_kern) /\ queue (act sent_kern 1) = [Message 5 0 42].
Proof.
  assert (Hr : fst (actor_send 1 5 42 pair_kern) = 0) by (vm_compute; reflexivity).
  unfold sent_kern. destruct (actor_send 1 5 42 pair_kern) as [r k'] eqn:E. cbn [fst snd] in *. subst r.
  split; [reflexivity|].
  destruct (send_is_authorised_enqueue 1 5 42 pair_kern 0 k' pair_boxes) as (_ & _ & H);
    [unfold MAX_ACTORS; cbn; lia | exact E |]. exact (proj1 (H eq_refl)).
Defined.

Definition receiver : kern := set_current 1 sent_kern.

Lemma receive_delivers_oldest_witness :
  exists k', actor_receive receiver = (Some (Message 5 0 42), k') /\ queue (act k' 1) = [].
Proof.
  destruct (receive_delivers_oldest receiver (Message 5 0 42) []) as (k' & H1 & H2 & _).
  - split; vm_compute; split; discriminate || reflexivity.
  - vm_compute. reflexivity.
  - exists k'. split; [exact H1 | exact H2].
Defined.

Lemma denied_operation_is_a_noop_witness :
  (run_event (EvTerminate 1) pair_kern).1 = RCode (-1) /\ actors (run_event (EvTerminate 1) pair_kern).2 = actors pair_kern.
Proof.
  destruct (denied_operation_is_a_noop (EvTerminate 1) pair_kern) as (H1 & H2 & _); [|split; [exact H1 | exact H2]].
  intros H. apply has_cap_spec in H. vm_compute in H. discriminate H.
Defined.

Lemma spawn_quota_enforced_witness :
  spawn_count (act (actor_spawn_child 0x2E000 pair_kern).2 0) = 0 + (if 0 <=? (actor_spawn_child 0x2E000 pair_kern).1 then 1 else 0).
Proof.
  destruct (actor_spawn_child 0x2E000 pair_kern) as [r k'] eqn:E.
  destruct (spawn_quota_enforced pair_kern r k' None 0x2E000) as (_ & H & _); [discriminate | exact E | exact H].
Defined.
End ActorDemo.
