(* ===== verification/Scheduler.v ===== *)
(** * The scheduler's invariant

    Reachability of kernel states through the events of [Actor], and the
    invariant every reachable state satisfies: one running actor, no lost
    wake-up, saved contexts intact on disjoint kernel stacks, stack pages owned
    by one actor each, and every live actor's address space mapping its own
    stack and nothing of the others.  Then round-robin fairness. *)
From S2P Require Import Prelude Paging Gdt Memory Actor.

Section scheduler.
Context {L : layout} {LOK : layout_ok L} {KL : klayout} {KC : kcode}.
Context (Hcode : actor_trampoline_addr <> schedule_next_ret).
Implicit Types (k : kern) (live : gset Z).

Definition ktop (i : Z) : Z := kernel_stacks_addr + i * KERNEL_STACK_SIZE + KERNEL_STACK_SIZE.

Definition resume_addr (fr : frame) : Z :=
  match fr with FTrampoline => actor_trampoline_addr | _ => schedule_next_ret end.

(** A saved context: seven words inside the slot's own stack, the last of them
    the address to resume at. *)
Definition saved_ok (ks : gmap Z Z) (fr : frame) (i sp : Z) : Prop :=
  ktop i - KERNEL_STACK_SIZE <= sp /\ sp + 56 <= ktop i /\ ks !!! (sp + 48) = resume_addr fr /\ fr <> FExit.

(** An address space that maps the slot's own stack page and, possibly, a
    program image outside the private window. *)
Definition space_live (p : pg_state) (i page : Z) : Prop :=
  exists prog, space_ok p i page ACTOR_STACK_SIZE prog /\
    match prog with Some (_, phys, _) => PRIVATE_WINDOW_END <= phys | None => True end.

Record slot_ok live (p : pg_state) (ks : gmap Z Z) (fr : frame) (cur i : Z) (a : actor) : Prop := SlotOk {
  so_mailbox : mailbox_ok a;
  so_block : state a = ACTOR_BLOCKED -> mailbox_count a = 0;
  so_wait : i <> cur -> state a = ACTOR_READY -> fr = FReceive -> 0 < mailbox_count a;
  so_page : stack_page a <> 0 -> stack_page a ∈ live;
  so_alive : state a <> ACTOR_DEAD ->
    stack_page a <> 0 /\ a_cr3 a = pml4_of i /\ space_live p i (stack_page a);
  so_saved : i <> cur -> state a <> ACTOR_DEAD -> saved_ok ks fr i (rsp a)
}.

Record kcore live k : Prop := KCore {
  kc_cur : -1 <= current_actor k < MAX_ACTORS;
  kc_slot : forall i, 0 <= i < MAX_ACTORS ->
    slot_ok live (pg k) (kstack k) (frames k !!! i) (current_actor k) i (act k i);
  kc_inj : forall i j, 0 <= i < MAX_ACTORS -> 0 <= j < MAX_ACTORS -> i <> j ->
    stack_page (act k i) <> 0 -> stack_page (act k i) <> stack_page (act k j);
  kc_mem : mem_inv (mem k) live;
  kc_pd : boot_pd (pg k) = boot_pd_init
}.

(** The current actor, and only it, is running. *)
Definition one_running k : Prop :=
  forall i, 0 <= i < MAX_ACTORS -> (state (act k i) = ACTOR_RUNNING <-> i = current_actor k).
Definition none_running k : Prop :=
  forall i, 0 <= i < MAX_ACTORS -> state (act k i) <> ACTOR_RUNNING.

Definition kinv live k : Prop := kcore live k /\ one_running k.

(** ** Updates of one slot *)

Lemma kcore_upd live k j f :
  kcore live k -> 0 <= j < MAX_ACTORS ->
  slot_ok live (pg k) (kstack k) (frames k !!! j) (current_actor k) j (f (act k j)) ->
  stack_page (f (act k j)) = stack_page (act k j) -> kcore live (upd j f k).
Proof.
  intros [C1 C2 C3 C4 C5] Hj Hok Hp. split; try done.
  - intros i Hi. rewrite act_upd. destruct (Z.eqb_spec j i) as [<-|]; [exact Hok | by apply C2].
  - intros i i' Hi Hi' Hne. rewrite !act_upd.
    destruct (Z.eqb_spec j i) as [<-|], (Z.eqb_spec j i') as [<-|]; rewrite ?Hp; try done; by apply C3.
Qed.

(** Fields the invariant does not look at. *)
Definition same_sched (a a' : actor) : Prop :=
  rsp a' = rsp a /\ a_cr3 a' = a_cr3 a /\ state a' = state a /\ stack_page a' = stack_page a /\
  mailbox_head a' = mailbox_head a /\ mailbox_count a' = mailbox_count a.

Lemma slot_ok_same live p ks fr cur i a a' :
  same_sched a a' -> slot_ok live p ks fr cur i a -> slot_ok live p ks fr cur i a'.
Proof.
  intros (E1 & E2 & E3 & E4 & E5 & E6) [[? ?] ? ? ? ? ?].
  split; rewrite ?E1, ?E2, ?E3, ?E4, ?E5, ?E6; try done. by split; rewrite ?E5, ?E6.
Qed.

Lemma kinv_same live k j f :
  kinv live k -> 0 <= j < MAX_ACTORS -> same_sched (act k j) (f (act k j)) -> kinv live (upd j f k).
Proof.
  intros [Hc Hr] Hj Hs. split.
  - apply kcore_upd; [done | done | | by apply Hs].
    eapply slot_ok_same; [exact Hs | by apply (kc_slot _ _ Hc)].
  - intros i Hi. rewrite act_upd. destruct (Z.eqb_spec j i) as [<-|]; [|by apply Hr].
    destruct Hs as (_ & _ & -> & _). by apply Hr.
Qed.

(** Components of the state the invariant ignores. *)
Lemma kinv_frame live k k' :
  actors k' = actors k -> current_actor k' = current_actor k -> pg k' = pg k -> kstack k' = kstack k ->
  frames k' = frames k -> mem_inv (mem k') live -> kinv live k -> kinv live k'.
Proof.
  intros E1 E2 E3 E4 E5 Hm [[C1 C2 C3 C4 C5] Hr].
  assert (Ha : forall i, act k' i = act k i) by (intros; unfold act; by rewrite E1).
  split; [split|]; rewrite ?E2, ?E3; try done.
  - intros i Hi. rewrite E4, E5, Ha. by apply C2.
  - intros i j. rewrite !Ha. apply C3.
  - intros i Hi. rewrite Ha, E2. by apply Hr.
Qed.

Lemma kinv_irq live k b : kinv live k -> kinv live (set_irq b k).
Proof. intros H. pose proof (kc_mem _ _ (proj1 H)). by apply (kinv_frame live k). Qed.

Lemma kinv_cpu live k c : kinv live k -> kinv live (set_cpu c k).
Proof. intros H. pose proof (kc_mem _ _ (proj1 H)). by apply (kinv_frame live k). Qed.

Lemma add_cap_inv live slot op target k :
  kinv live k -> 0 <= slot < MAX_ACTORS -> kinv live (actor_add_cap slot op target k).2.
Proof.
  intros Hi Hs. unfold actor_add_cap. destruct (scan _ _ _); [|done]. by apply kinv_same.
Qed.

Lemma add_cap_current slot op target k :
  current_actor (actor_add_cap slot op target k).2 = current_actor k.
Proof. unfold actor_add_cap. by destruct (scan _ _ _). Qed.

(** ** Sends and terminations *)

Definition pushed (m : message) (a : actor) : actor :=
  set_mailbox (<[(mailbox_head a + mailbox_count a) mod MAILBOX_CAPACITY := m]> (mailbox a))
    (mailbox_head a) (mailbox_count a + 1) a.

Lemma push_slot live p ks fr cur i m a :
  slot_ok live p ks fr cur i a -> mailbox_count a < MAILBOX_CAPACITY -> state a <> ACTOR_BLOCKED ->
  slot_ok live p ks fr cur i (pushed m a).
Proof.
  intros [[Hh Hn] Hb Hw Hp Ha Hs] Hlt Hst. split; cbn; try done.
  - split; cbn; lia.
  - intros. specialize (Hw ltac:(done) ltac:(done) ltac:(done)). lia.
Qed.

(** The message that wakes a blocked receiver. *)
Lemma wake_slot live p ks fr cur i m a :
  slot_ok live p ks fr cur i a -> mailbox_count a < MAILBOX_CAPACITY -> state a = ACTOR_BLOCKED ->
  slot_ok live p ks fr cur i (set_state ACTOR_READY (pushed m a)).
Proof.
  intros [[Hh Hn] Hb Hw Hp Ha Hs] Hlt Hst. split; cbn; try done.
  - split; cbn; lia.
  - intros. lia.
  - intros _. apply Ha. by rewrite Hst.
  - intros ? _. apply Hs; [done|]. by rewrite Hst.
Qed.

Lemma send_inv live d t x k :
  kinv live k -> kinv live (actor_send d t x k).2.
Proof.
  intros Hi. unfold actor_send. destruct (bad_slot d) eqn:Eb; [done|]. apply bad_slot_false in Eb.
  cbv zeta. destruct (negb _); [by apply kinv_irq, kinv_irq|]. destruct (is_dead _); [by apply kinv_irq, kinv_irq|].
  destruct (Z.leb_spec MAILBOX_CAPACITY (mailbox_count (act (hal_disable_interrupts k) d))) as [|Hlt]; [by apply kinv_irq, kinv_irq|].
  cbn [snd]. apply kinv_irq. apply (kinv_irq _ _ false) in Hi. fold (hal_disable_interrupts k) in Hi.
  set (k0 := hal_disable_interrupts k) in *. clearbody k0. destruct Hi as [Hc Hr].
  pose proof (kc_slot _ _ Hc d Eb) as Hslot. set (k1 := upd d _ k0).
  assert (Ek1 : act k1 d = pushed (Message t (u64 (current_actor k0)) x) (act k0 d)) by (unfold k1; by rewrite act_upd_eq).
  destruct (decide (state (act k0 d) = ACTOR_BLOCKED)) as [Eblk|Nblk].
  - rewrite Ek1. cbn [state set_mailbox pushed]. rewrite Eblk.
    assert (Hcur : d <> current_actor k0) by (intros E; apply Hr in E; [congruence|done]).
    assert (E2 : forall g, upd d (set_state ACTOR_READY) (upd d g k0) = upd d (fun a => set_state ACTOR_READY (g a)) k0).
    { intros g. unfold upd, set_actors, act. cbn. by rewrite aget_eq, insert_insert_eq. }
    unfold k1. rewrite E2. split; [apply kcore_upd; try done; exact (wake_slot _ _ _ _ _ _ _ _ Hslot Hlt Eblk)|].
    intros i Hi. rewrite act_upd. destruct (Z.eqb_spec d i) as [<-|]; [|by apply Hr]. cbn. split; [done|]. by intros ->.
  - assert (E : (match state (act k1 d) with ACTOR_BLOCKED => upd d (set_state ACTOR_READY) k1 | _ => k1 end) = k1).
    { rewrite Ek1. cbn [state set_mailbox pushed]. by destruct (state (act k0 d)). }
    rewrite E. split; [apply kcore_upd; try done; exact (push_slot _ _ _ _ _ _ _ _ Hslot Hlt Nblk)|].
    intros i Hi. unfold k1. rewrite act_upd. destruct (Z.eqb_spec d i) as [<-|]; by apply Hr.
Qed.

Lemma mailbox_ok_state v a : mailbox_ok a -> mailbox_ok (set_state v a).
Proof. by intros [? ?]. Qed.

Lemma dead_slot live p ks fr cur i a :
  slot_ok live p ks fr cur i a -> slot_ok live p ks fr cur i (set_state ACTOR_DEAD a).
Proof. intros [? ? ? ? ? ?]. split; try done. by apply mailbox_ok_state. Qed.

Lemma terminate_inv live t k :
  kinv live k -> kinv live (actor_terminate t k).2.
Proof.
  intros Hi. unfold actor_terminate. destruct (bad_slot t || _) eqn:Eb; [done|].
  apply orb_false_elim in Eb as [Eb Hne]. apply bad_slot_false in Eb. apply Z.eqb_neq in Hne.
  cbv zeta. destruct (negb _); [by apply kinv_irq, kinv_irq|]. cbn [snd]. apply kinv_irq.
  apply (kinv_irq _ _ false) in Hi. destruct Hi as [Hc Hr].
  pose proof (kc_slot _ _ Hc t Eb) as Hslot. split.
  - apply kcore_upd; [done | done | by apply dead_slot | done].
  - intros i Hi. rewrite act_upd. destruct (Z.eqb_spec t i) as [<-|]; [|by apply Hr]. cbn. split; [done|]. by intros ->.
Qed.
(** ** Spawning *)

Lemma ktop_spec i : 0 <= i < MAX_ACTORS -> hal_get_kernel_stack_top i = ktop i.
Proof. intros. unfold hal_get_kernel_stack_top, ktop, MAX_ACTORS in *. zcmp. done. Qed.

Lemma ktop_disjoint i j x :
  i <> j -> ktop i - KERNEL_STACK_SIZE <= x < ktop i -> ~ (ktop j - KERNEL_STACK_SIZE <= x < ktop j).
Proof. unfold ktop, KERNEL_STACK_SIZE. lia. Qed.

(** Words outside a slot's own stack do not matter to its saved context. *)
Lemma saved_ok_ext ks ks' fr i sp :
  (forall x, ktop i - KERNEL_STACK_SIZE <= x < ktop i -> ks' !!! x = ks !!! x) ->
  saved_ok ks fr i sp -> saved_ok ks' fr i sp.
Proof. intros He (H1 & H2 & H3 & H4). split_and!; [done|done| |done]. rewrite He; [done | lia]. Qed.

Lemma slot_ok_world live live' p p' ks ks' fr fr' cur cur' i a :
  slot_ok live p ks fr cur i a ->
  (stack_page a <> 0 -> stack_page a ∈ live -> stack_page a ∈ live') ->
  (space_live p i (stack_page a) -> space_live p' i (stack_page a)) ->
  (forall x, ktop i - KERNEL_STACK_SIZE <= x < ktop i -> ks' !!! x = ks !!! x) ->
  fr' = fr -> (i <> cur' -> i <> cur) -> slot_ok live' p' ks' fr' cur' i a.
Proof.
  intros [? ? ? ? Ha Hs] Hl Hp Hk -> Hc. split; try done.
  - auto.
  - auto.
  - intros Hd. destruct (Ha Hd) as (? & ? & ?). split_and!; auto.
  - intros Hi Hd. eapply saved_ok_ext; [exact Hk | auto].
Qed.

Lemma fake_frame_spec top m ks sp :
  fake_frame top m = (ks, sp) ->
  sp = top - 56 /\ ks !!! (top - 8) = actor_trampoline_addr /\
  (forall x, x < top - 56 \/ top <= x -> ks !!! x = m !!! x).
Proof.
  unfold fake_frame, push_word. cbn [fst snd]. intros [= <- <-]. split_and!; [lia | |].
  - rewrite !aget_ne by lia. by rewrite aget_eq.
  - intros x Hx. by rewrite !aget_ne by lia.
Qed.

Lemma fresh_slot live p ks sp cr pg e i cur a :
  0 <= i < MAX_ACTORS -> i <> cur -> pg <> 0 -> pg ∈ live -> cr = pml4_of i ->
  space_ok p i pg ACTOR_STACK_SIZE None -> saved_ok ks FTrampoline i sp ->
  slot_ok live p ks FTrampoline cur i (fresh_actor sp cr pg e a).
Proof.
  intros. split; cbn; try done.
  - intros _. split_and!; [done | done | by exists None].
Qed.

(** Raw spawning preserves the invariant; the set of held pages may grow. *)
Lemma spawn_inv live e k r k' :
  kinv live k -> actor_spawn e k = (r, k') ->
  exists live', kinv live' k' /\ live ⊆ live' /\
    (0 <= r -> r <> current_actor k /\ space_ok (pg k') r (stack_page (act k' r)) ACTOR_STACK_SIZE None).
Proof.
  intros [Hc Hr] Heq. pose proof Heq as Heq'. unfold actor_spawn in Heq.
  destruct (scan _ 0 _) as [i|] eqn:Es; [|injection Heq as <- <-; by exists live].
  apply scan_Some in Es as (Hi & Hd & _). apply is_dead_true in Hd. unfold MAX_ACTORS in Hi.
  assert (Hi' : 0 <= i < MAX_ACTORS) by (unfold MAX_ACTORS; lia). clear Hi. rename Hi' into Hi.
  assert (Hic : i <> current_actor k) by (intros E; apply Hr in E; [congruence|done]).
  destruct (alloc_page (mem k)) as [a m] eqn:Ea.
  destruct (alloc_page_spec _ _ _ _ (kc_mem _ _ Hc) Ea) as [(-> & Hm & _)|(Ha0 & Hok & Hfresh & Hm & _)].
  { injection Heq as <- <-. exists live. split_and!; [|done|lia]. by apply (kinv_frame live k). }
  destruct (Z.eqb_spec a 0); [done|]. cbn [pg set_mem] in Heq.
  destruct (decide (a + ACTOR_STACK_SIZE <= PRIVATE_WINDOW_END)) as [Hwin|Hwin].
  2: { rewrite create_fails in Heq. 2: { right; right; right. destruct Hok as (? & ? & ?).
       pose proof (mi_top _ _ (kc_mem _ _ Hc)) as Ht. pose proof (mi_top _ _ Hm).
       rewrite u64_small; [lia|]. unfold in_u64, ACTOR_STACK_SIZE, MEM_BASE, MEM_CAP in *. lia. }
     cbn [Z.eqb] in Heq. injection Heq as <- <-. exists live. split_and!; [|done|lia].
     assert (Hfree : mem_inv (free_page a m) live).
     { replace live with (({[a]} ∪ live) ∖ {[a]}) by set_solver. apply free_page_spec; [done|set_solver]. }
     by apply (kinv_frame live k). }
  destruct (create_ok i a ACTOR_STACK_SIZE (pg k)) as (p & Ep & Hsp & Hf & E1 & E2 & E3 & E4); try done.
  { apply Hc. }
  { destruct Hok as (_ & Hlo & _). unfold MEM_BASE, COMMONS_END in *. lia. }
  { by destruct Hok. }
  rewrite Ep in Heq. destruct (Z.eqb_spec (pml4_of i) 0) as [Hz|].
  { exfalso. unfold pml4_of in Hz. pose proof (@lo_bounds _ LOK) as Hbd.
    rewrite List.Forall_cons_iff in Hbd. destruct Hbd as [[Hbd _] _]. lia. }
  destruct (fake_frame (hal_get_kernel_stack_top i) _) as [ks sp] eqn:Ef.
  rewrite ktop_spec in Ef by done. destruct (fake_frame_spec _ _ _ _ Ef) as (F1 & F2 & F3).
  injection Heq as <- <-. exists ({[a]} ∪ live).
  assert (Hks : forall j x, j <> i -> ktop j - KERNEL_STACK_SIZE <= x < ktop j -> ks !!! x = kstack k !!! x).
  { intros j x Hj Hx. rewrite F3; [done|]. pose proof (ktop_disjoint j i x Hj Hx).
    unfold ktop, KERNEL_STACK_SIZE in *. lia. }
  assert (Hnew : act (upd i (fresh_actor sp (pml4_of i) a e) (set_frame i FTrampoline (set_kstack ks (set_pg p (set_mem m k))))) i
      = fresh_actor sp (pml4_of i) a e (act k i)) by (by rewrite act_upd_eq).
  split_and!; [split; [split|] | set_solver | ].
  - apply Hc.
  - intros j Hj. rewrite act_upd. cbn [pg kstack frames current_actor upd set_actors set_frame set_kstack set_pg set_mem].
    destruct (Z.eqb_spec i j) as [<-|Hne].
    + rewrite aget_eq. apply fresh_slot; try done; [set_solver|]. subst sp.
      split_and!; [unfold KERNEL_STACK_SIZE; lia | lia | |done]. by replace (ktop i - 56 + 48) with (ktop i - 8) by lia.
    + rewrite aget_ne by done. eapply slot_ok_world; [by apply (kc_slot _ _ Hc) | set_solver | | | done | done].
      * intros (prog & Hs & Hhi). exists prog. split; [|done]. by apply (space_ok_frame _ _ i _ _ _ _ Hf).
      * intros x Hx. by apply (Hks j).
  - intros j j' Hj Hj' Hne. rewrite !act_upd.
    assert (Hpg : forall x, 0 <= x < MAX_ACTORS -> stack_page (act k x) <> a).
    { intros x Hx E. apply Hfresh. rewrite <- E. apply (so_page _ _ _ _ _ _ _ (kc_slot _ _ Hc x Hx)). by rewrite E. }
    destruct (Z.eqb_spec i j) as [<-|], (Z.eqb_spec i j') as [<-|]; cbn [stack_page fresh_actor]; try done.
    + intros _ E. by apply (Hpg j').
    + intros _. by apply Hpg.
    + by apply (kc_inj _ _ Hc).
  - done.
  - change (boot_pd p = boot_pd_init). rewrite E4. apply Hc.
  - intros j Hj. rewrite act_upd. destruct (Z.eqb_spec i j) as [<-|]; [|by apply Hr]. cbn. split; [done|]. by intros ->.
  - intros _. split; [done|]. rewrite Hnew. exact Hsp.
Qed.
(** A program image the loader may map: whole pages outside the private
    window. *)
Definition image_ok (phys size : Z) : Prop :=
  phys mod 4096 = 0 /\ PRIVATE_WINDOW_END <= phys /\ size mod 4096 = 0 /\ 0 <= size /\ phys + size <= 2 ^ 52.

Lemma map_program_pd slot phys size st : 
  boot_pd (hal_address_space_map_program slot phys size st).2 = boot_pd st.
Proof. unfold hal_address_space_map_program. repeat case_match_goal; done. Qed.

Lemma map_program_code slot phys size st :
  (hal_address_space_map_program slot phys size st).1 = 0 \/
  ((hal_address_space_map_program slot phys size st).1 = -1 /\
   forall j b s prog, space_ok st j b s prog -> space_ok (hal_address_space_map_program slot phys size st).2 j b s prog).
Proof.
  unfold hal_address_space_map_program. destruct (_ || _); [by right|]. destruct (_ || _); [by right|]. cbv zeta.
  destruct (scan _ _ _); [by left|]. right. split; [done|]. cbn [snd].
  intros j b s prog [? ? ? ? ? ? ? Hp]. split; cbn [as_pml4 as_pdpt as_pd as_pt0 as_pt1 as_pt1_owner as_pt1_pool_init_done]; try done.
  destruct prog as [[[pool ph] sz]|]; [|done]. destruct Hp as (? & ? & Hd & ?).
  destruct (Z.eqb_spec (as_pt1_pool_init_done st) 0); [done|]. split_and!; tauto.
Qed.

Lemma spawn_program_inv live phys size e k r k' :
  kinv live k -> image_ok phys size -> actor_spawn_program phys size e k = (r, k') ->
  exists live', kinv live' k'.
Proof.
  intros Hi (Ha1 & Ha2 & Ha3 & Ha4 & Ha5) Heq. unfold actor_spawn_program in Heq.
  destruct (actor_spawn _ k) as [slot k1] eqn:E.
  destruct (spawn_inv _ _ _ _ _ Hi E) as (live1 & [Hc Hr] & _ & Hslot).
  destruct (spawn_slots _ _ _ _ E) as (Hcur & _ & _ & Hcase).
  destruct (Z.ltb_spec slot 0) as [|Hs0]; [injection Heq as <- <-; by exists live1|].
  destruct Hcase as [[-> _]|(Hrange & _ & _ & _)]; [lia|].
  destruct (Hslot Hs0) as [Hne Hspace].
  destruct (hal_address_space_map_program slot phys size (pg k1)) as [rc p] eqn:Em.
  pose proof (map_program_pd slot phys size (pg k1)) as Hpd. rewrite Em in Hpd. cbn [snd] in Hpd.
  assert (Hsp : forall j, 0 <= j < MAX_ACTORS -> space_live (pg k1) j (stack_page (act k1 j)) ->
     space_live p j (stack_page (act k1 j))).
  { intros j Hj (prog & Hok & Hhi). pose proof (map_program_code slot phys size (pg k1)) as Hcode'. rewrite Em in Hcode'.
    cbn [fst snd] in Hcode'. destruct Hcode' as [->|[_ H]]; [|exists prog; split; [by apply H | done]].
    destruct (map_program_ok slot _ _ phys size (pg k1) 0 p Hspace) as (pool & Hnew & _ & Hoth);
      [done | unfold PRIVATE_WINDOW_END in *; lia | done | done | done | done | done |].
    destruct (decide (j = slot)) as [->|]; [by exists (Some (pool, phys, size)) | exists prog; by split; [apply Hoth|]]. }
  assert (Hk2 : kinv live1 (set_pg p k1)).
  { split; [split|]; try apply Hc; try done.
    - intros j Hj. eapply slot_ok_world; [by apply (kc_slot _ _ Hc) | done | | done | done | done].
      by apply Hsp.
    - change (boot_pd p = boot_pd_init). rewrite Hpd. apply Hc. }
  exists live1. destruct (negb _); injection Heq as <- <-; [|done].
  destruct Hk2 as [Hc2 Hr2]. split.
  - apply kcore_upd; [done | done | by apply dead_slot, (kc_slot _ _ Hc2) | done].
  - intros i Hi'. rewrite act_upd. destruct (Z.eqb_spec slot i) as [<-|]; [|by apply Hr2]. cbn. split; [done|].
    intros E'. exfalso. apply Hne. rewrite <- Hcur. exact E'.
Qed.

Lemma spawn_checked_inv live raw k :
  kinv live k -> 0 <= current_actor k < MAX_ACTORS ->
  (forall k0 r0 k1, kinv live k0 -> raw k0 = (r0, k1) ->
     (exists live', kinv live' k1) /\ (r0 < MAX_ACTORS)) ->
  exists live', kinv live' (spawn_checked raw k).2.
Proof.
  intros Hi Hcur Hraw. unfold spawn_checked. cbv zeta.
  destruct (negb _); [exists live; by apply kinv_irq, kinv_irq|].
  destruct (_ <=? _); [exists live; by apply kinv_irq, kinv_irq|].
  destruct (raw _) as [child k1] eqn:E.
  destruct (Hraw _ _ _ (kinv_irq _ _ false Hi) E) as [[live' Hk1] Hch].
  exists live'. destruct (Z.ltb_spec child 0); [by apply kinv_irq|].
  assert (Hk2 : kinv live' (upd (current_actor k) (fun a => set_spawn_count (spawn_count a + 1) a) k1)) by (by apply kinv_same).
  cbn [current_actor hal_disable_interrupts set_irq].
  destruct (actor_add_cap _ CAP_SEND child _) as [r3 k3] eqn:E3.
  pose proof (add_cap_inv _ (current_actor k) CAP_SEND child _ Hk2 Hcur) as H3. rewrite E3 in H3.
  destruct (actor_add_cap _ CAP_TERMINATE child k3) as [r4 k4] eqn:E4.
  pose proof (add_cap_inv _ (current_actor k) CAP_TERMINATE child _ H3 Hcur) as H4. cbn [snd] in H4. rewrite E4 in H4.
  destruct (actor_add_cap child CAP_SEND _ k4) as [r5 k5] eqn:E5.
  pose proof (add_cap_inv _ child CAP_SEND (current_actor k) _ H4 ltac:(lia)) as H5. cbn [snd] in H5. rewrite E5 in H5.
  by apply kinv_irq.
Qed.
(** ** Reaping *)

(** What reaping leaves alone: everything but dead actors' stack pages and the
    allocator. *)
Definition reaped k k' : Prop :=
  current_actor k' = current_actor k /\ irq k' = irq k /\ pg k' = pg k /\ ktss k' = ktss k /\
  kstack k' = kstack k /\ kcpu k' = kcpu k /\ frames k' = frames k /\ halted k' = halted k /\
  forall i, act k' i = act k i \/ (state (act k i) = ACTOR_DEAD /\ i <> current_actor k /\
                                  act k' i = set_stack_page 0 (act k i)).

Lemma reap_one_inv live i k :
  kcore live k -> 0 <= i < MAX_ACTORS -> exists live', kcore live' (reap_one i k).
Proof.
  intros Hc Hi. unfold reap_one. destruct (Z.eqb_spec i (current_actor k)); [by exists live|].
  destruct (is_dead _ && _) eqn:E; [|by exists live]. apply andb_prop in E as [Ed Ep].
  apply is_dead_true in Ed. apply negb_true_iff, Z.eqb_neq in Ep.
  set (a := stack_page (act k i)) in *. exists (live ∖ {[a]}).
  pose proof (kc_slot _ _ Hc i Hi) as Hs. pose proof (so_page _ _ _ _ _ _ _ Hs Ep) as Hlive.
  destruct Hc as [C1 C2 C3 C4 C5]. split; try done.
  - intros j Hj. rewrite act_upd. autorewrite with kact. destruct (Z.eqb_spec i j) as [<-|Hne].
    + destruct Hs as [[? ?] ? ? ? ? ?]. split; cbn; try done.
    + eapply slot_ok_world; [by apply C2 | | done | done | done | done].
      intros Hnz Hin. pose proof (C3 i j Hi Hj Hne Ep) as Hd. set_solver.
  - intros j j' Hj Hj' Hne. rewrite !act_upd. autorewrite with kact.
    destruct (Z.eqb_spec i j) as [<-|], (Z.eqb_spec i j') as [<-|]; cbn [stack_page set_stack_page]; try done.
    by apply C3.
  - by apply free_page_spec.
Qed.

Lemma reap_spec live k : kcore live k -> exists live', kcore live' (reap_dead_actors k) /\ reaped k (reap_dead_actors k).
Proof.
  intros Hc. unfold reap_dead_actors.
  refine (loop_ind (fun _ k' => exists live', kcore live' k' /\ reaped k k') _ _ _ _ _ _).
  - exists live. split; [done|]. split_and!; try done. by left.
  - intros i k' Hi (l & Hc' & R). destruct (reap_one_inv l i k' Hc' ltac:(unfold MAX_ACTORS in *; lia)) as [l' Hc''].
    exists l'. split; [done|]. destruct R as (R1 & R2 & R3 & R4 & R5 & R6 & R7 & R8 & R9).
    unfold reap_one. destruct (Z.eqb_spec i (current_actor k')) as [|Hne]; [split_and!; done|].
    destruct (is_dead _ && _) eqn:E; [|split_and!; done]. apply andb_prop in E as [Ed _]. apply is_dead_true in Ed.
    split_and!; try done. intros j. rewrite act_upd. autorewrite with kact.
    destruct (Z.eqb_spec i j) as [<-|]; [|apply R9]. right.
    destruct (R9 i) as [E9|(H1 & H2 & E9)]; rewrite E9 in *; (split_and!; [|congruence|]); done.
Qed.

(** ** Picking and switching *)

Lemma pick_next_spec k n : -1 <= current_actor k < MAX_ACTORS -> pick_next k = Some n ->
  0 <= n < MAX_ACTORS /\ runnable (act k n) = true.
Proof.
  intros Hc. unfold pick_next. destruct (scan _ 1 _) as [i|] eqn:E; [|done]. intros [= <-].
  apply scan_Some in E as (_ & Hp & _). split; [|done]. apply Z.mod_pos_bound. done.
Qed.

Definition in_own_stack (i sp : Z) : Prop := ktop i - KERNEL_STACK_SIZE + 56 <= sp <= ktop i.
Definition off_stacks (sp : Z) : Prop := sp <= kernel_stacks_addr \/ kernel_stacks_addr + MAX_ACTORS * KERNEL_STACK_SIZE + 56 <= sp.

(** Who may call [schedule_next]: the current actor on its own kernel stack,
    having said where it waits, or the boot context on its own stack. *)
Definition caller_ok (s : save_slot) k : Prop :=
  match s with
  | SaveActor i =>
      i = current_actor k /\ 0 <= i /\ in_own_stack i (c_rsp (kcpu k)) /\
      (frames k !!! i = FYield \/ frames k !!! i = FExit /\ state (act k i) = ACTOR_DEAD \/
       frames k !!! i = FReceive /\ state (act k i) = ACTOR_BLOCKED)
  | SaveScheduler => current_actor k = -1 /\ off_stacks (c_rsp (kcpu k))
  end.

(** The processor is where the saved context of the current actor said. *)
Definition landed k : Prop :=
  0 <= current_actor k /\
  c_rip (kcpu k) = resume_addr (frames k !!! current_actor k) /\
  cr3 (mach (mem k)) = pml4_of (current_actor k) /\
  rsp0 (ktss k) = ktop (current_actor k) /\
  in_own_stack (current_actor k) (c_rsp (kcpu k)) /\
  frames k !!! current_actor k <> FExit /\
  (frames k !!! current_actor k = FReceive -> 0 < mailbox_count (act k (current_actor k))).

Lemma switch_words s new_rsp new_cr3 k k' :
  hal_context_switch s new_rsp new_cr3 k = k' ->
  (forall x, x < c_rsp (kcpu k) - 56 \/ c_rsp (kcpu k) <= x -> kstack k' !!! x = kstack k !!! x) /\
  kstack k' !!! (c_rsp (kcpu k) - 8) = schedule_next_ret /\
  c_rip (kcpu k') = kstack k' !!! (new_rsp + 48) /\ c_rsp (kcpu k') = new_rsp + 56 /\
  cr3 (mach (mem k')) = new_cr3 /\
  frames k' = frames k /\ pg k' = pg k /\ current_actor k' = current_actor k /\ ktss k' = ktss k /\
  halted k' = halted k /\ mem k' = set_mach (set_cr3 new_cr3 (mach (mem k))) (mem k) /\
  (forall i, act k' i = match s with
                       | SaveActor j => if j =? i then set_rsp (c_rsp (kcpu k) - 56) (act k i) else act k i
                       | SaveScheduler => act k i end).
Proof.
  intros <-. unfold hal_context_switch, push_word. cbn [fst snd].
  set (m := <[_ := _]> _). set (sp := _ - 8 - 8 - 8 - 8 - 8 - 8 - 8).
  assert (Hsp : sp = c_rsp (kcpu k) - 56) by (unfold sp; lia).
  assert (Hm : (forall x, x < c_rsp (kcpu k) - 56 \/ c_rsp (kcpu k) <= x -> m !!! x = kstack k !!! x) /\
    m !!! (c_rsp (kcpu k) - 8) = schedule_next_ret).
  { unfold m. split; [intros x Hx; by rewrite !aget_ne by lia|]. rewrite !(aget_ne _ _ (c_rsp (kcpu k) - 8)) by lia.
    by rewrite aget_eq. }
  clearbody m sp. subst sp. destruct Hm as [Hm1 Hm2].
  destruct s as [j|]; split_and!; try done; intros i; autorewrite with kact; cbn [save_rsp].
  by rewrite act_upd.
Qed.

Lemma kcore_frame live k k' :
  actors k' = actors k -> current_actor k' = current_actor k -> pg k' = pg k -> kstack k' = kstack k ->
  frames k' = frames k -> mem k' = mem k -> kcore live k -> kcore live k'.
Proof.
  intros E1 E2 E3 E4 E5 E6 [C1 C2 C3 C4 C5].
  assert (Ha : forall i, act k' i = act k i) by (intros; unfold act; by rewrite E1).
  split; rewrite ?E2, ?E3, ?E6; try done.
  - intros i Hi. rewrite E4, E5, Ha. by apply C2.
  - intros i j. rewrite !Ha. apply C3.
Qed.

Lemma run_slot live p ks fr cur i a :
  slot_ok live p ks fr cur i a -> state a = ACTOR_READY ->
  slot_ok live p ks fr cur i (set_state ACTOR_RUNNING a).
Proof.
  intros [? ? ? ? Ha Hs] Hst. split; cbn; try done.
  - by apply mailbox_ok_state.
  - intros _. apply Ha. by rewrite Hst.
  - intros ? _. apply Hs; [done|]. by rewrite Hst.
Qed.

Lemma ready_of_runnable k i : none_running k -> 0 <= i < MAX_ACTORS -> runnable (act k i) = true ->
  state (act k i) = ACTOR_READY.
Proof. intros Hn Hi. specialize (Hn i Hi). unfold runnable. by destruct (state (act k i)). Qed.

(** The stack words a call from [s] pushes lie in no suspended actor's stack. *)
Lemma caller_words s k i x : caller_ok s k -> i <> current_actor k ->
  0 <= i < MAX_ACTORS -> ktop i - KERNEL_STACK_SIZE <= x < ktop i ->
  x < c_rsp (kcpu k) - 56 \/ c_rsp (kcpu k) <= x.
Proof.
  unfold caller_ok, in_own_stack, off_stacks, ktop, KERNEL_STACK_SIZE, MAX_ACTORS.
  destruct s as [j|]; [intros (-> & ? & ? & _) | intros (-> & ?)]; intros; lia.
Qed.

Lemma switch_core s live k k1 next k' :
  kcore live k1 -> none_running k1 -> caller_ok s k1 ->
  0 <= next < MAX_ACTORS -> state (act k1 next) = ACTOR_READY -> next <> current_actor k1 ->
  k = set_tss (hal_set_kernel_stack next (ktss k1)) (upd next (set_state ACTOR_RUNNING) (set_current next k1)) ->
  hal_context_switch s (rsp (act k next)) (a_cr3 (act k next)) k = k' ->
  kcore live k' /\ one_running k' /\ landed k'.
Proof.
  intros Hc Hn Hcall Hnext Hready Hne Ek Esw.
  destruct (switch_words _ _ _ _ _ Esw) as (W1 & W2 & W3 & W4 & W5 & W6 & W7 & W8 & W9 & W10 & W11 & W12).
  assert (Hak : forall i, act k i = if next =? i then set_state ACTOR_RUNNING (act k1 i) else act k1 i).
  { intros i. rewrite Ek. autorewrite with kact. rewrite act_upd. by autorewrite with kact. }
  assert (Hrsp : rsp (act k next) = rsp (act k1 next) /\ a_cr3 (act k next) = a_cr3 (act k1 next)).
  { rewrite Hak, Z.eqb_refl. done. }
  assert (Ecpu : kcpu k = kcpu k1 /\ kstack k = kstack k1 /\ frames k = frames k1 /\ pg k = pg k1 /\
     current_actor k = next /\ mem k = mem k1 /\ ktss k = hal_set_kernel_stack next (ktss k1)) by (by rewrite Ek).
  destruct Ecpu as (Ec & Eks & Ef & Epg & Ecur & Em & Ets). rewrite Ec, Eks in W1. rewrite Ec in W2, W12.
  rewrite (proj1 Hrsp) in W3, W4. rewrite (proj2 Hrsp) in W5. clear Ek Esw.
  assert (Hks : forall i x, i <> current_actor k1 -> 0 <= i < MAX_ACTORS ->
     ktop i - KERNEL_STACK_SIZE <= x < ktop i -> kstack k' !!! x = kstack k1 !!! x).
  { intros i x Hi Hr Hx. apply W1. by eapply caller_words. }
  pose proof (kc_slot _ _ Hc next Hnext) as Hsn.
  destruct (so_saved _ _ _ _ _ _ _ Hsn Hne ltac:(by rewrite Hready)) as (S1 & S2 & S3 & S4).
  destruct (so_alive _ _ _ _ _ _ _ Hsn ltac:(by rewrite Hready)) as (A1 & A2 & A3).
  assert (Hstate : forall i, state (act k' i) = if next =? i then ACTOR_RUNNING else state (act k1 i)).
  { intros i. rewrite W12. destruct s as [j|]; [destruct (j =? i)|]; rewrite Hak; by destruct (next =? i). }
  split_and!.
  - split; rewrite ?W8, ?W7, ?W6, ?Ecur, ?Epg, ?Ef; [unfold MAX_ACTORS in *; lia | | | | apply Hc].
    + intros i Hi. pose proof (kc_slot _ _ Hc i Hi) as Hs. rewrite W12.
      destruct (Z.eqb_spec next i) as [<-|Hni].
      * assert (Ha : slot_ok live (pg k1) (kstack k') (frames k1 !!! next) next next (set_state ACTOR_RUNNING (act k1 next))).
        { apply run_slot; [|done]. eapply slot_ok_world; [exact Hs | done | done | | done | done].
          intros x. by apply Hks. }
        destruct s as [j|]; [|by rewrite Hak, Z.eqb_refl].
        destruct Hcall as (-> & _). destruct (Z.eqb_spec (current_actor k1) next); [congruence|]. by rewrite Hak, Z.eqb_refl.
      * destruct (decide (i = current_actor k1)) as [->|Hic].
        2: { assert (Ha : slot_ok live (pg k1) (kstack k') (frames k1 !!! i) next i (act k1 i)).
             { eapply slot_ok_world; [exact Hs | done | done | | done | done]. intros x. by apply Hks. }
             destruct s as [j|]; [|by rewrite Hak, (proj2 (Z.eqb_neq _ _) Hni)].
             destruct Hcall as (-> & _). destruct (Z.eqb_spec (current_actor k1) i); [congruence|].
             by rewrite Hak, (proj2 (Z.eqb_neq _ _) Hni). }
        destruct s as [j|]; [|destruct Hcall; lia]. destruct Hcall as (-> & _ & Hst & Hfr).
        rewrite Z.eqb_refl, Hak, (proj2 (Z.eqb_neq _ _) Hni).
        destruct Hs as [Hm Hb _ Hp Ha _]. split; cbn; try done.
        -- by destruct Hm.
        -- intros _ Hr Hf. destruct Hfr as [?|[[? ?]|[? ?]]]; congruence.
        -- intros _ Hd. unfold in_own_stack in Hst. split_and!; [lia|lia| |].
           ++ replace (c_rsp (kcpu k1) - 56 + 48) with (c_rsp (kcpu k1) - 8) by lia. rewrite W2.
              by destruct Hfr as [->|[[-> _]|[-> _]]].
           ++ destruct Hfr as [->|[[_ ?]|[-> _]]]; done.
    + assert (Hpage : forall i, stack_page (act k' i) = stack_page (act k1 i)).
      { intros i. rewrite W12. destruct s as [j|]; [destruct (j =? i)|]; rewrite Hak; by destruct (next =? i). }
      intros i j. rewrite !Hpage. apply (kc_inj _ _ Hc).
    + rewrite W11, Em. apply set_mach_inv, Hc.
  - intros i Hi. rewrite Hstate, W8, Ecur. destruct (Z.eqb_spec next i) as [<-|]; [done|].
    split; [intros E; by destruct (Hn i Hi) | congruence].
  - unfold landed, in_own_stack. rewrite W8, W6, W9, W3, W4, W5, Ecur, Ef, Ets. split_and!; try lia.
    + by rewrite (Hks next) by (done || lia).
    + pose proof (ktop_spec next Hnext) as E. unfold hal_get_kernel_stack_top in E. unfold hal_set_kernel_stack.
      unfold MAX_ACTORS in *. destruct ((next <? 0) || (17 <=? next)) eqn:Eg; [breflect; lia|]. exact E.
    + exact S4.
    + intros Hfr. assert (Hq : mailbox_count (act k' next) = mailbox_count (act k1 next)).
      { rewrite W12. destruct s as [j|]; [destruct (j =? next)|]; rewrite Hak; by destruct (next =? next). }
      rewrite Hq. by apply (so_wait _ _ _ _ _ _ _ Hsn).
Qed.

(** What a call of [schedule_next] achieves: the machine halts, or the caller
    continues, or another actor's saved context is entered. *)
Definition scheduled live k b k' : Prop :=
  kcore live k' /\
  ((b = false /\ halted k' = true) \/
   (b = true /\ halted k' = false /\ irq k' = true /\ one_running k' /\
    current_actor k' = current_actor k /\ state (act k (current_actor k)) = ACTOR_READY) \/
   (b = false /\ halted k' = false /\ one_running k' /\ landed k' /\ current_actor k' <> current_actor k)).

Lemma switch_to_next_spec s live k b k' :
  kcore live k -> none_running k -> caller_ok s k -> halted k = false ->
  switch_to_next s k = (b, k') -> scheduled live k b k'.
Proof.
  intros Hc Hn Hcall Hh Heq. unfold switch_to_next in Heq. destruct (pick_next k) as [next|] eqn:Ep.
  2: { injection Heq as <- <-. split; [by apply (kcore_frame live k)|]. by left. }
  destruct (pick_next_spec _ _ (kc_cur _ _ Hc) Ep) as [Hnext Hrun]. clear Ep.
  pose proof (ready_of_runnable _ _ Hn Hnext Hrun) as Hready.
  destruct (Z.eqb_spec next (current_actor k)) as [E|Hne]; [subst next|].
  - injection Heq as <- <-. split.
    + apply (kcore_frame live (upd (current_actor k) (set_state ACTOR_RUNNING) k)); try reflexivity.
      apply kcore_upd; [done | done | by apply run_slot; [apply (kc_slot _ _ Hc)|] | done].
    + right; left. split; [done|]. split; [done|]. split; [done|]. split; [|done].
      intros i Hi. autorewrite with kact. rewrite act_upd.
      change (current_actor (hal_enable_interrupts _)) with (current_actor k).
      destruct (Z.eqb_spec (current_actor k) i) as [<-|Hne]; [done|]. split; [|congruence].
      intros E. by destruct (Hn i Hi).
  - cbv zeta in Heq. set (k2 := set_tss _ _) in Heq.
    assert (Hk2 : halted k2 = false /\ current_actor k2 = next) by done.
    assert (Ek2 : k2 = set_tss (hal_set_kernel_stack next (ktss k)) (upd next (set_state ACTOR_RUNNING) (set_current next k))) by reflexivity.
    clearbody k2. injection Heq as <- Heq.
    destruct (switch_core s live k2 k next k' Hc Hn Hcall Hnext Hready Hne Ek2 Heq) as (H1 & H2 & H3).
    destruct (switch_words _ _ _ _ _ Heq) as (_ & _ & _ & _ & _ & _ & _ & W8 & _ & W10 & _).
    split; [done|]. right; right. split; [done|]. split; [by rewrite W10, (proj1 Hk2)|]. split; [done|]. split; [done|].
    rewrite W8. destruct Hk2 as [_ ->]. done.
Qed.

Lemma schedule_spec s live k b k' :
  kcore live k -> none_running k -> caller_ok s k -> halted k = false ->
  schedule_next s k = (b, k') -> exists live', scheduled live' k b k'.
Proof.
  intros Hc Hn Hcall Hh. unfold schedule_next. cbv zeta.
  assert (Hc0 : kcore live (hal_disable_interrupts k)) by by apply (kcore_frame live k).
  destruct (reap_spec _ _ Hc0) as (live1 & Hc1 & R1 & R2 & R3 & R4 & R5 & R6 & R7 & R8 & R9). clear Hc0.
  generalize dependent (reap_dead_actors (hal_disable_interrupts k)). intros k1 Hc1 R1 R2 R3 R4 R5 R6 R7 R8 R9 Heq.
  exists live1.
  assert (Hst1 : forall i, state (act k1 i) = state (act k i)) by (intros i; destruct (R9 i) as [->|(_ & _ & ->)]; done).
  assert (Hn1 : none_running k1) by (intros i Hi; rewrite Hst1; by apply Hn).
  change (current_actor k1 = current_actor k) in R1. change (kcpu k1 = kcpu k) in R6.
  change (frames k1 = frames k) in R7. change (halted k1 = halted k) in R8.
  assert (Hcall1 : caller_ok s k1) by (unfold caller_ok in *; destruct s; rewrite ?R1, ?R6, ?R7, ?Hst1; exact Hcall).
  destruct (switch_to_next_spec s live1 k1 b k' Hc1 Hn1 Hcall1 ltac:(congruence) Heq) as [H1 H2].
  split; [done|]. rewrite R1, Hst1 in H2. exact H2.
Qed.
(** ** Landing *)

Lemma dequeue_inv live k :
  kinv live k -> 0 <= current_actor k -> 0 < mailbox_count (act k (current_actor k)) -> kinv live (dequeue k).
Proof.
  intros [Hc Hr] H0 Hm. pose proof (kc_cur _ _ Hc) as Hcur. unfold dequeue.
  pose proof (kc_slot _ _ Hc (current_actor k) ltac:(lia)) as [[Hh Hn] Hb Hw Hp Ha Hs]. split.
  - apply kcore_upd; [done | lia | | done]. split; cbn [state mailbox_count stack_page a_cr3 rsp set_mailbox]; try done.
    + split; cbn [mailbox_head mailbox_count set_mailbox]; unfold MAILBOX_CAPACITY in *; [apply Z.mod_pos_bound|]; lia.
    + intros E. specialize (Hb E). lia.
  - intros i Hi. rewrite act_upd. destruct (Z.eqb_spec (current_actor k) i) as [<-|]; by apply Hr.
Qed.

(** A processor that has landed in an actor's saved context continues that
    actor, with interrupts on: in ring 3 at its entry point, or by returning
    from the call it was suspended in, or with a message. *)
Lemma resume_spec live k l k' :
  kinv live k -> landed k -> halted k = false -> resume k = (l, k') ->
  kinv live k' /\ irq k' = true /\ current_actor k' = current_actor k /\ halted k' = false /\
  (forall j, state (act k' j) = state (act k j)) /\
  match frames k !!! current_actor k with
  | FTrampoline => l = LUser
  | FReceive => exists m, l = LReceived m
  | _ => l = LReturns
  end.
Proof.
  intros Hi (H0 & Hrip & _ & _ & _ & Hnx & Hm) Hh. unfold resume. rewrite Hh, Hrip.
  destruct (frames k !!! current_actor k) eqn:Ef; cbn [resume_addr].
  - rewrite Z.eqb_refl. intros [= <- <-]. unfold actor_trampoline, hal_enter_user_mode.
    split_and!; try done. apply kinv_irq, kinv_cpu, Hi.
  - destruct (Z.eqb_spec schedule_next_ret actor_trampoline_addr); [congruence|].
    intros [= <- <-].
    split_and!; try done. by apply kinv_irq.
  - done.
  - destruct (Z.eqb_spec schedule_next_ret actor_trampoline_addr); [congruence|].
    set (k0 := hal_disable_interrupts _). assert (Hk0 : kinv live k0) by by apply kinv_irq, kinv_irq.
    assert (E0 : current_actor k0 = current_actor k /\ (forall i, act k0 i = act k i) /\ halted k0 = halted k) by done.
    clearbody k0. destruct E0 as (E1 & E2 & E3). specialize (Hm eq_refl).
    rewrite receive_loop_nonempty by (rewrite E1, E2; lia). intros [= <- <-]. split_and!; try done.
    + apply kinv_irq, dequeue_inv; [done | lia | rewrite E1, E2; lia].
    + unfold dequeue. cbn. congruence.
    + intros j. unfold dequeue. autorewrite with kact. rewrite act_upd, E1. destruct (_ =? j); by rewrite E2.
    + by eexists.
Qed.

(** ** Every event preserves the invariant *)

Definition event_ok (ev : event) : Prop :=
  match ev with EvSpawnProgram p s _ => image_ok p s | _ => True end.

(** The kernel runs an event: at boot on the boot stack, later on the current
    actor's own kernel stack, entered through a gate. *)
Inductive kstep : kern -> event -> result -> kern -> Prop :=
| step_boot ev k r k' :
    current_actor k = -1 -> halted k = false -> boot_event ev = true -> off_stacks (c_rsp (kcpu k)) ->
    run_event ev k = (r, k') -> kstep k ev r k'
| step_actor ev c k r k' :
    0 <= current_actor k -> halted k = false -> boot_event ev = false -> event_ok ev ->
    in_own_stack (current_actor k) (c_rsp c) -> run_event ev (enter c k) = (r, k') -> kstep k ev r k'.

Inductive reachable (k0 : kern) : kern -> Prop :=
| reach_refl : reachable k0 k0
| reach_step k ev r k' : reachable k0 k -> kstep k ev r k' -> reachable k0 k'.

Lemma settle_spec live k0 b k r k' :
  scheduled live k0 b k -> settle (b, k) = (r, k') ->
  kcore live k' /\ (halted k' = false -> one_running k' /\ r <> RLanding LStopped /\ r <> RLanding LExited).
Proof.
  intros [Hc Hcase] Heq. unfold settle in Heq. destruct Hcase as [[-> Hh]|[(-> & Hh & _ & H1 & _)|(-> & Hh & H1 & Hl & _)]].
  - unfold resume in Heq. rewrite Hh in Heq. injection Heq as <- <-. split; [done|]. by rewrite Hh.
  - injection Heq as <- <-. split; [done|]. intros _. by split_and!.
  - destruct (resume k) as [l k2] eqn:E. injection Heq as <- <-.
    destruct (resume_spec live k l k2 (conj Hc H1) Hl Hh E) as ([H2 H3] & _ & _ & H4 & _ & H5).
    split; [done|]. intros _. split; [done|]. destruct (frames k !!! current_actor k); first [subst l; done | destruct H5 as [m ->]; done].
Qed.

(** The current actor stops running: marked and with its call recorded. *)
Lemma stop_current live k st fr :
  kinv live k -> 0 <= current_actor k -> st <> ACTOR_RUNNING ->
  (st = ACTOR_BLOCKED -> mailbox_count (act k (current_actor k)) = 0) ->
  let k1 := set_frame (current_actor k) fr (upd (current_actor k) (set_state st) k) in
  kcore live k1 /\ none_running k1.
Proof.
  intros [Hc Hr] H0 Hst Hb k1. pose proof (kc_cur _ _ Hc) as Hcur. split.
  - assert (Hs : forall i, act k1 i = if current_actor k =? i then set_state st (act k i) else act k i).
    { intros i. unfold k1. autorewrite with kact. apply act_upd. }
    destruct Hc as [C1 C2 C3 C4 C5]. split; try done.
    + intros i Hi. rewrite Hs. change (pg k1) with (pg k). change (kstack k1) with (kstack k).
      change (current_actor k1) with (current_actor k). change (frames k1) with (<[current_actor k := fr]> (frames k)).
      destruct (C2 i Hi) as [? ? ? ? Ha ?].
      destruct (Z.eqb_spec (current_actor k) i) as [<-|]; [|by rewrite aget_ne by done; split].
      split; cbn; try done; [by apply mailbox_ok_state|]. intros _. apply Ha. by rewrite (proj2 (Hr _ Hi) eq_refl).
    + intros i j Hi Hj Hne. rewrite !Hs.
      destruct (Z.eqb_spec (current_actor k) i) as [<-|], (Z.eqb_spec (current_actor k) j) as [<-|]; try done; by apply C3.
  - intros i Hi. unfold k1. autorewrite with kact. rewrite act_upd.
    destruct (Z.eqb_spec (current_actor k) i) as [<-|Hne]; [done|]. intros E. by apply Hne, eq_sym, Hr.
Qed.

Lemma receive_schedules live k :
  kinv live k -> 0 <= current_actor k -> in_own_stack (current_actor k) (c_rsp (kcpu k)) -> halted k = false ->
  mailbox_count (act k (current_actor k)) = 0 ->
  exists k' live', receive_loop 1 k = (None, k') /\ scheduled live' k false k'.
Proof.
  intros Hi H0 Hst Hh Hm. cbn [receive_loop]. rewrite Hm, Z.eqb_refl.
  destruct (stop_current live k ACTOR_BLOCKED FReceive Hi H0) as [Hc Hn]; [done | done |].
  set (k1 := set_frame _ _ _) in *.
  assert (Hcall : caller_ok (SaveActor (current_actor k)) k1).
  { unfold caller_ok. split_and!; try done. right; right. unfold k1. split; [cbn; apply aget_eq|].
    autorewrite with kact. by rewrite act_upd_eq. }
  destruct (schedule_next (SaveActor (current_actor k)) k1) as [b k2] eqn:E.
  assert (Hst1 : state (act k1 (current_actor k1)) = ACTOR_BLOCKED) by (unfold k1; autorewrite with kact; by rewrite act_upd_eq).
  assert (Hcur1 : current_actor k1 = current_actor k) by done. assert (Hh1 : halted k1 = false) by done.
  clearbody k1. destruct (schedule_spec _ live k1 b k2 Hc Hn Hcall Hh1 E) as (live' & Hc2 & Hcase).
  destruct Hcase as [[-> H]|[(-> & _ & _ & _ & _ & H)|(-> & H)]].
  - exists k2, live'. split; [done|]. split; [done|]. by left.
  - congruence.
  - exists k2, live'. split; [done|]. split; [done|]. right; right. rewrite <- Hcur1. by split.
Qed.

Lemma yield_schedules live k st fr b k' :
  kinv live k -> 0 <= current_actor k -> in_own_stack (current_actor k) (c_rsp (kcpu k)) -> halted k = false ->
  (st = ACTOR_READY /\ fr = FYield \/ st = ACTOR_DEAD /\ fr = FExit) ->
  schedule_next (SaveActor (current_actor k)) (set_frame (current_actor k) fr (upd (current_actor k) (set_state st) k)) = (b, k') ->
  exists live' k1, scheduled live' k1 b k'.
Proof.
  intros Hi H0 Hst Hh Hcase Heq.
  destruct (stop_current live k st fr Hi H0) as [Hc Hn].
  { by destruct Hcase as [[-> _]|[-> _]]. } { by destruct Hcase as [[-> _]|[-> _]]. }
  set (k1 := set_frame _ _ _) in *.
  assert (Hcall : caller_ok (SaveActor (current_actor k)) k1).
  { unfold caller_ok. split_and!; try done.
    assert (Hf : frames k1 !!! current_actor k = fr) by (unfold k1; cbn; apply aget_eq).
    assert (Hs : state (act k1 (current_actor k)) = st) by (unfold k1; autorewrite with kact; by rewrite act_upd_eq).
    rewrite Hf, Hs. destruct Hcase as [[-> ->]|[-> ->]]; auto. }
  assert (Hh1 : halted k1 = false) by done. clearbody k1.
  destruct (schedule_spec _ live k1 b k' Hc Hn Hcall Hh1 Heq) as (live' & H). by exists live', k1.
Qed.

Lemma enter_inv live c k : kinv live k -> kinv live (enter c k).
Proof. intros H. by apply kinv_irq, kinv_cpu. Qed.

Lemma grant_inv live d o t k : kinv live k -> kinv live (actor_grant d o t k).2.
Proof.
  intros Hi. unfold actor_grant. destruct (bad_slot d) eqn:E; [done|]. apply bad_slot_false in E. by apply add_cap_inv.
Qed.

Lemma delegate_inv live d o t k : kinv live k -> kinv live (actor_delegate d o t k).2.
Proof.
  intros Hi. unfold actor_delegate. destruct (bad_slot d) eqn:E; [done|]. apply bad_slot_false in E. cbv zeta.
  destruct (negb _); [by apply kinv_irq, kinv_irq|].
  destruct (actor_add_cap d o t _) as [rc k1] eqn:Ea. apply kinv_irq.
  pose proof (add_cap_inv _ d o t _ (kinv_irq _ _ false Hi) E) as H.
  change (set_irq false k) with (hal_disable_interrupts k) in H. by rewrite Ea in H.
Qed.

Lemma spawn_lt e k r k' : actor_spawn e k = (r, k') -> r < MAX_ACTORS.
Proof. intros E. destruct (spawn_slots _ _ _ _ E) as (_ & _ & _ & [(-> & _)|(? & _)]); [done|lia]. Qed.

Lemma spawn_program_lt p s e k r k' : actor_spawn_program p s e k = (r, k') -> r < MAX_ACTORS.
Proof. intros E. destruct (spawn_program_slots _ _ _ _ _ _ E) as (_ & _ & [(-> & _)|(? & _)]); [done|lia]. Qed.

(** Events that return to the caller with a code. *)
Lemma coded_event_inv live ev k :
  kinv live k -> event_ok ev -> (boot_event ev = false -> 0 <= current_actor k) ->
  match ev with EvStart | EvYield | EvExit | EvReceive => False | _ => True end ->
  exists live', kinv live' (run_event ev k).2.
Proof.
  intros Hi Hok Hcur. pose proof (kc_cur _ _ (proj1 Hi)) as Hrange.
  destruct ev as [d o' t'|s q|s w|e| | | |d ty x| |d o' t'|e|p s e|tg]; cbn [run_event coded snd]; try done; intros _.
  - exists live. by apply grant_inv.
  - exists live. unfold actor_set_spawn_quota. destruct (bad_slot s) eqn:E; [done|]. apply bad_slot_false in E. by apply kinv_same.
  - exists live. unfold actor_set_window. destruct (bad_slot s) eqn:E; [done|]. apply bad_slot_false in E. by apply kinv_same.
  - destruct (actor_spawn e k) as [r k'] eqn:E. destruct (spawn_inv _ _ _ _ _ Hi E) as (l & ? & _). by exists l.
  - exists live. by apply send_inv.
  - exists live. by apply delegate_inv.
  - apply spawn_checked_inv with live; [done | specialize (Hcur eq_refl); lia |].
    intros k0 r0 k1 H0 E. destruct (spawn_inv _ _ _ _ _ H0 E) as (l & ? & _). split; [by exists l | by eapply spawn_lt].
  - apply spawn_checked_inv with live; [done | specialize (Hcur eq_refl); lia |].
    intros k0 r0 k1 H0 E. split; [by eapply spawn_program_inv | by eapply spawn_program_lt].
  - exists live. by apply terminate_inv.
Qed.

(** The invariant of a machine that has not halted. *)
Definition kgood k : Prop := exists live, kcore live k /\ (halted k = false -> one_running k).

Definition good_result k' (r : result) : Prop :=
  kgood k' /\ (halted k' = false -> r <> RLanding LStopped /\ r <> RLanding LExited).

Lemma settle_good live k0 b k r k' : scheduled live k0 b k -> settle (b, k) = (r, k') -> good_result k' r.
Proof.
  intros Hs Es. destruct (settle_spec live k0 b k r k' Hs Es) as [H1 H2].
  split; [exists live; split; [done | apply H2] | apply H2].
Qed.

Lemma start_good live k r k' :
  kinv live k -> halted k = false -> current_actor k = -1 -> off_stacks (c_rsp (kcpu k)) ->
  settle (scheduler_start k) = (r, k') -> good_result k' r.
Proof.
  intros Hi Hh Hm1 Hoff. unfold scheduler_start. destruct (schedule_next SaveScheduler k) as [b k2] eqn:E.
  assert (Hn : none_running k) by (intros i Hi' Hrun; apply (proj2 Hi) in Hrun; [lia|done]).
  destruct (schedule_spec SaveScheduler live k b k2 (proj1 Hi) Hn (conj Hm1 Hoff) Hh E) as (l & Hs).
  by apply (settle_good l k).
Qed.

(** [actor_yield] and [actor_exit] by an actor: mark, record, reschedule. *)
Definition leave (st : actor_state) (fr : frame) k : bool * kern :=
  schedule_next (SaveActor (current_actor k)) (set_frame (current_actor k) fr (upd (current_actor k) (set_state st) k)).

Lemma yield_leave k : 0 <= current_actor k -> actor_yield k = leave ACTOR_READY FYield (hal_disable_interrupts k).
Proof. intros H. unfold actor_yield, leave. rewrite (proj2 (Z.ltb_ge _ _) H). cbv zeta. reflexivity. Qed.

Lemma exit_leave k : actor_exit k = leave ACTOR_DEAD FExit (hal_disable_interrupts k).
Proof. unfold actor_exit, leave. cbv zeta. reflexivity. Qed.

Lemma leave_good live k st fr r k' :
  kinv live k -> 0 <= current_actor k -> in_own_stack (current_actor k) (c_rsp (kcpu k)) -> halted k = false ->
  (st = ACTOR_READY /\ fr = FYield \/ st = ACTOR_DEAD /\ fr = FExit) ->
  settle (leave st fr k) = (r, k') -> good_result k' r.
Proof.
  intros Hi H0 Hst Hh Hcase. unfold leave. destruct (schedule_next _ _) as [b k2] eqn:E.
  destruct (yield_schedules live k st fr b k2 Hi H0 Hst Hh Hcase E) as (l & k1 & Hs). by apply (settle_good l k1).
Qed.

Lemma receive_good live k r k' :
  kinv live k -> 0 <= current_actor k -> in_own_stack (current_actor k) (c_rsp (kcpu k)) -> halted k = false ->
  (match receive_loop 1 k with
   | (Some m, k) => (RLanding (LReceived m), k)
   | (None, k) => settle (false, k)
   end) = (r, k') -> good_result k' r.
Proof.
  intros Hi H0 Hst Hh Heq. pose proof (kc_cur _ _ (proj1 Hi)).
  destruct (Z.eqb_spec (mailbox_count (act k (current_actor k))) 0) as [Hz|Hz].
  - destruct (receive_schedules live k Hi H0 Hst Hh Hz) as (k2 & l & E & Hs). rewrite E in Heq.
    by apply (settle_good l k false k2).
  - rewrite receive_loop_nonempty in Heq by done. injection Heq as <- <-. split; [|done].
    pose proof (kc_slot _ _ (proj1 Hi) (current_actor k) ltac:(lia)) as Hs.
    pose proof (mb_count _ (so_mailbox _ _ _ _ _ _ _ Hs)).
    destruct (kinv_irq live _ true (dequeue_inv live k Hi H0 ltac:(lia))) as [H3 H4]. by exists live.
Qed.

(** Conversion unfolds the scheduler's internals last. *)
#[local] Strategy 50 [settle resume actor_yield actor_exit actor_receive scheduler_start].
#[local] Strategy 100 [schedule_next receive_loop].

Definition switching (ev : event) : bool :=
  match ev with EvStart | EvYield | EvExit | EvReceive => true | _ => false end.

Lemma coded_result ev k r k' : switching ev = false -> run_event ev k = (r, k') -> exists rc, r = RCode rc.
Proof. destruct ev; try discriminate; intros _; cbn [run_event]; unfold coded; intros [= <- _]; eauto. Qed.

Lemma run_good live ev k r k' :
  kinv live k -> halted k = false -> event_ok ev ->
  (boot_event ev = false -> 0 <= current_actor k /\ in_own_stack (current_actor k) (c_rsp (kcpu k))) ->
  (boot_event ev = true -> current_actor k = -1 /\ off_stacks (c_rsp (kcpu k))) ->
  run_event ev k = (r, k') -> good_result k' r.
Proof.
  intros Hi Hh Hok Hact Hboot Heq.
  destruct (switching ev) eqn:Ekind.
  - destruct ev; try discriminate; cbn [run_event boot_event] in *.
    + destruct (Hboot eq_refl) as [H1 H2]. exact (start_good live k r k' Hi Hh H1 H2 Heq).
    + destruct (Hact eq_refl) as [H1 H2]. rewrite yield_leave in Heq by done.
      exact (leave_good live (hal_disable_interrupts k) ACTOR_READY FYield r k' (kinv_irq live k false Hi) H1 H2 Hh
               (or_introl (conj eq_refl eq_refl)) Heq).
    + destruct (Hact eq_refl) as [H1 H2]. rewrite exit_leave in Heq.
      exact (leave_good live (hal_disable_interrupts k) ACTOR_DEAD FExit r k' (kinv_irq live k false Hi) H1 H2 Hh
               (or_intror (conj eq_refl eq_refl)) Heq).
    + destruct (Hact eq_refl) as [H1 H2]. unfold actor_receive in Heq.
      exact (receive_good live (hal_disable_interrupts k) r k' (kinv_irq live k false Hi) H1 H2 Hh Heq).
  - destruct (coded_event_inv live ev k Hi Hok) as (l & H1 & H2); [by apply Hact | by destruct ev|].
    rewrite Heq in H1, H2. split; [by exists l|]. intros _.
    destruct (coded_result ev k r k' Ekind Heq) as [rc ->]. done.
Qed.

Lemma kstep_good k ev r k' : kgood k -> kstep k ev r k' -> good_result k' r.
Proof.
  intros (live & Hc & Hr) Hstep.
  destruct Hstep as [ev k r k' H1 H2 H3 H4 H5|ev c k r k' H1 H2 H3 H4 H5 H6].
  - apply (run_good live ev k r k'); try done; [by split; [|apply Hr] | by destruct ev | by rewrite H3].
  - apply (run_good live ev (enter c k) r k'); try done; [apply enter_inv; split; auto | by rewrite H3].
Qed.

(** ** The boot state *)

Lemma upd_loop f n k j :
  act (loop (fun i k => upd i f k) 0 n k) j =
  if (0 <=? j) && (j <? Z.of_nat n) then f (act k j) else act k j.
Proof.
  revert j; induction n as [|n IH]; intros j; [cbn [loop]; by destruct (Z.leb_spec 0 j), (Z.ltb_spec j (Z.of_nat 0)); try lia|].
  rewrite loop_S, act_upd, IH, Z.add_0_l. destruct (Z.eqb_spec (Z.of_nat n) j) as [<-|]; zcmp.
  - done.
  - destruct (Z.leb_spec 0 j), (Z.ltb_spec j (Z.of_nat n)); zcmp; done.
Qed.

Lemma upd_loop_frame f n lo k :
  let k' := loop (fun i k => upd i f k) lo n k in
  mem k' = mem k /\ pg k' = pg k /\ kcpu k' = kcpu k /\ halted k' = halted k.
Proof.
  cbv zeta. revert lo k; induction n as [|n IH]; intros lo k; [done|]. cbn [loop].
  by destruct (IH (lo + 1) (upd lo f k)) as (-> & -> & -> & ->).
Qed.

Lemma scheduler_init_good live k :
  mem_inv (mem k) live -> boot_pd (pg k) = boot_pd_init -> kgood (scheduler_init k).
Proof.
  intros Hm Hpd. exists live. unfold scheduler_init.
  destruct (upd_loop_frame init_actor (Z.to_nat MAX_ACTORS) 0 k) as (E1 & E2 & _).
  assert (Ha : forall i, 0 <= i < MAX_ACTORS ->
    act (loop (fun i k => upd i init_actor k) 0 (Z.to_nat MAX_ACTORS) k) i = init_actor (act k i)).
  { intros i Hi. rewrite upd_loop, Z2Nat.id by (unfold MAX_ACTORS; lia). zcmp. done. }
  generalize dependent (loop (fun i k => upd i init_actor k) 0 (Z.to_nat MAX_ACTORS) k).
  intros k1 E1 E2 Ha. split; [split|].
  - done.
  - intros i Hi. autorewrite with kact. rewrite Ha by done. split; cbn; try done.
  - intros i j Hi Hj _. autorewrite with kact. rewrite !Ha by done. by cbn.
  - cbn. by rewrite E1.
  - cbn. by rewrite E2.
  - intros _ i Hi. autorewrite with kact. rewrite Ha by done. cbn. split; [done | lia].
Qed.

Lemma reachable_good k0 k : kgood k0 -> reachable k0 k -> kgood k.
Proof. intros H0. induction 1 as [|k ev r k' _ IH Hs]; [done|]. exact (proj1 (kstep_good _ _ _ _ IH Hs)). Qed.
End scheduler.

(** ** Theorems *)
Section properties.
Context {L : layout} {LOK : layout_ok L} {KL : klayout} {KC : kcode}.
Implicit Types (k : kern).

(** C11: every state the kernel reaches, from boot on and by any interleaving of
    spawns, yields, exits, sends, receives, delegations and terminations, keeps
    the actor table consistent: exactly the current actor is running; mailboxes
    are within bounds; an actor is blocked only while its mailbox is empty, and
    an actor woken from a receive has a message waiting; every suspended
    actor's saved context is intact inside its own kernel stack; the stack
    pages of actors are held, live and pairwise distinct; and a live actor's
    CR3 is its own address space, mapping its own stack. *)
Theorem reachable_states_consistent live k0 k :
  actor_trampoline_addr <> schedule_next_ret ->
  mem_inv (mem k0) live -> boot_pd (pg k0) = boot_pd_init ->
  reachable (scheduler_init k0) k -> kgood k.
Proof. intros Hcode Hm Hpd Hr. exact (reachable_good Hcode _ k (scheduler_init_good live k0 Hm Hpd) Hr). Qed.

(** A blocked actor has nothing to read, and a receive somebody woke has. *)
Definition wakes_kept k : Prop :=
  forall i, 0 <= i < MAX_ACTORS ->
    (state (act k i) = ACTOR_BLOCKED -> queue (act k i) = []) /\
    (i <> current_actor k -> state (act k i) = ACTOR_READY -> frames k !!! i = FReceive -> queue (act k i) <> []).

Lemma kcore_wakes live k : kcore live k -> wakes_kept k.
Proof.
  intros Hc i Hi. destruct (kc_slot _ _ Hc i Hi) as [Hm Hb Hw _ _ _]. split.
  - intros Hs. unfold queue. by rewrite (Hb Hs).
  - intros Hne Hs Hf. destruct (queue_pop _ Hm (Hw Hne Hs Hf)) as [-> _]. done.
Qed.

(** C23: no lost wake-up and no resurrection.  After every event of every
    reachable state, whoever is blocked in a receive has an empty mailbox (so a
    message that arrives has woken its receiver), and whoever was woken from
    one and has not run yet has a message waiting; and when an event switches
    actors and the machine goes on, the processor always continues an actor in
    a defined way, never in a receive whose mailbox is empty nor in the context
    of an actor that exited. *)
Theorem landing_is_defined k0 k ev r k' :
  actor_trampoline_addr <> schedule_next_ret -> kgood k0 -> reachable k0 k -> kstep k ev r k' ->
  wakes_kept k' /\ (halted k' = false -> r <> RLanding LStopped /\ r <> RLanding LExited).
Proof.
  intros Hcode H0 Hr Hs. destruct (kstep_good Hcode k ev r k' (reachable_good Hcode k0 k H0 Hr) Hs) as [(live & Hc & _) Hl].
  split; [by eapply kcore_wakes | exact Hl].
Qed.

(** C26: stacks are private.  In every reachable state, no ring-3 access of one
    live actor, through the hardware walk of its own CR3, reaches the stack
    page of another actor. *)
Theorem stacks_are_private k0 k i j va t :
  actor_trampoline_addr <> schedule_next_ret -> kgood k0 -> reachable k0 k ->
  0 <= i < MAX_ACTORS -> 0 <= j < MAX_ACTORS -> i <> j ->
  state (act k i) <> ACTOR_DEAD -> state (act k j) <> ACTOR_DEAD ->
  0 <= va < 2 ^ 48 -> walk (pg k) (a_cr3 (act k i)) va = Some t -> t_user t = true ->
  ~ (stack_page (act k j) <= t_pa t < stack_page (act k j) + ACTOR_STACK_SIZE).
Proof.
  intros Hcode H0 Hr Hi Hj Hne Hdi Hdj Hva Hw Hu Hin.
  destruct (reachable_good Hcode k0 k H0 Hr) as (live & Hc & _).
  destruct (so_alive _ _ _ _ _ _ _ (kc_slot _ _ Hc i Hi) Hdi) as (Pi & Ei & prog & Si & Hhi).
  destruct (so_alive _ _ _ _ _ _ _ (kc_slot _ _ Hc j Hj) Hdj) as (Pj & Ej & progj & Sj & _).
  rewrite Ei, (walk_view _ _ _ _ _ _ Si Hva) in Hw. apply view_user in Hw; [|lia|done].
  pose proof (kc_inj _ _ Hc i j Hi Hj Hne Pi) as Hd.
  pose proof (sp_align _ _ _ _ _ Si). pose proof (sp_align _ _ _ _ _ Sj).
  pose proof (sp_range _ _ _ _ _ Sj). pose proof (@lo_user_text _ LOK).
  unfold user_reach, COMMONS_END, PRIVATE_WINDOW_END, ACTOR_STACK_SIZE in *.
  destruct Hw as [?|[?|Hp]]; [lia | Z.div_mod_to_equations; lia |].
  destruct prog as [[[pool ph] sz]|]; cbn in Hp; [lia|done].
Qed.

(** The words a switch leaves on the outgoing stack. *)
Definition saved_words (r : regs) : list (Z * Z) :=
  [(8, schedule_next_ret); (16, r_rbx r); (24, r_rbp r); (32, r_r12 r); (40, r_r13 r); (48, r_r14 r); (56, r_r15 r)].

Lemma switch_saves s new_rsp new_cr3 k k1 d w :
  hal_context_switch s new_rsp new_cr3 k = k1 -> In (d, w) (saved_words (c_regs (kcpu k))) ->
  kstack k1 !!! (c_rsp (kcpu k) - d) = w.
Proof.
  unfold hal_context_switch, push_word, saved_words. cbn [fst snd]. intros <- Hin.
  generalize dependent (c_rsp (kcpu k)). generalize dependent (c_regs (kcpu k)). intros r Hin p.
  set (m := <[_ := _]> _). assert (Hm : m !!! (p - d) = w); [|clearbody m; by destruct s].
  unfold m. cbn [In] in Hin.
  repeat (destruct Hin as [Hin|Hin]; [injection Hin as <- <-; rewrite !aget_insert; zcmp; done|]). done.
Qed.

Lemma switch_restores s new_rsp new_cr3 k k1 :
  hal_context_switch s new_rsp new_cr3 k = k1 ->
  c_regs (kcpu k1) = Regs (kstack k1 !!! (new_rsp + 40)) (kstack k1 !!! (new_rsp + 32))
     (kstack k1 !!! (new_rsp + 24)) (kstack k1 !!! (new_rsp + 16)) (kstack k1 !!! (new_rsp + 8)) (kstack k1 !!! new_rsp).
Proof. unfold hal_context_switch. destruct (push_word _ _) as [m sp]. intros <-. by destruct s. Qed.

Lemma switch_back i new_rsp new_cr3 k k1 s cr k2 k3 :
  hal_context_switch (SaveActor i) new_rsp new_cr3 k = k1 ->
  hal_context_switch s (rsp (act k1 i)) cr k2 = k3 ->
  (forall x, c_rsp (kcpu k) - 56 <= x < c_rsp (kcpu k) -> kstack k2 !!! x = kstack k1 !!! x) ->
  (c_rsp (kcpu k) + 56 <= c_rsp (kcpu k2) \/ c_rsp (kcpu k2) <= c_rsp (kcpu k) - 56) ->
  c_regs (kcpu k3) = c_regs (kcpu k) /\ c_rsp (kcpu k3) = c_rsp (kcpu k) /\
  c_rip (kcpu k3) = schedule_next_ret /\ cr3 (mach (mem k3)) = cr.
Proof.
  intros E1 E3 Hkeep Hoff.
  destruct (switch_words _ _ _ _ _ E1) as (_ & _ & _ & _ & _ & _ & _ & _ & _ & _ & _ & Hrsp).
  specialize (Hrsp i). rewrite Z.eqb_refl in Hrsp. apply (f_equal rsp) in Hrsp. cbn [rsp set_rsp] in Hrsp.
  destruct (switch_words _ _ _ _ _ E3) as (Hw & _ & H3 & H4 & H5 & _).
  pose proof (fun d w => switch_saves _ _ _ _ _ d w E1) as Hs.
  pose proof (switch_restores _ _ _ _ _ E3) as Hr. rewrite Hrsp in *. clear E1 E3 Hrsp.
  assert (Hget : forall d w, 0 < d <= 56 -> In (d, w) (saved_words (c_regs (kcpu k))) -> kstack k3 !!! (c_rsp (kcpu k) - d) = w).
  { intros d w Hd Hin. rewrite Hw, Hkeep by lia. by apply Hs. }
  clear Hw Hkeep Hs. rewrite Hr, H3, H4. unfold saved_words in Hget.
  generalize dependent (kstack k3). generalize dependent (c_rsp (kcpu k)). intros p Hoff H4 m Hr H3 Hget.
  split_and!; [|lia| |done].
  - destruct (c_regs (kcpu k)) as [bx bp a12 a13 a14 a15]. cbn [r_rbx r_rbp r_r12 r_r13 r_r14 r_r15] in Hget.
    rewrite <- (Hget 16 bx), <- (Hget 24 bp), <- (Hget 32 a12), <- (Hget 40 a13), <- (Hget 48 a14), <- (Hget 56 a15)
      by (lia || (cbn [In]; auto 10)). f_equal; f_equal; lia.
  - rewrite <- (Hget 8 schedule_next_ret) by (lia || (cbn [In]; auto 10)). f_equal; lia.
Qed.

(** ** Round robin *)

(** How many slots the scheduler looks at before [j], from [cur]. *)
Definition distance (cur j : Z) : Z := (j - cur - 1) mod MAX_ACTORS.

Lemma pick_next_nearest k j :
  0 <= current_actor k < MAX_ACTORS -> 0 <= j < MAX_ACTORS -> runnable (act k j) = true ->
  exists n, pick_next k = Some n /\
    (n = j \/ n <> j /\ 0 <= n < MAX_ACTORS /\ distance n j < distance (current_actor k) j).
Proof.
  intros Hc Hj Hr. unfold pick_next. destruct (Z.ltb_spec (current_actor k) 0); [lia|].
  set (cur := current_actor k) in *. clearbody cur.
  destruct (scan_complete (fun i => runnable (act k ((cur + i) mod MAX_ACTORS))) 1 (Z.to_nat MAX_ACTORS) (distance cur j + 1))
    as (i & Hi & Hle).
  { unfold distance, MAX_ACTORS in *. Z.div_mod_to_equations; lia. }
  { replace ((cur + (distance cur j + 1)) mod MAX_ACTORS) with j; [done|].
    unfold distance, MAX_ACTORS in *. Z.div_mod_to_equations; lia. }
  rewrite Hi. apply scan_Some in Hi as (Hrange & _ & _). eexists; split; [done|].
  unfold distance, MAX_ACTORS in *. destruct (decide ((cur + i) mod 17 = j)); [by left|right].
  split; [done|]. Z.div_mod_to_equations; lia.
Qed.

Lemma switch_to_next_pick s k b k' n :
  switch_to_next s k = (b, k') -> pick_next k = Some n ->
  current_actor k' = n /\ halted k' = halted k /\ (forall j, j <> n -> state (act k' j) = state (act k j)).
Proof.
  unfold switch_to_next. intros Heq Hp. rewrite Hp in Heq. destruct (Z.eqb_spec n (current_actor k)) as [E0|Hne]; [subst n|].
  - injection Heq as <- <-. split_and!; try done. intros j Hj. autorewrite with kact. by rewrite act_upd_ne.
  - cbv zeta in Heq. set (k2 := set_tss _ _) in Heq.
    assert (E : current_actor k2 = n /\ halted k2 = halted k /\ forall j, j <> n -> state (act k2 j) = state (act k j)).
    { split_and!; try done. intros j Hj. unfold k2. autorewrite with kact. rewrite act_upd_ne by done. done. }
    clearbody k2. destruct E as (E1 & E2 & E3). injection Heq as <- Heq.
    destruct (switch_words _ _ _ _ _ Heq) as (_ & _ & _ & _ & _ & _ & _ & W8 & _ & W10 & _ & W12).
    split_and!; [congruence | congruence |]. intros j Hj. rewrite W12, <- E3 by done.
    destruct s as [i|]; [by destruct (i =? j)|done].
Qed.
End properties.
Section fairness.
Context {L : layout} {LOK : layout_ok L} {KL : klayout} {KC : kcode}.
Context (Hcode : actor_trampoline_addr <> schedule_next_ret).
Implicit Types (k : kern).

Lemma schedule_next_eq s k :
  schedule_next s k = switch_to_next s (reap_dead_actors (hal_disable_interrupts k)).
Proof. reflexivity. Qed.

#[local] Strategy 50 [settle resume actor_yield actor_exit actor_receive scheduler_start].
#[local] Strategy 100 [schedule_next receive_loop].

Lemma settle_keeps live k0 b k r k' :
  scheduled live k0 b k -> halted k = false -> settle (b, k) = (r, k') ->
  halted k' = false /\ current_actor k' = current_actor k /\ forall j, state (act k' j) = state (act k j).
Proof.
  intros [Hc Hcase] Hh Heq. unfold settle in Heq. destruct Hcase as [[_ Hx]|[(-> & _)|(-> & _ & H1 & Hl & _)]].
  - congruence.
  - injection Heq as <- <-. done.
  - destruct (resume k) as [l k2] eqn:E. injection Heq as <- <-.
    destruct (resume_spec Hcode live k l k2 (conj Hc H1) Hl Hh E) as (_ & _ & H2 & H3 & H4 & _). done.
Qed.

Lemma leave_progress live k r k' j :
  kinv live k -> 0 <= current_actor k -> in_own_stack (current_actor k) (c_rsp (kcpu k)) -> halted k = false ->
  0 <= j < MAX_ACTORS -> state (act k j) = ACTOR_READY ->
  settle (leave ACTOR_READY FYield k) = (r, k') ->
  halted k' = false /\
  (current_actor k' = j \/
   state (act k' j) = ACTOR_READY /\ distance (current_actor k') j < distance (current_actor k) j).
Proof.
  intros Hi H0 Hst Hh Hj Hready Heq. unfold leave in Heq. destruct (schedule_next _ _) as [b k3] eqn:E.
  destruct (yield_schedules Hcode live k ACTOR_READY FYield b k3 Hi H0 Hst Hh ltac:(auto) E) as (l & k0 & Hs).
  pose proof (kc_cur _ _ (proj1 Hi)) as Hcur.
  destruct (stop_current live k ACTOR_READY FYield Hi H0) as [Hc1 Hn1]; [done|done|].
  set (k1 := set_frame _ _ _) in *.
  assert (E1 : current_actor k1 = current_actor k /\ halted k1 = false /\ state (act k1 j) = ACTOR_READY).
  { split_and!; try done. unfold k1. autorewrite with kact. rewrite act_upd. by destruct (_ =? j). }
  clearbody k1. destruct E1 as (E1 & E2 & E3). rewrite schedule_next_eq in E.
  assert (Hc1' : kcore live (hal_disable_interrupts k1)) by by apply (kcore_frame live k1).
  destruct (reap_spec Hcode _ _ Hc1') as (l2 & _ & R1 & _ & _ & _ & _ & _ & _ & R8 & R9). clear Hc1'.
  generalize dependent (reap_dead_actors (hal_disable_interrupts k1)). intros k2 E R1 R8 R9.
  change (current_actor k2 = current_actor k1) in R1. change (halted k2 = halted k1) in R8.
  assert (Hrj : runnable (act k2 j) = true).
  { unfold runnable. destruct (R9 j) as [->|(Hd & _)]; autorewrite with kact in *; [by rewrite E3 | congruence]. }
  destruct (pick_next_nearest k2 j) as (n & Hp & Hn); [lia | done | done |].
  destruct (switch_to_next_pick _ _ _ _ _ E Hp) as (W1 & W2 & W3).
  destruct (settle_keeps l k0 b k3 r k' Hs ltac:(congruence) Heq) as (S1 & S2 & S3).
  split; [done|]. destruct Hn as [->|(Hne & _ & Hd)]; [left; congruence|right].
  rewrite S2, W1, S3, W3 by done. rewrite <- E1, <- R1. split; [|done].
  destruct (R9 j) as [->|(Hd' & _)]; autorewrite with kact in *; [done|congruence].
Qed.

(** A sequence of yields, oldest first. *)
Inductive yields : kern -> list kern -> Prop :=
| yields_nil k : yields k []
| yields_cons k r k' ks : kstep k EvYield r k' -> yields k' ks -> yields k (k' :: ks).

Lemma yield_progress k r k' j :
  kgood k -> kstep k EvYield r k' -> 0 <= j < MAX_ACTORS -> state (act k j) = ACTOR_READY ->
  kgood k' /\ halted k' = false /\
  (current_actor k' = j \/
   state (act k' j) = ACTOR_READY /\ distance (current_actor k') j < distance (current_actor k) j).
Proof.
  intros Hg Hs Hj Hr. split; [exact (proj1 (kstep_good Hcode k EvYield r k' Hg Hs))|].
  destruct Hg as (live & Hc & Hrun). inversion Hs as [? ? ? ? ? ? Hb|? c ? ? ? H1 H2 H3 H4 H5 H6]; subst; [discriminate|].
  cbn [run_event] in H6. rewrite yield_leave in H6 by done.
  set (k1 := hal_disable_interrupts (enter c k)) in H6.
  assert (Hi : kinv live k1) by (apply kinv_irq, enter_inv; split; auto).
  assert (E : current_actor k1 = current_actor k /\ halted k1 = halted k /\ kcpu k1 = c /\ act k1 j = act k j) by done.
  clearbody k1. destruct E as (E1 & E2 & E3 & E4).
  destruct (leave_progress live k1 r k' j Hi ltac:(lia) ltac:(congruence) ltac:(congruence) Hj ltac:(congruence) H6) as [Q1 Q2].
  rewrite E1 in Q2. done.
Qed.

Lemma yields_reach ks : forall k j,
  kgood k -> yields k ks -> 0 <= j < MAX_ACTORS -> state (act k j) = ACTOR_READY ->
  distance (current_actor k) j < Z.of_nat (length ks) -> Exists (fun k' => current_actor k' = j) ks.
Proof.
  induction ks as [|k1 ks IH]; intros k j Hg Hy Hj Hr Hd.
  - exfalso. unfold distance, MAX_ACTORS in *. cbn in Hd. Z.div_mod_to_equations; lia.
  - inversion Hy as [|? r ? ? Hs Hy']; subst.
    destruct (yield_progress k r k1 j Hg Hs Hj Hr) as (Hg1 & _ & [Hcur|[Hr1 Hd1]]).
    + by left.
    + right. apply (IH k1); try done. cbn [length] in Hd. lia.
Qed.
End fairness.

Section properties2.
Context {L : layout} {LOK : layout_ok L} {KL : klayout} {KC : kcode}.
Implicit Types (k : kern).

(** C25: a context switch is faithful.  Switching away and later back, with the
    outgoing stack's seven words untouched in between, restores the six
    callee-saved registers and the stack pointer, resumes at the return
    address inside [schedule_next], and reinstates the given CR3. *)
Theorem context_switch_roundtrip i new_rsp new_cr3 k k1 s cr k2 k3 :
  hal_context_switch (SaveActor i) new_rsp new_cr3 k = k1 ->
  (forall x, c_rsp (kcpu k) - 56 <= x < c_rsp (kcpu k) -> kstack k2 !!! x = kstack k1 !!! x) ->
  (c_rsp (kcpu k) + 56 <= c_rsp (kcpu k2) \/ c_rsp (kcpu k2) <= c_rsp (kcpu k) - 56) ->
  hal_context_switch s (rsp (act k1 i)) cr k2 = k3 ->
  c_regs (kcpu k3) = c_regs (kcpu k) /\ c_rsp (kcpu k3) = c_rsp (kcpu k) /\
  c_rip (kcpu k3) = schedule_next_ret /\ cr3 (mach (mem k3)) = cr.
Proof.
  intros H1 Hkeep Hoff H3.
  exact (switch_back i new_rsp new_cr3 k k1 s cr k2 k3 H1 H3 Hkeep Hoff).
Qed.

(** C24: round robin is fair with a bound: from any reachable state, a ready
    actor runs within [MAX_ACTORS] yields, whatever actors are in between. *)
Theorem ready_actor_runs_within_17_yields live k0 k ks j :
  actor_trampoline_addr <> schedule_next_ret ->
  mem_inv (mem k0) live -> boot_pd (pg k0) = boot_pd_init -> reachable (scheduler_init k0) k ->
  0 <= j < MAX_ACTORS -> state (act k j) = ACTOR_READY ->
  yields k ks -> Z.of_nat (length ks) = MAX_ACTORS ->
  Exists (fun k' => current_actor k' = j) ks.
Proof.
  intros Hcode Hm Hpd Hr Hj Hs Hy Hlen.
  pose proof (reachable_good Hcode _ k (scheduler_init_good live k0 Hm Hpd) Hr) as Hg.
  apply (yields_reach Hcode ks k j Hg Hy Hj Hs). rewrite Hlen. apply Z.mod_pos_bound. done.
Qed.
End properties2.

(** ** A small machine, for closed examples *)
Module Demo.
#[export] Existing Instance demo_layout.
#[export] Instance demo_kcode : kcode := KCode 0x8000 0x9000.

Definition boot_cpu : cpu := Cpu 0x7000 0 0 (Regs 0 0 0 0 0 0).
Definition kern_raw : kern := Kern ∅ 0 0 false mem_demo pg_boot (Tss 0 ∅ 0) ∅ boot_cpu ∅ [] false.
Definition kern0 : kern := scheduler_init kern_raw.
(** Two actors, then the scheduler. *)
Definition kern1 : kern := (run_event (EvSpawn 0x2B000) kern0).2.
Definition kern2 : kern := (run_event (EvSpawn 0x2C000) kern1).2.
Definition kern3 : kern := (run_event EvStart kern2).2.
#[local] Strategy expand [kern0 kern1 kern2 kern3].

Lemma demo_codes : actor_trampoline_addr <> schedule_next_ret.
Proof. discriminate. Qed.

Lemma boot_reach ev k k' : k' = (run_event ev k).2 -> reachable kern0 k ->
  current_actor k = -1 -> halted k = false -> c_rsp (kcpu k) = 0x7000 -> boot_event ev = true ->
  reachable kern0 k'.
Proof.
  intros -> Hr H1 H2 H4 H3. apply (reach_step kern0 k ev (run_event ev k).1); [exact Hr|].
  apply step_boot; [exact H1 | exact H2 | exact H3 | | apply surjective_pairing].
  rewrite H4. left. cbn. lia.
Qed.

Lemma kern2_flags : current_actor kern2 = -1 /\ halted kern2 = false /\ c_rsp (kcpu kern2) = 0x7000 /\
  current_actor kern1 = -1 /\ halted kern1 = false /\ c_rsp (kcpu kern1) = 0x7000.
Proof. vm_compute. split_and!; reflexivity. Qed.

Lemma kern3_flags : current_actor kern3 = 1 /\ halted kern3 = false /\
  state (act kern3 0) = ACTOR_READY /\ state (act kern3 1) = ACTOR_RUNNING.
Proof. vm_compute. split_and!; reflexivity. Qed.

Lemma kern3_reachable : reachable kern0 kern3.
Proof.
  destruct kern2_flags as (A1 & A2 & A3 & B1 & B2 & B3).
  refine (boot_reach EvStart kern2 kern3 eq_refl _ A1 A2 A3 eq_refl).
  refine (boot_reach (EvSpawn 0x2C000) kern1 kern2 eq_refl _ B1 B2 B3 eq_refl).
  exact (boot_reach (EvSpawn 0x2B000) kern0 kern1 eq_refl (reach_refl kern0) eq_refl eq_refl eq_refl eq_refl).
Qed.

(** A yield by the current actor, entered at the top of its kernel stack. *)
Definition entry_cpu (k : kern) : cpu := Cpu (ktop (current_actor k)) 0x8800 0 (Regs 1 2 3 4 5 6).
Definition yield_once (k : kern) : kern := (run_event EvYield (enter (entry_cpu k) k)).2.
Fixpoint yield_list (n : nat) (k : kern) : list kern :=
  match n with O => [] | S n => yield_once k :: yield_list n (yield_once k) end.
Fixpoint may_yield (n : nat) (k : kern) : bool :=
  match n with
  | O => true
  | S n => (0 <=? current_actor k) && negb (halted k) && may_yield n (yield_once k)
  end.

Lemma yield_step k : (0 <=? current_actor k) = true -> halted k = false ->
  kstep k EvYield (run_event EvYield (enter (entry_cpu k) k)).1 (yield_once k).
Proof.
  intros H1 H2. apply (step_actor EvYield (entry_cpu k)); [by apply Z.leb_le | exact H2 | reflexivity | exact I | |].
  - unfold in_own_stack, entry_cpu, KERNEL_STACK_SIZE. cbn [c_rsp]. lia.
  - unfold yield_once. apply surjective_pairing.
Qed.

Lemma yields_list n : forall k, may_yield n k = true -> yields k (yield_list n k).
Proof.
  induction n as [|n IH]; intros k H; cbn [yield_list]; [constructor|]. cbn [may_yield] in H.
  apply andb_prop in H as [H H3]. apply andb_prop in H as [H1 H2]. apply negb_true_iff in H2.
  exact (yields_cons k _ _ _ (yield_step k H1 H2) (IH _ H3)).
Qed.

Lemma yield_list_length n : forall k, length (yield_list n k) = n.
Proof. induction n; intros k; cbn [yield_list length]; [reflexivity|]. f_equal. apply IHn. Qed.

Lemma reachable_states_consistent_witness : kgood kern3.
Proof. exact (reachable_states_consistent ∅ kern_raw kern3 demo_codes mem_demo_inv eq_refl kern3_reachable). Defined.

Lemma landing_is_defined_witness :
  wakes_kept (yield_once kern3) /\ (run_event EvYield (enter (entry_cpu kern3) kern3)).1 <> RLanding LStopped.
Proof.
  destruct kern3_flags as (H1 & H2 & _).
  assert (H0 : (0 <=? current_actor kern3) = true) by (rewrite H1; reflexivity).
  assert (Hh : halted (yield_once kern3) = false) by (vm_compute; reflexivity).
  pose proof (landing_is_defined kern0 kern3 EvYield _ _ demo_codes (scheduler_init_good ∅ kern_raw mem_demo_inv eq_refl)
    kern3_reachable (yield_step kern3 H0 H2)) as [M1 M2].
  split; [exact M1 | exact (proj1 (M2 Hh))].
Defined.

Lemma stacks_are_private_witness :
  exists t, walk (pg kern3) (a_cr3 (act kern3 0)) (stack_page (act kern3 0)) = Some t /\
    ~ (stack_page (act kern3 1) <= t_pa t < stack_page (act kern3 1) + ACTOR_STACK_SIZE).
Proof.
  assert (Hp : stack_page (act kern3 0) = 0x100000) by (vm_compute; reflexivity).
  assert (Hw : walk (pg kern3) (a_cr3 (act kern3 0)) 0x100000 = Some (Translation 0x100000 true true)) by (vm_compute; reflexivity).
  rewrite Hp. eexists. split; [exact Hw|]. destruct kern3_flags as (_ & _ & H0 & H1).
  refine (stacks_are_private kern0 kern3 0 1 0x100000 _ demo_codes (scheduler_init_good ∅ kern_raw mem_demo_inv eq_refl)
    kern3_reachable _ _ _ _ _ _ Hw eq_refl); unfold MAX_ACTORS; rewrite ?H0, ?H1; lia || discriminate.
Defined.

Lemma ready_actor_runs_within_17_yields_witness :
  Exists (fun k' => current_actor k' = 0) (yield_list 17 kern3).
Proof.
  destruct kern3_flags as (_ & _ & H0 & _).
  assert (Hy : may_yield 17 kern3 = true) by (vm_compute; reflexivity).
  refine (ready_actor_runs_within_17_yields ∅ kern_raw kern3 (yield_list 17 kern3) 0 demo_codes mem_demo_inv eq_refl
    kern3_reachable _ H0 (yields_list 17 kern3 Hy) _); unfold MAX_ACTORS; [lia|].
  rewrite yield_list_length. reflexivity.
Defined.

Definition kern_in (sp : Z) (r : regs) (k : kern) : kern := set_cpu (Cpu sp 0x8800 0 r) k.

Lemma context_switch_roundtrip_witness :
  let k := kern_in 0x22000 (Regs 1 2 3 4 5 6) kern_raw in
  let k1 := hal_context_switch (SaveActor 1) 0x20FC8 0x40000 k in
  let k2 := kern_in 0x21000 (Regs 9 9 9 9 9 9) k1 in
  let k3 := hal_context_switch (SaveActor 0) (rsp (act k1 1)) 0x41000 k2 in
  c_regs (kcpu k3) = Regs 1 2 3 4 5 6.
Proof.
  intros k k1 k2 k3. apply (context_switch_roundtrip 1 0x20FC8 0x40000 k k1 (SaveActor 0) 0x41000 k2 k3).
  - reflexivity.
  - intros x _. reflexivity.
  - right. vm_compute. discriminate.
  - reflexivity.
Defined.

(** Three actors; actor 1 may spawn and may terminate actor 0; actor 2 may
    message actor 0.  Actor 1 runs first. *)
Definition run_all (evs : list event) (k : kern) : kern := fold_left (fun k ev => (run_event ev k).2) evs k.
Definition kern_reuse : kern :=
  run_all [EvSpawn 0x2B000; EvSpawn 0x2C000; EvSpawn 0x2D000; EvGrant 1 CAP_SPAWN 0; EvGrant 1 CAP_TERMINATE 0;
           EvGrant 2 CAP_SEND 0; EvStart] kern0.
Definition kern_reused : kern := run_all [EvTerminate 0; EvSpawnChild 0x2E000] kern_reuse.

(** Does any client or the allocator still know the page? *)
Definition page_known (page : Z) (k : kern) : bool :=
  existsb (fun i => stack_page (act k i) =? page) (seqZ 0 MAX_ACTORS) ||
  existsb (fun n => free_list (mem k) !!! n =? page) (seqZ 0 (free_list_count (mem k))) ||
  negb (bitmap_is_used (idx page) (bitmap (mem k))).

(** reusing the slot of a terminated actor before the scheduler has reaped
    it loses its stack page: the slot's page pointer is overwritten, no actor
    and no free list knows the page any more, and the bitmap keeps it used. *)
Theorem reused_slot_leaks_stack_page :
  let old := stack_page (act kern_reuse 0) in
  old <> 0 /\ stack_page (act kern_reused 0) <> old /\ state (act kern_reused 0) = ACTOR_READY /\
  page_known old kern_reuse = true /\ page_known old kern_reused = false.
Proof. vm_compute. split_and!; try reflexivity; discriminate. Qed.

(** capabilities name slots, not actors: after slot 0 has been terminated and
    given to a new actor, actor 2's old right to message slot 0 reaches the new
    occupant. *)
Theorem stale_capability_reaches_new_actor :
  let k := run_all [EvYield] kern_reused in
  current_actor k = 2 /\ entry (act kern_reuse 0) <> entry (act k 0) /\
  (actor_send 0 7 9 k).1 = 0 /\ queue (act (actor_send 0 7 9 k).2 0) = [Message 7 2 9].
Proof. vm_compute. split_and!; try reflexivity; discriminate. Qed.
End Demo.
