(* ===== verification/Isolation.v ===== *)
(** * Isolation of the actors' memory

    What a ring-3 actor can reach, in every state the kernel gets to: the
    tables [hal_address_space_create] and [hal_address_space_map_program] build
    in place, over the frames the page allocator handed out.  The invariant
    follows the program images: each one occupies frames marked used in the
    allocator's bitmap, no two live actors' images overlap, and a frame the
    allocator claims for a new image was not marked before. *)
From S2P Require Import Prelude Paging Gdt Memory Actor Scheduler.

(** ** The bitmap only grows *)

Definition grows (m m' : mem_state) : Prop :=
  forall j, 0 <= j -> bitmap_is_used j (bitmap m) = true -> bitmap_is_used j (bitmap m') = true.

#[export] Instance grows_preorder : PreOrder grows.
Proof. split; [by intros m j | intros m1 m2 m3 H1 H2 j Hj H; by apply H2, H1]. Qed.

Lemma grows_same m m' : bitmap m' = bitmap m -> grows m m'.
Proof. by intros E j _ H; rewrite E. Qed.

Lemma set_used_grows i b j : 0 <= i -> 0 <= j -> bitmap_is_used j b = true -> bitmap_is_used j (bitmap_set_used i b) = true.
Proof. intros Hi Hj H. rewrite set_used_spec, H by done. apply orb_true_r. Qed.

Lemma alloc_scan_grows fuel m : MEM_BASE <= next_free_page m -> grows m (alloc_scan fuel m).2.
Proof.
  revert m. induction fuel as [|fuel IH]; intros m Hm; cbn [alloc_scan]; [done|].
  destruct (_ <? _); [|done]. destruct (negb _).
  - intros j Hj H. cbn. apply set_used_grows; [|done..]. unfold MEM_BASE, PAGE_SIZE in *. Z.div_mod_to_equations; lia.
  - exact (IH (set_next (next_free_page m + PAGE_SIZE) m) ltac:(cbn; unfold PAGE_SIZE; lia)).
Qed.

Lemma alloc_page_grows m : MEM_BASE <= next_free_page m -> grows m (alloc_page m).2.
Proof. intros Hm. unfold alloc_page. destruct (0 <? _); [by apply grows_same | by apply alloc_scan_grows]. Qed.

Lemma free_page_grows a m : grows m (free_page a m).
Proof. apply grows_same. unfold free_page. destruct (a =? 0); [done|]. by destruct (_ <? _). Qed.

Lemma mark_loop_used p n b j :
  0 <= p -> 0 <= j ->
  bitmap_is_used j (loop (fun i b => bitmap_set_used (p + i) b) 0 n b) =
  bitmap_is_used j b || ((p <=? j) && (j <? p + Z.of_nat n)).
Proof.
  intros Hp Hj. induction n as [|n IH]; [cbn [loop]; bdestruct_all; by rewrite ?orb_false_r || lia|].
  rewrite loop_S, set_used_spec, IH by lia. destruct (bitmap_is_used j b); cbn [orb]; rewrite ?orb_true_r; bdestruct_all; done || lia.
Qed.

Lemma zero_loop_bitmap a n m : bitmap (loop (fun i m => zero_page (a + i * PAGE_SIZE) m) 0 n m) = bitmap m.
Proof. by apply (loop_ind (fun _ m' => bitmap m' = bitmap m)). Qed.

(** A claimed run: aligned, above where the search began, unmarked before and
    marked now. *)
Lemma contig_claims s n m a m' :
  MEM_BASE <= s -> find_and_claim_contig s n m = (a, m') -> a <> 0 ->
  grows m m' /\ forall i, 0 <= i < n -> bitmap_is_used (idx a + i) (bitmap m) = false /\ bitmap_is_used (idx a + i) (bitmap m') = true.
Proof.
  intros Hs. unfold find_and_claim_contig. destruct (Z.leb_spec n 0); [by intros [= <- <-]|].
  destruct (search_while _ _ _ _ _) as [start|] eqn:Es; [|by intros [= <- <-]].
  destruct (search_while_Some _ _ _ _ _ _ Es) as (k & Hk & -> & _ & Hfree).
  set (st := s + k * PAGE_SIZE) in *. intros [= <- <-] _.
  assert (Hp : 0 <= idx st) by (unfold idx, MEM_BASE, st, PAGE_SIZE in *; Z.div_mod_to_equations; lia).
  fold (idx st). split.
  - intros j Hj Hu. rewrite zero_loop_bitmap. cbn. rewrite mark_loop_used by done. by rewrite Hu.
  - intros i Hi. rewrite zero_loop_bitmap. cbn. rewrite mark_loop_used by lia. split.
    + unfold run_free in Hfree. destruct (scan _ 0 _) eqn:Esc; [done|].
      apply (proj1 (scan_None _ _ _) Esc). lia.
    + rewrite Z2Nat.id by lia. zcmp. apply orb_true_r.
Qed.

(** ** The invariant *)
Section isolation.
Context {L : layout} {LOK : layout_ok L} {KL : klayout} {KC : kcode}.
Implicit Types (k : kern) (progs : Z -> option (Z * Z * Z)).

Definition lives k (i : Z) : Prop := 0 <= i < MAX_ACTORS /\ state (act k i) <> ACTOR_DEAD.

(** A program's frames are outside the private window and marked used. *)
Definition claimed (m : mem_state) (prog : option (Z * Z * Z)) : Prop :=
  match prog with
  | Some (_, phys, size) =>
      PRIVATE_WINDOW_END <= phys /\ forall i, 0 <= i -> i * 4096 < size -> bitmap_is_used (idx phys + i) (bitmap m) = true
  | None => True
  end.

Definition disjoint_images (prog prog' : option (Z * Z * Z)) : Prop :=
  match prog, prog' with
  | Some (_, p, n), Some (_, p', n') => p + n <= p' \/ p' + n' <= p
  | _, _ => True
  end.

(** [progs i] is the image mapped in live actor [i]'s address space. *)
Record apart k progs : Prop := Apart {
  ap_space : forall i, lives k i -> space_ok (pg k) i (stack_page (act k i)) ACTOR_STACK_SIZE (progs i);
  ap_claimed : forall i, lives k i -> claimed (mem k) (progs i);
  ap_disjoint : forall i j, lives k i -> lives k j -> i <> j -> disjoint_images (progs i) (progs j) }.

Definition isolated k : Prop := exists progs, apart k progs.

(** The kernel's whole invariant. *)
Definition ksound k : Prop := kgood k /\ isolated k.

Lemma claimed_grows m m' prog : grows m m' -> claimed m prog -> claimed m' prog.
Proof.
  intros Hg. destruct prog as [[[pool phys] size]|]; [|done]. intros [H1 H2]. split; [done|]. intros i Hi Hs. apply Hg.
  - unfold idx, MEM_BASE, PRIVATE_WINDOW_END, PAGE_SIZE in *. Z.div_mod_to_equations; lia.
  - by apply H2.
Qed.

(** *** Operations that build no address space *)

(** Page tables as they were, no frame unmarked, nobody revived. *)
Record keeps k k' : Prop := Keeps {
  ke_pg : pg k' = pg k;
  ke_mem : grows (mem k) (mem k');
  ke_lives : forall i, lives k' i -> lives k i /\ stack_page (act k' i) = stack_page (act k i) }.

#[export] Instance keeps_preorder : PreOrder keeps.
Proof.
  split; [by split|]. intros k1 k2 k3 [A1 A2 A3] [B1 B2 B3]. split; [congruence | by etransitivity |].
  intros i H. destruct (B3 i H) as [H2 E2]. destruct (A3 i H2) as [H1 E1]. split; [done | congruence].
Qed.

Lemma apart_keeps k k' progs : keeps k k' -> apart k progs -> apart k' progs.
Proof.
  intros [E Hg Hl] [H1 H2 H3]. split.
  - intros i Hi. destruct (Hl i Hi) as [Hi' ->]. rewrite E. by apply H1.
  - intros i Hi. eapply claimed_grows; [exact Hg|]. apply H2, Hl, Hi.
  - intros i j Hi Hj. apply H3; by apply Hl.
Qed.

Lemma isolated_keeps k k' : keeps k k' -> isolated k -> isolated k'.
Proof. intros H [progs Hp]. exists progs. by eapply apart_keeps. Qed.

Lemma keeps_same k k' : pg k' = pg k -> mem k' = mem k -> actors k' = actors k -> keeps k k'.
Proof. intros E1 E2 E3. split; [done | by rewrite E2 |]. intros i. unfold lives, act. by rewrite E3. Qed.

Lemma keeps_upd i f k :
  stack_page (f (act k i)) = stack_page (act k i) ->
  (state (act k i) = ACTOR_DEAD -> state (f (act k i)) = ACTOR_DEAD) -> keeps k (upd i f k).
Proof.
  intros H1 H2. split; [done..|]. intros j [Hj Hs]. unfold lives. rewrite act_upd in Hs |- *.
  destruct (Z.eqb_spec i j) as [<-|]; [|done]. split; [split; [done | intros E; by apply Hs, H2] | done].
Qed.

Lemma keeps_mem m k : grows (mem k) m -> keeps k (set_mem m k).
Proof. by intros H; split. Qed.

Lemma keeps_add_cap s o t k : keeps k (actor_add_cap s o t k).2.
Proof. unfold actor_add_cap. destruct (scan _ _ _); [by apply keeps_upd | done]. Qed.

Lemma keeps_irq k k' b : keeps k k' -> keeps k (set_irq b k').
Proof. intros H. etransitivity; [exact H|]. by apply keeps_same. Qed.

Lemma isolated_irq b k : isolated k -> isolated (set_irq b k).
Proof. apply isolated_keeps. by apply keeps_same. Qed.

Lemma isolated_enter c k : isolated k -> isolated (enter c k).
Proof. apply isolated_keeps. by apply keeps_same. Qed.

Lemma keeps_reap k : keeps k (reap_dead_actors k).
Proof.
  unfold reap_dead_actors. apply (loop_ind (fun _ k' => keeps k k')); [done|]. intros i k' _ H.
  etransitivity; [exact H|]. unfold reap_one. destruct (i =? _); [done|]. destruct (is_dead (act k' i)) eqn:Ed; [|done].
  destruct (negb _); [|done]. cbn [andb]. apply is_dead_true in Ed.
  split; [done | apply free_page_grows |]. intros j [Hj Hs]. unfold lives. rewrite act_upd in Hs |- *.
  destruct (Z.eqb_spec i j) as [<-|]; [by destruct Hs | done].
Qed.

Lemma keeps_switch s sp cr k : keeps k (hal_context_switch s sp cr k).
Proof.
  unfold hal_context_switch. cbv zeta. destruct (push_word _ _) as [m v].
  set (k1 := save_rsp s v (set_kstack m k)).
  assert (H1 : keeps k k1).
  { unfold k1, save_rsp. transitivity (set_kstack m k); [by apply keeps_same|]. destruct s; [by apply keeps_upd | by apply keeps_same]. }
  etransitivity; [exact H1|]. clearbody k1. split; [done | by apply grows_same | done].
Qed.

Lemma keeps_schedule s k : keeps k (schedule_next s k).2.
Proof.
  unfold schedule_next. cbv zeta. transitivity (reap_dead_actors (hal_disable_interrupts k)).
  { etransitivity; [|apply keeps_reap]. by apply keeps_same. }
  generalize (reap_dead_actors (hal_disable_interrupts k)). clear k. intros k. unfold switch_to_next.
  destruct (pick_next k) as [n|] eqn:Ep; [|by apply keeps_same].
  assert (Hr : state (act k n) <> ACTOR_DEAD).
  { unfold pick_next in Ep. destruct (scan _ _ _) as [i|] eqn:Es; [|done]. injection Ep as <-.
    apply scan_Some in Es as (_ & Hr & _). unfold runnable in Hr. by destruct (state _). }
  destruct (n =? current_actor k); cbn [snd].
  - apply keeps_irq, keeps_upd; [done|]. intros E. by destruct Hr.
  - etransitivity; [|apply keeps_switch]. transitivity (upd n (set_state ACTOR_RUNNING) (set_current n k)).
    + transitivity (set_current n k); [by apply keeps_same|]. apply keeps_upd; [done|]. intros E. by destruct Hr.
    + by apply keeps_same.
Qed.

#[local] Strategy 100 [schedule_next].

Lemma keeps_leave st fr k : state (act k (current_actor k)) <> ACTOR_DEAD -> keeps k (leave st fr k).2.
Proof.
  intros Hd. unfold leave. etransitivity; [|apply keeps_schedule].
  transitivity (upd (current_actor k) (set_state st) k); [by apply keeps_upd | by apply keeps_same].
Qed.

Lemma keeps_dequeue k : keeps k (dequeue k).
Proof. unfold dequeue. by apply keeps_upd. Qed.

Lemma keeps_receive k : state (act k (current_actor k)) <> ACTOR_DEAD -> keeps k (receive_loop 1 k).2.
Proof.
  intros Hd. destruct (Z.eqb_spec (mailbox_count (act k (current_actor k))) 0) as [Hz|Hz].
  2: { rewrite receive_loop_nonempty by done. apply keeps_irq, keeps_dequeue. }
  cbn [receive_loop]. rewrite Hz, Z.eqb_refl. pose proof (keeps_leave ACTOR_BLOCKED FReceive k Hd) as H. unfold leave in H.
  destruct (schedule_next _ _) as [[] k1]; [|exact H]. cbn [snd] in H.
  destruct (Z.eqb_spec (mailbox_count (act (hal_disable_interrupts k1) (current_actor (hal_disable_interrupts k1)))) 0).
  - by apply keeps_irq.
  - cbn [snd]. apply keeps_irq. etransitivity; [exact H|]. etransitivity; [|apply keeps_dequeue]. by apply keeps_same.
Qed.

Lemma keeps_resume k : (halted k = false -> state (act k (current_actor k)) <> ACTOR_DEAD) -> keeps k (resume k).2.
Proof.
  intros Hd. unfold resume. destruct (halted k); [done|]. specialize (Hd eq_refl).
  destruct (_ =? _); [by apply keeps_same|]. set (k0 := hal_disable_interrupts (hal_enable_interrupts k)).
  destruct (frames _ !!! _); try by apply keeps_same.
  pose proof (keeps_receive k0 Hd) as H. destruct (receive_loop 1 k0) as [[m|] k1];
    (etransitivity; [|exact H]; by apply keeps_same).
Qed.

(** A switch and the landing after it. *)
Lemma keeps_settle live k0 k : scheduled live k0 false k -> keeps k (resume k).2.
Proof.
  intros [Hc [[_ Hh]|[[? _]|(_ & _ & H1 & (H0 & _) & _)]]]; [| done |]; apply keeps_resume; [congruence|].
  intros _. pose proof (kc_cur _ _ Hc). by rewrite (proj2 (H1 (current_actor k) ltac:(lia)) eq_refl).
Qed.

Lemma running_lives live k : kinv live k -> 0 <= current_actor k -> state (act k (current_actor k)) <> ACTOR_DEAD.
Proof. intros [Hc Hr] H0. pose proof (kc_cur _ _ Hc). by rewrite (proj2 (Hr (current_actor k) ltac:(lia)) eq_refl). Qed.

Lemma keeps_coded ev k :
  match ev with EvGrant _ _ _ | EvQuota _ _ | EvWindow _ _ | EvSend _ _ _ | EvDelegate _ _ _ | EvTerminate _ => True | _ => False end ->
  keeps k (run_event ev k).2.
Proof.
  destruct ev as [d o' t'|s q|s w|e| | | |d ty x| |d o' t'|e|p s e|tg]; try done; intros _; cbn [run_event coded snd].
  - unfold actor_grant. destruct (bad_slot d); [done | apply keeps_add_cap].
  - unfold actor_set_spawn_quota. destruct (bad_slot s); [done | by apply keeps_upd].
  - unfold actor_set_window. destruct (bad_slot s); [done | by apply keeps_upd].
  - unfold actor_send. destruct (bad_slot d); [done|]. cbv zeta. destruct (negb _); [by apply keeps_same|].
    destruct (is_dead _); [by apply keeps_same|]. destruct (_ <=? _); [by apply keeps_same|]. cbn [snd]. apply keeps_irq.
    set (k1 := upd d _ _). assert (H1 : keeps k k1).
    { transitivity (hal_disable_interrupts k); [by apply keeps_same | by apply keeps_upd]. }
    destruct (state (act k1 d)) eqn:Es; try exact H1. etransitivity; [exact H1|]. apply keeps_upd; [done | congruence].
  - unfold actor_delegate. destruct (bad_slot d); [done|]. cbv zeta. destruct (negb _); [by apply keeps_same|].
    pose proof (keeps_add_cap d o' t' (hal_disable_interrupts k)) as H. destruct (actor_add_cap d o' t' _) as [rc k1].
    cbn [snd] in *. apply keeps_irq. etransitivity; [|exact H]. by apply keeps_same.
  - unfold actor_terminate. destruct (_ || _); [done|]. cbv zeta. destruct (negb _); [by apply keeps_same|].
    cbn [snd]. apply keeps_irq. transitivity (hal_disable_interrupts k); [by apply keeps_same | by apply keeps_upd].
Qed.

End isolation.

(** *** Operations that build one *)
Section spawning.
Context {L : layout} {LOK : layout_ok L} {KL : klayout} {KC : kcode}.
Context (Hcode : actor_trampoline_addr <> schedule_next_ret).
Implicit Types (k : kern) (progs : Z -> option (Z * Z * Z)).

Definition put (i : Z) (v : option (Z * Z * Z)) progs : Z -> option (Z * Z * Z) := fun j => if j =? i then v else progs j.

Lemma create_frame i b n st cr st' :
  hal_address_space_create i b n st = (cr, st') ->
  (cr = 0 /\ st' = st) \/
  (cr = pml4_of i /\ pg_frame st st' i /\ as_pt1 st' = as_pt1 st /\ as_pt1_owner st' = as_pt1_owner st /\
   as_pt1_pool_init_done st' = as_pt1_pool_init_done st).
Proof.
  unfold hal_address_space_create. destruct (_ || _); [intros [= <- <-]; by left|].
  destruct (_ || _); [intros [= <- <-]; by left|]. cbv zeta. intros E. right.
  pose proof (f_equal fst E) as E1. apply (f_equal snd) in E. cbn [fst snd] in E, E1. subst st' cr.
  split; [reflexivity|]. cbn [as_pt1 as_pt1_owner as_pt1_pool_init_done].
  split; [|by split_and!]. intros j Hj. cbn [as_pml4 as_pdpt as_pd as_pt0]. by rewrite !aget_ne by done.
Qed.

Lemma pml4_nonzero i : 0 <= i -> pml4_of i <> 0.
Proof.
  intros Hi. unfold pml4_of. pose proof (@lo_bounds _ LOK) as Hbd.
  rewrite List.Forall_cons_iff in Hbd. destruct Hbd as [[Hbd _] _]. lia.
Qed.

(** A raw spawn: the new actor has no image, everybody else what they had. *)
Lemma apart_spawn live e k r k' progs :
  kinv live k -> apart k progs -> actor_spawn e k = (r, k') ->
  grows (mem k) (mem k') /\ exists progs', apart k' progs' /\
    (0 <= r -> progs' = put r None progs /\ forall j, j <> r -> lives k' j -> lives k j).
Proof.
  intros Hi Hp Heq. pose proof (mi_next _ _ (kc_mem _ _ (proj1 Hi))) as [Hn _].
  destruct (spawn_inv Hcode live e k r k' Hi Heq) as (live' & Hi' & _ & Hsp).
  destruct (spawn_slots _ _ _ _ Heq) as (_ & _ & _ & Hslots).
  unfold actor_spawn in Heq. destruct (scan _ 0 _) as [i|] eqn:Es; [|injection Heq as <- <-; split; [done|]; exists progs; split; [done | lia]].
  apply scan_Some in Es as (Hi0 & _). pose proof (alloc_page_grows (mem k) Hn) as Hg. destruct (alloc_page (mem k)) as [a m]. cbn [snd] in Hg.
  destruct (a =? 0).
  { injection Heq as <- <-. split; [exact Hg|]. exists progs. split; [|lia]. apply (apart_keeps k); [by apply keeps_mem | done]. }
  destruct (hal_address_space_create i a ACTOR_STACK_SIZE (pg (set_mem m k))) as [cr p] eqn:Ec. cbn [pg set_mem] in Ec.
  apply create_frame in Ec as [[-> ->]|(-> & Hf & E1 & E2 & E3)].
  { cbn [Z.eqb] in Heq. injection Heq as <- <-. split; [etransitivity; [exact Hg | apply free_page_grows]|]. exists progs. split; [|lia].
    apply (apart_keeps k); [|done]. split; [done | etransitivity; [exact Hg | apply free_page_grows] | done]. }
  destruct (Z.eqb_spec (pml4_of i) 0) as [Hz|_]; [exfalso; apply (pml4_nonzero i); [lia | exact Hz]|].
  destruct (fake_frame _ _) as [ks sp]. injection Heq as <- <-. destruct (Hsp ltac:(lia)) as [_ Hnew].
  destruct Hslots as [[-> _]|(Hr & Hd & Ho & _)]; [lia|]. change (mem (upd _ _ _)) with m in *.
  assert (Hlv : forall j, j <> i -> lives (upd i (fresh_actor sp (pml4_of i) a e) (set_frame i FTrampoline (set_kstack ks (set_pg p (set_mem m k))))) j -> lives k j)
    by (intros j Hj [Hjr Hs]; split; [done|]; by rewrite Ho in Hs).
  split; [exact Hg|]. exists (put i None progs). split; [|by intros _].
  set (k' := upd i _ _) in *. assert (Ek : mem k' = m /\ pg k' = p) by done. destruct Ek as [Em Ep]. clearbody k'.
  rewrite Ep in Hnew. destruct Hp as [P1 P2 P3]. unfold put. split.
  - intros j Hj. rewrite Ep. destruct (Z.eqb_spec j i) as [->|Hne]; [exact Hnew|].
    rewrite Ho by done. by apply (space_ok_frame _ _ i _ _ _ _ Hf Hne E1 E2 E3), P1, Hlv.
  - intros j Hj. rewrite Em. destruct (Z.eqb_spec j i) as [->|Hne]; [done|]. by eapply claimed_grows, P2, Hlv.
  - intros j j' Hj Hj' Hne. destruct (Z.eqb_spec j i); [done|]. destruct (Z.eqb_spec j' i); [by destruct (progs j) as [[[]]|]|].
    by apply P3; [apply Hlv..|].
Qed.

(** Frames for an image nobody else has. *)
Definition image_free k progs (phys size : Z) : Prop :=
  claimed (mem k) (Some (0, phys, size)) /\ forall i, lives k i -> disjoint_images (progs i) (Some (0, phys, size)).

Lemma apart_image live k k' progs slot pool phys size p :
  k' = set_pg p k -> apart k progs -> progs slot = None -> kinv live k ->
  space_ok p slot (stack_page (act k slot)) ACTOR_STACK_SIZE (Some (pool, phys, size)) ->
  (forall j b s prog, j <> slot -> space_ok (pg k) j b s prog -> space_ok p j b s prog) ->
  claimed (mem k) (Some (0, phys, size)) -> (forall j, j <> slot -> lives k j -> disjoint_images (progs j) (Some (0, phys, size))) ->
  isolated k'.
Proof.
  intros -> [P1 P2 P3] Hn Hi Hs Hoth Hc Hd. exists (put slot (Some (pool, phys, size)) progs). unfold put. split.
  - intros j Hj. change (act (set_pg p k) j) with (act k j). change (pg (set_pg p k)) with p.
    destruct (Z.eqb_spec j slot) as [->|Hne]; [exact Hs | by apply Hoth, P1].
  - intros j Hj. destruct (j =? slot); [exact Hc | by apply P2].
  - intros j j' Hj Hj' Hne. destruct (Z.eqb_spec j slot) as [->|Hj1], (Z.eqb_spec j' slot) as [->|Hj2]; [done| | |by apply P3].
    + specialize (Hd j' Hj2 Hj'). destruct (progs j') as [[[? ?] ?]|]; [|done]. cbn in Hd |- *. lia.
    + exact (Hd j Hj1 Hj).
Qed.

Lemma isolated_spawn_program live phys size e k r k' progs :
  kinv live k -> apart k progs -> image_ok phys size -> image_free k progs phys size ->
  actor_spawn_program phys size e k = (r, k') -> isolated k'.
Proof.
  intros Hi Hp (Ha1 & Ha2 & Ha3 & Ha4 & Ha5) [Hc Hd] Heq. unfold actor_spawn_program in Heq.
  destruct (actor_spawn _ k) as [slot k1] eqn:E.
  destruct (apart_spawn _ _ _ _ _ _ Hi Hp E) as (Hg & progs1 & Hp1 & Hput).
  destruct (spawn_inv Hcode _ _ _ _ _ Hi E) as (live1 & Hi1 & _ & Hslot).
  destruct (Z.ltb_spec slot 0) as [|Hs0]; [injection Heq as <- <-; by exists progs1|].
  destruct (Hslot Hs0) as [_ Hspace]. destruct (Hput Hs0) as [-> Hlv]. clear Hslot Hput.
  destruct (hal_address_space_map_program slot phys size (pg k1)) as [rc p] eqn:Em.
  pose proof (map_program_code slot phys size (pg k1)) as Hcd. rewrite Em in Hcd. cbn [fst snd] in Hcd.
  destruct Hcd as [->|[-> Hall]]; cbn [Z.eqb negb] in Heq; injection Heq as <- <-.
  - destruct (map_program_ok slot _ _ phys size (pg k1) 0 p Hspace) as (pool & Hnew & _ & Hoth);
      [done | unfold PRIVATE_WINDOW_END in *; lia | done..|].
    eapply (apart_image live1 k1 _ (put slot None progs) slot pool); try done.
    + unfold put. by rewrite Z.eqb_refl.
    + by eapply claimed_grows.
    + intros j Hj Hl. unfold put. rewrite (proj2 (Z.eqb_neq _ _) Hj). by apply Hd, Hlv.
  - apply (isolated_keeps (set_pg p k1)); [by apply keeps_upd|]. exists (put slot None progs).
    destruct Hp1 as [P1 P2 P3]. split; [|exact P2 | exact P3]. intros j Hj. apply Hall, P1, Hj.
Qed.

(** The wrapper around a raw spawn adds capabilities only. *)
Lemma isolated_checked raw k : isolated k -> isolated (raw (hal_disable_interrupts k)).2 -> isolated (spawn_checked raw k).2.
Proof.
  intros H0 H1. unfold spawn_checked. cbv zeta. assert (Hk : forall b, isolated (set_irq b k)) by (intros b; by apply (isolated_keeps k); [apply keeps_same|]).
  destruct (negb _); [by apply (isolated_keeps k); [apply keeps_same|]|]. destruct (_ <=? _); [by apply (isolated_keeps k); [apply keeps_same|]|].
  destruct (raw _) as [child k1]. cbn [snd] in H1. destruct (child <? 0); [by apply (isolated_keeps k1); [apply keeps_same|]|].
  set (k2 := upd _ _ k1). assert (H2 : isolated k2) by (by apply (isolated_keeps k1); [apply keeps_upd|]).
  clearbody k2. set (spawner := current_actor _). clearbody spawner.
  pose proof (keeps_add_cap spawner CAP_SEND child k2) as P3. destruct (actor_add_cap spawner CAP_SEND child k2) as [r3 k3].
  pose proof (keeps_add_cap spawner CAP_TERMINATE child k3) as P4. destruct (actor_add_cap spawner CAP_TERMINATE child k3) as [r4 k4].
  pose proof (keeps_add_cap child CAP_SEND spawner k4) as P5. destruct (actor_add_cap child CAP_SEND spawner k4) as [r5 k5].
  cbn [snd] in *. apply (isolated_keeps k2); [|done]. apply keeps_irq. by rewrite P3, P4.
Qed.

(** Frames the allocator has just claimed are free for an image. *)
Lemma claimed_run_free live k progs n a m :
  kinv live k -> apart k progs -> n <= 2 ^ 31 -> alloc_dma_pages n (mem k) = (a, m) -> a <> 0 ->
  apart (set_mem m k) progs /\ image_free (set_mem m k) progs a (n * 4096).
Proof.
  intros Hi Hp Hn E Ha. unfold alloc_dma_pages in E.
  destruct (contig_claims 0x200000 n (mem k) a m ltac:(unfold MEM_BASE; lia) E Ha) as [Hg Hbits].
  destruct (find_and_claim_contig_spec _ live 0x200000 n a m (kc_mem _ _ (proj1 Hi))
              ltac:(unfold MEM_BASE, MEM_CAP; lia) eq_refl ltac:(lia) E) as [[? _]|(Hlo & Hn0 & Hok & _)]; [done|].
  destruct (Hok 0 ltac:(lia)) as [(Ham & _) _]. rewrite Z.add_0_r in Ham.
  split; [by apply (apart_keeps k); [apply keeps_mem|]|]. split.
  - split; [exact Hlo|]. intros i Hi0 Hi1. apply Hbits. lia.
  - intros i Hl. change (lives k i) in Hl. pose proof (ap_space _ _ Hp i Hl) as Hs. pose proof (ap_claimed _ _ Hp i Hl) as Hc.
    destruct (progs i) as [[[pool ph] sz]|]; [|done]. destruct Hc as [Hph Hused]. cbn.
    pose proof (sp_prog _ _ _ _ _ Hs) as (_ & _ & _ & Hsz & Hszm & Hphm & _).
    destruct (Z.le_gt_cases (ph + sz) a) as [|H1]; [by left|]. destruct (Z.le_gt_cases (a + n * 4096) ph) as [|H2]; [by right|]. exfalso.
    set (x := Z.max ph a). assert (Hx : idx ph + (x - ph) / 4096 = idx a + (x - a) / 4096).
    { unfold idx, MEM_BASE, PAGE_SIZE, x, PRIVATE_WINDOW_END in *. Z.div_mod_to_equations; lia. }
    assert (U1 : bitmap_is_used (idx ph + (x - ph) / 4096) (bitmap (mem k)) = true)
      by (apply Hused; unfold x; Z.div_mod_to_equations; lia).
    destruct (Hbits ((x - a) / 4096)) as [U2 _]; [unfold x; Z.div_mod_to_equations; lia|]. congruence.
Qed.
End spawning.

(** ** Every operation keeps it *)
Section operations.
Context {L : layout} {LOK : layout_ok L} {KL : klayout} {KC : kcode}.
Context (Hcode : actor_trampoline_addr <> schedule_next_ret).
Implicit Types (k : kern).

Lemma isolated_init k : isolated (scheduler_init k).
Proof.
  exists (fun _ => None).
  assert (Hd : forall i, ~ lives (scheduler_init k) i).
  { intros i [Hi Hs]. apply Hs. unfold scheduler_init. autorewrite with kact. rewrite upd_loop, Z2Nat.id by (unfold MAX_ACTORS; lia).
    by zcmp. }
  split; intros i; [intros H; by destruct (Hd i)..|]. intros j H. by destruct (Hd i).
Qed.

Lemma isolated_spawn live e k : kinv live k -> isolated k -> isolated (actor_spawn e k).2.
Proof.
  intros Hi [progs Hp]. destruct (actor_spawn e k) as [r k'] eqn:E.
  destruct (apart_spawn Hcode live e k r k' progs Hi Hp E) as (_ & progs' & Hp' & _). by exists progs'.
Qed.

(** The operations that return to their caller, a program's spawn apart. *)
Lemma isolated_event live ev k : kinv live k -> isolated k ->
  match ev with EvStart | EvYield | EvExit | EvReceive | EvSpawnProgram _ _ _ => False | _ => True end -> isolated (run_event ev k).2.
Proof.
  intros Hi Hk Hev. destruct ev as [d o' t'|s q|s w|e| | | |d ty x| |d o' t'|e|p s e|tg]; try done;
    try (by eapply isolated_keeps; [apply keeps_coded|]).
  - cbn [run_event coded snd]. by eapply isolated_spawn.
  - cbn [run_event coded snd]. apply isolated_checked; [done|]. apply (isolated_spawn live); [by apply kinv_irq|].
    by apply (isolated_keeps k); [apply keeps_same|].
Qed.

(** A program spawned into frames just claimed, whatever was copied there. *)
Lemma isolated_load live n a m k k1 e :
  kinv live k -> isolated k -> n <= 2 ^ 31 -> alloc_dma_pages n (mem k) = (a, m) -> a <> 0 ->
  keeps (set_mem m k) k1 -> (forall i, lives (set_mem m k) i -> lives k1 i) -> (exists live1, kinv live1 k1) -> image_ok a (n * 4096) ->
  isolated (actor_spawn_program_child a (n * 4096) e k1).2.
Proof.
  intros Hi [progs Hp] Hn E Ha Hk1 Hl [live1 Hi1] Himg.
  destruct (claimed_run_free live k progs n a m Hi Hp Hn E Ha) as [Hp1 [Hc Hd]].
  pose proof (apart_keeps _ _ _ Hk1 Hp1) as Hp2. unfold actor_spawn_program_child. apply isolated_checked; [by exists progs|].
  destruct (actor_spawn_program _ _ _ _) as [r k'] eqn:Es.
  refine (isolated_spawn_program Hcode live1 a (n * 4096) e _ r k' progs (kinv_irq _ _ false Hi1) _ Himg _ Es).
  - by apply (apart_keeps k1); [apply keeps_same|].
  - split; [exact (claimed_grows _ _ _ (ke_mem _ _ Hk1) Hc)|]. intros i H. by apply Hd, Hk1.
Qed.

(** *** Switches *)

#[local] Strategy 50 [settle resume actor_yield actor_exit actor_receive scheduler_start].
#[local] Strategy 100 [schedule_next receive_loop].

(** The boot context, before the first actor. *)
Definition booted k : Prop :=
  exists live, kinv live k /\ current_actor k = -1 /\ off_stacks (c_rsp (kcpu k)) /\ halted k = false.

Lemma isolated_settle live k0 b k : scheduled live k0 b k -> isolated k -> isolated (settle (b, k)).2.
Proof.
  intros Hs Hk. unfold settle. destruct b; [done|]. pose proof (keeps_settle live k0 k Hs) as H.
  destruct (resume k) as [l k']. by apply (isolated_keeps k).
Qed.

Lemma isolated_leave live st fr k :
  kinv live k -> 0 <= current_actor k -> in_own_stack (current_actor k) (c_rsp (kcpu k)) -> halted k = false ->
  (st = ACTOR_READY /\ fr = FYield \/ st = ACTOR_DEAD /\ fr = FExit) ->
  isolated k -> isolated (settle (leave st fr k)).2.
Proof.
  intros Hi H0 Hst Hh Hcase Hk. pose proof (keeps_leave st fr k (running_lives live k Hi H0)) as Hl.
  unfold leave in Hl |- *. destruct (schedule_next _ _) as [b k2] eqn:E.
  destruct (yield_schedules Hcode live k st fr b k2 Hi H0 Hst Hh Hcase E) as (l & k1 & Hs).
  eapply isolated_settle; [exact Hs | by eapply isolated_keeps].
Qed.

Lemma isolated_receive live k :
  kinv live k -> 0 <= current_actor k -> in_own_stack (current_actor k) (c_rsp (kcpu k)) -> halted k = false ->
  isolated k ->
  isolated (match receive_loop 1 k with
            | (Some m, k) => (RLanding (LReceived m), k)
            | (None, k) => settle (false, k)
            end).2.
Proof.
  intros Hi H0 Hst Hh Hk. pose proof (keeps_receive k (running_lives live k Hi H0)) as Hl.
  destruct (Z.eqb_spec (mailbox_count (act k (current_actor k))) 0) as [Hz|Hz].
  - destruct (receive_schedules Hcode live k Hi H0 Hst Hh Hz) as (k2 & l & E & Hs). rewrite E in Hl |- *.
    eapply isolated_settle; [exact Hs | by eapply isolated_keeps].
  - rewrite receive_loop_nonempty in Hl |- * by done. by eapply isolated_keeps.
Qed.

Lemma isolated_start k : booted k -> isolated k -> isolated (settle (scheduler_start k)).2.
Proof.
  intros (live & Hi & Hm1 & Hoff & Hh) Hk. pose proof (keeps_schedule SaveScheduler k) as Hl. unfold scheduler_start.
  destruct (schedule_next SaveScheduler k) as [b k2] eqn:E.
  assert (Hn : none_running k) by (intros i Hi' Hrun; apply (proj2 Hi) in Hrun; [lia|done]).
  destruct (schedule_spec Hcode SaveScheduler live k b k2 (proj1 Hi) Hn (conj Hm1 Hoff) Hh E) as (l & Hs).
  eapply isolated_settle; [exact Hs | by eapply isolated_keeps].
Qed.

Definition loads_program (ev : event) : bool := match ev with EvSpawnProgram _ _ _ => true | _ => false end.

Lemma kstep_isolated k ev r k' : kgood k -> kstep k ev r k' -> loads_program ev = false -> isolated k -> isolated k'.
Proof.
  intros (live & Hc & Hr) Hstep Hev Hk.
  destruct Hstep as [ev k r k' H1 H2 H3 H4 H5|ev c k r k' H1 H2 H3 H4 H5 H6].
  - pose proof (conj Hc (Hr H2)) as Hi. destruct ev; cbn [boot_event loads_program] in *; try discriminate Hev; try discriminate H3;
      try (match type of H5 with run_event ?ev _ = _ => pose proof (isolated_event live ev k Hi Hk I) as H end; by rewrite H5 in H).
    change (settle (scheduler_start k) = (r, k')) in H5.
    pose proof (isolated_start k ltac:(by exists live) Hk) as H. by rewrite H5 in H.
  - assert (Hi : kinv live (enter c k)) by (apply enter_inv; by split; [|apply Hr]).
    assert (Hk1 : isolated (enter c k)) by (by apply (isolated_keeps k); [apply keeps_same|]).
    destruct ev; cbn [boot_event loads_program] in *; try discriminate Hev; try discriminate H3;
      try (match type of H6 with run_event ?ev _ = _ => pose proof (isolated_event live ev (enter c k) Hi Hk1 I) as H end; by rewrite H6 in H).
    + change (settle (actor_yield (enter c k)) = (r, k')) in H6. rewrite yield_leave in H6 by done.
      pose proof (isolated_leave live ACTOR_READY FYield (hal_disable_interrupts (enter c k)) (kinv_irq live _ false Hi) H1 H5 H2 (or_introl (conj eq_refl eq_refl))
        ltac:(by apply (isolated_keeps (enter c k)); [apply keeps_same|])) as H. by rewrite H6 in H.
    + change (settle (actor_exit (enter c k)) = (r, k')) in H6. rewrite exit_leave in H6.
      pose proof (isolated_leave live ACTOR_DEAD FExit (hal_disable_interrupts (enter c k)) (kinv_irq live _ false Hi) H1 H5 H2 (or_intror (conj eq_refl eq_refl))
        ltac:(by apply (isolated_keeps (enter c k)); [apply keeps_same|])) as H. by rewrite H6 in H.
    + pose proof (isolated_receive live (hal_disable_interrupts (enter c k)) (kinv_irq live _ false Hi) H1 H5 H2
        ltac:(by apply (isolated_keeps (enter c k)); [apply keeps_same|])) as H.
      cbn [run_event] in H6. unfold actor_receive in H6. by rewrite H6 in H.
Qed.

(** ** What it means for the actors *)

(** Two live actors share no ring-3 reachable byte but [.user_text]. *)
Lemma live_actors_apart k i j va vb ti tj :
  ksound k -> lives k i -> lives k j -> i <> j ->
  0 <= va < 2 ^ 48 -> 0 <= vb < 2 ^ 48 ->
  walk (pg k) (a_cr3 (act k i)) va = Some ti -> t_user ti = true ->
  walk (pg k) (a_cr3 (act k j)) vb = Some tj -> t_user tj = true ->
  t_pa ti = t_pa tj -> user_text_start <= t_pa ti < user_text_end.
Proof.
  intros [(live & Hc & _) [progs Hp]] Hi Hj Hne Hva Hvb Wi Ui Wj Uj.
  destruct (so_alive _ _ _ _ _ _ _ (kc_slot _ _ Hc i (proj1 Hi)) (proj2 Hi)) as (Pi & Ei & _).
  destruct (so_alive _ _ _ _ _ _ _ (kc_slot _ _ Hc j (proj1 Hj)) (proj2 Hj)) as (Pj & Ej & _).
  rewrite Ei in Wi. rewrite Ej in Wj.
  pose proof (ap_space _ _ Hp i Hi) as Si. pose proof (ap_space _ _ Hp j Hj) as Sj.
  apply (spaces_share_user_text_only (pg k) i j _ _ _ _ _ _ va vb ti tj Si Sj); try done.
  pose proof (kc_inj _ _ Hc i j (proj1 Hi) (proj1 Hj) Hne Pi) as Hd.
  pose proof (sp_align _ _ _ _ _ Si). pose proof (sp_align _ _ _ _ _ Sj).
  split; [unfold ACTOR_STACK_SIZE in *; Z.div_mod_to_equations; lia|].
  pose proof (ap_claimed _ _ Hp i Hi) as Ci. pose proof (ap_claimed _ _ Hp j Hj) as Cj.
  pose proof (ap_disjoint _ _ Hp i j Hi Hj Hne) as Dij.
  split; [by destruct (progs i) as [[[]]|]; [apply Ci|]|]. split; [by destruct (progs j) as [[[]]|]; [apply Cj|] | exact Dij].
Qed.
End operations.
