(* ===== verification/Ports.v ===== *)
(** * Port input and output

    The [in]/[out] instructions the drivers of [src/hal/x86_64/] wrap in
    [inb], [outb] and friends.  What is behind a port is hardware, so a bus is
    an interface: a client's theorems hold for every bus, or name the device
    model they assume. *)
From S2P Require Import Prelude.

(** [port_in w p b] and [port_out w p v b]: a [w]-byte access to port [p].
    A read may change the device, as most of these do. *)
Class PortBus (B : Type) := {
  port_in : Z -> Z -> B -> Z * B;
  port_out : Z -> Z -> Z -> B -> B
}.

Section ports.
Context {B : Type} `{!PortBus B}.
Implicit Types (b : B).

Definition inb (port : Z) b : Z * B := let '(v, b) := port_in 1 port b in (u8 v, b).
Definition inw (port : Z) b : Z * B := let '(v, b) := port_in 2 port b in (u16 v, b).
Definition inl (port : Z) b : Z * B := let '(v, b) := port_in 4 port b in (u32 v, b).
Definition outb (port v : Z) b : B := port_out 1 port (u8 v) b.
Definition outw (port v : Z) b : B := port_out 2 port (u16 v) b.
Definition outl (port v : Z) b : B := port_out 4 port (u32 v) b.
End ports.

(** [for (i = 0; i < n; i++) if (poll()) return ...;]: poll a device at most
    [n] times, threading its state.  [None] when every poll failed. *)
Fixpoint poll_until {T R : Type} (n : nat) (poll : T -> option R * T) (s : T)   : option R * T :=
  match n with
  | O => (None, s)
  | S n =>
      match poll s with
      | (Some r, s) => (Some r, s)
      | (None, s) => poll_until n poll s
      end
  end.

(** If the polls [0..k-1] fail and the [k]-th answers, polling returns that
    answer. *)
Lemma poll_until_hit {T R : Type} (poll : T -> option R * T) (st : nat -> T) r k n :
  (k < n)%nat ->
  (forall i, (i < k)%nat -> poll (st i) = (None, st (S i))) ->
  (poll (st k)).1 = Some r ->
  poll_until n poll (st O) = (Some r, (poll (st k)).2).
Proof.
  revert st n; induction k as [|k IH]; intros st n Hn Hmiss Hhit; destruct n as [|n]; try lia; cbn [poll_until].
  - destruct (poll (st O)) as [o s]. cbn in *. by subst.
  - rewrite Hmiss by lia. apply (IH (fun i => st (S i))); [lia | | done].
    intros i Hi. apply Hmiss. lia.
Qed.

(** A device no poll of which ever answers exhausts the budget. *)
Lemma poll_until_miss {T R : Type} (P : T -> Prop) (poll : T -> option R * T) n s :
  (forall s, P s -> (poll s).1 = None /\ P (poll s).2) -> P s ->
  (poll_until n poll s).1 = None /\ P (poll_until n poll s).2.
Proof.
  intros Hstep. revert s; induction n as [|n IH]; intros s Hs; [done|].
  cbn [poll_until]. destruct (Hstep s Hs) as [Hn Hp]. destruct (poll s) as [o s'].
  cbn in *. subst. by apply IH.
Qed.

(** What every poll keeps, polling keeps. *)
Lemma poll_until_keeps {T R : Type} (P : T -> Prop) (poll : T -> option R * T) n s :
  (forall s, P s -> P (poll s).2) -> P s -> P (poll_until n poll s).2.
Proof.
  intros Hstep. revert s; induction n as [|n IH]; intros s Hs; [done|].
  cbn [poll_until]. specialize (Hstep s Hs). destruct (poll s) as [[r|] s']; [done | by apply IH].
Qed.
