(* ===== verification/Pic.v ===== *)
(** * Interrupt controller and timer

    Models [src/hal/x86_64/pic.c] and [src/hal/x86_64/timer.c] as programs on a
    port bus.  [pc] is the documented programming model of the chips they
    talk to: two cascaded 8259 controllers and counter 0 of an 8254. *)
From S2P Require Import Prelude Ports.

Definition PIC1_CMD : Z := 0x20.
Definition PIC1_DATA : Z := 0x21.
Definition PIC2_CMD : Z := 0xA0.
Definition PIC2_DATA : Z := 0xA1.
Definition ICW1_INIT : Z := 0x11.
Definition ICW4_8086 : Z := 0x01.
Definition PIT_CHANNEL0 : Z := 0x40.
Definition PIT_COMMAND : Z := 0x43.
Definition PIT_BASE_HZ : Z := 1193182.

Section pic.
Context {B : Type} `{!PortBus B}.
Implicit Types (b : B).

Definition hal_pic_remap b : B :=
  let b := outb PIC1_CMD ICW1_INIT b in
  let b := outb PIC2_CMD ICW1_INIT b in
  let b := outb PIC1_DATA 0x20 b in
  let b := outb PIC2_DATA 0x28 b in
  let b := outb PIC1_DATA 0x04 b in
  let b := outb PIC2_DATA 0x02 b in
  let b := outb PIC1_DATA ICW4_8086 b in
  let b := outb PIC2_DATA ICW4_8086 b in
  let b := outb PIC1_DATA 0xFC b in
  outb PIC2_DATA 0xFF b.

Definition hal_pic_send_eoi (irq : Z) b : B :=
  let b := if 8 <=? irq then outb PIC2_CMD 0x20 b else b in
  outb PIC1_CMD 0x20 b.

Definition hal_timer_init (frequency_hz : Z) b : B :=
  let divisor := PIT_BASE_HZ / frequency_hz in
  let b := outb PIT_COMMAND 0x36 b in
  let b := outb PIT_CHANNEL0 (divisor .&. 0xFF) b in
  outb PIT_CHANNEL0 ((divisor .>>. 8) .&. 0xFF) b.
End pic.

(** ** The chips *)

(** [p_icw] is the initialisation word the data port expects next: 2, 3 or 4,
    or 0 when the chip is initialised and the port is the mask register. *)
Record pic8259 := Pic8259 { p_base : Z; p_icw : Z; p_mask : Z; p_isr : Z }.

(** Bit 4 of a command starts initialisation; 0x20 is a non-specific end of
    interrupt, which retires the highest-priority request in service, that is
    the lowest set bit. *)
Definition lowest_bit (x : Z) : Z := x .&. (- x).
Definition pic_command (v : Z) (p : pic8259) : pic8259 :=
  if Z.testbit v 4 then Pic8259 (p_base p) 2 0 0
  else if v =? 0x20 then Pic8259 (p_base p) (p_icw p) (p_mask p) (p_isr p - lowest_bit (p_isr p))
  else p.
Definition pic_data (v : Z) (p : pic8259) : pic8259 :=
  if p_icw p =? 2 then Pic8259 (v .&. 0xF8) 3 (p_mask p) (p_isr p)
  else if p_icw p =? 3 then Pic8259 (p_base p) 4 (p_mask p) (p_isr p)
  else if p_icw p =? 4 then Pic8259 (p_base p) 0 (p_mask p) (p_isr p)
  else Pic8259 (p_base p) 0 v (p_isr p).

(** Counter 0 of the 8254 after a "low byte, then high byte" command. *)
Record pit8254 := Pit8254 { t_mode : Z; t_low : option Z; t_reload : Z }.

Record pc := Pc { pc_master : pic8259; pc_slave : pic8259; pc_pit : pit8254 }.

Definition pit_data (v : Z) (t : pit8254) : pit8254 :=
  match t_low t with
  | None => Pit8254 (t_mode t) (Some v) (t_reload t)
  | Some lo =>
      let count := lo + 256 * v in
      Pit8254 (t_mode t) None (if count =? 0 then 65536 else count)
  end.

Definition pc_out (w p v : Z) (m : pc) : pc :=
  if p =? PIC1_CMD then Pc (pic_command v (pc_master m)) (pc_slave m) (pc_pit m)
  else if p =? PIC1_DATA then Pc (pic_data v (pc_master m)) (pc_slave m) (pc_pit m)
  else if p =? PIC2_CMD then Pc (pc_master m) (pic_command v (pc_slave m)) (pc_pit m)
  else if p =? PIC2_DATA then Pc (pc_master m) (pic_data v (pc_slave m)) (pc_pit m)
  else if p =? PIT_COMMAND then Pc (pc_master m) (pc_slave m) (Pit8254 v None (t_reload (pc_pit m)))
  else if p =? PIT_CHANNEL0 then Pc (pc_master m) (pc_slave m) (pit_data v (pc_pit m))
  else m.
#[export] Instance pc_bus : PortBus pc := {| port_in := fun _ _ m => (0, m); port_out := pc_out |}.

(** The vector the processor takes for IRQ line [irq], if it is let through.
    The slave hangs on the master's line 2. *)
Definition pic_vector (m : pc) (irq : Z) : option Z :=
  if negb ((p_icw (pc_master m) =? 0) && (p_icw (pc_slave m) =? 0)) then None
  else if irq <? 8 then
    if Z.testbit (p_mask (pc_master m)) irq then None else Some (p_base (pc_master m) + irq)
  else if Z.testbit (p_mask (pc_master m)) 2 || Z.testbit (p_mask (pc_slave m)) (irq - 8) then None
  else Some (p_base (pc_slave m) + (irq - 8)).

(** ** Theorems *)

(** after [hal_pic_remap], from any state of the two chips, exactly two
    lines are delivered: the timer on vector 32 and the keyboard on vector
    33.  Both are clear of the processor's exception vectors, and every other
    line, the slave's included, is masked. *)
Theorem remap_delivers_timer_and_keyboard (m : pc) irq :
  0 <= irq < 16 ->
  pic_vector (hal_pic_remap m) irq =
  if irq =? 0 then Some 32 else if irq =? 1 then Some 33 else None.
Proof.
  intros Hirq. destruct m as [[] [] []].
  assert (irq = 0 \/ irq = 1 \/ irq = 2 \/ irq = 3 \/ irq = 4 \/ irq = 5 \/ irq = 6 \/ irq = 7 \/
          irq = 8 \/ irq = 9 \/ irq = 10 \/ irq = 11 \/ irq = 12 \/ irq = 13 \/ irq = 14 \/ irq = 15) as H by lia.
  repeat destruct H as [->|H]; try subst irq; reflexivity.
Qed.

Lemma lowest_bit_pow n : 0 <= n -> lowest_bit (2 ^ n) = 2 ^ n.
Proof.
  intros Hn. unfold lowest_bit. apply Z.bits_inj'. intros k Hk. rewrite Z.land_spec.
  destruct (Z.eq_dec k n) as [->|Hne].
  - rewrite Z.bits_opp by lia. rewrite Z.pow2_bits_true by lia. cbn [andb].
    rewrite <- Z.ones_equiv. by rewrite Z.ones_spec_high by lia.
  - by rewrite Z.pow2_bits_false by lia.
Qed.

(** Acknowledging the one request in service leaves none in service, so the
    chip can deliver the next. *)
Lemma eoi_retires (m : pc) irq :
  0 <= irq < 8 -> p_isr (pc_master m) = 2 ^ irq ->
  p_isr (pc_master (hal_pic_send_eoi irq m)) = 0.
Proof.
  intros Hirq Hisr. destruct m as [[bs icw mk isr] sl t]. cbn in Hisr. subst isr.
  unfold hal_pic_send_eoi. zcmp.
  change (2 ^ irq - lowest_bit (2 ^ irq) = 0). rewrite lowest_bit_pow by lia. lia.
Qed.

Lemma timer_reload f (m : pc) :
  1 <= f -> PIT_BASE_HZ / f < 65536 -> 1 <= PIT_BASE_HZ / f ->
  t_reload (pc_pit (hal_timer_init f m)) = PIT_BASE_HZ / f.
Proof.
  intros Hf Hd Hd1. unfold hal_timer_init. set (d := PIT_BASE_HZ / f) in *.
  assert (E : u8 (d .&. 0xFF) + 256 * u8 ((d .>>. 8) .&. 0xFF) = d).
  { change 0xFF with (Z.ones 8). rewrite !Z.land_ones, Z.shiftr_div_pow2 by lia. unfold u8.
    Z.div_mod_to_equations; lia. }
  cbn -[Z.land Z.shiftr u8]. rewrite E. destruct (Z.eqb_spec d 0); [lia | done].
Qed.

(** for every frequency the counter can divide to, [hal_timer_init]
    programs the largest period that still ticks at least that often: mode 3,
    and a reload [r] with [r * f <= 1193182 < (r + 1) * f]. *)
Theorem timer_period (f : Z) (m : pc) :
  19 <= f <= PIT_BASE_HZ ->
  let t := pc_pit (hal_timer_init f m) in
  t_mode t = 0x36 /\ t_low t = None /\
  t_reload t * f <= PIT_BASE_HZ < (t_reload t + 1) * f.
Proof.
  intros Hf t. split; [done|]. split; [done|]. unfold t.
  assert (PIT_BASE_HZ / f < 65536 /\ 1 <= PIT_BASE_HZ / f) as [? ?].
  { unfold PIT_BASE_HZ in *. Z.div_mod_to_equations; nia. }
  rewrite timer_reload by lia. unfold PIT_BASE_HZ in *. Z.div_mod_to_equations; nia.
Qed.

(** Below 19 Hz the divisor does not fit the 16-bit counter and its high bits
    are lost: asking for 18 Hz programs 1588 Hz. *)
Example timer_18hz_truncates (m : pc) : t_reload (pc_pit (hal_timer_init 18 m)) = 751.
Proof. by destruct m as [? ? []]. Qed.

Definition pc_reset : pc := Pc (Pic8259 0x08 0 0 0) (Pic8259 0x70 0 0 0) (Pit8254 0 None 65536).

Lemma remap_delivers_timer_and_keyboard_witness :
  pic_vector (hal_pic_remap pc_reset) 0 = Some 32 /\ pic_vector (hal_pic_remap pc_reset) 14 = None.
Proof.
  split; [apply (remap_delivers_timer_and_keyboard pc_reset 0); lia |
          apply (remap_delivers_timer_and_keyboard pc_reset 14); lia].
Defined.

Lemma timer_period_witness : t_reload (pc_pit (hal_timer_init 100 pc_reset)) * 100 <= PIT_BASE_HZ.
Proof. apply (timer_period 100 pc_reset). unfold PIT_BASE_HZ. lia. Defined.
