(* ===== verification/Keyboard.v ===== *)
(** * Keyboard driver

    Models [src/hal/x86_64/keyboard.c]: scancode decoding, the shift state and
    the ring buffer between the interrupt handler and [hal_keyboard_poll].
    Characters are bytes. *)
From S2P Require Import Prelude Ports.

Definition KBD_DATA_PORT : Z := 0x60.
Definition KBD_STATUS_PORT : Z := 0x64.
Definition KBD_BUF_SIZE : Z := 32.
Definition SCANCODE_LSHIFT : Z := 0x2A.
Definition SCANCODE_RSHIFT : Z := 0x36.

(** The two tables, as ASCII codes. *)
Definition scancode_lower : list Z :=
  [0; 27; 49; 50; 51; 52; 53; 54; 55; 56;
   57; 48; 45; 61; 8; 9; 113; 119; 101; 114;
   116; 121; 117; 105; 111; 112; 91; 93; 10; 0;
   97; 115; 100; 102; 103; 104; 106; 107; 108; 59;
   39; 96; 0; 92; 122; 120; 99; 118; 98; 110;
   109; 44; 46; 47; 0; 42; 0; 32].

Definition scancode_upper : list Z :=
  [0; 27; 33; 64; 35; 36; 37; 94; 38; 42;
   40; 41; 95; 43; 8; 9; 81; 87; 69; 82;
   84; 89; 85; 73; 79; 80; 123; 125; 10; 0;
   65; 83; 68; 70; 71; 72; 74; 75; 76; 58;
   34; 126; 0; 124; 90; 88; 67; 86; 66; 78;
   77; 60; 62; 63; 0; 42; 0; 32].

Definition char_at (t : list Z) (i : Z) : Z := default 0 (t !! Z.to_nat i).

Record kbd := Kbd { kbd_buf : gmap Z Z; kbd_head : Z; kbd_tail : Z; shift_held : Z }.

Section keyboard.
Context {B : Type} `{!PortBus B}.
Implicit Types (b : B) (k : kbd).

Definition set_shift (v : Z) k : kbd := Kbd (kbd_buf k) (kbd_head k) (kbd_tail k) v.

(** The handler after the read of the data port. *)
Definition handle_scancode (sc : Z) k : kbd :=
  if (sc =? SCANCODE_LSHIFT) || (sc =? SCANCODE_RSHIFT) then set_shift 1 k
  else if (sc =? SCANCODE_LSHIFT .|. 0x80) || (sc =? SCANCODE_RSHIFT .|. 0x80) then set_shift 0 k
  else if negb (sc .&. 0x80 =? 0) then k
  else if 0x3A <=? sc then k
  else
    let c := if negb (shift_held k =? 0) then char_at scancode_upper sc else char_at scancode_lower sc in
    if c =? 0 then k
    else
      let next := (kbd_head k + 1) mod KBD_BUF_SIZE in
      if negb (next =? kbd_tail k)
      then Kbd (<[kbd_head k := c]> (kbd_buf k)) next (kbd_tail k) (shift_held k)
      else k.

Definition hal_keyboard_irq_handler k b : kbd * B :=
  let '(sc, b) := inb KBD_DATA_PORT b in (handle_scancode sc k, b).

(** [while (inb(KBD_STATUS_PORT) & 0x01) inb(KBD_DATA_PORT);], with fuel;
    [None] if the controller never runs dry. *)
Fixpoint hal_keyboard_init (fuel : nat) b : option B :=
  match fuel with
  | O => None
  | S fuel =>
      let '(status, b) := inb KBD_STATUS_PORT b in
      if negb (status .&. 0x01 =? 0) then let '(_, b) := inb KBD_DATA_PORT b in hal_keyboard_init fuel b
      else Some b
  end.

Definition hal_keyboard_poll k : Z * kbd :=
  if kbd_head k =? kbd_tail k then (-1, k)
  else
    let c := kbd_buf k !!! kbd_tail k in
    (u8 c, Kbd (kbd_buf k) (kbd_head k) ((kbd_tail k + 1) mod KBD_BUF_SIZE) (shift_held k)).
End keyboard.

(** ** The ring as a bounded queue *)

Definition kbd_queue (k : kbd) : list Z :=
  ring KBD_BUF_SIZE (kbd_buf k) (kbd_tail k) ((kbd_head k - kbd_tail k) mod KBD_BUF_SIZE).

Record kbd_ok (k : kbd) : Prop := KbdOk {
  kbd_head_ok : 0 <= kbd_head k < KBD_BUF_SIZE;
  kbd_tail_ok : 0 <= kbd_tail k < KBD_BUF_SIZE;
  kbd_chars_ok : Forall in_u8 (kbd_queue k)
}.

(** What a scancode means to someone typing: the shift state it leaves, and
    the character it types. *)
Definition is_shift (sc : Z) : bool := (sc =? SCANCODE_LSHIFT) || (sc =? SCANCODE_RSHIFT).
Definition key_down (sc : Z) : bool := sc <? 0x80.
Definition typed (shift : bool) (sc : Z) : option Z :=
  if is_shift sc || negb (key_down sc) then None
  else
    let c := char_at (if shift then scancode_upper else scancode_lower) sc in
    if c =? 0 then None else Some c.
Definition shift_after (shift : bool) (sc : Z) : bool :=
  if is_shift sc then true else if is_shift (sc - 0x80) then false else shift.

(** A keyboard that can hold 31 characters, and drops what does not fit. *)
Definition type_key (s : bool * list Z) (sc : Z) : bool * list Z :=
  (shift_after s.1 sc,
   match typed s.1 sc with
   | Some c => if Z.of_nat (length s.2) <? KBD_BUF_SIZE - 1 then s.2 ++ [c] else s.2
   | None => s.2
   end).

Lemma char_beyond t sc : Z.of_nat (length t) <= sc -> char_at t sc = 0.
Proof. intros H. unfold char_at. by rewrite lookup_ge_None_2 by lia. Qed.

Lemma Forall_char (P : Z -> Prop) t sc : P 0 -> Forall P t -> P (char_at t sc).
Proof.
  intros H0 Ht. unfold char_at. destruct (t !! Z.to_nat sc) eqn:E; [|done].
  by eapply Forall_lookup_1.
Qed.

Lemma char_u8 (shift : bool) sc : in_u8 (char_at (if shift then scancode_upper else scancode_lower) sc).
Proof.
  apply (Forall_char in_u8); [by split|].
  apply Forall_forall. intros x Hx.
  assert (forallb (fun c => (0 <=? c) && (c <? 2 ^ 8)) (if shift then scancode_upper else scancode_lower) = true)
    as Hb by by destruct shift.
  rewrite forallb_forall in Hb. specialize (Hb x Hx). breflect. by split.
Qed.

Lemma typed_u8 shift sc c : typed shift sc = Some c -> in_u8 c /\ c <> 0.
Proof.
  unfold typed. destruct (is_shift sc || negb (key_down sc)); [done|].
  destruct (Z.eqb_spec (char_at (if shift then scancode_upper else scancode_lower) sc) 0); [done|].
  intros [= <-]. split; [apply char_u8 | done].
Qed.

(** The high bit of a byte is the release flag. *)
Lemma release_flag sc : in_u8 sc -> (sc .&. 0x80 =? 0) = key_down sc.
Proof.
  intros Hs. change 0x80 with (2 ^ 7).
  unfold key_down. replace (sc .&. 2 ^ 7) with (if Z.testbit sc 7 then 2 ^ 7 else 0).
  2: { apply Z.bits_inj'. intros n Hn. rewrite Z.land_spec. destruct (Z.eq_dec n 7) as [->|Hne].
       - destruct (Z.testbit sc 7) eqn:E; [by rewrite Z.pow2_bits_true|by rewrite Z.bits_0].
       - rewrite (Z.pow2_bits_false 7 n) by lia. rewrite andb_false_r.
         destruct (Z.testbit sc 7); [by rewrite Z.pow2_bits_false by lia | by rewrite Z.bits_0]. }
  rewrite Z.testbit_eqb by lia. unfold in_u8 in Hs.
  destruct (Z.eqb_spec (sc / 2 ^ 7 mod 2) 1), (Z.ltb_spec sc 0x80); try done; Z.div_mod_to_equations; lia.
Qed.

Lemma key_code sc : in_u8 sc -> key_down sc = true -> is_shift (sc - 0x80) = false.
Proof.
  unfold in_u8, key_down, is_shift, SCANCODE_LSHIFT, SCANCODE_RSHIFT. intros Hs Hd. breflect. zcmp. done.
Qed.

(** The handler's early returns, as one decision. *)
Lemma handle_scancode_cases sc k :
  in_u8 sc ->
  handle_scancode sc k =
  match typed (negb (shift_held k =? 0)) sc with
  | Some c =>
      let next := (kbd_head k + 1) mod KBD_BUF_SIZE in
      if negb (next =? kbd_tail k)
      then Kbd (<[kbd_head k := c]> (kbd_buf k)) next (kbd_tail k) (shift_held k) else k
  | None => if is_shift sc then set_shift 1 k else if is_shift (sc - 0x80) then set_shift 0 k else k
  end.
Proof.
  intros Hs. unfold handle_scancode, typed. fold (is_shift sc).
  destruct (is_shift sc) eqn:Esh; [done|]. cbn [orb].
  replace ((sc =? SCANCODE_LSHIFT .|. 0x80) || (sc =? SCANCODE_RSHIFT .|. 0x80)) with (is_shift (sc - 0x80)).
  2: { unfold is_shift. change (SCANCODE_LSHIFT .|. 0x80) with 0xAA. change (SCANCODE_RSHIFT .|. 0x80) with 0xB6.
       unfold SCANCODE_LSHIFT, SCANCODE_RSHIFT. bdestruct_all; done || lia. }
  destruct (key_down sc) eqn:Ed.
  - rewrite (key_code sc Hs Ed), release_flag, Ed by done. cbn [negb].
    destruct (shift_held k =? 0); cbn [negb]; destruct (Z.leb_spec 0x3A sc);
      try (rewrite char_beyond by done; done); by destruct (_ =? 0).
  - rewrite release_flag, Ed by done. cbn [negb]. by destruct (is_shift (sc - 0x80)).
Qed.

Definition kbd_abs (k : kbd) : bool * list Z := (negb (shift_held k =? 0), kbd_queue k).

Lemma kbd_room k :
  kbd_ok k ->
  Z.of_nat (length (kbd_queue k)) = (kbd_head k - kbd_tail k) mod KBD_BUF_SIZE /\
  ((kbd_head k + 1) mod KBD_BUF_SIZE = kbd_tail k <-> Z.of_nat (length (kbd_queue k)) = KBD_BUF_SIZE - 1).
Proof.
  intros [Hh Ht _]. unfold kbd_queue.
  rewrite length_ring by (apply Z.mod_pos_bound; done). split; [done|].
  unfold KBD_BUF_SIZE in *. split; intros; Z.div_mod_to_equations; lia.
Qed.

Lemma push_key k c :
  kbd_ok k -> in_u8 c -> (kbd_head k + 1) mod KBD_BUF_SIZE <> kbd_tail k ->
  let k' := Kbd (<[kbd_head k := c]> (kbd_buf k)) ((kbd_head k + 1) mod KBD_BUF_SIZE) (kbd_tail k) (shift_held k) in
  kbd_queue k' = kbd_queue k ++ [c] /\ kbd_ok k'.
Proof.
  intros Hok Hc Hroom k'. destruct (kbd_room k Hok) as [Hlen Hfull].
  destruct Hok as [Hh Ht Hq].
  assert (Eq : kbd_queue k' = kbd_queue k ++ [c]).
  { unfold kbd_queue. cbn [kbd_head kbd_tail kbd_buf k'].
    set (n := (kbd_head k - kbd_tail k) mod KBD_BUF_SIZE) in *.
    replace (((kbd_head k + 1) mod KBD_BUF_SIZE - kbd_tail k) mod KBD_BUF_SIZE) with (n + 1).
    2: { subst n. unfold KBD_BUF_SIZE in *. Z.div_mod_to_equations; lia. }
    replace (<[kbd_head k := c]> (kbd_buf k))
      with (<[(kbd_tail k + n) mod KBD_BUF_SIZE := c]> (kbd_buf k)).
    2: { f_equal. subst n. unfold KBD_BUF_SIZE in *. Z.div_mod_to_equations; lia. }
    apply ring_push; [lia|]. subst n. unfold KBD_BUF_SIZE in *. Z.div_mod_to_equations; lia. }
  split; [done|]. split; cbn [kbd_head kbd_tail k'].
  - by apply Z.mod_pos_bound.
  - done.
  - rewrite Eq. by apply Forall_app; split; [|by constructor].
Qed.

(** One interrupt is one [type_key]. *)
Lemma scancode_refines sc k :
  in_u8 sc -> kbd_ok k ->
  kbd_ok (handle_scancode sc k) /\ kbd_abs (handle_scancode sc k) = type_key (kbd_abs k) sc.
Proof.
  intros Hs Hok. rewrite handle_scancode_cases by done. unfold kbd_abs at 2, type_key, shift_after. cbn [fst snd].
  destruct (typed (negb (shift_held k =? 0)) sc) as [c|] eqn:Et.
  - assert (is_shift sc = false /\ is_shift (sc - 0x80) = false) as [-> ->].
    { revert Et. unfold typed. destruct (is_shift sc); [done|]. destruct (key_down sc) eqn:Ed; [|done].
      by rewrite (key_code sc Hs Ed). }
    destruct (kbd_room k Hok) as [Hlen Hfull]. cbv zeta.
    destruct (Z.eqb_spec ((kbd_head k + 1) mod KBD_BUF_SIZE) (kbd_tail k)) as [E|E]; cbn [negb].
    + rewrite (proj1 Hfull E), Z.ltb_irrefl. done.
    + destruct (push_key k c Hok (proj1 (typed_u8 _ _ _ Et)) E) as [Hq Hok'].
      split; [exact Hok'|]. unfold kbd_abs. rewrite Hq. cbn [shift_held].
      assert (Z.of_nat (length (kbd_queue k)) < KBD_BUF_SIZE - 1) as Hlt.
      { assert (Z.of_nat (length (kbd_queue k)) < KBD_BUF_SIZE)
          by (rewrite Hlen; apply Z.mod_pos_bound; done). lia. }
      by rewrite (proj2 (Z.ltb_lt _ _) Hlt).
  - by destruct (is_shift sc), (is_shift (sc - 0x80)), k; destruct Hok; split.
Qed.

(** A poll takes the oldest character. *)
Lemma poll_refines k :
  kbd_ok k ->
  match kbd_queue k with
  | [] => hal_keyboard_poll k = (-1, k)
  | c :: q => exists k', hal_keyboard_poll k = (c, k') /\ kbd_ok k' /\ kbd_queue k' = q /\ shift_held k' = shift_held k
  end.
Proof.
  intros Hok. destruct (kbd_room k Hok) as [Hlen _]. destruct Hok as [Hh Ht Hq]. unfold hal_keyboard_poll.
  assert (Hn := Z.mod_pos_bound (kbd_head k - kbd_tail k) KBD_BUF_SIZE eq_refl).
  destruct (Z.eqb_spec (kbd_head k) (kbd_tail k)) as [E|E].
  - destruct (kbd_queue k); [done|]. rewrite E, Z.sub_diag, Z.mod_0_l in Hlen by done. cbn in Hlen. lia.
  - assert (Eq : kbd_queue k = (kbd_buf k !!! kbd_tail k) ::
                   kbd_queue (Kbd (kbd_buf k) (kbd_head k) ((kbd_tail k + 1) mod KBD_BUF_SIZE) (shift_held k))).
    { unfold kbd_queue at 1. rewrite ring_pop by (done || (unfold KBD_BUF_SIZE in *; Z.div_mod_to_equations; lia)).
      f_equal. unfold kbd_queue. cbn [kbd_head kbd_tail kbd_buf]. f_equal.
      unfold KBD_BUF_SIZE in *. Z.div_mod_to_equations; lia. }
    rewrite Eq in *. inversion Hq; subst. rewrite u8_small by done.
    eexists. split; [reflexivity|]. split_and!; [|done|done].
    split; cbn [kbd_head kbd_tail]; [done | by apply Z.mod_pos_bound | done].
Qed.

(** Poll until the buffer is empty, as the shell does between yields. *)
Fixpoint drain (fuel : nat) (k : kbd) : list Z * kbd :=
  match fuel with
  | O => ([], k)
  | S fuel =>
      let '(c, k') := hal_keyboard_poll k in
      if c =? -1 then ([], k) else let '(cs, k') := drain fuel k' in (c :: cs, k')
  end.

Lemma drain_all fuel k :
  kbd_ok k -> (length (kbd_queue k) < fuel)%nat -> (drain fuel k).1 = kbd_queue k.
Proof.
  revert k; induction fuel as [|fuel IH]; intros k Hok Hf; [lia|]. cbn [drain].
  pose proof (poll_refines k Hok) as Hp. pose proof (kbd_chars_ok _ Hok) as Hc.
  destruct (kbd_queue k) as [|c q] eqn:Eq; [by rewrite Hp|].
  destruct Hp as (k' & -> & Hok' & Hq' & _). inversion Hc as [|? ? Hc0]; subst.
  destruct (Z.eqb_spec c (-1)); [unfold in_u8 in Hc0; lia|].
  specialize (IH k' Hok'). destruct (drain fuel k') as [cs k'']. cbn [fst] in *. f_equal. apply IH.
  cbn in Hf. lia.
Qed.

(** C30: what the keyboard delivers is what was typed.  After any sequence of
    scancode interrupts, polling the buffer until it is empty yields exactly
    the characters a 31-character keyboard would hold: every key press decoded
    under the shift state of its moment, in order, with nothing lost until the
    buffer is full and nothing ever overwritten. *)
Theorem keyboard_refines_typing (scs : list Z) k :
  kbd_ok k -> Forall in_u8 scs ->
  let k' := fold_left (fun k sc => handle_scancode sc k) scs k in
  kbd_ok k' /\ kbd_abs k' = fold_left type_key scs (kbd_abs k) /\
  (drain (Z.to_nat KBD_BUF_SIZE) k').1 = (fold_left type_key scs (kbd_abs k)).2.
Proof.
  intros Hok Hs k'. assert (H : kbd_ok k' /\ kbd_abs k' = fold_left type_key scs (kbd_abs k)).
  { subst k'. revert k Hok. induction Hs as [|sc scs Hsc Hs IH]; intros k Hok; [done|]. cbn [fold_left].
    destruct (scancode_refines sc k Hsc Hok) as [Hok' <-]. by apply IH. }
  destruct H as [Hok' Habs]. split; [done|]. split; [done|]. rewrite <- Habs.
  apply drain_all; [done|]. destruct (kbd_room k' Hok') as [Hlen _].
  pose proof (Z.mod_pos_bound (kbd_head k' - kbd_tail k') KBD_BUF_SIZE eq_refl). unfold KBD_BUF_SIZE in *. lia.
Qed.

Definition kbd0 : kbd := Kbd ∅ 0 0 0.
Lemma kbd0_ok : kbd_ok kbd0.
Proof. split; by unfold kbd0, KBD_BUF_SIZE. Qed.

(** Shift down, [h], shift up, [i], Enter. *)
Lemma keyboard_refines_typing_witness :
  (drain 32 (fold_left (fun k sc => handle_scancode sc k) [0x2A; 0x23; 0xA3; 0xAA; 0x17; 0x97; 0x1C] kbd0)).1 =
  [72; 105; 10].
Proof.
  destruct (keyboard_refines_typing [0x2A; 0x23; 0xA3; 0xAA; 0x17; 0x97; 0x1C] kbd0 kbd0_ok) as (_ & _ & H).
  - by repeat constructor.
  - etransitivity; [exact H | reflexivity].
Defined.

(** ** The controller's output buffer *)

(** The bytes waiting in the PS/2 controller: status bit 0 says whether there
    is one, and reading the data port takes it. *)
Definition ps2_in (w p : Z) (q : list Z) : Z * list Z :=
  if p =? KBD_STATUS_PORT then (cbool (negb (bool_decide (q = []))), q)
  else if p =? KBD_DATA_PORT then (hd 0 q, tl q)
  else (0, q).
#[export] Instance ps2_bus : PortBus (list Z) := {| port_in := ps2_in; port_out := fun _ _ _ q => q |}.

(** [hal_keyboard_init] terminates, having thrown away what was pending. *)
Lemma keyboard_init_drains (q : list Z) : hal_keyboard_init (S (length q)) q = Some [].
Proof. induction q as [|c q IH]; [done|]. exact IH. Qed.

(** The interrupt handler takes one byte from the controller. *)
Lemma irq_takes_scancode k sc q :
  in_u8 sc -> hal_keyboard_irq_handler k (sc :: q) = (handle_scancode sc k, q).
Proof. intros Hs. unfold hal_keyboard_irq_handler, inb. cbn. by rewrite u8_small. Qed.
