(* ===== verification/Rtc.v ===== *)
(** * Real-time clock

    Models [src/hal/x86_64/rtc.c] over a port bus, and relates it to the
    documented register layout of the CMOS clock in each of its four modes. *)
From S2P Require Import Prelude Ports.

Definition CMOS_INDEX_PORT : Z := 0x70.
Definition CMOS_DATA_PORT : Z := 0x71.

Record rtc_time := RtcTime { seconds : Z; minutes : Z; hours : Z; day : Z; month : Z; year : Z }.

Section rtc.
Context {B : Type} `{!PortBus B}.
Implicit Types (b : B).

Definition cmos_read (reg : Z) b : Z * B :=
  let b := outb CMOS_INDEX_PORT reg b in
  inb CMOS_DATA_PORT b.

Definition rtc_update_in_progress b : bool * B :=
  let '(a, b) := cmos_read 0x0A b in (negb (a .&. 0x80 =? 0), b).

Definition bcd_to_bin (v : Z) : Z := u8 ((v .&. 0x0F) + (v .>>. 4) * 10).

(** [for (spin = 0; spin < 1000000 && rtc_update_in_progress(); spin++) {}] *)
Definition RTC_SPINS : Z := 1000000.
Definition rtc_settle b : B :=
  (poll_until (Z.to_nat RTC_SPINS)
     (fun b => let '(busy, b) := rtc_update_in_progress b in (if busy then None else Some tt, b)) b).2.

(** The decode, from the seven raw registers. *)
Definition rtc_decode (sec min hour day mon yr regB : Z) : rtc_time :=
  let bcd := regB .&. 0x04 =? 0 in
  let conv v := if bcd then bcd_to_bin v else v in
  let hour := if bcd then u8 (bcd_to_bin (hour .&. 0x7F) .|. (hour .&. 0x80)) else hour in
  let hour := if (regB .&. 0x02 =? 0) && negb (hour .&. 0x80 =? 0)
              then u8 (((hour .&. 0x7F) + 12) mod 24) else hour in
  RtcTime (conv sec) (conv min) (u8 (hour .&. 0x7F)) (conv day) (conv mon) (u16 (2000 + conv yr)).

Definition hal_rtc_read b : rtc_time * B :=
  let b := rtc_settle b in
  let '(sec, b) := cmos_read 0x00 b in
  let '(min, b) := cmos_read 0x02 b in
  let '(hour, b) := cmos_read 0x04 b in
  let '(day, b) := cmos_read 0x07 b in
  let '(mon, b) := cmos_read 0x08 b in
  let '(yr, b) := cmos_read 0x09 b in
  let '(regB, b) := cmos_read 0x0B b in
  (rtc_decode sec min hour day mon yr regB, b).
End rtc.

(** ** The clock chip

    [c_h24] and [c_bin] are the two mode bits of register B; [c_busy] the
    number of status reads that still find an update in progress. *)
Record cmos := Cmos { c_index : Z; c_time : rtc_time; c_h24 : bool; c_bin : bool; c_busy : Z }.

Definition to_bcd (v : Z) : Z := (v / 10) * 16 + v mod 10.
Definition in_mode (bin : bool) (v : Z) : Z := if bin then v else to_bcd v.

(** In 12-hour mode the hours run 12, 1, ..., 11 and bit 7 is set after noon. *)
Definition hour_register (h24 bin : bool) (h : Z) : Z :=
  if h24 then in_mode bin h
  else in_mode bin (if h mod 12 =? 0 then 12 else h mod 12) + (if 12 <=? h then 0x80 else 0).

Definition reg_b (h24 bin : bool) : Z := (if h24 then 2 else 0) + (if bin then 4 else 0).

Definition cmos_register (c : cmos) (reg : Z) : Z :=
  let t := c_time c in
  if reg =? 0x00 then in_mode (c_bin c) (seconds t)
  else if reg =? 0x02 then in_mode (c_bin c) (minutes t)
  else if reg =? 0x04 then hour_register (c_h24 c) (c_bin c) (hours t)
  else if reg =? 0x07 then in_mode (c_bin c) (day t)
  else if reg =? 0x08 then in_mode (c_bin c) (month t)
  else if reg =? 0x09 then in_mode (c_bin c) (year t - 2000)
  else if reg =? 0x0A then (if 0 <? c_busy c then 0x80 else 0)
  else if reg =? 0x0B then reg_b (c_h24 c) (c_bin c)
  else 0.

Definition cmos_in (w p : Z) (c : cmos) : Z * cmos :=
  if p =? CMOS_DATA_PORT then
    (cmos_register c (c_index c),
     if c_index c =? 0x0A then Cmos (c_index c) (c_time c) (c_h24 c) (c_bin c) (Z.max 0 (c_busy c - 1)) else c)
  else (0, c).
Definition cmos_out (w p v : Z) (c : cmos) : cmos :=
  if p =? CMOS_INDEX_PORT then Cmos v (c_time c) (c_h24 c) (c_bin c) (c_busy c) else c.
#[export] Instance cmos_bus : PortBus cmos := {| port_in := cmos_in; port_out := cmos_out |}.

(** A date and time the chip can hold. *)
Record valid_time (t : rtc_time) : Prop := ValidTime {
  vt_seconds : 0 <= seconds t < 60; vt_minutes : 0 <= minutes t < 60; vt_hours : 0 <= hours t < 24;
  vt_day : 1 <= day t <= 31; vt_month : 1 <= month t <= 12; vt_year : 2000 <= year t < 2100
}.

Definition cmos_idle (c c' : cmos) : Prop :=
  c_time c' = c_time c /\ c_h24 c' = c_h24 c /\ c_bin c' = c_bin c.

Lemma cmos_read_spec reg c :
  in_u8 reg -> in_u8 (cmos_register c reg) ->
  exists c', cmos_read reg c = (cmos_register c reg, c') /\ cmos_idle c c' /\
             (reg <> 0x0A -> c_busy c' = c_busy c).
Proof.
  intros Hr Hv. destruct c as [i t h b n]. unfold cmos_read, outb, inb. cbn. unfold cmos_in, cmos_out. cbn.
  rewrite (u8_small reg) by done. unfold cmos_register in *. cbn [c_index c_time c_h24 c_bin c_busy] in *.
  eexists. split; [f_equal; by apply u8_small|]. destruct (Z.eqb_spec reg 10); repeat split; intros; congruence.
Qed.

(** A byte below 100, and its two BCD digits. *)
Lemma bcd_roundtrip v : 0 <= v < 100 -> bcd_to_bin (to_bcd v) = v.
Proof.
  intros Hv. unfold bcd_to_bin, to_bcd. change 0x0F with (Z.ones 4).
  rewrite Z.land_ones, Z.shiftr_div_pow2 by lia. unfold u8. Z.div_mod_to_equations; lia.
Qed.

Lemma in_mode_u8 bin v : 0 <= v < 100 -> in_u8 (in_mode bin v).
Proof. intros. unfold in_mode, to_bcd, in_u8. destruct bin; Z.div_mod_to_equations; lia. Qed.

Lemma conv_roundtrip (bin h24 : bool) v :
  0 <= v < 100 ->
  (if reg_b h24 bin .&. 0x04 =? 0 then bcd_to_bin (in_mode bin v) else in_mode bin v) = v.
Proof. intros Hv. destruct bin, h24; cbn -[bcd_to_bin to_bcd]; try done; by apply bcd_roundtrip. Qed.

(** The hours, all 24 of them in all four modes. *)
Definition decoded_hour (h24 bin : bool) (h : Z) : Z :=
  hours (rtc_decode 0 0 (hour_register h24 bin h) 0 0 0 (reg_b h24 bin)).
Definition twelve_hour_noon (h24 : bool) (h : Z) : bool := negb h24 && (h mod 12 =? 0).

Lemma all_hours (P : Z -> bool) :
  forallb P (seqZ 0 24) = true -> forall h, 0 <= h < 24 -> P h = true.
Proof.
  rewrite forallb_forall. intros H h Hh. apply H, list_elem_of_In, elem_of_seqZ. lia.
Qed.

Lemma hour_roundtrip h24 bin h :
  0 <= h < 24 ->
  decoded_hour h24 bin h = if twelve_hour_noon h24 h then (h + 12) mod 24 else h.
Proof.
  intros Hh. apply Z.eqb_eq. revert h Hh. apply all_hours. by destruct h24, bin.
Qed.

Lemma status_read c :
  rtc_update_in_progress c =
  (0 <? c_busy c, Cmos 0x0A (c_time c) (c_h24 c) (c_bin c) (Z.max 0 (c_busy c - 1))).
Proof. destruct c as [i t h b n]. unfold rtc_update_in_progress, cmos_read, outb, inb. cbn.
  change (cmos_register _ _) with (if 0 <? n then 0x80 else 0). by destruct (0 <? n). Qed.

Lemma rtc_settle_spec c : cmos_idle c (rtc_settle c).
Proof.
  unfold rtc_settle. apply (poll_until_keeps (cmos_idle c)); [|by split_and!].
  intros c' H. rewrite status_read. exact H.
Qed.

(** [hal_rtc_read] gives up waiting after a million polls; a clock busy for
    fewer is read after its update has ended. *)
Lemma settle_waits c : 0 <= c_busy c < RTC_SPINS -> c_busy (rtc_settle c) = 0.
Proof.
  intros Hb. unfold rtc_settle.
  set (st := fun i => Cmos (if (i =? 0)%nat then c_index c else 0x0A) (c_time c) (c_h24 c) (c_bin c)
                           (c_busy c - Z.of_nat i)).
  assert (Ec : st O = c) by (destruct c; unfold st; cbn; f_equal; lia).
  pose proof (poll_until_hit
     (fun b => let '(busy, b) := rtc_update_in_progress b in (if busy then None else Some tt, b))
     st tt (Z.to_nat (c_busy c)) (Z.to_nat RTC_SPINS)) as H.
  rewrite Ec in H. rewrite H; clear H.
  - rewrite status_read. cbn. lia.
  - unfold RTC_SPINS in *. lia.
  - intros i Hi. rewrite status_read. change (c_busy (st i)) with (c_busy c - Z.of_nat i). zcmp.
    f_equal. unfold st. cbn. f_equal; lia.
  - rewrite status_read. cbn [c_busy st]. by zcmp.
Qed.

Lemma idle_register c c' reg : cmos_idle c c' -> reg <> 0x0A -> cmos_register c' reg = cmos_register c reg.
Proof. intros [Et [Eh Eb]] Hr. unfold cmos_register. rewrite Et, Eh, Eb. zcmp. done. Qed.

(** Reading register [reg] of a clock that has been idle since [c]. *)
Lemma idle_read c c' reg :
  cmos_idle c c' -> in_u8 reg -> reg <> 0x0A -> in_u8 (cmos_register c reg) ->
  exists c'', cmos_read reg c' = (cmos_register c reg, c'') /\ cmos_idle c c''.
Proof.
  intros Hi Hr Hne Hv. rewrite <- (idle_register c c' reg) in * by done.
  destruct (cmos_read_spec reg c' Hr Hv) as (c'' & -> & [Et [Eh Eb]] & _).
  exists c''. split; [done|]. destruct Hi as [Et' [Eh' Eb']]. unfold cmos_idle. by rewrite Et, Eh, Eb.
Qed.

Lemma hour_register_u8 h24 bin h : 0 <= h < 24 -> in_u8 (hour_register h24 bin h).
Proof.
  intros Hh. assert (((0 <=? hour_register h24 bin h) && (hour_register h24 bin h <? 2 ^ 8)) = true) as H.
  { revert h Hh. apply all_hours. by destruct h24, bin. }
  breflect. by split.
Qed.

(** reading the clock returns the time it holds, whichever of its four
    modes (binary or BCD, 24 or 12 hours) it runs in, and waits out an update
    in progress; the exception is the twelfth hour in 12-hour mode, where the
    driver reports midnight for noon and noon for midnight. *)
Theorem rtc_reads_the_clock (c : cmos) :
  valid_time (c_time c) ->
  let t := c_time c in
  (hal_rtc_read c).1 =
  RtcTime (seconds t) (minutes t)
    (if twelve_hour_noon (c_h24 c) (hours t) then (hours t + 12) mod 24 else hours t)
    (day t) (month t) (year t).
Proof.
  intros [Hs Hm Hh Hd Hmo Hy] t. unfold hal_rtc_read.
  set (c0 := rtc_settle c). assert (H0 : cmos_idle c c0) by apply rtc_settle_spec. clearbody c0.
  destruct (idle_read c c0 0x00 H0) as (c1 & -> & H1); [done | done | by apply in_mode_u8; lia |].
  destruct (idle_read c c1 0x02 H1) as (c2 & -> & H2); [done | done | by apply in_mode_u8; lia |].
  destruct (idle_read c c2 0x04 H2) as (c3 & -> & H3); [done | done | by apply hour_register_u8 |].
  destruct (idle_read c c3 0x07 H3) as (c4 & -> & H4); [done | done | by apply in_mode_u8; lia |].
  destruct (idle_read c c4 0x08 H4) as (c5 & -> & H5); [done | done | by apply in_mode_u8; lia |].
  destruct (idle_read c c5 0x09 H5) as (c6 & -> & H6); [done | done | by apply in_mode_u8; lia |].
  destruct (idle_read c c6 0x0B H6) as (c7 & -> & H7); [done | done | |].
  { unfold cmos_register, reg_b. by destruct (c_h24 c), (c_bin c). }
  cbn [fst]. rewrite <- (hour_roundtrip _ (c_bin c)) by done. unfold decoded_hour, rtc_decode.
  cbn [hours]. subst t. cbv zeta. f_equal; try (apply conv_roundtrip; lia).
  change (cmos_register c 9) with (in_mode (c_bin c) (year (c_time c) - 2000)).
  change (cmos_register c 11) with (reg_b (c_h24 c) (c_bin c)).
  pose proof (conv_roundtrip (c_bin c) (c_h24 c) (year (c_time c) - 2000) ltac:(lia)) as E.
  rewrite E. unfold u16. rewrite Z.mod_small; lia.
Qed.

(** 12:30 in the afternoon, read in 12-hour mode, is half past midnight. *)
Example noon_reads_midnight d m y :
  hours (rtc_decode 0 0x30 (hour_register false false 12) d m y (reg_b false false)) = 0.
Proof. reflexivity. Qed.

Definition clock1 : cmos := Cmos 0 (RtcTime 59 30 13 31 12 2026) false false 3.
Lemma rtc_reads_the_clock_witness : (hal_rtc_read clock1).1 = RtcTime 59 30 13 31 12 2026.
Proof. apply (rtc_reads_the_clock clock1). split; cbn; lia. Defined.
