(* ===== verification/Pci.v ===== *)
(** * PCI configuration space

    Models [src/hal/x86_64/pci.c]: configuration mechanism #1, the capability
    walk and the device search, over a port bus.  [pci] is the documented
    mechanism: an address latch at 0xCF8 and a data window at 0xCFC. *)
From S2P Require Import Prelude Ports.

Definition PCI_CONFIG_ADDRESS : Z := 0xCF8.
Definition PCI_CONFIG_DATA : Z := 0xCFC.
Definition PCI_REG_VENDOR_DEVICE : Z := 0x00.
Definition PCI_REG_COMMAND : Z := 0x04.
Definition PCI_REG_STATUS : Z := 0x04.
Definition PCI_REG_BAR0 : Z := 0x10.
Definition PCI_REG_CAP_PTR : Z := 0x34.
Definition PCI_COMMAND_IO_SPACE : Z := 0x1.
Definition PCI_COMMAND_BUS_MASTER : Z := 0x4.
Definition PCI_STATUS_CAP_LIST : Z := 1 .<<. 4.
Definition PCI_CAP_ID_MSIX : Z := 0x11.

Record hal_pci_device := PciDevice { pd_slot : Z; pd_io_base : Z; pd_has_msix : Z }.

Section driver.
Context {B : Type} `{!PortBus B}.
Implicit Types (b : B).

Definition pci_address (slot func offset : Z) : Z :=
  (((1 .<<. 31) .|. (slot .<<. 11)) .|. (func .<<. 8)) .|. (offset .&. 0xFC).

Definition pci_config_read32 (slot func offset : Z) b : Z * B :=
  let b := outl PCI_CONFIG_ADDRESS (pci_address slot func offset) b in
  inl PCI_CONFIG_DATA b.

Definition pci_config_write32 (slot func offset value : Z) b : B :=
  let b := outl PCI_CONFIG_ADDRESS (pci_address slot func offset) b in
  outl PCI_CONFIG_DATA value b.

(** [for (guard = 0; ptr != 0 && guard < 48; guard++)] *)
Fixpoint cap_walk (guard : nat) (slot cap_id ptr : Z) b : Z * B :=
  match guard with
  | O => (0, b)
  | S guard =>
      if ptr =? 0 then (0, b)
      else
        let '(cap, b) := pci_config_read32 slot 0 ptr b in
        if cap .&. 0xFF =? cap_id then (1, b)
        else cap_walk guard slot cap_id (u8 ((cap .>>. 8) .&. 0xFF)) b
  end.

Definition pci_has_capability (slot cap_id : Z) b : Z * B :=
  let '(status_cmd, b) := pci_config_read32 slot 0 PCI_REG_STATUS b in
  if (status_cmd .>>. 16) .&. PCI_STATUS_CAP_LIST =? 0 then (0, b)
  else
    let '(p, b) := pci_config_read32 slot 0 PCI_REG_CAP_PTR b in
    cap_walk 48 slot cap_id (u8 (p .&. 0xFF)) b.

(** The body of the slot loop: [None] is [continue]. *)
Definition probe_slot (vendor_id device_id slot : Z) b : option hal_pci_device * B :=
  let '(id, b) := pci_config_read32 slot 0 PCI_REG_VENDOR_DEVICE b in
  let vid := u16 (id .&. 0xFFFF) in
  if vid =? 0xFFFF then (None, b)
  else
    let did := u16 ((id .>>. 16) .&. 0xFFFF) in
    if negb (vid =? vendor_id) || negb (did =? device_id) then (None, b)
    else
      let '(bar0, b) := pci_config_read32 slot 0 PCI_REG_BAR0 b in
      if bar0 .&. 0x1 =? 0 then (None, b)
      else
        let '(cmd, b) := pci_config_read32 slot 0 PCI_REG_COMMAND b in
        let cmd := cmd .|. (PCI_COMMAND_IO_SPACE .|. PCI_COMMAND_BUS_MASTER) in
        let b := pci_config_write32 slot 0 PCI_REG_COMMAND cmd b in
        let '(msix, b) := pci_has_capability slot PCI_CAP_ID_MSIX b in
        (Some (PciDevice slot (u16 (Z.ldiff bar0 0x3)) (u8 msix)), b).

Fixpoint find_from (n : nat) (vendor_id device_id slot : Z) b : option hal_pci_device * B :=
  match n with
  | O => (None, b)
  | S n =>
      match probe_slot vendor_id device_id slot b with
      | (Some d, b) => (Some d, b)
      | (None, b) => find_from n vendor_id device_id (slot + 1) b
      end
  end.

(** The C result is 0 with [*out] filled, or -1. *)
Definition hal_pci_find_device (vendor_id device_id : Z) b : option hal_pci_device * B :=
  find_from 32 vendor_id device_id 0 b.
End driver.

(** ** The bus *)

(** A function's registers, by dword; an absent function reads all ones. *)
Record pci := Pci { pci_latch : Z; pci_funs : gmap (Z * Z) (gmap Z Z) }.

Definition latch_enabled (a : Z) : bool := Z.testbit a 31.
Definition latch_fun (a : Z) : Z * Z := ((a .>>. 11) .&. 0x1F, (a .>>. 8) .&. 0x7).
Definition latch_reg (a : Z) : Z := (a .>>. 2) .&. 0x3F.

Definition pci_reg (m : pci) (f : Z * Z) (r : Z) : Z :=
  match pci_funs m !! f with Some regs => u32 (regs !!! r) | None => 0xFFFFFFFF end.
Definition pci_in (w p : Z) (m : pci) : Z * pci :=
  (if (p =? PCI_CONFIG_DATA) && latch_enabled (pci_latch m)
   then pci_reg m (latch_fun (pci_latch m)) (latch_reg (pci_latch m)) else 0, m).
Definition pci_out (w p v : Z) (m : pci) : pci :=
  if p =? PCI_CONFIG_ADDRESS then Pci v (pci_funs m)
  else if (p =? PCI_CONFIG_DATA) && latch_enabled (pci_latch m) then
    match pci_funs m !! latch_fun (pci_latch m) with
    | Some regs => Pci (pci_latch m) (<[latch_fun (pci_latch m) := <[latch_reg (pci_latch m) := v]> regs]> (pci_funs m))
    | None => m
    end
  else m.
#[export] Instance pci_bus : PortBus pci := {| port_in := pci_in; port_out := pci_out |}.

Lemma pci_address_sum s f o :
  0 <= s < 32 -> 0 <= f < 8 -> in_u8 o ->
  pci_address s f o = 2 ^ 31 + s * 2 ^ 11 + f * 2 ^ 8 + (o - o mod 4).
Proof.
  intros Hs Hf Ho. unfold in_u8, pci_address in *. rewrite !Z.shiftl_mul_pow2 by lia.
  replace (o .&. 0xFC) with (o - o mod 4).
  - rewrite (lor_low_flags (1 * 2 ^ 31) 31) by (lia || done).
    rewrite (lor_low_flags (_ + s * _) 11) by (lia || (Z.div_mod_to_equations; lia)).
    rewrite (lor_low_flags _ 8) by (lia || (Z.div_mod_to_equations; lia)). lia.
  - replace 0xFC with (Z.ldiff (Z.ones 8) (Z.ones 2)) by done.
    replace (o .&. Z.ldiff (Z.ones 8) (Z.ones 2)) with (Z.ldiff (o .&. Z.ones 8) (Z.ones 2)).
    2: { apply Z.bits_inj'. intros n _. by rewrite ?Z.land_spec, ?Z.ldiff_spec, ?Z.land_spec, andb_assoc. }
    rewrite Z.land_ones, (Z.mod_small o (2 ^ 8)), Z.ldiff_ones_r by lia.
    rewrite Z.shiftr_div_pow2, Z.shiftl_mul_pow2 by lia. Z.div_mod_to_equations; lia.
Qed.

(** The address the driver writes selects the function and register it means. *)
Lemma pci_address_decodes s f o :
  0 <= s < 32 -> 0 <= f < 8 -> in_u8 o ->
  latch_enabled (u32 (pci_address s f o)) = true /\ latch_fun (u32 (pci_address s f o)) = (s, f) /\
  latch_reg (u32 (pci_address s f o)) = o / 4.
Proof.
  intros Hs Hf Ho. rewrite pci_address_sum by done. unfold in_u8 in Ho.
  rewrite u32_small by (unfold in_u32; Z.div_mod_to_equations; lia).
  unfold latch_enabled, latch_fun, latch_reg.
  assert (H5 : forall x, x .&. 0x1F = x mod 2 ^ 5) by (intros; by apply (Z.land_ones _ 5)).
  assert (H3 : forall x, x .&. 0x7 = x mod 2 ^ 3) by (intros; by apply (Z.land_ones _ 3)).
  assert (H6 : forall x, x .&. 0x3F = x mod 2 ^ 6) by (intros; by apply (Z.land_ones _ 6)).
  rewrite H5, H3, H6, !Z.shiftr_div_pow2, Z.testbit_eqb by lia. clear H5 H3 H6.
  split_and!; [apply Z.eqb_eq | f_equal |]; Z.div_mod_to_equations; lia.
Qed.

Lemma latch_write v m : outl PCI_CONFIG_ADDRESS v m = Pci (u32 v) (pci_funs m).
Proof. reflexivity. Qed.

Lemma config_read s f o m :
  0 <= s < 32 -> 0 <= f < 8 -> in_u8 o ->
  exists m', pci_config_read32 s f o m = (pci_reg m (s, f) (o / 4), m') /\ pci_funs m' = pci_funs m.
Proof.
  intros Hs Hf Ho. destruct (pci_address_decodes s f o Hs Hf Ho) as (He & Hfn & Hr).
  exists (Pci (u32 (pci_address s f o)) (pci_funs m)). split; [|done].
  unfold pci_config_read32. rewrite latch_write. unfold inl. cbn [port_in pci_bus]. unfold pci_in.
  cbn [pci_latch]. rewrite He, Hfn, Hr. cbn [Z.eqb andb].
  f_equal. unfold pci_reg. cbn [pci_funs]. destruct (pci_funs m !! (s, f)); [|done].
  cbn [andb]. rewrite Z.eqb_refl. apply u32_small, u32_range.
Qed.

Lemma config_write s f o v m regs :
  0 <= s < 32 -> 0 <= f < 8 -> in_u8 o -> pci_funs m !! (s, f) = Some regs ->
  pci_funs (pci_config_write32 s f o v m) = <[(s, f) := <[o / 4 := u32 v]> regs]> (pci_funs m).
Proof.
  intros Hs Hf Ho Hm. destruct (pci_address_decodes s f o Hs Hf Ho) as (He & Hfn & Hr).
  unfold pci_config_write32. rewrite latch_write. unfold outl. cbn [port_out pci_bus]. unfold pci_out.
  cbn [pci_latch pci_funs]. by rewrite He, Hfn, Hm, Hr.
Qed.

(** ** What the driver finds *)

(** Function 0 of slot [s] of a bus that has it. *)
Definition fun_reg (m : pci) (s o : Z) : Z := pci_reg m (s, 0) (o / 4).

Definition matches (m : pci) (vendor_id device_id s : Z) : bool :=
  let id := fun_reg m s PCI_REG_VENDOR_DEVICE in
  negb (u16 (id .&. 0xFFFF) =? 0xFFFF) &&
  ((u16 (id .&. 0xFFFF) =? vendor_id) && (u16 ((id .>>. 16) .&. 0xFFFF) =? device_id)) &&
  negb (fun_reg m s PCI_REG_BAR0 .&. 0x1 =? 0).

(** The capability list, as far as 48 links. *)
Fixpoint caps_from (n : nat) (m : pci) (s ptr : Z) : list Z :=
  match n with
  | O => []
  | S n =>
      if ptr =? 0 then []
      else let cap := fun_reg m s ptr in (cap .&. 0xFF) :: caps_from n m s (u8 ((cap .>>. 8) .&. 0xFF))
  end.
Definition has_cap (m : pci) (s id : Z) : bool :=
  negb ((fun_reg m s PCI_REG_STATUS .>>. 16) .&. PCI_STATUS_CAP_LIST =? 0) &&
  existsb (Z.eqb id) (caps_from 48 m s (u8 (fun_reg m s PCI_REG_CAP_PTR .&. 0xFF))).

Lemma fun_reg_ext m m' s o : pci_funs m' = pci_funs m -> fun_reg m' s o = fun_reg m s o.
Proof. unfold fun_reg, pci_reg. by intros ->. Qed.

Lemma caps_ext n m m' s ptr : pci_funs m' = pci_funs m -> caps_from n m' s ptr = caps_from n m s ptr.
Proof.
  intros E. revert ptr; induction n as [|n IH]; intros ptr; [done|]. cbn [caps_from].
  destruct (ptr =? 0); [done|]. cbv zeta. by rewrite (fun_reg_ext _ _ _ _ E), IH.
Qed.

Lemma read0 s o m :
  0 <= s < 32 -> in_u8 o ->
  exists m', pci_config_read32 s 0 o m = (fun_reg m s o, m') /\ pci_funs m' = pci_funs m.
Proof. intros. by apply config_read. Qed.

Lemma cap_walk_spec n s id ptr m :
  0 <= s < 32 -> in_u8 ptr ->
  exists m', cap_walk n s id ptr m = (cbool (existsb (Z.eqb id) (caps_from n m s ptr)), m') /\
             pci_funs m' = pci_funs m.
Proof.
  intros Hs. revert ptr m; induction n as [|n IH]; intros ptr m Hp; [by eexists|].
  cbn [cap_walk caps_from]. destruct (Z.eqb_spec ptr 0); [by eexists|].
  destruct (read0 s ptr m Hs Hp) as (m1 & -> & E1). cbn [existsb].
  rewrite (Z.eqb_sym id). destruct (fun_reg m s ptr .&. 0xFF =? id); [by eexists|].
  destruct (IH (u8 ((fun_reg m s ptr .>>. 8) .&. 0xFF)) m1 (u8_range _)) as (m2 & -> & E2).
  exists m2. split; [by rewrite (caps_ext _ _ _ _ _ E1)|]. by rewrite E2.
Qed.

Lemma has_capability_spec s id m :
  0 <= s < 32 ->
  exists m', pci_has_capability s id m = (cbool (has_cap m s id), m') /\ pci_funs m' = pci_funs m.
Proof.
  intros Hs. unfold pci_has_capability, has_cap.
  destruct (read0 s PCI_REG_STATUS m Hs) as (m1 & -> & E1); [done|].
  destruct ((fun_reg m s PCI_REG_STATUS .>>. 16) .&. PCI_STATUS_CAP_LIST =? 0); [by eexists|].
  destruct (read0 s PCI_REG_CAP_PTR m1 Hs) as (m2 & -> & E2); [done|].
  rewrite (fun_reg_ext _ _ _ _ E1). cbn [negb andb].
  destruct (cap_walk_spec 48 s id (u8 (fun_reg m s PCI_REG_CAP_PTR .&. 0xFF)) m2 Hs (u8_range _)) as (m3 & -> & E3).
  rewrite <- E1, <- E2 in *. exists m3. split; [|done]. by rewrite (caps_ext _ m2 m) by congruence.
Qed.

Lemma matches_ext m m' v d s : pci_funs m' = pci_funs m -> matches m' v d s = matches m v d s.
Proof. intros E. unfold matches. by rewrite !(fun_reg_ext _ _ _ _ E). Qed.

Lemma probe_miss v d s m :
  0 <= s < 32 -> matches m v d s = false ->
  exists m', probe_slot v d s m = (None, m') /\ pci_funs m' = pci_funs m.
Proof.
  intros Hs Hm. unfold probe_slot, matches in *. cbv zeta in *.
  destruct (read0 s PCI_REG_VENDOR_DEVICE m Hs) as (m1 & -> & E1); [done|].
  destruct (u16 (_ .&. 0xFFFF) =? 0xFFFF); [by eexists|]. cbn [negb andb] in Hm.
  destruct (_ =? v), (_ =? d); cbn [negb andb orb] in *; try (by eexists).
  destruct (read0 s PCI_REG_BAR0 m1 Hs) as (m2 & -> & E2); [done|].
  rewrite (fun_reg_ext _ _ _ _ E1). apply negb_false_iff in Hm. rewrite Hm.
  exists m2. split; [done|]. by rewrite E2.
Qed.

(** The registers a match leaves: command bits 0 and 2 set, all else as it was. *)
Definition enabled (m : pci) (s : Z) (regs : gmap Z Z) : gmap (Z * Z) (gmap Z Z) :=
  <[(s, 0) := <[1 := u32 (fun_reg m s PCI_REG_COMMAND .|. 5)]> regs]> (pci_funs m).

Lemma present m s o : fun_reg m s o <> 0xFFFFFFFF -> exists regs, pci_funs m !! (s, 0) = Some regs.
Proof. unfold fun_reg, pci_reg. destruct (pci_funs m !! (s, 0)) as [regs|]; [by exists regs | done]. Qed.

Lemma probe_hit v d s m :
  0 <= s < 32 -> matches m v d s = true ->
  exists m' regs dev, probe_slot v d s m = (Some dev, m') /\
    pci_funs m !! (s, 0) = Some regs /\ pci_funs m' = enabled m s regs /\
    dev = PciDevice s (u16 (Z.ldiff (fun_reg m s PCI_REG_BAR0) 0x3)) (cbool (has_cap m' s PCI_CAP_ID_MSIX)).
Proof.
  intros Hs Hm. unfold probe_slot, matches in *. cbv zeta in *.
  destruct (read0 s PCI_REG_VENDOR_DEVICE m Hs) as (m1 & -> & E1); [done|]. breflect.
  destruct (present m s PCI_REG_VENDOR_DEVICE) as [regs Hregs].
  { intros E. match goal with H : u16 _ <> 0xFFFF |- _ => apply H end. by rewrite E. }
  repeat match goal with H : ?x <> ?y |- context [?x =? ?y] => rewrite (proj2 (Z.eqb_neq x y) H)
                       | H : ?x = ?y |- context [?x =? ?y] => rewrite (proj2 (Z.eqb_eq x y) H) end.
  cbn [negb orb].
  destruct (read0 s PCI_REG_BAR0 m1 Hs) as (m2 & -> & E2); [done|]. rewrite (fun_reg_ext _ _ _ _ E1).
  rewrite (proj2 (Z.eqb_neq _ 0)) by done.
  destruct (read0 s PCI_REG_COMMAND m2 Hs) as (m3 & -> & E3); [done|].
  rewrite (fun_reg_ext m2 m) by congruence. change (PCI_COMMAND_IO_SPACE .|. PCI_COMMAND_BUS_MASTER) with 5.
  set (m4 := pci_config_write32 _ _ _ _ _).
  assert (E4 : pci_funs m4 = enabled m s regs).
  { unfold m4. rewrite (config_write s 0 PCI_REG_COMMAND _ m3 regs) by (done || congruence).
    unfold enabled. by rewrite E3, E2, E1, (fun_reg_ext m2 m) by congruence. }
  clearbody m4. destruct (has_capability_spec s PCI_CAP_ID_MSIX m4 Hs) as (m5 & -> & E5).
  exists m5, regs. eexists. split; [reflexivity|]. split_and!; [done | congruence |]. f_equal.
  - unfold has_cap. rewrite !(fun_reg_ext _ _ _ _ E5), (caps_ext _ _ _ _ _ E5).
    by destruct (negb _ && _).
Qed.

Lemma find_from_spec n v d s m :
  0 <= s -> s + Z.of_nat n <= 32 ->
  match scan (matches m v d) s n with
  | None => exists m', find_from n v d s m = (None, m') /\ pci_funs m' = pci_funs m
  | Some t => exists m' regs dev, find_from n v d s m = (Some dev, m') /\
      pci_funs m !! (t, 0) = Some regs /\ pci_funs m' = enabled m t regs /\
      dev = PciDevice t (u16 (Z.ldiff (fun_reg m t PCI_REG_BAR0) 0x3)) (cbool (has_cap m' t PCI_CAP_ID_MSIX))
  end.
Proof.
  revert s m; induction n as [|n IH]; intros s m Hs Hn; [by eexists|]. cbn [scan find_from].
  destruct (matches m v d s) eqn:Em.
  - destruct (probe_hit v d s m ltac:(lia) Em) as (m' & regs & dev & -> & H). by exists m', regs, dev.
  - destruct (probe_miss v d s m ltac:(lia) Em) as (m1 & -> & E1).
    specialize (IH (s + 1) m1 ltac:(lia) ltac:(lia)).
    rewrite (scan_ext _ (matches m v d)) in IH by (intros; by apply matches_ext).
    destruct (scan (matches m v d) (s + 1) n) as [t|].
    + destruct IH as (m' & regs & dev & Hf & Hr & He & Hd). exists m', regs, dev. split_and!; [done | | |].
      * by rewrite <- E1.
      * rewrite He. unfold enabled. by rewrite E1, (fun_reg_ext _ _ _ _ E1).
      * by rewrite <- (fun_reg_ext _ _ _ _ E1).
    + destruct IH as (m' & Hf & E). exists m'. split; [done | congruence].
Qed.

(** [hal_pci_find_device] finds the device of the lowest slot whose function
    0 carries the given identifiers and an I/O BAR, or reports that there is
    none.  It reports that slot, its I/O base and whether its capability list
    holds MSI-X, and the search writes one register of one function: the
    command register of the device found, where it sets I/O space and bus
    mastering and leaves the rest. *)
Theorem pci_finds_first_match (v d : Z) (m : pci) :
  match scan (matches m v d) 0 32 with
  | None => exists m', hal_pci_find_device v d m = (None, m') /\ pci_funs m' = pci_funs m
  | Some s => exists m' regs dev, hal_pci_find_device v d m = (Some dev, m') /\
      pci_funs m !! (s, 0) = Some regs /\
      pci_funs m' = <[(s, 0) := <[1 := u32 (fun_reg m s PCI_REG_COMMAND .|. 5)]> regs]> (pci_funs m) /\
      pd_slot dev = s /\ pd_io_base dev = u16 (Z.ldiff (fun_reg m s PCI_REG_BAR0) 0x3) /\
      pd_has_msix dev = cbool (has_cap m' s PCI_CAP_ID_MSIX)
  end.
Proof.
  pose proof (find_from_spec 32 v d 0 m ltac:(lia) ltac:(lia)) as H. unfold hal_pci_find_device.
  destruct (scan (matches m v d) 0 32) as [s|]; [|exact H].
  destruct H as (m' & regs & dev & Hf & Hr & He & ->). by exists m', regs, (PciDevice s (u16 (Z.ldiff (fun_reg m s PCI_REG_BAR0) 0x3)) (cbool (has_cap m' s PCI_CAP_ID_MSIX))).
Qed.
