(* ===== verification/Ata.v ===== *)
(** * Disk driver

    Models [src/hal/x86_64/ata.c], a polling PIO driver over a port bus, and
    proves that on a drive that behaves as the ATA standard says it implements
    the [BlockDevice] interface the object store is verified against. *)
From S2P Require Import Prelude Ports Storage.

Definition ATA_DATA : Z := 0x1F0.
Definition ATA_ERROR : Z := 0x1F1.
Definition ATA_SECCOUNT : Z := 0x1F2.
Definition ATA_LBA_LOW : Z := 0x1F3.
Definition ATA_LBA_MID : Z := 0x1F4.
Definition ATA_LBA_HIGH : Z := 0x1F5.
Definition ATA_DRIVE_HEAD : Z := 0x1F6.
Definition ATA_STATUS : Z := 0x1F7.
Definition ATA_COMMAND : Z := 0x1F7.
Definition ATA_CMD_READ : Z := 0x20.
Definition ATA_CMD_WRITE : Z := 0x30.
Definition ATA_CMD_FLUSH : Z := 0xE7.
Definition ATA_SR_BSY : Z := 0x80.
Definition ATA_SR_DRQ : Z := 0x08.
Definition ATA_SR_ERR : Z := 0x01.
Definition ATA_TIMEOUT_SPINS : Z := 1000000.

Section driver.
Context {B : Type} `{!PortBus B}.
Implicit Types (b : B).

Definition ata_delay b : B := loop (fun _ b => snd (inb ATA_STATUS b)) 0 4 b.

(** One status read of each wait loop: the result to return, or go on. *)
Definition not_busy_poll b : option Z * B :=
  let '(status, b) := inb ATA_STATUS b in
  (if status .&. ATA_SR_BSY =? 0 then Some 0 else None, b).
Definition drq_poll b : option Z * B :=
  let '(status, b) := inb ATA_STATUS b in
  (if negb (status .&. ATA_SR_ERR =? 0) then Some (-1)
   else if negb (status .&. ATA_SR_DRQ =? 0) then Some 0 else None, b).

Definition ata_wait_not_busy b : Z * B :=
  let '(r, b) := poll_until (Z.to_nat ATA_TIMEOUT_SPINS) not_busy_poll b in (default (-1) r, b).
Definition ata_wait_drq b : Z * B :=
  let '(r, b) := poll_until (Z.to_nat ATA_TIMEOUT_SPINS) drq_poll b in (default (-1) r, b).

Definition ata_setup (lba count command : Z) b : Z * B :=
  if (count =? 0) || (255 <? count) then (-1, b)
  else
    let '(rc, b) := ata_wait_not_busy b in
    if negb (rc =? 0) then (-1, b)
    else
      let b := outb ATA_DRIVE_HEAD (0xE0 .|. ((lba .>>. 24) .&. 0x0F)) b in
      let b := ata_delay b in
      let b := outb ATA_SECCOUNT count b in
      let b := outb ATA_LBA_LOW (lba .&. 0xFF) b in
      let b := outb ATA_LBA_MID ((lba .>>. 8) .&. 0xFF) b in
      let b := outb ATA_LBA_HIGH ((lba .>>. 16) .&. 0xFF) b in
      (0, outb ATA_COMMAND command b).

(** [p[i] = inw(ATA_DATA)], the 16-bit word at byte [2 * j] of the buffer. *)
Definition read_word (j : Z) (s : gmap Z Z * B) : gmap Z Z * B :=
  let '(w, b) := inw ATA_DATA (snd s) in
  (<[2 * j + 1 := w .>>. 8]> (<[2 * j := u8 w]> (fst s)), b).
Definition write_word (buf : gmap Z Z) (j : Z) b : B :=
  outw ATA_DATA (buf !!! (2 * j) .|. (buf !!! (2 * j + 1) .<<. 8)) b.

(** The sector loops; [sector] counts the sectors moved, and [p] is at word
    [256 * sector]. *)
Fixpoint read_sectors (n : nat) (sector : Z) (buf : gmap Z Z) b : Z * gmap Z Z * B :=
  match n with
  | O => (0, buf, b)
  | S n =>
      let '(rc, b) := ata_wait_drq b in
      if negb (rc =? 0) then (-1, buf, b)
      else
        let '(buf, b) := loop (fun i => read_word (256 * sector + i)) 0 256 (buf, b) in
        read_sectors n (sector + 1) buf b
  end.
Fixpoint write_sectors (n : nat) (sector : Z) (buf : gmap Z Z) b : Z * B :=
  match n with
  | O => (0, b)
  | S n =>
      let '(rc, b) := ata_wait_drq b in
      if negb (rc =? 0) then (-1, b)
      else write_sectors n (sector + 1) buf (loop (fun i => write_word buf (256 * sector + i)) 0 256 b)
  end.

Definition hal_disk_read (lba count : Z) (buf : gmap Z Z) b : Z * gmap Z Z * B :=
  let '(rc, b) := ata_setup lba count ATA_CMD_READ b in
  if negb (rc =? 0) then (-1, buf, b) else read_sectors (Z.to_nat count) 0 buf b.

Definition hal_disk_write (lba count : Z) (buf : gmap Z Z) b : Z * B :=
  let '(rc, b) := ata_setup lba count ATA_CMD_WRITE b in
  if negb (rc =? 0) then (-1, b)
  else
    let '(rc, b) := write_sectors (Z.to_nat count) 0 buf b in
    if negb (rc =? 0) then (-1, b)
    else
      let '(rc, b) := ata_wait_not_busy b in
      if negb (rc =? 0) then (-1, b)
      else
        let b := outb ATA_COMMAND ATA_CMD_FLUSH b in
        let '(rc, b) := ata_wait_not_busy b in
        if negb (rc =? 0) then (-1, b) else (0, b).
End driver.

(** ** The drive *)

(** What the drive is doing: idle, or [left] sectors from [lba] to go, with
    [word] words of the current one moved. *)
Inductive ata_phase := Idle | Reading (lba left word : Z) | Writing (lba left word : Z).

(** [a_busy] status reads still find BSY set; every command and every sector
    starts [a_latency] of them.  [a_bad] holds the sectors the drive fails on. *)
Record ata := Ata {
  a_bytes : gmap Z Z; a_head : Z; a_count : Z; a_low : Z; a_mid : Z; a_high : Z;
  a_phase : ata_phase; a_busy : Z; a_latency : Z; a_bad : gset Z
}.

Definition set_phase (p : ata_phase) (n : Z) (d : ata) : ata :=
  Ata (a_bytes d) (a_head d) (a_count d) (a_low d) (a_mid d) (a_high d) p n (a_latency d) (a_bad d).
Definition set_bytes (m : gmap Z Z) (d : ata) : ata :=
  Ata m (a_head d) (a_count d) (a_low d) (a_mid d) (a_high d) (a_phase d) (a_busy d) (a_latency d) (a_bad d).

(** The 28-bit address in the registers; a count of 0 means 256. *)
Definition a_lba (d : ata) : Z := a_low d + 2 ^ 8 * a_mid d + 2 ^ 16 * a_high d + 2 ^ 24 * (a_head d .&. 0x0F).
Definition a_sectors (d : ata) : Z := if a_count d =? 0 then 256 else a_count d.

Definition current_sector (p : ata_phase) : option Z :=
  match p with Idle => None | Reading l _ _ | Writing l _ _ => Some l end.

(** The status register: BSY alone while busy; otherwise ready, with DRQ or
    ERR when a transfer is under way. *)
Definition ata_status (d : ata) : Z :=
  if 0 <? a_busy d then ATA_SR_BSY
  else match current_sector (a_phase d) with
       | None => 0x40
       | Some l => if decide (l ∈ a_bad d) then 0x40 .|. ATA_SR_ERR else 0x40 .|. ATA_SR_DRQ
       end.

(** After a word: the next one, the next sector, or done. *)
Definition advance (mk : Z -> Z -> Z -> ata_phase) (l n w : Z) (d : ata) : ata :=
  if w <? 255 then set_phase (mk l n (w + 1)) (a_busy d) d
  else if 1 <? n then set_phase (mk (l + 1) (n - 1) 0) (a_latency d) d
  else set_phase Idle (a_latency d) d.

Definition ata_in (w p : Z) (d : ata) : Z * ata :=
  if p =? ATA_STATUS then (ata_status d, set_phase (a_phase d) (Z.max 0 (a_busy d - 1)) d)
  else if p =? ATA_DATA then
    match a_phase d with
    | Reading l n k =>
        let x := l * 512 + 2 * k in
        (u8 (a_bytes d !!! x) + 2 ^ 8 * u8 (a_bytes d !!! (x + 1)), advance Reading l n k d)
    | _ => (0, d)
    end
  else (0, d).

Definition ata_command (v : Z) (d : ata) : ata :=
  if v =? ATA_CMD_READ then set_phase (Reading (a_lba d) (a_sectors d) 0) (a_latency d) d
  else if v =? ATA_CMD_WRITE then set_phase (Writing (a_lba d) (a_sectors d) 0) (a_latency d) d
  else set_phase (a_phase d) (a_latency d) d.

Definition ata_out (w p v : Z) (d : ata) : ata :=
  let regs h c lo mi hi := Ata (a_bytes d) h c lo mi hi (a_phase d) (a_busy d) (a_latency d) (a_bad d) in
  if p =? ATA_DRIVE_HEAD then regs v (a_count d) (a_low d) (a_mid d) (a_high d)
  else if p =? ATA_SECCOUNT then regs (a_head d) v (a_low d) (a_mid d) (a_high d)
  else if p =? ATA_LBA_LOW then regs (a_head d) (a_count d) v (a_mid d) (a_high d)
  else if p =? ATA_LBA_MID then regs (a_head d) (a_count d) (a_low d) v (a_high d)
  else if p =? ATA_LBA_HIGH then regs (a_head d) (a_count d) (a_low d) (a_mid d) v
  else if p =? ATA_COMMAND then ata_command v d
  else if p =? ATA_DATA then
    match a_phase d with
    | Writing l n k =>
        let x := l * 512 + 2 * k in
        advance Writing l n k (set_bytes (<[x + 1 := v .>>. 8]> (<[x := u8 v]> (a_bytes d))) d)
    | _ => d
    end
  else d.
#[export] Instance ata_bus : PortBus ata := {| port_in := ata_in; port_out := ata_out |}.

#[export] Instance ata_device : BlockDevice ata := {|
  disk_read := hal_disk_read; disk_write := hal_disk_write;
  disk_byte := fun d x => u8 (a_bytes d !!! x)
|}.

(** ** The wait loops *)

Definition rebusy (x : Z) (d : ata) : ata := set_phase (a_phase d) x d.

Lemma rebusy_twice x y d : rebusy x (rebusy y d) = rebusy x d.
Proof. reflexivity. Qed.

(** A poll that goes on while the drive is busy and then answers [r]. *)
Definition answers (f : ata -> option Z * ata) (r : ata -> option Z) : Prop :=
  forall d, f d = (if 0 <? a_busy d then None else r d, rebusy (Z.max 0 (a_busy d - 1)) d).

Lemma poll_through f r n d :
  answers f r -> (forall x d, r (rebusy x d) = r d) ->
  exists o x, poll_until n f d = (o, rebusy x d) /\ (0 < x -> x <= a_busy d) /\
    (forall v, o = Some v -> r d = Some v) /\
    (forall v, Z.max 0 (a_busy d) < Z.of_nat n -> r d = Some v -> o = Some v).
Proof.
  intros Hf Hr. revert d; induction n as [|n IH]; intros d.
  - exists None, (a_busy d). split_and!; [by destruct d | lia | done | lia].
  - cbn [poll_until]. rewrite Hf. destruct (Z.ltb_spec 0 (a_busy d)).
    + destruct (IH (rebusy (Z.max 0 (a_busy d - 1)) d)) as (o & x & -> & Hx & Ho & Hok).
      rewrite Hr in *. cbn [a_busy rebusy set_phase] in *. exists o, x.
      split_and!; [done | lia | done |]. intros v Hb. apply Hok. lia.
    + destruct (r d) as [v|] eqn:Ev.
      * exists (Some v), (Z.max 0 (a_busy d - 1)). split_and!; [done | lia | done | done].
      * destruct (IH (rebusy (Z.max 0 (a_busy d - 1)) d)) as (o & x & -> & Hx & Ho & Hok).
        rewrite Hr, Ev in *. cbn [a_busy rebusy set_phase] in *. exists o, x.
        split_and!; [done | lia | done | done].
Qed.

Definition drq_answer (d : ata) : option Z :=
  match current_sector (a_phase d) with
  | None => None
  | Some l => if decide (l ∈ a_bad d) then Some (-1) else Some 0
  end.

Lemma status_port d :
  inb ATA_STATUS d = (ata_status d, rebusy (Z.max 0 (a_busy d - 1)) d).
Proof.
  unfold inb. change (port_in 1 ATA_STATUS d) with (ata_status d, rebusy (Z.max 0 (a_busy d - 1)) d).
  f_equal. apply u8_small. unfold ata_status. destruct (0 <? a_busy d); [done|].
  destruct (current_sector _); [|done]. by destruct (decide _).
Qed.

Lemma not_busy_answers : answers not_busy_poll (fun _ => Some 0).
Proof.
  intros d. unfold not_busy_poll. rewrite status_port. unfold ata_status.
  destruct (0 <? a_busy d); [done|]. destruct (current_sector _); [|done]. by destruct (decide _).
Qed.

Lemma drq_answers : answers drq_poll drq_answer.
Proof.
  intros d. unfold drq_poll, drq_answer. rewrite status_port. unfold ata_status.
  destruct (0 <? a_busy d); [done|]. destruct (current_sector _); [|done]. by destruct (decide _).
Qed.

Definition ready_soon (d : ata) : Prop := a_busy d < ATA_TIMEOUT_SPINS.

Lemma spins_nat d : ready_soon d -> Z.max 0 (a_busy d) < Z.of_nat (Z.to_nat ATA_TIMEOUT_SPINS).
Proof. unfold ready_soon, ATA_TIMEOUT_SPINS. lia. Qed.

Lemma wait_not_busy_spec d :
  exists rc x, ata_wait_not_busy d = (rc, rebusy x d) /\ (0 < x -> x <= a_busy d) /\ (ready_soon d -> rc = 0).
Proof.
  unfold ata_wait_not_busy.
  destruct (poll_through _ _ (Z.to_nat ATA_TIMEOUT_SPINS) d not_busy_answers ltac:(done)) as (o & x & -> & Hx & _ & Hok).
  exists (default (-1) o), x. split_and!; [done | done |].
  intros Hr. by rewrite (Hok 0 (spins_nat d Hr) eq_refl).
Qed.

Lemma wait_drq_spec d :
  exists rc x, ata_wait_drq d = (rc, rebusy x d) /\ (0 < x -> x <= a_busy d) /\
    (rc = 0 -> exists l, current_sector (a_phase d) = Some l /\ l ∉ a_bad d) /\
    (forall l, ready_soon d -> current_sector (a_phase d) = Some l -> l ∉ a_bad d -> rc = 0).
Proof.
  unfold ata_wait_drq.
  destruct (poll_through _ _ (Z.to_nat ATA_TIMEOUT_SPINS) d drq_answers ltac:(done)) as (o & x & -> & Hx & Ho & Hok).
  exists (default (-1) o), x. split_and!; [done | done | |].
  - destruct o as [v|]; [|done]. cbn. intros ->. specialize (Ho 0 eq_refl). unfold drq_answer in Ho.
    destruct (current_sector (a_phase d)) as [l|]; [|done]. destruct (decide (l ∈ a_bad d)); [done|]. by exists l.
  - intros l Hr Hl Hb. rewrite (Hok 0 (spins_nat d Hr)); [done|]. unfold drq_answer. rewrite Hl.
    by destruct (decide (l ∈ a_bad d)).
Qed.

(** ** Setting up a command *)

(** The drive at the start of a command, up to its register file. *)
Record started (p : ata_phase) (d d' : ata) : Prop := Started {
  st_phase : a_phase d' = p; st_bytes : a_bytes d' = a_bytes d; st_bad : a_bad d' = a_bad d;
  st_latency : a_latency d' = a_latency d; st_busy : a_busy d' = a_latency d
}.

Lemma delay_spec d : exists x, ata_delay d = rebusy x d.
Proof.
  unfold ata_delay. cbn [loop]. rewrite !status_port. cbn [snd]. rewrite !rebusy_twice. by eexists.
Qed.

Lemma lba_bytes lba :
  u8 (lba .&. 0xFF) + 2 ^ 8 * u8 ((lba .>>. 8) .&. 0xFF) + 2 ^ 16 * u8 ((lba .>>. 16) .&. 0xFF) +
    2 ^ 24 * (u8 (0xE0 .|. ((lba .>>. 24) .&. 0x0F)) .&. 0x0F) = lba mod 2 ^ 28.
Proof.
  change 0x0F with (Z.ones 4). change 0xFF with (Z.ones 8).
  replace (u8 (0xE0 .|. ((lba .>>. 24) .&. Z.ones 4)) .&. Z.ones 4) with ((lba .>>. 24) .&. Z.ones 4).
  - rewrite !Z.land_ones, !Z.shiftr_div_pow2 by lia. unfold u8. Z.div_mod_to_equations; lia.
  - rewrite !Z.land_ones by lia. unfold u8. set (x := (lba .>>. 24) mod 2 ^ 4).
    assert (0 <= x < 2 ^ 4) by (apply Z.mod_pos_bound; lia). clearbody x.
    rewrite (lor_low_flags 0xE0 4) by (done || lia). Z.div_mod_to_equations; lia.
Qed.

Lemma setup_spec lba count cmd mk d :
  0 <= count ->
  (forall d, ata_command cmd d = set_phase (mk (a_lba d) (a_sectors d) 0) (a_latency d) d) -> u8 cmd = cmd ->
  exists rc d', ata_setup lba count cmd d = (rc, d') /\
    (rc = 0 -> 1 <= count <= 255 /\ started (mk (lba mod 2 ^ 28) count 0) d d') /\
    (rc <> 0 -> a_bytes d' = a_bytes d) /\
    (1 <= count <= 255 -> ready_soon d -> rc = 0).
Proof.
  intros Hc Hcmd Hu8. unfold ata_setup.
  destruct ((count =? 0) || (255 <? count)) eqn:Ec.
  { exists (-1), d. split_and!; try done. intros. exfalso. apply orb_prop in Ec as [?|?]; breflect; lia. }
  breflect. destruct (wait_not_busy_spec d) as (rc & x & -> & _ & Hrc).
  destruct (Z.eqb_spec rc 0) as [->|Hne]; cbn [negb].
  2: { exists (-1), (rebusy x d). split_and!; try done. intros _ Hr. exfalso. auto. }
  set (d1 := outb ATA_DRIVE_HEAD _ _). destruct (delay_spec d1) as [y ->].
  eexists 0, _. split; [reflexivity|]. split_and!; try done. intros _. split; [lia|].
  assert (Ecmd : forall d, outb ATA_COMMAND cmd d = ata_command cmd d).
  { intros d'. unfold outb. rewrite Hu8. reflexivity. }
  rewrite Ecmd, Hcmd. subst d1. split; try reflexivity.
  cbn [a_phase set_phase]. unfold outb. cbn [port_out ata_bus].
  change (mk (u8 (lba .&. 0xFF) + 2 ^ 8 * u8 ((lba .>>. 8) .&. 0xFF) + 2 ^ 16 * u8 ((lba .>>. 16) .&. 0xFF) +
    2 ^ 24 * (u8 (0xE0 .|. ((lba .>>. 24) .&. 0x0F)) .&. 0x0F)) (if u8 count =? 0 then 256 else u8 count) 0 =
    mk (lba mod 2 ^ 28) count 0).
  rewrite lba_bytes, (u8_small count) by (unfold in_u8; lia). by zcmp.
Qed.

(** ** Moving one sector *)

Lemma read_word_in j buf l n w d :
  a_phase d = Reading l n w ->
  read_word j (buf, d) =
  (<[2 * j + 1 := u8 (a_bytes d !!! (l * 512 + 2 * w + 1))]>
     (<[2 * j := u8 (a_bytes d !!! (l * 512 + 2 * w))]> buf), advance Reading l n w d).
Proof.
  intros Hp. unfold read_word, inw. cbn [snd fst port_in ata_bus]. unfold ata_in.
  change (ATA_DATA =? ATA_STATUS) with false. change (ATA_DATA =? ATA_DATA) with true. rewrite Hp.
  set (lo := u8 _). set (hi := u8 (a_bytes d !!! (l * 512 + 2 * w + 1))).
  assert (in_u8 lo /\ in_u8 hi) as [Hlo Hhi] by (split; apply u8_range). unfold in_u8 in *. clearbody lo hi.
  assert (u16 (lo + 2 ^ 8 * hi) = lo + 2 ^ 8 * hi) as -> by (unfold u16; rewrite Z.mod_small; lia).
  f_equal. f_equal.
  - rewrite Z.shiftr_div_pow2 by lia. Z.div_mod_to_equations; lia.
  - f_equal. unfold u8. Z.div_mod_to_equations; lia.
Qed.

Lemma fill_pair base (g : Z -> Z) m (a : gmap Z Z) :
  fill base g 0 (2 * S m) a =
  <[base + (2 * Z.of_nat m + 1) := g (2 * Z.of_nat m + 1)]>
    (<[base + 2 * Z.of_nat m := g (2 * Z.of_nat m)]> (fill base g 0 (2 * m) a)).
Proof.
  replace (2 * S m)%nat with (S (S (2 * m))) by lia. rewrite !fill_S.
  replace (0 + Z.of_nat (S (2 * m))) with (2 * Z.of_nat m + 1) by lia.
  by replace (0 + Z.of_nat (2 * m)) with (2 * Z.of_nat m) by lia.
Qed.

Definition sector_bytes (d : ata) (l : Z) (i : Z) : Z := u8 (a_bytes d !!! (l * 512 + i)).

Lemma read_step m s buf l n d :
  read_word (256 * s + (0 + Z.of_nat m))
    (fill (512 * s) (sector_bytes d l) 0 (2 * m) buf, set_phase (Reading l n (Z.of_nat m)) (a_busy d) d) =
  (fill (512 * s) (sector_bytes d l) 0 (2 * S m) buf,
   advance Reading l n (Z.of_nat m) (set_phase (Reading l n (Z.of_nat m)) (a_busy d) d)).
Proof.
  rewrite (read_word_in _ _ l n (Z.of_nat m)) by done. rewrite fill_pair. cbn [a_bytes set_phase].
  replace (2 * (256 * s + (0 + Z.of_nat m))) with (512 * s + 2 * Z.of_nat m) by lia.
  replace (512 * s + 2 * Z.of_nat m + 1) with (512 * s + (2 * Z.of_nat m + 1)) by lia.
  by replace (l * 512 + 2 * Z.of_nat m + 1) with (l * 512 + (2 * Z.of_nat m + 1)) by lia.
Qed.

Lemma read_words m s buf l n d :
  (m <= 255)%nat -> a_phase d = Reading l n 0 ->
  loop (fun i => read_word (256 * s + i)) 0 m (buf, d) =
  (fill (512 * s) (sector_bytes d l) 0 (2 * m) buf, set_phase (Reading l n (Z.of_nat m)) (a_busy d) d).
Proof.
  intros Hm Hp. induction m as [|m IH].
  - cbn. f_equal. destruct d. cbn in *. by subst.
  - rewrite loop_S, IH, read_step by lia. f_equal. unfold advance. rewrite (proj2 (Z.ltb_lt _ _)) by lia.
    by replace (Z.of_nat (S m)) with (Z.of_nat m + 1) by lia.
Qed.

(** Where a transfer stands after its current sector. *)
Definition next_sector (mk : Z -> Z -> Z -> ata_phase) (l n : Z) (d : ata) : ata :=
  if 1 <? n then set_phase (mk (l + 1) (n - 1) 0) (a_latency d) d else set_phase Idle (a_latency d) d.

Lemma read_one_sector s buf l n d :
  a_phase d = Reading l n 0 ->
  loop (fun i => read_word (256 * s + i)) 0 256 (buf, d) =
  (fill (512 * s) (sector_bytes d l) 0 512 buf, next_sector Reading l n d).
Proof.
  intros Hp. change 256%nat with (S 255). rewrite loop_S, (read_words 255 s buf l n d), read_step by done.
  by f_equal.
Qed.

Definition buf_word (buf : gmap Z Z) (j : Z) : Z := u16 (buf !!! (2 * j) .|. (buf !!! (2 * j + 1) .<<. 8)).

Lemma write_word_out j buf l n w d :
  a_phase d = Writing l n w ->
  write_word buf j d =
  advance Writing l n w (set_bytes (<[l * 512 + 2 * w + 1 := buf_word buf j .>>. 8]>
                                      (<[l * 512 + 2 * w := u8 (buf_word buf j)]> (a_bytes d))) d).
Proof.
  intros Hp. unfold write_word, outw. cbn [port_out ata_bus]. unfold ata_out.
  change (ATA_DATA =? ATA_DRIVE_HEAD) with false. change (ATA_DATA =? ATA_SECCOUNT) with false.
  change (ATA_DATA =? ATA_LBA_LOW) with false. change (ATA_DATA =? ATA_LBA_MID) with false.
  change (ATA_DATA =? ATA_LBA_HIGH) with false. change (ATA_DATA =? ATA_COMMAND) with false.
  change (ATA_DATA =? ATA_DATA) with true. by rewrite Hp.
Qed.

(** The byte of the buffer a transfer puts at offset [i]. *)
Definition out_byte (buf : gmap Z Z) (i : Z) : Z :=
  if i mod 2 =? 0 then u8 (buf_word buf (i / 2)) else buf_word buf (i / 2) .>>. 8.

Lemma out_byte_spec buf i : in_u8 (buf !!! (2 * (i / 2))) -> in_u8 (buf !!! (2 * (i / 2) + 1)) ->
  out_byte buf i = buf !!! i.
Proof.
  intros Hlo Hhi. unfold out_byte, buf_word, in_u8 in *.
  set (lo := buf !!! (2 * (i / 2))) in *. set (hi := buf !!! (2 * (i / 2) + 1)) in *.
  assert (u16 (lo .|. (hi .<<. 8)) = lo + 2 ^ 8 * hi) as ->.
  { rewrite Z.lor_comm, Z.shiftl_mul_pow2, (lor_low_flags _ 8) by (lia || (Z.div_mod_to_equations; lia)).
    unfold u16. rewrite Z.mod_small; lia. }
  destruct (Z.eqb_spec (i mod 2) 0).
  - transitivity lo; [unfold u8; Z.div_mod_to_equations; lia|]. unfold lo. f_equal. Z.div_mod_to_equations; lia.
  - transitivity hi; [rewrite Z.shiftr_div_pow2 by lia; Z.div_mod_to_equations; lia|].
    unfold hi. f_equal. Z.div_mod_to_equations; lia.
Qed.

Lemma write_step m s buf l n d :
  write_word buf (256 * s + (0 + Z.of_nat m))
    (set_phase (Writing l n (Z.of_nat m)) (a_busy d)
       (set_bytes (fill (l * 512) (fun i => out_byte buf (512 * s + i)) 0 (2 * m) (a_bytes d)) d)) =
  advance Writing l n (Z.of_nat m)
    (set_phase (Writing l n (Z.of_nat m)) (a_busy d)
       (set_bytes (fill (l * 512) (fun i => out_byte buf (512 * s + i)) 0 (2 * S m) (a_bytes d)) d)).
Proof.
  rewrite (write_word_out _ _ l n (Z.of_nat m)) by done. rewrite fill_pair. cbn [a_bytes set_phase set_bytes].
  replace (out_byte buf (512 * s + (2 * Z.of_nat m + 1))) with (buf_word buf (256 * s + (0 + Z.of_nat m)) .>>. 8).
  2: { unfold out_byte. rewrite (proj2 (Z.eqb_neq _ 0)) by (Z.div_mod_to_equations; lia).
       repeat f_equal. Z.div_mod_to_equations; lia. }
  replace (out_byte buf (512 * s + 2 * Z.of_nat m)) with (u8 (buf_word buf (256 * s + (0 + Z.of_nat m)))).
  2: { unfold out_byte. rewrite (proj2 (Z.eqb_eq _ 0)) by (Z.div_mod_to_equations; lia).
       repeat f_equal. Z.div_mod_to_equations; lia. }
  by replace (l * 512 + 2 * Z.of_nat m + 1) with (l * 512 + (2 * Z.of_nat m + 1)) by lia.
Qed.

Lemma write_words m s buf l n d :
  (m <= 255)%nat -> a_phase d = Writing l n 0 ->
  loop (fun i => write_word buf (256 * s + i)) 0 m d =
  set_phase (Writing l n (Z.of_nat m)) (a_busy d)
    (set_bytes (fill (l * 512) (fun i => out_byte buf (512 * s + i)) 0 (2 * m) (a_bytes d)) d).
Proof.
  intros Hm Hp. induction m as [|m IH].
  - cbn. destruct d. cbn in *. by subst.
  - rewrite loop_S, IH, write_step by lia. unfold advance. rewrite (proj2 (Z.ltb_lt _ _)) by lia.
    by replace (Z.of_nat (S m)) with (Z.of_nat m + 1) by lia.
Qed.

Lemma write_one_sector s buf l n d :
  a_phase d = Writing l n 0 ->
  loop (fun i => write_word buf (256 * s + i)) 0 256 d =
  next_sector Writing l n (set_bytes (fill (l * 512) (fun i => out_byte buf (512 * s + i)) 0 512 (a_bytes d)) d).
Proof.
  intros Hp. change 256%nat with (S 255). rewrite loop_S, (write_words 255 s buf l n d), write_step by done.
  by change (2 * S 255)%nat with 512%nat.
Qed.

(** ** Whole transfers *)

(** A drive that is ready within the polling budget and can serve the [n]
    sectors from [l]. *)
Definition serves (d : ata) (l n : Z) : Prop :=
  ready_soon d /\ a_latency d < ATA_TIMEOUT_SPINS /\ forall j, l <= j < l + n -> j ∉ a_bad d.

Lemma next_sector_spec mk l n d :
  let d' := next_sector mk l (Z.of_nat (S n)) d in
  (n = O \/ a_phase d' = mk (l + 1) (Z.of_nat n) 0) /\ a_bytes d' = a_bytes d /\
  (serves d l (Z.of_nat (S n)) -> serves d' (l + 1) (Z.of_nat n)).
Proof.
  intros d'. unfold d', next_sector. destruct (Z.ltb_spec 1 (Z.of_nat (S n))).
  - split_and!; [right; cbn; f_equal; lia | done |]. intros (_ & Hl & Hb). split_and!; [done | done |].
    intros j Hj. apply Hb. lia.
  - split_and!; [left; lia | done |]. intros (_ & Hl & Hb). split_and!; [done | done |].
    intros j Hj. apply Hb. lia.
Qed.

Lemma serves_rebusy x d l n : (0 < x -> x <= a_busy d) -> serves d l n -> serves (rebusy x d) l n.
Proof.
  intros Hx (Hr & Hl & Hb). split_and!; [|done|done]. unfold ready_soon, ATA_TIMEOUT_SPINS in *. cbn. lia.
Qed.

Lemma read_sectors_spec n s buf d l :
  (n = O \/ a_phase d = Reading l (Z.of_nat n) 0) ->
  exists rc buf' d', read_sectors n s buf d = (rc, buf', d') /\ a_bytes d' = a_bytes d /\
    (forall i, i < 512 * s \/ 512 * (s + Z.of_nat n) <= i -> buf' !!! i = buf !!! i) /\
    (rc = 0 -> forall i, 512 * s <= i < 512 * (s + Z.of_nat n) -> buf' !!! i = sector_bytes d l (i - 512 * s)) /\
    (serves d l (Z.of_nat n) -> rc = 0).
Proof.
  revert s buf d l; induction n as [|n IH]; intros s buf d l Hp.
  { exists 0, buf, d. split_and!; try done. intros _ i Hi. lia. }
  destruct Hp as [|Hp]; [lia|]. cbn [read_sectors].
  destruct (wait_drq_spec d) as (rc & x & -> & Hx & _ & Hok).
  destruct (Z.eqb_spec rc 0) as [->|Hne]; cbn [negb].
  2: { exists (-1), buf, (rebusy x d). split_and!; try done. intros (Hr & _ & Hb). exfalso. apply Hne.
       apply (Hok l Hr); [by rewrite Hp | apply Hb; lia]. }
  rewrite (read_one_sector s buf l (Z.of_nat (S n))) by exact Hp.
  destruct (next_sector_spec Reading l n (rebusy x d)) as (Hp' & Hb' & Hs').
  destruct (IH (s + 1) (fill (512 * s) (sector_bytes (rebusy x d) l) 0 512 buf) _ (l + 1) Hp')
    as (rc' & buf' & d' & -> & Hbytes & Hout & Hin & Hok').
  exists rc', buf', d'. split; [done|]. split_and!.
  - by rewrite Hbytes, Hb'.
  - intros i Hi. rewrite Hout by lia. apply fill_out. lia.
  - intros Hrc i Hi. destruct (Z.lt_ge_cases i (512 * (s + 1))).
    + rewrite Hout by lia. rewrite fill_in by lia. done.
    + rewrite Hin by (done || lia). unfold sector_bytes. rewrite Hb'. cbn [a_bytes rebusy set_phase].
      do 2 f_equal. lia.
  - intros Hserves. apply Hok', Hs', serves_rebusy; done.
Qed.

Lemma write_sectors_spec n s buf d l :
  (n = O \/ a_phase d = Writing l (Z.of_nat n) 0) ->
  exists rc d', write_sectors n s buf d = (rc, d') /\
    (forall x, x < l * 512 \/ (l + Z.of_nat n) * 512 <= x -> a_bytes d' !!! x = a_bytes d !!! x) /\
    (rc = 0 -> forall i, 0 <= i < 512 * Z.of_nat n -> a_bytes d' !!! (l * 512 + i) = out_byte buf (512 * s + i)) /\
    (serves d l (Z.of_nat n) -> rc = 0 /\ ready_soon d' /\ a_latency d' < ATA_TIMEOUT_SPINS).
Proof.
  revert s d l; induction n as [|n IH]; intros s d l Hp.
  { exists 0, d. split_and!; [done | done | intros _ i Hi; lia | by intros (? & ? & _)]. }
  destruct Hp as [|Hp]; [lia|]. cbn [write_sectors].
  destruct (wait_drq_spec d) as (rc & x & -> & Hx & _ & Hok).
  destruct (Z.eqb_spec rc 0) as [->|Hne]; cbn [negb].
  2: { exists (-1), (rebusy x d). split_and!; try done. intros (Hr & _ & Hb). exfalso. apply Hne.
       apply (Hok l Hr); [by rewrite Hp | apply Hb; lia]. }
  rewrite (write_one_sector s buf l (Z.of_nat (S n))) by exact Hp.
  set (d1 := set_bytes _ _).
  destruct (next_sector_spec Writing l n d1) as (Hp' & Hb' & Hs').
  destruct (IH (s + 1) _ (l + 1) Hp') as (rc' & d' & -> & Hout & Hin & Hok').
  exists rc', d'. split; [done|]. split_and!.
  - intros y Hy. rewrite Hout, Hb' by lia. apply fill_out. lia.
  - intros Hrc i Hi. destruct (Z.lt_ge_cases i 512).
    + rewrite Hout, Hb' by lia. cbn [a_bytes d1 set_bytes]. rewrite fill_in by lia. f_equal. lia.
    + replace (l * 512 + i) with ((l + 1) * 512 + (i - 512)) by lia. rewrite Hin by (done || lia). f_equal. lia.
  - intros Hserves. apply Hok', Hs'. exact (serves_rebusy x d l _ Hx Hserves).
Qed.

Lemma read_command d : ata_command ATA_CMD_READ d = set_phase (Reading (a_lba d) (a_sectors d) 0) (a_latency d) d.
Proof. reflexivity. Qed.
Lemma write_command d : ata_command ATA_CMD_WRITE d = set_phase (Writing (a_lba d) (a_sectors d) 0) (a_latency d) d.
Proof. reflexivity. Qed.

Lemma started_serves p d d' l n : started p d d' -> serves d l n -> serves d' l n.
Proof.
  intros [_ _ Hb Hl Hbusy] (_ & Hlat & Hbad). unfold serves, ready_soon. rewrite Hbusy, Hl, Hb. done.
Qed.

Lemma disk_read_cases lba count buf d :
  0 <= count ->
  exists rc buf' d', hal_disk_read lba count buf d = (rc, buf', d') /\ a_bytes d' = a_bytes d /\
    (forall i, count * 512 <= i -> buf' !!! i = buf !!! i) /\
    (rc = 0 -> forall i, 0 <= i < count * 512 -> buf' !!! i = sector_bytes d (lba mod 2 ^ 28) i) /\
    (1 <= count <= 255 -> serves d (lba mod 2 ^ 28) count -> rc = 0).
Proof.
  intros Hc. unfold hal_disk_read.
  destruct (setup_spec lba count ATA_CMD_READ Reading d Hc read_command eq_refl) as (rc & d1 & -> & Hst & Hfail & Hok).
  destruct (Z.eqb_spec rc 0) as [->|Hne]; cbn [negb].
  2: { exists (-1), buf, d1. split_and!; [done | by apply Hfail | done | done |].
       intros Hcount (Hr & _). exfalso. auto. }
  destruct (Hst eq_refl) as [Hcount Hs]. clear Hst Hfail Hok.
  destruct (read_sectors_spec (Z.to_nat count) 0 buf d1 (lba mod 2 ^ 28)) as (rc & buf' & d' & -> & Hb & Hout & Hin & Hok).
  { right. rewrite Z2Nat.id by lia. apply Hs. }
  rewrite Z2Nat.id in * by lia. exists rc, buf', d'. split_and!; [done | | | |].
  - by rewrite Hb, (st_bytes _ _ _ Hs).
  - intros i Hi. apply Hout. lia.
  - intros Hrc i Hi. rewrite Hin by (done || lia). unfold sector_bytes. rewrite (st_bytes _ _ _ Hs). do 2 f_equal. lia.
  - intros _ Hserves. apply Hok. by eapply started_serves.
Qed.

Lemma disk_write_cases lba count buf d :
  0 <= count ->
  exists rc d', hal_disk_write lba count buf d = (rc, d') /\
    (forall x, x < (lba mod 2 ^ 28) * 512 \/ (lba mod 2 ^ 28 + count) * 512 <= x ->
       a_bytes d' !!! x = a_bytes d !!! x) /\
    (rc = 0 -> forall i, 0 <= i < count * 512 -> a_bytes d' !!! ((lba mod 2 ^ 28) * 512 + i) = out_byte buf i) /\
    (1 <= count <= 255 -> serves d (lba mod 2 ^ 28) count -> rc = 0).
Proof.
  intros Hc. unfold hal_disk_write.
  destruct (setup_spec lba count ATA_CMD_WRITE Writing d Hc write_command eq_refl) as (rc & d1 & -> & Hst & Hfail & Hok).
  destruct (Z.eqb_spec rc 0) as [->|Hne]; cbn [negb].
  2: { exists (-1), d1. split_and!; [done | by intros; rewrite Hfail | done |].
       intros Hcount (Hr & _). exfalso. auto. }
  destruct (Hst eq_refl) as [Hcount Hs]. clear Hst Hfail Hok.
  destruct (write_sectors_spec (Z.to_nat count) 0 buf d1 (lba mod 2 ^ 28)) as (rc & d2 & -> & Hout & Hin & Hok).
  { right. rewrite Z2Nat.id by lia. apply Hs. }
  rewrite Z2Nat.id in * by lia. rewrite (st_bytes _ _ _ Hs) in *.
  assert (Hok' : serves d (lba mod 2 ^ 28) count -> rc = 0 /\ ready_soon d2 /\ a_latency d2 < ATA_TIMEOUT_SPINS).
  { intros H. apply Hok. by eapply started_serves. }
  clear Hok. destruct (Z.eqb_spec rc 0) as [->|Hne]; cbn [negb].
  2: { exists (-1), d2. split_and!; try done. intros _ Hv. exfalso. by apply Hne, Hok'. }
  destruct (wait_not_busy_spec d2) as (rc & x & -> & Hx & Hrc).
  destruct (Z.eqb_spec rc 0) as [->|Hne]; cbn [negb].
  2: { exists (-1), (rebusy x d2). split_and!; try done. intros _ Hv. exfalso. by apply Hne, Hrc, Hok'. }
  destruct (wait_not_busy_spec (outb ATA_COMMAND ATA_CMD_FLUSH (rebusy x d2))) as (rc & y & -> & _ & Hrc').
  exists (if negb (rc =? 0) then -1 else 0), (rebusy y (outb ATA_COMMAND ATA_CMD_FLUSH (rebusy x d2))).
  split; [by destruct (rc =? 0)|]. split_and!; [done | |].
  - intros _ i Hi. change (a_bytes (rebusy y _)) with (a_bytes d2). by rewrite Hin by (done || lia).
  - intros _ Hv. by rewrite (Hrc' (proj2 (proj2 (Hok' Hv)))).
Qed.

#[export] Instance ata_device_laws : BlockDeviceLaws ata.
Proof.
  split.
  - intros. apply u8_range.
  - intros lba n buf d rc buf' d' E Hn0. cbn [disk_read ata_device disk_byte] in *.
    destruct (disk_read_cases lba n buf d Hn0) as (rc1 & b1 & d1 & E1 & Hb & Hout & Hin & _).
    rewrite E1 in E. injection E as <- <- <-. split_and!; [|done | by rewrite Hb].
    intros Hrc (Hl & Hn & Hmax) i Hi. rewrite Hin by (done || lia). by rewrite Z.mod_small by lia.
  - intros lba n buf d rc d' E (Hl & Hn & Hmax). cbn [disk_write ata_device disk_byte] in *.
    destruct (disk_write_cases lba n buf d ltac:(lia)) as (rc1 & d1 & E1 & Hout & Hin & _).
    rewrite E1 in E. injection E as <- <-. rewrite Z.mod_small in * by lia. split.
    + intros Hrc Hbuf i Hi. rewrite Hin by (done || lia).
      rewrite out_byte_spec by (apply Hbuf; Z.div_mod_to_equations; lia). by apply u8_small, Hbuf.
    + intros x Hx. by rewrite Hout.
Qed.

(** C29: the driver implements the block device the object store relies on.  On
    a standard ATA drive that becomes ready within the polling budget and can
    serve the sectors, a write of up to 255 sectors below 2^28 succeeds and
    stores exactly the buffer there and nothing elsewhere, and reading them
    back succeeds and returns it. *)
Theorem ata_write_read_roundtrip (lba n : Z) (buf buf2 : gmap Z Z) (d : ata) :
  sectors_ok lba n -> serves d lba n -> (forall i, 0 <= i < n * 512 -> in_u8 (buf !!! i)) ->
  exists d', hal_disk_write lba n buf d = (0, d') /\
    (forall x, x < lba * 512 \/ (lba + n) * 512 <= x -> a_bytes d' !!! x = a_bytes d !!! x) /\
    (serves d' lba n -> exists out d'', hal_disk_read lba n buf2 d' = (0, out, d'') /\
       (forall i, 0 <= i < n * 512 -> out !!! i = buf !!! i) /\
       (forall i, n * 512 <= i -> out !!! i = buf2 !!! i) /\ a_bytes d'' = a_bytes d').
Proof.
  intros (Hl & Hn & Hmax) Hserves Hbuf.
  destruct (disk_write_cases lba n buf d ltac:(lia)) as (rc & d' & Ew & Hout & Hin & Hok).
  rewrite Z.mod_small in * by lia. specialize (Hok ltac:(lia) Hserves). subst rc. exists d'.
  split_and!; [done | done |]. intros Hserves'.
  destruct (disk_read_cases lba n buf2 d' ltac:(lia)) as (rc & out & d'' & Er & Hb & Hout' & Hin' & Hok).
  rewrite Z.mod_small in * by lia. specialize (Hok ltac:(lia) Hserves'). subst rc. exists out, d''.
  split_and!; [done | | done | done]. intros i Hi. rewrite Hin' by (done || lia).
  unfold sector_bytes. rewrite Hin by (done || lia).
  rewrite out_byte_spec by (apply Hbuf; Z.div_mod_to_equations; lia). by apply u8_small, Hbuf.
Qed.

(** An unready drive costs a bounded number of polls and an error, never a hang. *)
Lemma stuck_drive_fails lba n buf d :
  (forall d', (ata_wait_not_busy d').1 = -1) -> hal_disk_read lba n buf d = (-1, buf, (ata_setup lba n ATA_CMD_READ d).2).
Proof.
  intros H. unfold hal_disk_read, ata_setup. destruct (_ || _); [done|].
  specialize (H d). destruct (ata_wait_not_busy d) as [rc d1]. cbn in H. by subst.
Qed.

(** A drive with slow sectors, and the byte 7 written to and read from one. *)
Definition drive1 : ata := Ata ∅ 0 0 0 0 0 Idle 5 3 ∅.

Lemma drive1_serves lba n : serves drive1 lba n.
Proof. split_and!; [by unfold ready_soon | done |]. intros j _. apply not_elem_of_empty. Qed.

Lemma ata_write_read_roundtrip_witness :
  exists d', hal_disk_write 125 1 (<[3 := 7]> ∅) drive1 = (0, d').
Proof.
  destruct (ata_write_read_roundtrip 125 1 (<[3 := 7]> ∅) ∅ drive1) as (d' & H & _).
  - by unfold sectors_ok.
  - apply drive1_serves.
  - intros i Hi. destruct (decide (i = 3)) as [->|]; [by rewrite lookup_total_insert_eq|].
    rewrite lookup_total_insert_ne by done. by rewrite lookup_total_empty.
  - by exists d'.
Defined.
