(* ===== verification/Console.v ===== *)
(** * Console

    Models [src/hal/x86_64/console.c]: the two-pane VGA text console with its
    escape-sequence parser, the COM1 mirror, the console lock of
    [src/include/vajra/spinlock.h] and the number printers.  Characters are
    bytes; a C string literal is the list of its bytes. *)
From Stdlib Require Import String Ascii.
From S2P Require Import Prelude.

Definition WIN_COUNT : Z := 2.
Definition VGA_COLS : Z := 80.
Definition VGA_ROWS : Z := 25.
Definition VGA_COLOR : Z := 0x0A.

(** The bytes of a literal. *)
Fixpoint bytes (s : string) : list Z :=
  match s with
  | EmptyString => []
  | String c s => Z.of_nat (nat_of_ascii c) :: bytes s
  end.

Record console_window := Win { w_x : Z; w_y : Z; w_w : Z; w_h : Z; w_cx : Z; w_cy : Z }.
#[export] Instance window_inhabited : Inhabited console_window := populate (Win 0 0 0 0 0 0).

Inductive esc_state_t := ESC_NONE | ESC_GOT_ESC | ESC_IN_SEQ.

(** [serial] is what COM1 has been sent, oldest first. *)
Record console := Console {
  vga : gmap Z Z; windows : gmap Z console_window; current_window : Z;
  esc_state : esc_state_t; esc_params : gmap Z Z; esc_param_count : Z; esc_cur_param : Z;
  cur_color : Z; console_lock : Z; serial : list Z
}.
Implicit Types (c : console) (w : console_window).

Definition set_vga (m : gmap Z Z) c : console :=
  Console m (windows c) (current_window c) (esc_state c) (esc_params c) (esc_param_count c) (esc_cur_param c)
          (cur_color c) (console_lock c) (serial c).
Definition set_windows (m : gmap Z console_window) c : console :=
  Console (vga c) m (current_window c) (esc_state c) (esc_params c) (esc_param_count c) (esc_cur_param c)
          (cur_color c) (console_lock c) (serial c).
Definition set_cur_window (v : Z) c : console :=
  Console (vga c) (windows c) v (esc_state c) (esc_params c) (esc_param_count c) (esc_cur_param c)
          (cur_color c) (console_lock c) (serial c).
Definition set_esc (s : esc_state_t) (p : gmap Z Z) (n cur : Z) c : console :=
  Console (vga c) (windows c) (current_window c) s p n cur (cur_color c) (console_lock c) (serial c).
Definition set_color (v : Z) c : console :=
  Console (vga c) (windows c) (current_window c) (esc_state c) (esc_params c) (esc_param_count c)
          (esc_cur_param c) v (console_lock c) (serial c).
Definition set_lock (v : Z) c : console :=
  Console (vga c) (windows c) (current_window c) (esc_state c) (esc_params c) (esc_param_count c)
          (esc_cur_param c) (cur_color c) v (serial c).
Definition send_serial (ch : Z) c : console :=
  Console (vga c) (windows c) (current_window c) (esc_state c) (esc_params c) (esc_param_count c)
          (esc_cur_param c) (cur_color c) (console_lock c) (serial c ++ [u8 ch]).

(** The window putchar works on, [&windows[current_window]]. *)
Definition cur_win c : console_window := windows c !!! current_window c.
Definition put_win w c : console := set_windows (<[current_window c := w]> (windows c)) c.
Definition move (cx cy : Z) w : console_window := Win (w_x w) (w_y w) (w_w w) (w_h w) cx cy.

Definition initial_windows : gmap Z console_window :=
  <[CONSOLE_WIN_SHELL := Win 1 18 78 6 0 0]> (<[CONSOLE_WIN_LOG := Win 1 2 78 13 0 0]> ∅).

(** ** The lock

    A compare-and-swap on the lock word.  On the one core that runs actors the
    loop either succeeds at once or never: [None] is the spin that nobody ends. *)
Definition hal_spin_lock c : option console := if console_lock c =? 0 then Some (set_lock 1 c) else None.
Definition hal_spin_unlock c : console := set_lock 0 c.

(** ** Drawing *)

Definition vga_entry (ch color : Z) : Z := u16 (ch .|. (color .<<. 8)).
Definition vga_put (row col entry : Z) (m : gmap Z Z) : gmap Z Z := <[row * VGA_COLS + col := entry]> m.

Definition win_clear_and_home w c : gmap Z Z * console_window :=
  (loop (fun r m => loop (fun k m => vga_put (w_y w + r) (w_x w + k) (vga_entry 32 (cur_color c)) m)
                      0 (Z.to_nat (w_w w)) m)
     0 (Z.to_nat (w_h w)) (vga c),
   move 0 0 w).

Definition ansi_to_vga (i : Z) : Z :=
  default 0 ([0; 4; 2; 6; 1; 5; 3; 7] !! Z.to_nat i).

Definition sgr_one (n color : Z) : Z :=
  if n =? 0 then VGA_COLOR
  else if (30 <=? n) && (n <=? 37) then u8 ((color .&. 0xF0) .|. ansi_to_vga (n - 30))
  else if (40 <=? n) && (n <=? 47) then u8 ((color .&. 0x0F) .|. u8 (ansi_to_vga (n - 40) .<<. 4))
  else color.

Definition apply_sgr c : console :=
  if esc_param_count c =? 0 then set_color VGA_COLOR c
  else set_color (loop (fun i color => sgr_one (esc_params c !!! i) color) 0
                    (Z.to_nat (esc_param_count c)) (cur_color c)) c.

Definition win_scroll w (m : gmap Z Z) : gmap Z Z * console_window :=
  let m := loop (fun r m => loop (fun k m =>
      vga_put (w_y w + r - 1) (w_x w + k) (m !!! ((w_y w + r) * VGA_COLS + (w_x w + k))) m)
      0 (Z.to_nat (w_w w)) m) 1 (Z.to_nat (w_h w - 1)) m in
  let m := loop (fun k m => vga_put (w_y w + w_h w - 1) (w_x w + k) (vga_entry 32 VGA_COLOR) m)
             0 (Z.to_nat (w_w w)) m in
  (m, move (w_cx w) (w_h w - 1) w).

Definition draw_box (top bottom left right : Z) (title : list Z) (m : gmap Z Z) : gmap Z Z :=
  let m := loop (fun k m => vga_put bottom k (vga_entry 0xC4 VGA_COLOR)
                              (vga_put top k (vga_entry 0xC4 VGA_COLOR) m))
             (left + 1) (Z.to_nat (right - (left + 1))) m in
  let m := loop (fun r m => vga_put r right (vga_entry 0xB3 VGA_COLOR)
                              (vga_put r left (vga_entry 0xB3 VGA_COLOR) m))
             (top + 1) (Z.to_nat (bottom - (top + 1))) m in
  let m := vga_put top left (vga_entry 0xDA VGA_COLOR) m in
  let m := vga_put top right (vga_entry 0xBF VGA_COLOR) m in
  let m := vga_put bottom left (vga_entry 0xC0 VGA_COLOR) m in
  let m := vga_put bottom right (vga_entry 0xD9 VGA_COLOR) m in
  let start := left + 2 in
  loop (fun i m => if start + i <? right - 1
                   then vga_put top (start + i) (vga_entry (default 0 (title !! Z.to_nat i)) VGA_COLOR) m else m)
    0 (length title) m.

Definition banner : list Z := bytes "VAJRA OS -- type in the Shell pane below".

Definition hal_console_init c : console :=
  let m := fill 0 (fun _ => vga_entry 32 VGA_COLOR) 0 (Z.to_nat (VGA_COLS * VGA_ROWS)) (vga c) in
  let m := loop (fun i m => if i <? VGA_COLS
                            then vga_put 0 i (vga_entry (default 0 (banner !! Z.to_nat i)) VGA_COLOR) m else m)
             0 (length banner) m in
  let m := draw_box 1 15 0 79 (bytes " System Log ") m in
  let m := draw_box 17 24 0 79 (bytes " Shell ") m in
  let ws := loop (fun i ws => <[i := move 0 0 (ws !!! i)]> ws) 0 (Z.to_nat WIN_COUNT) (windows c) in
  Console m ws CONSOLE_WIN_LOG ESC_NONE (esc_params c) (esc_param_count c) (esc_cur_param c)
          VGA_COLOR (console_lock c) (serial c).

Definition hal_console_set_window (win : Z) c : console :=
  if (win <? 0) || (WIN_COUNT <=? win) then c else set_cur_window win c.

(** ** Output *)

(** [case 'H']: window-relative, 1-based, clamped to the window. *)
Definition home_to (params : gmap Z Z) (n : Z) w : console_window :=
  let row := if (1 <=? n) && (0 <? params !!! 0) then params !!! 0 - 1 else 0 in
  let col := if (2 <=? n) && (0 <? params !!! 1) then params !!! 1 - 1 else 0 in
  let row := if w_h w <=? row then w_h w - 1 else row in
  let col := if w_w w <=? col then w_w w - 1 else col in
  move col row w.

(** A byte inside an escape sequence. *)
Definition esc_byte (ch : Z) c : console :=
  if (48 <=? ch) && (ch <=? 57) then
    set_esc ESC_IN_SEQ (esc_params c) (esc_param_count c) (int32 (esc_cur_param c * 10 + (ch - 48))) c
  else
    let '(params, n) := if esc_param_count c <? 4
                        then (<[esc_param_count c := esc_cur_param c]> (esc_params c), esc_param_count c + 1)
                        else (esc_params c, esc_param_count c) in
    if ch =? 59 then set_esc ESC_IN_SEQ params n 0 c
    else
      let c := set_esc ESC_NONE params n (esc_cur_param c) c in
      if ch =? 74 then let '(m, w) := win_clear_and_home (cur_win c) c in put_win w (set_vga m c)
      else if ch =? 72 then put_win (home_to params n (cur_win c)) c
      else if ch =? 109 then apply_sgr c
      else c.

(** An ordinary byte: newline, backspace or a character, then the scroll. *)
Definition plain_byte (ch : Z) c : console :=
  let w := cur_win c in
  let '(m, w) :=
    if ch =? 10 then (vga c, move 0 (w_cy w + 1) w)
    else if ch =? 8 then
      (vga c, if 0 <? w_cx w then move (w_cx w - 1) (w_cy w) w
              else if 0 <? w_cy w then move (w_w w - 1) (w_cy w - 1) w else w)
    else
      (vga_put (w_y w + w_cy w) (w_x w + w_cx w) (vga_entry (u8 ch) (cur_color c)) (vga c),
       if w_w w <=? w_cx w + 1 then move 0 (w_cy w + 1) w else move (w_cx w + 1) (w_cy w) w) in
  let '(m, w) := if w_h w <=? w_cy w then win_scroll w m else (m, w) in
  put_win w (set_vga m c).

Definition hal_console_putchar (ch : Z) c : option console :=
  match hal_spin_lock c with
  | None => None
  | Some c =>
      let c := send_serial ch c in
      Some (match esc_state c with
            | ESC_NONE =>
                if ch =? 0x1B
                then hal_spin_unlock (set_esc ESC_GOT_ESC (esc_params c) (esc_param_count c) (esc_cur_param c) c)
                else hal_spin_unlock (plain_byte ch c)
            | ESC_GOT_ESC =>
                hal_spin_unlock
                  (if ch =? 91 then set_esc ESC_IN_SEQ (esc_params c) 0 0 c
                   else set_esc ESC_NONE (esc_params c) (esc_param_count c) (esc_cur_param c) c)
            | ESC_IN_SEQ => hal_spin_unlock (esc_byte ch c)
            end)
  end.

Fixpoint putchars (s : list Z) c : option console :=
  match s with
  | [] => Some c
  | ch :: s => match hal_console_putchar ch c with Some c => putchars s c | None => None end
  end.

(** [while (c = next byte) putchar(c);] on a string without a NUL inside. *)
Definition hal_console_write (s : list Z) c : option console := putchars s c.

(** ** Numbers *)

(** [for (i = 15; i >= 0; i--) { buf[i] = digit(value & 0xF); value >>= 4; }] *)
Definition hex_digit (nibble : Z) : Z := if nibble <? 10 then 48 + nibble else 65 + (nibble - 10).
Definition hex_buf (value : Z) : gmap Z Z :=
  (loop (fun k s => (<[15 - k := hex_digit (s.2 .&. 0xF)]> s.1, s.2 .>>. 4)) 0 16 (∅, value)).1.
Definition hal_console_write_hex64 (value : Z) c : option console :=
  match hal_console_write (bytes "0x") c with
  | Some c => putchars (take_arr (hex_buf value) 0 16) c
  | None => None
  end.

(** [while (value > 0) { buf[i++] = '0' + value % 10; value /= 10; }]; twenty
    turns are enough for 64 bits. *)
Fixpoint dec_digits (fuel : nat) (value i : Z) (buf : gmap Z Z) : Z * gmap Z Z :=
  match fuel with
  | O => (i, buf)
  | S fuel =>
      if 0 <? value then dec_digits fuel (value / 10) (i + 1) (<[i := 48 + value mod 10]> buf)
      else (i, buf)
  end.
(** [while (i > 0) putchar(buf[--i]);] *)
Definition dec_chars (value : Z) : list Z :=
  let '(i, buf) := dec_digits 20 value 0 ∅ in rev (take_arr buf 0 (Z.to_nat i)).
Definition hal_console_write_dec64 (value : Z) c : option console :=
  if value =? 0 then hal_console_putchar 48 c else putchars (dec_chars value) c.

(** ** The console invariant *)

(** Both panes keep their place; each cursor stays inside its pane; the lock is
    free; the parser's parameter count stays within its array. *)
Definition pane (i x y wd h : Z) c : Prop :=
  exists cx cy, windows c !!! i = Win x y wd h cx cy /\ 0 <= cx < wd /\ 0 <= cy < h.

Record con_ok c : Prop := ConOk {
  co_log : pane CONSOLE_WIN_LOG 1 2 78 13 c;
  co_shell : pane CONSOLE_WIN_SHELL 1 18 78 6 c;
  co_current : current_window c = CONSOLE_WIN_LOG \/ current_window c = CONSOLE_WIN_SHELL;
  co_params : 0 <= esc_param_count c <= 4;
  co_color : in_u8 (cur_color c);
  co_lock : console_lock c = 0
}.

(** The cells of a window's interior. *)
Definition in_win w (a : Z) : Prop :=
  exists r k, 0 <= r < w_h w /\ 0 <= k < w_w w /\ a = (w_y w + r) * VGA_COLS + (w_x w + k).

Definition same_frame w w' : Prop := w_x w' = w_x w /\ w_y w' = w_y w /\ w_w w' = w_w w /\ w_h w' = w_h w.
Definition cursor_in w : Prop := 0 <= w_cx w < w_w w /\ 0 <= w_cy w < w_h w.

(** [m'] differs from [m] at most inside [w]. *)
Definition within w (m m' : gmap Z Z) : Prop := forall a, ~ in_win w a -> m' !!! a = m !!! a.

Lemma within_refl w m : within w m m.
Proof. done. Qed.
Lemma within_trans w m1 m2 m3 : within w m1 m2 -> within w m2 m3 -> within w m1 m3.
Proof. intros H1 H2 a Ha. by rewrite H2, H1. Qed.

Lemma within_put w m r k e :
  0 <= r < w_h w -> 0 <= k < w_w w -> within w m (vga_put (w_y w + r) (w_x w + k) e m).
Proof. intros Hr Hk a Ha. unfold vga_put. apply aget_ne. intros <-. apply Ha. by exists r, k. Qed.

Lemma within_loop w (f : Z -> gmap Z Z -> gmap Z Z) lo n m :
  (forall i m, lo <= i < lo + Z.of_nat n -> within w m (f i m)) -> within w m (loop f lo n m).
Proof.
  intros Hf. apply (loop_ind (fun _ m' => within w m m')); [done|].
  intros i m' Hi Hm. eapply within_trans; [exact Hm | by apply Hf].
Qed.

Lemma clear_within w c : within w (vga c) (win_clear_and_home w c).1.
Proof.
  cbn. apply within_loop. intros r m Hr. apply within_loop. intros k m' Hk. apply within_put; lia.
Qed.

Lemma scroll_within w m : 0 < w_h w -> within w m (win_scroll w m).1.
Proof.
  intros Hh. cbn. eapply within_trans; apply within_loop.
  - intros r m' Hr. apply within_loop. intros k m'' Hk.
    replace (w_y w + r - 1) with (w_y w + (r - 1)) by lia. apply within_put; lia.
  - intros k m' Hk. replace (w_y w + w_h w - 1) with (w_y w + (w_h w - 1)) by lia. apply within_put; lia.
Qed.

(** What one byte may do: move the current window's cursor within its pane and
    write cells of that pane. *)
Definition touches_current c c' : Prop :=
  (forall i, i <> current_window c -> windows c' !!! i = windows c !!! i) /\
  same_frame (cur_win c) (windows c' !!! current_window c) /\ cursor_in (windows c' !!! current_window c) /\
  within (cur_win c) (vga c) (vga c').

Lemma touches_put c w m :
  same_frame (cur_win c) w -> cursor_in w -> within (cur_win c) (vga c) m ->
  touches_current c (put_win w (set_vga m c)).
Proof.
  intros Hf Hc Hm. unfold touches_current. cbn [windows put_win set_windows set_vga current_window vga].
  rewrite aget_eq. split_and!; [|done..]. intros i Hi. by apply aget_ne.
Qed.

Lemma untouched c c' :
  windows c' = windows c -> vga c' = vga c -> cursor_in (cur_win c) -> touches_current c c'.
Proof. intros Ew Ev Hc. unfold touches_current. rewrite Ew, Ev. by split_and!. Qed.

Lemma within_frame w w' m m' : same_frame w w' -> within w' m m' -> within w m m'.
Proof.
  intros (Ex & Ey & Ew & Eh) Hw a Ha. apply Hw. intros (r & k & Hr & Hk & ->). apply Ha.
  exists r, k. rewrite Ex, Ey. split_and!; lia || done.
Qed.

Lemma plain_touches ch c :
  cursor_in (cur_win c) ->
  touches_current c (plain_byte ch c) /\ current_window (plain_byte ch c) = current_window c /\
  esc_param_count (plain_byte ch c) = esc_param_count c /\ cur_color (plain_byte ch c) = cur_color c.
Proof.
  intros [Hx Hy]. unfold plain_byte. set (w := cur_win c) in *.
  set (step := if ch =? 10 then _ else _).
  assert (Hs : same_frame w step.2 /\ 0 <= w_cx step.2 < w_w w /\ 0 <= w_cy step.2 <= w_h w /\
               within w (vga c) step.1).
  { subst step. destruct (ch =? 10); [by split_and!; cbn; try lia|].
    destruct (ch =? 8); cbn [fst snd].
    { bdestruct_all; split_and!; cbn; done || lia. }
    bdestruct_all; split_and!; cbn; try done; try lia; by apply within_put. }
  clearbody step. destruct step as [m w1]. cbn [fst snd] in Hs. destruct Hs as (Hf & Hcx & Hcy & Hm).
  pose proof Hf as (Ex & Ey & Ew & Eh). rewrite Eh. destruct (Z.leb_spec (w_h w) (w_cy w1)).
  - pose proof (scroll_within w1 m ltac:(lia)) as Hw.
    change (win_scroll w1 m) with ((win_scroll w1 m).1, move (w_cx w1) (w_h w1 - 1) w1).
    split; [|done]. apply touches_put; [done | unfold cursor_in; cbn; lia |].
    eapply within_trans; [exact Hm|]. by apply (within_frame w w1).
  - split; [|done]. apply touches_put; [done | unfold cursor_in; lia | done].
Qed.

Lemma sgr_u8 n color : in_u8 color -> in_u8 (sgr_one n color).
Proof.
  intros Hc. unfold sgr_one. destruct (n =? 0); [done|].
  destruct (_ && _); [apply u8_range|]. destruct (_ && _); [apply u8_range | done].
Qed.

Lemma apply_sgr_spec c :
  in_u8 (cur_color c) -> exists v, apply_sgr c = set_color v c /\ in_u8 v.
Proof.
  intros Hc. unfold apply_sgr. destruct (_ =? 0); [by exists VGA_COLOR|].
  eexists. split; [reflexivity|]. apply (loop_ind (fun _ v => in_u8 v)); [done|]. intros; by apply sgr_u8.
Qed.

Lemma home_cursor p n w :
  0 < w_w w -> 0 < w_h w -> same_frame w (home_to p n w) /\ cursor_in (home_to p n w).
Proof.
  intros Hw Hh. split; [done|]. unfold home_to, cursor_in. cbn.
  destruct (1 <=? n), (2 <=? n); cbn [andb]; bdestruct_all; lia.
Qed.

Local Ltac kept t := split; [t | split; [done | split; [cbn; lia | done]]].

Lemma esc_touches ch c :
  cursor_in (cur_win c) -> in_u8 (cur_color c) -> 0 <= esc_param_count c <= 4 ->
  let c' := esc_byte ch c in
  touches_current c c' /\ current_window c' = current_window c /\ 0 <= esc_param_count c' <= 4 /\
  in_u8 (cur_color c') /\ console_lock c' = console_lock c /\ serial c' = serial c.
Proof.
  intros Hc Hcol Hn c'. unfold c', esc_byte. destruct (_ && _); [kept ltac:(by apply untouched)|].
  set (pn := if esc_param_count c <? 4 then _ else _).
  assert (Hp : 0 <= pn.2 <= 4) by (subst pn; destruct (Z.ltb_spec (esc_param_count c) 4); cbn; lia).
  clearbody pn. destruct pn as [params n]. cbn [fst snd] in Hp. cbn [snd] in *.
  destruct (ch =? 59); [kept ltac:(by apply untouched)|].
  set (c1 := set_esc ESC_NONE params n (esc_cur_param c) c).
  destruct (ch =? 74).
  { change (win_clear_and_home (cur_win c1) c1) with ((win_clear_and_home (cur_win c1) c1).1, move 0 0 (cur_win c)).
    kept ltac:(apply (touches_put c); [done | destruct Hc; unfold cursor_in; cbn; lia | exact (clear_within (cur_win c1) c1)]). }
  destruct (ch =? 72).
  { destruct (home_cursor params n (cur_win c)) as [Hf Hcur]; [destruct Hc; lia..|].
    kept ltac:(by apply (touches_put c)). }
  destruct (ch =? 109); [|kept ltac:(by apply untouched)].
  destruct (apply_sgr_spec c1 Hcol) as (v & -> & Hv).
  kept ltac:(by apply untouched).
Qed.

(** The current pane's window and cursor, from the invariant. *)
Lemma con_cursor c : con_ok c -> cursor_in (cur_win c).
Proof.
  intros [(lx & ly & El & ? & ?) (sx & sy & Es & ? & ?) Hcur _ _ _]. unfold cur_win.
  destruct Hcur as [-> | ->]; [rewrite El | rewrite Es]; by split.
Qed.

Lemma pane_kept i x y wd h c c' :
  pane i x y wd h c -> touches_current c c' -> pane i x y wd h c'.
Proof.
  intros (cx & cy & E & Hcx & Hcy) (Ho & Hf & Hc & _). destruct (decide (i = current_window c)) as [->|Hi].
  - unfold cur_win in Hf. rewrite E in Hf. destruct (windows c' !!! current_window c) as [x' y' w' h' cx' cy'] eqn:E'.
    destruct Hf as (Hx & Hy & Hw & Hh). destruct Hc as [Hcx' Hcy']. cbn in *. subst.
    exists cx', cy'. by split; [|split].
  - exists cx, cy. by rewrite Ho.
Qed.

Lemma putchar_ok (ch : Z) c :
  con_ok c ->
  exists c', hal_console_putchar ch c = Some c' /\ con_ok c' /\
    serial c' = serial c ++ [u8 ch] /\ current_window c' = current_window c /\
    same_frame (cur_win c) (cur_win c') /\
    (forall a, ~ in_win (cur_win c) a -> vga c' !!! a = vga c !!! a) /\
    (forall i, i <> current_window c -> windows c' !!! i = windows c !!! i).
Proof.
  intros Hok. pose proof (con_cursor c Hok) as Hc. destruct Hok as [Hl Hs Hcur Hn Hcol Hlock].
  unfold hal_console_putchar, hal_spin_lock. rewrite Hlock, Z.eqb_refl.
  set (c1 := send_serial ch (set_lock 1 c)).
  assert (Hstep : forall c2, touches_current c c2 -> current_window c2 = current_window c ->
    0 <= esc_param_count c2 <= 4 -> in_u8 (cur_color c2) -> serial c2 = serial c ++ [u8 ch] ->
    exists c', Some (hal_spin_unlock c2) = Some c' /\ con_ok c' /\
      serial c' = serial c ++ [u8 ch] /\ current_window c' = current_window c /\
      same_frame (cur_win c) (cur_win c') /\
      (forall a, ~ in_win (cur_win c) a -> vga c' !!! a = vga c !!! a) /\
      (forall i, i <> current_window c -> windows c' !!! i = windows c !!! i)).
  { intros c2 Ht Hw Hn2 Hc2 Hser. exists (hal_spin_unlock c2). split; [done|]. split.
    - split; try done; [by apply (pane_kept _ _ _ _ _ c) | by apply (pane_kept _ _ _ _ _ c) | cbn; by rewrite Hw].
    - destruct Ht as (Ho & Hf & _ & Hm). split; [done|]. split; [done|]. split; [|done].
      unfold cur_win at 2. cbn. by rewrite Hw. }
  change (esc_state c1) with (esc_state c). destruct (esc_state c).
  - destruct (ch =? 0x1B); [apply Hstep; try done; by apply untouched|].
    destruct (plain_touches ch c1 Hc) as (Ht & Hw & Hn' & Hc'). apply Hstep; try done; [by rewrite Hn' | by rewrite Hc' |].
    unfold plain_byte. by repeat case_match.
  - destruct (ch =? 91); apply Hstep; try done; by apply untouched.
  - destruct (esc_touches ch c1 Hc Hcol Hn) as (Ht & Hw & Hn' & Hc' & _ & Hser). by apply Hstep.
Qed.

Lemma write_ok (s : list Z) c :
  con_ok c ->
  exists c', hal_console_write s c = Some c' /\ con_ok c' /\
    serial c' = serial c ++ map u8 s /\ current_window c' = current_window c /\
    same_frame (cur_win c) (cur_win c') /\
    (forall i, i <> current_window c -> windows c' !!! i = windows c !!! i) /\
    forall a, ~ in_win (cur_win c) a -> vga c' !!! a = vga c !!! a.
Proof.
  revert c; induction s as [|ch s IH]; intros c Hok; unfold hal_console_write in *; cbn [putchars].
  - exists c. split_and!; try done. by rewrite app_nil_r.
  - destruct (putchar_ok ch c Hok) as (c1 & -> & Hok1 & Hs1 & Hw1 & Hf1 & Hv1 & Ho1).
    destruct (IH c1 Hok1) as (c2 & -> & Hok2 & Hs2 & Hw2 & Hf2 & Ho2 & Hv2). rewrite Hw1 in *.
    exists c2. split_and!; try done.
    + rewrite Hs2, Hs1. by rewrite <- app_assoc.
    + destruct Hf1 as (? & ? & ? & ?), Hf2 as (? & ? & ? & ?). split_and!; congruence.
    + intros i Hi. rewrite Ho2, Ho1; done.
    + intros x Hx. rewrite Hv2, Hv1; [done..|]. intros (r & k & Hr & Hk & ->). apply Hx. exists r, k.
      destruct Hf1 as (Ex & Ey & Ew & Eh). rewrite <- Ex, <- Ey. split_and!; lia || done.
Qed.

(** C31: writing a byte to the console always returns, with the lock released on
    every path of the parser; the byte reaches the serial line; and on screen
    it can change only the interior of the pane it was written to: the other
    pane, the borders and the title are untouched, and each cursor stays inside
    its pane. *)
Theorem putchar_stays_in_its_pane (ch : Z) c :
  con_ok c ->
  exists c', hal_console_putchar ch c = Some c' /\ con_ok c' /\
    serial c' = serial c ++ [u8 ch] /\ current_window c' = current_window c /\
    (forall a, ~ in_win (cur_win c) a -> vga c' !!! a = vga c !!! a) /\
    (forall i, i <> current_window c -> windows c' !!! i = windows c !!! i).
Proof.
  intros Hok. destruct (putchar_ok ch c Hok) as (c' & Hp & Hok' & Hs & Hw & _ & Hv & Ho). by exists c'.
Qed.

(** a string written to the console is mirrored on the serial line in full
    and in order, and leaves the other pane exactly as it was. *)
Theorem console_write_transcript (s : list Z) c :
  con_ok c ->
  exists c', hal_console_write s c = Some c' /\ con_ok c' /\
    serial c' = serial c ++ map u8 s /\ current_window c' = current_window c /\
    (forall i, i <> current_window c -> windows c' !!! i = windows c !!! i) /\
    forall a, ~ in_win (cur_win c) a -> vga c' !!! a = vga c !!! a.
Proof.
  intros Hok. destruct (write_ok s c Hok) as (c' & Hp & Hok' & Hs & Hw & _ & Ho & Hv). by exists c'.
Qed.

(** ** Scrolling *)

Definition cell w (m : gmap Z Z) (r k : Z) : Z := m !!! ((w_y w + r) * VGA_COLS + (w_x w + k)).

(** A window that fits the screen's columns, so that its cells are distinct. *)
Definition fits w : Prop := 0 <= w_x w /\ 0 <= w_y w /\ 0 < w_w w /\ w_x w + w_w w <= VGA_COLS /\ 0 < w_h w.

Lemma cell_put w m r k r' k' e :
  fits w -> 0 <= k < w_w w -> 0 <= k' < w_w w ->
  cell w (vga_put (w_y w + r') (w_x w + k') e m) r k = if (r =? r') && (k =? k') then e else cell w m r k.
Proof.
  unfold fits, VGA_COLS. intros Hf Hk Hk'. unfold cell, vga_put, VGA_COLS. rewrite aget_insert.
  destruct (Z.eqb_spec ((w_y w + r') * 80 + (w_x w + k')) ((w_y w + r) * 80 + (w_x w + k))) as [E|E].
  - assert (r = r' /\ k = k') as [-> ->] by nia. by rewrite !Z.eqb_refl.
  - destruct (Z.eqb_spec r r'), (Z.eqb_spec k k'); try done. subst. done.
Qed.

(** One row of puts. *)
Lemma row_loop w (g : Z -> gmap Z Z -> Z) r' n m :
  fits w -> 0 <= n <= w_w w ->
  (forall m m' k, 0 <= k < w_w w ->
     (forall r k', 0 <= k' < w_w w -> r <> r' -> cell w m r k' = cell w m' r k') -> g k m = g k m') ->
  forall r k, 0 <= k < w_w w ->
  cell w (loop (fun k m => vga_put (w_y w + r') (w_x w + k) (g k m) m) 0 (Z.to_nat n) m) r k =
  if (r =? r') && (k <? n) then g k m else cell w m r k.
Proof.
  intros Hf Hn Hg.
  assert (H : forall j, (Z.of_nat j <= w_w w) -> forall r k, 0 <= k < w_w w ->
    cell w (loop (fun k m => vga_put (w_y w + r') (w_x w + k) (g k m) m) 0 j m) r k =
    if (r =? r') && (k <? Z.of_nat j) then g k m else cell w m r k).
  { intros j. induction j as [|j IH]; intros Hj r k Hk.
    - cbn [loop]. zcmp. by rewrite andb_false_r.
    - rewrite loop_S, cell_put, IH by (done || lia).
      rewrite (Hg _ m (0 + Z.of_nat j)) by (lia || (intros r2 k2 Hk2 Hr2; rewrite IH by lia; by rewrite (proj2 (Z.eqb_neq _ _) Hr2))).
      destruct (Z.eqb_spec r r') as [->|]; cbn [andb]; [|done].
      destruct (Z.eqb_spec k (0 + Z.of_nat j)) as [->|]; bdestruct_all; try done; try lia. }
  intros r k Hk. rewrite H by lia. by rewrite Z2Nat.id by lia.
Qed.

(** a scroll moves every row of the pane up by one and blanks the last;
    nothing is overlaid, no row is lost but the first, and the cursor ends on
    the blank row. *)
Theorem scroll_shifts_rows w (m : gmap Z Z) :
  fits w ->
  let '(m', w') := win_scroll w m in
  (forall r k, 0 <= r < w_h w -> 0 <= k < w_w w ->
     cell w m' r k = if r <? w_h w - 1 then cell w m (r + 1) k else vga_entry 32 VGA_COLOR) /\
  w' = move (w_cx w) (w_h w - 1) w.
Proof.
  intros Hf. unfold win_scroll. set (m1 := loop _ 1 _ _). split; [|done]. intros r k Hr Hk.
  replace (w_y w + w_h w - 1) with (w_y w + (w_h w - 1)) by lia.
  rewrite (row_loop w (fun _ _ => vga_entry 32 VGA_COLOR) (w_h w - 1) (w_w w) m1) by (done || (destruct Hf; lia)).
  assert (H : forall j, Z.of_nat j <= w_h w - 1 -> forall r k, 0 <= k < w_w w ->
    cell w (loop (fun r m => loop (fun k m => vga_put (w_y w + r - 1) (w_x w + k)
              (m !!! ((w_y w + r) * VGA_COLS + (w_x w + k))) m) 0 (Z.to_nat (w_w w)) m) 1 j m) r k =
    if (0 <=? r) && (r <? Z.of_nat j) then cell w m (r + 1) k else cell w m r k).
  { clear r k Hr Hk. intros j. induction j as [|j IH]; intros Hj r k Hk.
    - cbn [loop]. destruct (Z.leb_spec 0 r); cbn [andb]; zcmp; done.
    - rewrite loop_S. set (mj := loop _ 1 j m) in *. set (q := 1 + Z.of_nat j).
      replace (w_y w + q - 1) with (w_y w + (q - 1)) by lia.
      rewrite (row_loop w (fun k m => cell w m q k) (q - 1) (w_w w) mj).
      + rewrite !IH by lia. subst q. zcmp. bdestruct_all; try done; try lia; f_equal; lia.
      + done.
      + destruct Hf; lia.
      + intros m1' m2' k' Hk' Hext. apply Hext; lia.
      + done. }
  unfold m1. rewrite H by (lia || (destruct Hf as (? & ? & ? & ? & ?); lia)).
  destruct Hf as (? & ? & ? & ? & ?). bdestruct_all; try done; try lia.
Qed.

(** ** Printing numbers *)

(** Reading a number back, digit by digit. *)
Definition parse_dec (s : list Z) : Z := fold_left (fun v ch => 10 * v + (ch - 48)) s 0.
Definition hex_value (ch : Z) : Z := if ch <? 65 then ch - 48 else ch - 55.
Definition parse_hex (s : list Z) : Z := fold_left (fun v ch => 16 * v + hex_value ch) s 0.

(** The decimal digits of a number, least significant first. *)
Fixpoint digits_le (fuel : nat) (v : Z) : list Z :=
  match fuel with
  | O => []
  | S fuel => if 0 <? v then (48 + v mod 10) :: digits_le fuel (v / 10) else []
  end.

Lemma dec_digits_list fuel v i buf :
  0 <= i ->
  (dec_digits fuel v i buf).1 = i + Z.of_nat (length (digits_le fuel v)) /\
  (forall j, 0 <= j < i -> (dec_digits fuel v i buf).2 !!! j = buf !!! j) /\
  forall j, 0 <= j < Z.of_nat (length (digits_le fuel v)) ->
    Some ((dec_digits fuel v i buf).2 !!! (i + j)) = digits_le fuel v !! Z.to_nat j.
Proof.
  revert v i buf; induction fuel as [|fuel IH]; intros v i buf Hi; cbn [dec_digits digits_le].
  { cbn. split_and!; [lia | done | intros; lia]. }
  destruct (0 <? v); [|cbn; split_and!; [lia | done | intros; lia]].
  destruct (IH (v / 10) (i + 1) (<[i := 48 + v mod 10]> buf) ltac:(lia)) as (Hn & Hlow & Hdig). split_and!.
  - rewrite Hn. cbn [length]. lia.
  - intros j Hj. rewrite Hlow by lia. apply aget_ne. lia.
  - intros j Hj. destruct (Z.eq_dec j 0) as [->|Hne].
    + rewrite Hlow, Z.add_0_r by lia. by rewrite aget_eq.
    + cbn [length] in Hj. replace (i + j) with (i + 1 + (j - 1)) by lia. rewrite Hdig by lia.
      replace (Z.to_nat j) with (S (Z.to_nat (j - 1))) by lia. done.
Qed.

Lemma take_arr_list (m : gmap Z Z) (l : list Z) :
  (forall j, 0 <= j < Z.of_nat (length l) -> Some (m !!! j) = l !! Z.to_nat j) -> take_arr m 0 (length l) = l.
Proof.
  intros H. unfold take_arr. apply list_eq. intros i.
  destruct (decide (i < length l)%nat) as [Hi|Hi].
  - rewrite list_lookup_fmap. rewrite lookup_seqZ_lt by lia. cbn. rewrite !Z.add_0_l, H by lia. f_equal. lia.
  - rewrite list_lookup_fmap, lookup_seqZ_ge by lia. symmetry. apply lookup_ge_None. lia.
Qed.

Lemma dec_chars_digits v : dec_chars v = rev (digits_le 20 v).
Proof.
  unfold dec_chars. destruct (dec_digits_list 20 v 0 ∅ ltac:(lia)) as (Hn & _ & Hd).
  destruct (dec_digits 20 v 0 ∅) as [i buf]. cbn [fst snd] in *. subst i. rewrite Z.add_0_l, Nat2Z.id.
  f_equal. by apply take_arr_list.
Qed.

Lemma parse_app s ch : parse_dec (s ++ [ch]) = 10 * parse_dec s + (ch - 48).
Proof. unfold parse_dec. by rewrite fold_left_app. Qed.

Lemma parse_digits fuel v : 0 <= v < 10 ^ Z.of_nat fuel -> parse_dec (rev (digits_le fuel v)) = v.
Proof.
  revert v; induction fuel as [|fuel IH]; intros v Hv.
  - cbn in *. lia.
  - cbn [digits_le]. destruct (Z.ltb_spec 0 v); [|cbn; lia]. cbn [rev]. rewrite parse_app, IH.
    + Z.div_mod_to_equations; lia.
    + rewrite Nat2Z.inj_succ, Z.pow_succ_r in Hv by lia. Z.div_mod_to_equations; lia.
Qed.

Lemma digits_range fuel v ch : In ch (digits_le fuel v) -> 48 <= ch <= 57.
Proof.
  revert v; induction fuel as [|fuel IH]; intros v; [done|]. cbn [digits_le].
  destruct (Z.ltb_spec 0 v); [|done]. intros [<- | H']; [Z.div_mod_to_equations; lia | by eapply IH].
Qed.

Lemma digits_last fuel v :
  0 < v < 10 ^ Z.of_nat fuel -> exists s ch, digits_le fuel v = s ++ [ch] /\ ch <> 48.
Proof.
  revert v; induction fuel as [|fuel IH]; intros v Hv; [cbn in Hv; lia|].
  cbn [digits_le]. rewrite (proj2 (Z.ltb_lt _ _)) by lia.
  rewrite Nat2Z.inj_succ, Z.pow_succ_r in Hv by lia.
  destruct (Z.lt_ge_cases v 10).
  - rewrite (Z.div_small v 10) by lia. exists [], (48 + v mod 10).
    split; [by destruct fuel|]. rewrite Z.mod_small; lia.
  - destruct (IH (v / 10)) as (s & ch & -> & Hch); [Z.div_mod_to_equations; lia|].
    exists ((48 + v mod 10) :: s), ch. done.
Qed.

(** The characters [hal_console_write_dec64] prints. *)
Definition dec_text (v : Z) : list Z := if v =? 0 then [48] else dec_chars v.

Lemma dec64_text v c : hal_console_write_dec64 v c = putchars (dec_text v) c.
Proof. unfold hal_console_write_dec64, dec_text. destruct (v =? 0); [|done]. cbn [putchars]. by destruct (hal_console_putchar 48 c). Qed.

(** decimal printing is faithful for every 64-bit value: only digits, at
    most the twenty the buffer holds, no leading zero, and reading the digits
    back gives the value. *)
Theorem dec64_roundtrip (v : Z) c :
  in_u64 v -> con_ok c ->
  parse_dec (dec_text v) = v /\ Forall (fun ch => 48 <= ch <= 57) (dec_text v) /\
  (length (dec_text v) <= 20)%nat /\ (v <> 0 -> hd 48 (dec_text v) <> 48) /\
  exists c', hal_console_write_dec64 v c = Some c' /\ serial c' = serial c ++ dec_text v.
Proof.
  intros Hv Hok. unfold in_u64 in Hv.
  assert (Hfit : 0 <= v < 10 ^ Z.of_nat 20) by (change (10 ^ Z.of_nat 20) with 100000000000000000000; lia).
  assert (Hdig : Forall (fun ch => 48 <= ch <= 57) (dec_text v)).
  { unfold dec_text. destruct (v =? 0); [by repeat constructor|]. rewrite dec_chars_digits.
    apply Forall_forall. intros ch Hch. apply (digits_range 20 v). by apply in_rev. }
  split_and!; [ | done | | | ].
  - unfold dec_text. destruct (Z.eqb_spec v 0) as [->|]; [done|]. rewrite dec_chars_digits. by apply parse_digits.
  - unfold dec_text. destruct (v =? 0); [cbn; lia|]. rewrite dec_chars_digits, length_rev.
    assert (H : forall n v, (length (digits_le n v) <= n)%nat).
    { induction n as [|n IH]; intros u; cbn [digits_le]; [done|].
      destruct (0 <? u); cbn [length]; [specialize (IH (u / 10))|]; lia. }
    apply H.
  - intros Hne. unfold dec_text. rewrite (proj2 (Z.eqb_neq v 0) Hne), dec_chars_digits.
    destruct (digits_last 20 v) as (s & ch & -> & Hch); [lia|]. by rewrite rev_app_distr.
  - destruct (write_ok (dec_text v) c Hok) as (c' & Hw & _ & Hs & _). exists c'. split; [by rewrite dec64_text|].
    rewrite Hs. f_equal. rewrite <- (map_id (dec_text v)) at 2. apply map_ext_in. intros ch Hch.
    rewrite Forall_forall in Hdig. apply u8_small. specialize (Hdig ch Hch). unfold in_u8. lia.
Qed.

Lemma hex_buf_spec v j : 0 <= j < 16 -> hex_buf v !!! j = hex_digit ((v .>>. (4 * (15 - j))) .&. 0xF).
Proof.
  intros Hj. unfold hex_buf.
  assert (H : forall n, (n <= 16)%nat ->
    let s := loop (fun k (s : gmap Z Z * Z) => (<[15 - k := hex_digit (s.2 .&. 0xF)]> s.1, s.2 .>>. 4)) 0 n (∅, v) in
    s.2 = v .>>. (4 * Z.of_nat n) /\
    forall i, 16 - Z.of_nat n <= i < 16 -> s.1 !!! i = hex_digit ((v .>>. (4 * (15 - i))) .&. 0xF)).
  { induction n as [|n IH]; intros Hn; cbv zeta.
    - split; [by rewrite Z.mul_0_r, Z.shiftr_0_r|]. intros; lia.
    - rewrite loop_S. destruct (IH ltac:(lia)) as [E Hd]. cbn [fst snd]. rewrite E. split.
      + rewrite Z.shiftr_shiftr by lia. f_equal. lia.
      + intros i Hi. rewrite aget_insert. destruct (Z.eqb_spec (15 - (0 + Z.of_nat n)) i) as [E'|].
        * do 3 f_equal. lia.
        * apply Hd. lia. }
  apply (H 16%nat); lia.
Qed.

Lemma hex_digit_value n : 0 <= n < 16 -> hex_value (hex_digit n) = n.
Proof. intros Hn. unfold hex_value, hex_digit. bdestruct_all; lia. Qed.

Definition hex_text (v : Z) : list Z := take_arr (hex_buf v) 0 16.

Lemma parse_hex_app s ch : parse_hex (s ++ [ch]) = 16 * parse_hex s + hex_value ch.
Proof. unfold parse_hex. by rewrite fold_left_app. Qed.

Lemma land_nibble x : x .&. 0xF = x mod 2 ^ 4.
Proof. exact (Z.land_ones x 4 ltac:(done)). Qed.

Lemma hex_prefix v n :
  in_u64 v -> (n <= 16)%nat -> parse_hex (take_arr (hex_buf v) 0 n) = v / 2 ^ (64 - 4 * Z.of_nat n).
Proof.
  intros Hv Hn. unfold in_u64 in Hv. induction n as [|n IH].
  - change (64 - 4 * Z.of_nat 0) with 64. symmetry. apply Z.div_small. exact Hv.
  - unfold take_arr. replace (Z.of_nat (S n)) with (Z.of_nat n + Z.of_nat 1) by lia.
    rewrite seqZ_app, map_app by lia.
    rewrite (seqZ_cons (0 + Z.of_nat n)), (seqZ_nil (Z.succ (0 + Z.of_nat n))) by lia. cbn [map].
    rewrite parse_hex_app. fold (take_arr (hex_buf v) 0 n). rewrite IH by lia.
    rewrite hex_buf_spec by lia. rewrite land_nibble, Z.shiftr_div_pow2 by lia.
    rewrite hex_digit_value by (apply Z.mod_pos_bound; lia).
    replace (4 * (15 - (0 + (0 + Z.of_nat n)))) with (64 - 4 * (Z.of_nat n + Z.of_nat 1)) by lia.
    set (e := 64 - 4 * (Z.of_nat n + Z.of_nat 1)).
    replace (64 - 4 * Z.of_nat n) with (e + 4) by lia. rewrite Z.pow_add_r, <- Z.div_div by lia.
    change (2 ^ 4) with 16. pose proof (Z.div_mod (v / 2 ^ e) 16). lia.
Qed.

(** hexadecimal printing is exact: "0x" and sixteen upper-case digits that
    read back as the value. *)
Theorem hex64_exact (v : Z) c :
  in_u64 v -> con_ok c ->
  parse_hex (hex_text v) = v /\ length (hex_text v) = 16%nat /\
  Forall (fun ch => 48 <= ch <= 57 \/ 65 <= ch <= 70) (hex_text v) /\
  exists c', hal_console_write_hex64 v c = Some c' /\ con_ok c' /\ serial c' = serial c ++ bytes "0x" ++ hex_text v.
Proof.
  intros Hv Hok.
  assert (Hf : Forall (fun ch => 48 <= ch <= 57 \/ 65 <= ch <= 70) (hex_text v)).
  { apply Forall_forall. intros ch. unfold hex_text, take_arr. rewrite in_map_iff. intros (j & <- & Hj).
    apply list_elem_of_In, elem_of_seqZ in Hj. rewrite hex_buf_spec by lia.
    rewrite land_nibble. unfold hex_digit.
    pose proof (Z.mod_pos_bound (v .>>. (4 * (15 - (0 + j)))) (2 ^ 4)). bdestruct_all; lia. }
  split_and!; [ | done | done | ].
  - unfold hex_text. rewrite hex_prefix by (done || lia). change (64 - 4 * Z.of_nat 16) with 0. apply Z.div_1_r.
  - unfold hal_console_write_hex64. destruct (write_ok (bytes "0x") c Hok) as (c1 & -> & Hok1 & Hs1 & _).
    destruct (write_ok (hex_text v) c1 Hok1) as (c2 & Hw & Hok2 & Hs2 & _). exists c2.
    split; [exact Hw|]. split; [exact Hok2|]. rewrite Hs2, Hs1, <- app_assoc. do 2 f_equal. rewrite <- (map_id (hex_text v)) at 2.
    apply map_ext_in. intros ch Hch. rewrite Forall_forall in Hf. apply u8_small.
    specialize (Hf ch Hch). unfold in_u8. lia.
Qed.

(** ** The console at boot *)

Definition console_raw : console := Console ∅ initial_windows 0 ESC_NONE ∅ 0 0 VGA_COLOR 0 [].
Definition console0 : console := hal_console_init console_raw.

Lemma console0_ok : con_ok console0.
Proof.
  unfold console0, console_raw. split; try done; [| | by left].
  - exists 0, 0. by split_and!.
  - exists 0, 0. by split_and!.
Qed.

(** Initialising clears the screen and leaves both cursors at home, whatever
    was on it; the box drawing stays outside both interiors. *)
Lemma init_ok c :
  console_lock c = 0 -> 0 <= esc_param_count c <= 4 -> pane 0 1 2 78 13 c -> pane 1 1 18 78 6 c ->
  con_ok (hal_console_init c).
Proof.
  intros Hl Hn (lx & ly & El & _) (sx & sy & Es & _).
  assert (Hw : forall i, windows (hal_console_init c) !!! i
                         = if i =? 1 then move 0 0 (windows c !!! 1)
                           else if i =? 0 then move 0 0 (windows c !!! 0) else windows c !!! i).
  { intros i. unfold hal_console_init. cbn [windows]. change (Z.to_nat WIN_COUNT) with 2%nat.
    rewrite !loop_S. cbn [loop]. rewrite !aget_insert. change (0 + Z.of_nat 1) with 1. change (0 + Z.of_nat 0) with 0.
    destruct (Z.eqb_spec 0 1); [done|]. rewrite (Z.eqb_sym 1), (Z.eqb_sym 0). reflexivity. }
  split; try done; [| | by left]; exists 0, 0; (split; [|done]); rewrite Hw.
  - change (CONSOLE_WIN_LOG =? 1) with false. change (CONSOLE_WIN_LOG =? 0) with true. cbv iota. by rewrite El.
  - change (CONSOLE_WIN_SHELL =? 1) with true. cbv iota. by rewrite Es.
Qed.

(** Initialising a console in order leaves it in order, with nothing sent. *)
Lemma init_kept c : con_ok c -> con_ok (hal_console_init c).
Proof.
  intros [Hlog Hsh _ Hn _ Hl]. by apply init_ok.
Qed.

Lemma putchar_stays_in_its_pane_witness : exists c', hal_console_putchar 65 console0 = Some c' /\ con_ok c'.
Proof.
  destruct (putchar_stays_in_its_pane 65 console0 console0_ok) as (c' & Hp & Hok & _). by exists c'.
Defined.

Lemma console_write_transcript_witness :
  exists c', hal_console_write (bytes "ok") console0 = Some c' /\ serial c' = [111; 107].
Proof.
  destruct (console_write_transcript (bytes "ok") console0 console0_ok) as (c' & Hp & _ & Hs & _).
  exists c'. split; [exact Hp | exact Hs].
Defined.

Lemma scroll_shifts_rows_witness :
  (win_scroll (Win 1 2 78 13 0 13) ∅).2 = Win 1 2 78 13 0 12.
Proof.
  pose proof (scroll_shifts_rows (Win 1 2 78 13 0 13) ∅ ltac:(by unfold fits, VGA_COLS)) as H.
  destruct (win_scroll (Win 1 2 78 13 0 13) ∅) as [m w]. exact (proj2 H).
Defined.

Lemma dec64_roundtrip_witness : parse_dec (dec_text 18446744073709551615) = 18446744073709551615.
Proof. apply (dec64_roundtrip _ console0); [by unfold in_u64 | exact console0_ok]. Defined.

Lemma hex64_exact_witness : parse_hex (hex_text 0xDEADBEEF) = 0xDEADBEEF.
Proof. apply (hex64_exact _ console0); [by unfold in_u64 | exact console0_ok]. Defined.
