(* ===== verification/Net.v ===== *)
(** * The message transport: [core/net.c]

    One {type, data} message per Ethernet frame, the automatic acknowledgement
    of data frames and the retransmitting send, over a network-device
    interface that [hal/x86_64/virtio_net.c] implements (VirtioNet.v).  The
    calling actor's slot, which the kernel stamps into every frame, is the
    argument [slot] ([actor_current_slot()], Actor.v). *)
From S2P Require Import Prelude.

Definition VAJRA_ETHERTYPE_HI : Z := 0x88.
Definition VAJRA_ETHERTYPE_LO : Z := 0xB5.
Definition ETH_HEADER_LEN : Z := 14.
Definition PAYLOAD_LEN : Z := 33.
Definition FRAME_LEN : Z := ETH_HEADER_LEN + PAYLOAD_LEN.
Definition RELIABLE_SEND_ATTEMPTS : Z := 10.
Definition RELIABLE_SEND_SPINS : Z := 50000000.

(** What [core/net.c] asks of the driver: initialisation, the 6 bytes of the
    station's address, sending the bytes of one frame, and polling for one
    frame into a buffer of a given size (the result is the frame's length, 0
    for none, -1 for a frame that does not fit). *)
Class NetDevice (D : Type) := {
  nd_init : D -> Z * D;
  nd_get_mac : gmap Z Z -> D -> gmap Z Z * D;
  nd_send : list Z -> D -> Z * D;
  nd_poll : gmap Z Z -> Z -> Z -> D -> Z * gmap Z Z * D;
}.

(** The static variables, and the device behind the driver. *)
Record net (D : Type) := Net { my_mac : gmap Z Z; net_online : Z; next_seq : Z; nic : D }.
Arguments Net {_} _ _ _ _.
Arguments my_mac {_} _.
Arguments net_online {_} _.
Arguments next_seq {_} _.
Arguments nic {_} _.

(** The out-parameters of the receiving functions. *)
Record received := Received {
  rx_type : Z; rx_data : Z; rx_sender_actor : Z; rx_sender_mac : gmap Z Z; rx_seq : Z; rx_is_ack : bool }.

(** The bytes [net_send_raw] stores into [frame], an uninitialised array whose
    content is [junk]. *)
Definition build_frame (junk dest_mac mac : gmap Z Z) (type data sender_slot seq : Z) (is_ack : bool) : gmap Z Z :=
  let frame := fill 0 (fun i => dest_mac !!! i) 0 6 junk in
  let frame := fill 6 (fun i => mac !!! i) 0 6 frame in
  let frame := <[13 := VAJRA_ETHERTYPE_LO]> (<[12 := VAJRA_ETHERTYPE_HI]> frame) in
  let p := ETH_HEADER_LEN in
  let frame := fill p (byte_of type) 0 8 frame in
  let frame := fill (p + 8) (byte_of data) 0 8 frame in
  let frame := fill (p + 16) (byte_of sender_slot) 0 8 frame in
  let frame := fill (p + 24) (byte_of seq) 0 8 frame in
  <[p + 32 := cbool is_ack]> frame.

(** One loop [v |= ((uint64_t)p[off + i]) << (8 * i)], [i < 8]. *)
Definition get64 (frame : gmap Z Z) (off : Z) : Z := le_load (fun i => frame !!! (off + i)) 8.

(** The length and EtherType tests of [net_poll_receive_raw]. *)
Definition is_ours (len : Z) (frame : gmap Z Z) : bool :=
  (0 <? len) && (FRAME_LEN <=? len)
  && (frame !!! 12 =? VAJRA_ETHERTYPE_HI) && (frame !!! 13 =? VAJRA_ETHERTYPE_LO).

Definition same_mac (a b : gmap Z Z) : bool :=
  match scan (fun i => negb (a !!! i =? b !!! i)) 0 6 with Some _ => false | None => true end.

Section ops.
Context {D : Type} `{!NetDevice D}.
Implicit Types (n : net D).

Definition set_nic (d : D) n : net D := Net (my_mac n) (net_online n) (next_seq n) d.

Definition net_init n : Z * net D :=
  let '(rc, d) := nd_init (nic n) in
  if negb (rc =? 0) then (-1, set_nic d n)
  else let '(mac, d) := nd_get_mac (my_mac n) d in (0, Net mac 1 (next_seq n) d).

Definition net_send_raw (slot : Z) (dest_mac : gmap Z Z) (type data seq : Z) (is_ack : bool) n : Z * net D :=
  if net_online n =? 0 then (-1, n)
  else
    let frame := build_frame ∅ dest_mac (my_mac n) type data (u64 slot) seq is_ack in
    let '(rc, d) := nd_send (take_arr frame 0 (Z.to_nat FRAME_LEN)) (nic n) in (rc, set_nic d n).

Definition broadcast : gmap Z Z := fill 0 (fun _ => 0xFF) 0 6 ∅.

Definition net_send_message (slot type data : Z) n : Z * net D :=
  net_send_raw slot broadcast type data 0 false n.

Definition net_send_message_to (slot : Z) (dest_mac : gmap Z Z) (type data : Z) n : Z * net D :=
  net_send_raw slot dest_mac type data 0 false n.

(** The out-parameters [o] are only stored to when the result is 1. *)
Definition net_poll_receive_raw (o : received) (max_spins : Z) n : Z * received * net D :=
  if net_online n =? 0 then (-1, o, n)
  else
    let '(len, frame, d) := nd_poll ∅ 64 max_spins (nic n) in
    let n := set_nic d n in
    if is_ours len frame then
      let p := ETH_HEADER_LEN in
      let mac := fill 0 (fun i => frame !!! (6 + i)) 0 6 (rx_sender_mac o) in
      (1, Received (get64 frame p) (get64 frame (p + 8)) (get64 frame (p + 16)) mac (get64 frame (p + 24))
                   (negb (frame !!! (p + 32) =? 0)), n)
    else (0, o, n).

Definition net_poll_receive_message (slot : Z) (o : received) (max_spins : Z) n : Z * received * net D :=
  let o := Received (rx_type o) (rx_data o) (rx_sender_actor o) (rx_sender_mac o) 0 false in
  let '(rc, o, n) := net_poll_receive_raw o max_spins n in
  if negb (rc =? 1) then (rc, o, n)
  else if rx_is_ack o then (0, o, n)
  else let '(_, n) := net_send_raw slot (rx_sender_mac o) 0 0 (rx_seq o) true n in (1, o, n).

(** The uninitialised out-parameters of one attempt; only [rack] has a value
    before the poll. *)
Definition rx_blank : received := Received 0 0 0 ∅ 0 false.

Fixpoint reliable_attempts (attempts : nat) (slot : Z) (dest_mac : gmap Z Z) (type data seq : Z) n : Z * net D :=
  match attempts with
  | O => (-1, n)
  | S attempts =>
      let '(_, n) := net_send_raw slot dest_mac type data seq false n in
      let '(got, o, n) := net_poll_receive_raw rx_blank RELIABLE_SEND_SPINS n in
      if (got =? 1) && rx_is_ack o && (rx_seq o =? seq) && same_mac (rx_sender_mac o) dest_mac then (0, n)
      else reliable_attempts attempts slot dest_mac type data seq n
  end.

Definition net_send_message_reliable_to (slot : Z) (dest_mac : gmap Z Z) (type data : Z) n : Z * net D :=
  if net_online n =? 0 then (-1, n)
  else
    let seq := next_seq n in
    let n := Net (my_mac n) (net_online n) (u64 (seq + 1)) (nic n) in
    reliable_attempts (Z.to_nat RELIABLE_SEND_ATTEMPTS) slot dest_mac type data seq n.

End ops.

(** ** The wire format *)

(** What a frame of this protocol carries. *)
Record packet := Packet {
  pk_dest : list Z; pk_src : list Z; pk_type : Z; pk_data : Z; pk_slot : Z; pk_seq : Z; pk_ack : bool }.

Definition le_bytes (w : Z) : list Z := map (byte_of w) (seqZ 0 8).

Definition encode (p : packet) : list Z :=
  pk_dest p ++ pk_src p ++ [0x88; 0xB5] ++ le_bytes (pk_type p) ++ le_bytes (pk_data p)
  ++ le_bytes (pk_slot p) ++ le_bytes (pk_seq p) ++ [cbool (pk_ack p)].

Definition mac_list (m : gmap Z Z) : list Z := take_arr m 0 6.

Record packet_ok (p : packet) : Prop := PacketOk {
  ok_dest : length (pk_dest p) = 6%nat; ok_src : length (pk_src p) = 6%nat;
  ok_type : in_u64 (pk_type p); ok_data : in_u64 (pk_data p);
  ok_slot : in_u64 (pk_slot p); ok_seq : in_u64 (pk_seq p) }.

(** The byte at an index of a received frame. *)
Definition byte_at (l : list Z) (i : Z) : Z := default 0 (l !! Z.to_nat i).

(** A byte string is a packet when it is long enough and carries the protocol's
    EtherType; padding after the payload is allowed. *)
Definition decode (l : list Z) : option packet :=
  if (FRAME_LEN <=? Z.of_nat (length l)) && (byte_at l 12 =? 0x88) && (byte_at l 13 =? 0xB5)
  then Some (Packet (take 6 l) (take 6 (drop 6 l))
               (le_load (fun i => byte_at l (14 + i)) 8) (le_load (fun i => byte_at l (22 + i)) 8)
               (le_load (fun i => byte_at l (30 + i)) 8) (le_load (fun i => byte_at l (38 + i)) 8)
               (negb (byte_at l 46 =? 0)))
  else None.

Definition frame_byte (d m : gmap Z Z) (t da s q : Z) (a : bool) (j : Z) : Z :=
  if j <? 6 then d !!! j else if j <? 12 then m !!! (j - 6)
  else if j <? 13 then 0x88 else if j <? 14 then 0xB5
  else if j <? 22 then byte_of t (j - 14) else if j <? 30 then byte_of da (j - 22)
  else if j <? 38 then byte_of s (j - 30) else if j <? 46 then byte_of q (j - 38)
  else cbool a.

(** Split on the next field boundary of the goal. *)
Ltac case_bound j :=
  match goal with |- context [if j <? ?b then _ else _] => destruct (Z.ltb_spec j b) end.

Lemma build_frame_get junk d m t da s q a j :
  0 <= j < FRAME_LEN -> build_frame junk d m t da s q a !!! j = frame_byte d m t da s q a j.
Proof.
  unfold FRAME_LEN, PAYLOAD_LEN, ETH_HEADER_LEN. intros Hj.
  unfold build_frame, frame_byte, ETH_HEADER_LEN. rewrite !aget_insert, !fill_get, !aget_insert, !fill_get.
  repeat (case_bound j; [zcmp; f_equal; lia |]). zcmp. reflexivity.
Qed.

(** Every byte handed to the device was stored first: the frame is the packet's
    encoding, whatever the stack held. *)
Lemma build_frame_bytes junk d m t da s q a :
  take_arr (build_frame junk d m t da s q a) 0 (Z.to_nat FRAME_LEN)
  = encode (Packet (mac_list d) (mac_list m) t da s q a).
Proof.
  transitivity (map (frame_byte d m t da s q a) (seqZ 0 47)); [|reflexivity].
  apply map_ext_in. intros j Hj%list_elem_of_In%elem_of_seqZ.
  change (Z.of_nat (Z.to_nat FRAME_LEN)) with FRAME_LEN in Hj.
  rewrite Z.add_0_l. apply build_frame_get. change FRAME_LEN with 47 in *. lia.
Qed.

Lemma le_word (p : Z -> Z) (w : Z) :
  in_u64 w -> (forall i, 0 <= i < 8 -> p i = byte_of w i) -> le_load p 8 = w.
Proof.
  intros Hw Hp. rewrite (le_load_ext _ (byte_of w)) by (intros; apply Hp; lia).
  rewrite le_load_byte_of. by apply Z.mod_small.
Qed.

Ltac six l := destruct l as [|? [|? [|? [|? [|? [|? [|]]]]]]]; try done.
Ltac eight i :=
  let H := fresh in
  assert (H : i = 0 \/ i = 1 \/ i = 2 \/ i = 3 \/ i = 4 \/ i = 5 \/ i = 6 \/ i = 7) by lia;
  destruct H as [-> | [-> | [-> | [-> | [-> | [-> | [-> | ->]]]]]]].

(** Decoding inverts encoding, padded or not. *)
Lemma decode_encode p pad : packet_ok p -> decode (encode p ++ pad) = Some p.
Proof.
  intros [Hd Hs Ht Hda Hsl Hq]. destruct p as [d s t da sl q a]. cbn [pk_dest pk_src pk_type pk_data pk_slot pk_seq] in *.
  six d. six s. unfold decode.
  rewrite (proj2 (Z.leb_le _ _)) by (rewrite length_app; change (length (encode _)) with 47%nat; unfold FRAME_LEN, PAYLOAD_LEN, ETH_HEADER_LEN; lia).
  change (byte_at _ 12) with 0x88. change (byte_at _ 13) with 0xB5. cbn [Z.eqb Pos.eqb andb].
  rewrite (le_word _ t), (le_word _ da), (le_word _ sl), (le_word _ q) by (done || (intros i Hi; eight i; reflexivity)).
  do 2 f_equal. change (byte_at _ 46) with (cbool a). by destruct a.
Qed.

(** ** Receiving *)

(** The buffer after the device stored the frame [l] into it. *)
Definition stored (l : list Z) : gmap Z Z := fill 0 (byte_at l) 0 (length l) ∅.

Lemma stored_get l i : 0 <= i -> stored l !!! i = byte_at l i.
Proof.
  intros Hi. unfold stored. destruct (Z.lt_ge_cases i (Z.of_nat (length l))).
  - rewrite fill_in by lia. by rewrite Z.sub_0_r.
  - rewrite fill_out by lia. unfold byte_at. by rewrite lookup_ge_None_2 by lia.
Qed.

Lemma byte_at_drop l k i : 0 <= i -> byte_at (drop k l) i = byte_at l (Z.of_nat k + i).
Proof. intros Hi. unfold byte_at. rewrite lookup_drop. do 2 f_equal. lia. Qed.

Lemma byte_at_list l n : (n <= length l)%nat -> map (byte_at l) (seqZ 0 (Z.of_nat n)) = take n l.
Proof.
  intros Hn. apply list_eq. intros i. destruct (Nat.lt_ge_cases i n) as [Hi|Hi].
  - rewrite lookup_take_lt by done. destruct (lookup_lt_is_Some_2 l i ltac:(lia)) as [x Hx]. rewrite Hx.
    apply list_lookup_fmap_Some. exists (Z.of_nat i). split.
    + unfold byte_at. by rewrite Nat2Z.id, Hx.
    + apply lookup_seqZ_lt. lia.
  - rewrite lookup_take_ge by done. apply lookup_ge_None_2. rewrite length_map, length_seqZ. lia.
Qed.

Lemma mac_of_frame l m : 12 <= Z.of_nat (length l) ->
  mac_list (fill 0 (fun i => stored l !!! (6 + i)) 0 6 m) = take 6 (drop 6 l).
Proof.
  intros Hl. rewrite <- byte_at_list by (rewrite length_drop; lia).
  apply map_ext_in. intros i Hi%list_elem_of_In%elem_of_seqZ.
  rewrite fill_in by lia. rewrite stored_get, byte_at_drop by lia. f_equal. lia.
Qed.

Section receive.
Context {D : Type} `{!NetDevice D}.
Implicit Types (n : net D).

(** A poll that yields the frame [l] decodes it. *)
Lemma raw_spec o spins n (l : list Z) d :
  net_online n <> 0 -> nd_poll ∅ 64 spins (nic n) = (Z.of_nat (length l), stored l, d) ->
  match decode l with
  | Some p => exists mac, mac_list mac = pk_src p /\
      net_poll_receive_raw o spins n
      = (1, Received (pk_type p) (pk_data p) (pk_slot p) mac (pk_seq p) (pk_ack p), set_nic d n)
  | None => net_poll_receive_raw o spins n = (0, o, set_nic d n)
  end.
Proof.
  intros Hon Hp. unfold net_poll_receive_raw. rewrite (proj2 (Z.eqb_neq _ _) Hon), Hp.
  unfold decode, is_ours, VAJRA_ETHERTYPE_HI, VAJRA_ETHERTYPE_LO. rewrite !stored_get by lia.
  destruct (Z.leb_spec FRAME_LEN (Z.of_nat (length l))) as [Hl|]; [|by rewrite andb_false_r].
  change FRAME_LEN with 47 in Hl. rewrite (proj2 (Z.ltb_lt _ _)) by lia. cbn [andb].
  destruct (byte_at l 12 =? 0x88); [|done]. destruct (byte_at l 13 =? 0xB5); [|done]. cbn [andb].
  exists (fill 0 (fun i => stored l !!! (6 + i)) 0 6 (rx_sender_mac o)).
  cbn [pk_type pk_data pk_slot pk_seq pk_ack pk_src]. split.
  - rewrite mac_of_frame by lia. done.
  - unfold get64, ETH_HEADER_LEN. do 3 f_equal;
      first [apply le_load_ext; intros i Hi; rewrite stored_get by lia; f_equal; lia
            | by rewrite stored_get by lia].
Qed.

(** Sending hands the packet's encoding to the device. *)
Lemma send_raw_spec slot dest t da q a n :
  net_online n <> 0 -> 0 <= slot < 2 ^ 64 ->
  net_send_raw slot dest t da q a n
  = (let '(rc, d) := nd_send (encode (Packet (mac_list dest) (mac_list (my_mac n)) t da slot q a)) (nic n) in
     (rc, set_nic d n)).
Proof.
  intros Hon Hs. unfold net_send_raw. rewrite (proj2 (Z.eqb_neq _ _) Hon).
  by rewrite build_frame_bytes, u64_small.
Qed.

(** Offline, nothing is sent, received or changed. *)
Lemma offline_refuses slot dest t da o spins n :
  net_online n = 0 ->
  net_send_message slot t da n = (-1, n) /\ net_send_message_to slot dest t da n = (-1, n) /\
    net_send_message_reliable_to slot dest t da n = (-1, n) /\
    net_poll_receive_raw o spins n = (-1, o, n).
Proof.
  intros Hoff. unfold net_send_message, net_send_message_to, net_send_message_reliable_to, net_send_raw,
    net_poll_receive_raw. by rewrite Hoff.
Qed.
End receive.

(** ** A station with an inbox and an outbox *)

(** A device that has the frames of [b_in] waiting and records what is sent. *)
Record box := Box { b_mac : list Z; b_in : list (list Z); b_out : list (list Z) }.

(** Polling a queue of frames, as the driver's contract has it: the oldest
    frame is consumed, and copied when it fits. *)
Definition poll_queue (q : list (list Z)) (buf : gmap Z Z) (max_len : Z) : Z * gmap Z Z * list (list Z) :=
  match q with
  | [] => (0, buf, [])
  | f :: q => if max_len <? Z.of_nat (length f) then (-1, buf, q)
              else (Z.of_nat (length f), fill 0 (byte_at f) 0 (length f) buf, q)
  end.

#[export] Instance box_device : NetDevice box := {|
  nd_init := fun b => (0, b);
  nd_get_mac := fun m b => (fill 0 (byte_at (b_mac b)) 0 6 m, b);
  nd_send := fun f b => (0, Box (b_mac b) (b_in b) (b_out b ++ [f]));
  nd_poll := fun buf max_len _ b =>
    let '(rc, buf, q) := poll_queue (b_in b) buf max_len in (rc, buf, Box (b_mac b) q (b_out b));
|}.

(** The acknowledgement of packet [p] by the station [mac]. *)
Definition ack_of (slot : Z) (mac : gmap Z Z) (p : packet) : packet :=
  Packet (pk_src p) (mac_list mac) 0 0 slot (pk_seq p) true.

(** What receiving the frame [f] should do: deliver a data packet and answer
    it with one acknowledgement, and ignore everything else. *)
Definition delivers (f : list Z) : option packet :=
  if Z.of_nat (length f) <=? 64
  then match decode f with Some p => if pk_ack p then None else Some p | None => None end
  else None.

Definition rest_of (q : list (list Z)) : list (list Z) := match q with [] => [] | _ :: q => q end.
Definition first_message (q : list (list Z)) : option packet := match q with [] => None | f :: _ => delivers f end.

Lemma poll_fits f q : Z.of_nat (length f) <= 64 -> poll_queue (f :: q) ∅ 64 = (Z.of_nat (length f), stored f, q).
Proof. intros. cbn. by zcmp. Qed.

Lemma no_frame_ignored {D} `{!NetDevice D} o spins (n : net D) rc d :
  net_online n <> 0 -> nd_poll ∅ 64 spins (nic n) = (rc, ∅, d) -> rc <= 0 ->
  net_poll_receive_raw o spins n = (0, o, set_nic d n).
Proof.
  intros Hon Hp Hrc. unfold net_poll_receive_raw. rewrite (proj2 (Z.eqb_neq _ _) Hon), Hp.
  unfold is_ours. by zcmp.
Qed.

Lemma receive_message_box slot o spins (n : net box) :
  net_online n <> 0 -> 0 <= slot < 2 ^ 64 ->
  exists rc o' out,
    net_poll_receive_message slot o spins n
    = (rc, o', set_nic (Box (b_mac (nic n)) (rest_of (b_in (nic n))) (b_out (nic n) ++ out)) n) /\
    match first_message (b_in (nic n)) with
    | Some p => rc = 1 /\ rx_type o' = pk_type p /\ rx_data o' = pk_data p /\ rx_sender_actor o' = pk_slot p /\
    mac_list (rx_sender_mac o') = pk_src p /\ out = [encode (ack_of slot (my_mac n) p)]
    | None => rc = 0 /\ out = []
    end.
Proof.
  intros Hon Hs. unfold net_poll_receive_message. set (o1 := Received _ _ _ _ 0 false).
  destruct (b_in (nic n)) as [|f q] eqn:Eq; cbn [rest_of first_message].
  { rewrite (no_frame_ignored o1 spins n 0 (nic n)) by (done || lia || (destruct (nic n); cbn in *; by subst)).
    exists 0, o1, []. rewrite app_nil_r. cbn. split; [|done]. rewrite <- Eq. by destruct n as [? ? ? []]. }
  unfold delivers. destruct (Z.leb_spec (Z.of_nat (length f)) 64) as [Hl|Hl].
  2: { rewrite (no_frame_ignored o1 spins n (-1) (Box (b_mac (nic n)) q (b_out (nic n))))
         by (done || lia || (cbn; rewrite Eq; cbn; by zcmp)).
       exists 0, o1, []. by rewrite app_nil_r. }
  assert (Hp : nd_poll ∅ 64 spins (nic n) = (Z.of_nat (length f), stored f, Box (b_mac (nic n)) q (b_out (nic n)))).
  { cbn. by rewrite Eq, poll_fits. }
  pose proof (raw_spec o1 spins n f _ Hon Hp) as Hr. destruct (decode f) as [p|].
  2: { rewrite Hr. exists 0, o1, []. by rewrite app_nil_r. }
  destruct Hr as (mac & Hm & ->). cbn [Z.eqb Pos.eqb negb rx_is_ack]. destruct (pk_ack p) eqn:Ea.
  { exists 0. eexists _, []. rewrite app_nil_r. split; [reflexivity|done]. }
  rewrite send_raw_spec by done. cbn [rx_sender_mac rx_seq]. rewrite Hm.
  eexists 1, _, _. split; [reflexivity|]. by split_and!.
Qed.

(** receiving is exactly right: a station answers a data frame of the
    protocol with exactly one acknowledgement, to the sender and with the
    sender's sequence number, and delivers its contents; any other frame
    (foreign traffic, short, oversized, an acknowledgement) and the empty
    queue deliver nothing and send nothing. *)
Theorem data_frames_are_delivered_and_acked slot o spins (n : net box) :
  net_online n <> 0 -> 0 <= slot < 2 ^ 64 ->
  exists rc o' out,
    net_poll_receive_message slot o spins n
    = (rc, o', set_nic (Box (b_mac (nic n)) (rest_of (b_in (nic n))) (b_out (nic n) ++ out)) n) /\
    match first_message (b_in (nic n)) with
    | Some p => rc = 1 /\ rx_type o' = pk_type p /\ rx_data o' = pk_data p /\ rx_sender_actor o' = pk_slot p /\
    mac_list (rx_sender_mac o') = pk_src p /\ out = [encode (ack_of slot (my_mac n) p)]
    | None => rc = 0 /\ out = []
    end.
Proof. intros Hon Hs. exact (receive_message_box slot o spins n Hon Hs). Qed.

(** ** Reliable delivery over a lossy link

    The other end of the link runs the same code: whenever a frame gets
    through, the peer calls [net_poll_receive_message], and the frames that
    call sends come back, if they get through too.  [l_fate] says for every
    frame sent whether it arrives and whether the answer to it does; when it
    runs out, everything is lost. *)
Record link := Link {
  l_peer : net box; l_pslot : Z; l_in : list (list Z); l_fate : list (bool * bool); l_got : list (Z * Z * Z) }.

Definition with_box (b : box) (n : net box) : net box := set_nic b n.

(** The peer's station handles one arriving frame: its next state, the frames
    it sends and the message it delivers to its caller. *)
Definition peer_handles (slot : Z) (f : list Z) (peer : net box) : net box * list (list Z) * list (Z * Z * Z) :=
  let '(rc, o, peer) := net_poll_receive_message slot rx_blank 1
                          (with_box (Box (b_mac (nic peer)) (b_in (nic peer) ++ [f]) (b_out (nic peer))) peer) in
  (with_box (Box (b_mac (nic peer)) (b_in (nic peer)) []) peer, b_out (nic peer),
   if rc =? 1 then [(rx_type o, rx_data o, rx_sender_actor o)] else []).

Definition link_send (f : list Z) (k : link) : Z * link :=
  match l_fate k with
  | (true, back) :: fs =>
      let '(peer, out, got) := peer_handles (l_pslot k) f (l_peer k) in
      (0, Link peer (l_pslot k) (l_in k ++ if back then out else []) fs (l_got k ++ got))
  | _ :: fs => (0, Link (l_peer k) (l_pslot k) (l_in k) fs (l_got k))
  | [] => (0, k)
  end.

#[export] Instance link_device : NetDevice link := {|
  nd_init := fun k => (0, k);
  nd_get_mac := fun m k => (m, k);
  nd_send := link_send;
  nd_poll := fun buf max_len _ k =>
    let '(rc, buf, q) := poll_queue (l_in k) buf max_len in
    (rc, buf, Link (l_peer k) (l_pslot k) q (l_fate k) (l_got k));
|}.

(** Within [n] attempts: does one get through both ways, and how many copies
    arrive up to the first that does? *)
Definition acked (n : nat) (fs : list (bool * bool)) : bool := existsb (fun f => f.1 && f.2) (take n fs).
Fixpoint copies (n : nat) (fs : list (bool * bool)) : nat :=
  match n, fs with
  | S n, (there, back) :: fs =>
      ((if there then 1 else 0) + (if there && back then 0 else copies n fs))%nat
  | _, _ => O
  end.

Lemma acked_arrived n fs : acked n fs = true -> (0 < copies n fs)%nat.
Proof.
  revert fs. induction n as [|n IH]; intros [|[a b] fs] H; try done.
  destruct a, b; cbn in *; first [lia | apply IH in H; lia].
Qed.

(** Both stations are up and idle. *)
Record link_ready (n : net link) : Prop := LinkReady {
  lr_on : net_online n <> 0;
  lr_peer_on : net_online (l_peer (nic n)) <> 0;
  lr_pslot : in_u64 (l_pslot (nic n));
  lr_quiet : l_in (nic n) = [];
  lr_peer_in : b_in (nic (l_peer (nic n))) = [];
  lr_peer_out : b_out (nic (l_peer (nic n))) = [] }.

Lemma same_mac_refl a b : mac_list a = mac_list b -> same_mac a b = true.
Proof.
  intros E. unfold same_mac. destruct (scan _ 0 6) as [i|] eqn:Es; [|done].
  apply scan_Some in Es as (Hi & Hp & _).
  injection E as E0 E1 E2 E3 E4 E5.
  assert (Hj : i = 0 \/ i = 1 \/ i = 2 \/ i = 3 \/ i = 4 \/ i = 5) by lia.
  rewrite negb_true_iff, Z.eqb_neq in Hp. destruct Hj as [-> | [-> | [-> | [-> | [-> | ->]]]]]; done.
Qed.

Lemma mac_length m : length (mac_list m) = 6%nat.
Proof. unfold mac_list, take_arr. by rewrite length_map, length_seqZ. Qed.

Lemma decoded_back p : packet_ok p -> decode (encode p) = Some p.
Proof. intros Hp. rewrite <- (app_nil_r (encode p)). by apply decode_encode. Qed.

Lemma encode_length p : packet_ok p -> length (encode p) = 47%nat.
Proof. intros [Hd Hs _ _ _ _]. destruct p as [d s ? ? ? ? ?]. cbn in Hd, Hs. six d. six s. Qed.

(** The peer delivers a data packet and answers with its acknowledgement. *)
Lemma peer_handles_data slot p (peer : net box) :
  packet_ok p -> pk_ack p = false -> net_online peer <> 0 -> in_u64 slot ->
  b_in (nic peer) = [] -> b_out (nic peer) = [] ->
  peer_handles slot (encode p) peer
  = (peer, [encode (ack_of slot (my_mac peer) p)], [(pk_type p, pk_data p, pk_slot p)]).
Proof.
  intros Hp Ha Hon Hs Hin Hout. unfold peer_handles, with_box. rewrite Hin, Hout. cbn [app].
  set (n1 := set_nic _ peer).
  destruct (receive_message_box slot rx_blank 1 n1 Hon Hs) as (rc & o & out & -> & Hm).
  change (b_in (nic n1)) with [encode p] in *. cbn [first_message] in Hm. unfold delivers in Hm.
  rewrite encode_length, decoded_back, Ha in Hm by done. cbn [Z.leb Z.of_nat] in Hm.
  destruct Hm as (-> & E1 & E2 & E3 & _ & ->). cbn [Z.eqb Pos.eqb]. rewrite E1, E2, E3.
  destruct peer as [mm on sq [bm bi bo]]. cbn in *. subst. reflexivity.
Qed.

Lemma ack_ok slot mac p : in_u64 slot -> packet_ok p -> packet_ok (ack_of slot mac p).
Proof. intros Hs [Hd Hsr _ _ _ Hq]. by split; try apply mac_length. Qed.

(** Nothing waiting at the sender: the poll of an attempt sees no frame. *)
Lemma quiet_poll o spins (n : net link) k :
  net_online n <> 0 -> l_in k = [] -> net_poll_receive_raw o spins (set_nic k n) = (0, o, set_nic k n).
Proof.
  intros Hon Hq. rewrite (no_frame_ignored o spins (set_nic k n) 0 k); [done|done| |done].
  destruct k. cbn in *. by subst.
Qed.

(** The acknowledgement of this very send, from the device it was sent to. *)
Lemma ack_poll slot o spins p (n : net link) k :
  net_online n <> 0 -> in_u64 slot -> packet_ok p -> l_in k = [encode (ack_of slot (my_mac (l_peer k)) p)] ->
  exists o', net_poll_receive_raw o spins (set_nic k n)
             = (1, o', set_nic (Link (l_peer k) (l_pslot k) [] (l_fate k) (l_got k)) n) /\
             rx_is_ack o' = true /\ rx_seq o' = pk_seq p /\
             mac_list (rx_sender_mac o') = mac_list (my_mac (l_peer k)).
Proof.
  intros Hon Hs Hp Hq. set (a := ack_of slot (my_mac (l_peer k)) p) in *.
  assert (Ha : packet_ok a) by by apply ack_ok.
  assert (Hpoll : nd_poll ∅ 64 spins (nic (set_nic k n))
                  = (Z.of_nat (length (encode a)), stored (encode a),
                     Link (l_peer k) (l_pslot k) [] (l_fate k) (l_got k))).
  { cbn. rewrite Hq, poll_fits; [done|]. rewrite encode_length by done. lia. }
  pose proof (raw_spec o spins (set_nic k n) _ _ Hon Hpoll) as Hr.
  rewrite decoded_back in Hr by done. destruct Hr as (mac & Hm & ->). by eexists.
Qed.

Lemma attempts_spec slot dest t da seq m :
  in_u64 slot -> in_u64 t -> in_u64 da -> in_u64 seq ->
  forall n, link_ready n -> mac_list dest = mac_list (my_mac (l_peer (nic n))) ->
  exists n', reliable_attempts m slot dest t da seq n = (if acked m (l_fate (nic n)) then 0 else -1, n') /\
    l_got (nic n') = l_got (nic n) ++ replicate (copies m (l_fate (nic n))) (t, da, slot) /\
    link_ready n' /\ next_seq n' = next_seq n.
Proof.
  intros Hs Ht Hda Hseq. induction m as [|m IH]; intros n Hn Hdest.
  { exists n. cbn. by rewrite app_nil_r. }
  destruct Hn as [Hon Hpon Hps Hq Hpi Hpo].
  cbn [reliable_attempts]. rewrite send_raw_spec by done.
  set (p := Packet _ _ t da slot seq false).
  assert (Hp : packet_ok p) by (split; try done; apply mac_length).
  change (nd_send (encode p) (nic n)) with (link_send (encode p) (nic n)).
  unfold link_send. destruct (l_fate (nic n)) as [|[there back] fs] eqn:Ef.
  { rewrite quiet_poll by done. cbn [Z.eqb andb].
    destruct (IH (set_nic (nic n) n)) as (n' & E & G & R); [by split|done|].
    exists n'. change (nic (set_nic (nic n) n)) with (nic n) in *. rewrite Ef in *.
    rewrite E, G. destruct m; by rewrite ?andb_false_r. }
  destruct there; cbn [andb copies acked take existsb fst snd].
  2: { rewrite quiet_poll by done. cbn [Z.eqb andb].
       match goal with |- context [reliable_attempts m _ _ _ _ _ ?x] => destruct (IH x) as (n' & E & G & R); [by split|done|] end.
       exists n'. by rewrite E. }
  rewrite (peer_handles_data (l_pslot (nic n)) p (l_peer (nic n))) by done. rewrite Hq.
  destruct back; cbn [app andb orb].
  - match goal with |- context [net_poll_receive_raw _ _ (set_nic ?k n)] =>
      destruct (ack_poll (l_pslot (nic n)) rx_blank RELIABLE_SEND_SPINS p n k Hon Hps Hp eq_refl) as (o & -> & Ea & Eq & Em) end.
    rewrite Ea, Eq, same_mac_refl by (rewrite Em; by rewrite Hdest). cbn [pk_seq p]. rewrite !Z.eqb_refl.
    eexists. split; [reflexivity|]. split; [done|]. by split.
  - rewrite quiet_poll by done. cbn [Z.eqb andb].
    match goal with |- context [reliable_attempts m _ _ _ _ _ ?x] => destruct (IH x) as (n' & E & G & R); [by split|done|] end.
    exists n'. rewrite E. split; [done|]. split; [|done]. rewrite G. cbn. by rewrite <- app_assoc.
Qed.

(** C22: the reliable send keeps its promise over a link that may lose any frame
    in either direction: it reports success exactly when one of its ten
    attempts and the acknowledgement of it both got through, and then the
    peer has delivered the message (at least once: every attempt that arrived
    before the acknowledgement is one copy, and nothing else is delivered). *)
Theorem reliable_send_delivers slot dest t da (n : net link) :
  link_ready n -> in_u64 slot -> in_u64 t -> in_u64 da -> in_u64 (next_seq n) ->
  mac_list dest = mac_list (my_mac (l_peer (nic n))) ->
  exists rc n', net_send_message_reliable_to slot dest t da n = (rc, n') /\
    let fs := l_fate (nic n) in
    rc = (if acked 10 fs then 0 else -1) /\
    l_got (nic n') = l_got (nic n) ++ replicate (copies 10 fs) (t, da, slot) /\
    (rc = 0 -> In (t, da, slot) (l_got (nic n'))) /\
    next_seq n' = u64 (next_seq n + 1) /\ link_ready n'.
Proof.
  intros Hn Hs Ht Hda Hq Hd. unfold net_send_message_reliable_to.
  rewrite (proj2 (Z.eqb_neq _ _) (lr_on _ Hn)). change (Z.to_nat RELIABLE_SEND_ATTEMPTS) with 10%nat.
  set (n1 := Net _ _ _ _).
  assert (H1 : link_ready n1) by (destruct Hn; by split).
  destruct (attempts_spec slot dest t da (next_seq n) 10 Hs Ht Hda Hq n1 H1 Hd) as (n' & E & G & R & S).
  eexists _, n'. split; [exact E|]. cbv zeta. change (nic n1) with (nic n) in *.
  split; [done|]. split; [exact G|]. split; [|by split].
  destruct (acked 10 (l_fate (nic n))) eqn:Ea; [|done]. intros _. rewrite G. apply in_or_app. right.
  apply acked_arrived in Ea. destruct (copies 10 _); [lia|]. by left.
Qed.

(** the frame is the wire format: whatever the stack held before, the 47
    bytes handed to the device are the packet's encoding, and a station that
    receives them, padded or not, decodes the same addresses, type, data,
    sender slot, sequence number and acknowledgement flag. *)
Theorem frame_roundtrip junk dest mac t da slot q a pad :
  in_u64 t -> in_u64 da -> in_u64 slot -> in_u64 q ->
  decode (take_arr (build_frame junk dest mac t da slot q a) 0 (Z.to_nat FRAME_LEN) ++ pad)
  = Some (Packet (mac_list dest) (mac_list mac) t da slot q a).
Proof.
  intros Ht Hda Hs Hq. rewrite build_frame_bytes. apply decode_encode.
  split; try done; apply mac_length.
Qed.

(** ** Two stations *)
Definition mac_a : gmap Z Z := fill 0 (fun i => 0x10 + i) 0 6 ∅.
Definition mac_b : gmap Z Z := fill 0 (fun i => 0x20 + i) 0 6 ∅.
Definition station_b : net box := Net mac_b 1 1 (Box [] [] []).
(** The first frame is lost, the second arrives but its answer is lost, the
    third exchange succeeds. *)
Definition station_a : net link :=
  Net mac_a 1 7 (Link station_b 3 [] [(false, true); (true, false); (true, true)] []).

Lemma reliable_send_delivers_witness :
  exists n', net_send_message_reliable_to 5 mac_b 100 200 station_a = (0, n') /\
             l_got (nic n') = [(100, 200, 5); (100, 200, 5)].
Proof.
  destruct (reliable_send_delivers 5 mac_b 100 200 station_a) as (rc & n' & E & Hrc & G & _).
  - split; unfold in_u64; cbn [l_in l_pslot b_in b_out nic l_peer station_a station_b net_online]; done || lia.
  - unfold in_u64. lia.
  - unfold in_u64. lia.
  - unfold in_u64. lia.
  - unfold in_u64. cbn [next_seq station_a]. lia.
  - vm_compute. reflexivity.
  - exists n'. rewrite E. split; [rewrite Hrc; reflexivity|]. exact G.
Defined.

Definition station_c : net box :=
  Net mac_b 1 1 (Box [] [encode (Packet (mac_list mac_b) (mac_list mac_a) 1 2 5 9 false); []] []).

Lemma data_frames_are_delivered_and_acked_witness :
  exists o' n', net_poll_receive_message 3 rx_blank 1 station_c = (1, o', n') /\ rx_data o' = 2 /\
                b_out (nic n') = [encode (Packet (mac_list mac_a) (mac_list mac_b) 0 0 3 9 true)].
Proof.
  destruct (data_frames_are_delivered_and_acked 3 rx_blank 1 station_c) as (rc & o' & out & E & H).
  - cbn [net_online station_c]. lia.
  - lia.
  - vm_compute in H. destruct H as (-> & _ & Hd & _ & _ & ->).
    eexists o', _. split; [exact E|]. split; [exact Hd|]. vm_compute. reflexivity.
Defined.

Lemma frame_roundtrip_witness :
  decode (take_arr (build_frame ∅ mac_b mac_a 1 2 3 4 true) 0 47)
  = Some (Packet (mac_list mac_b) (mac_list mac_a) 1 2 3 4 true).
Proof.
  rewrite <- (frame_roundtrip ∅ mac_b mac_a 1 2 3 4 true []) by (unfold in_u64; lia). by rewrite app_nil_r.
Defined.
