(* ===== verification/E820.v ===== *)
(** * The firmware memory map: [hal/x86_64/e820.c]

    The table boot.asm leaves at [E820_MAP_BASE] is read byte by byte, as the
    packed C structures are laid out, and translated into the regions
    [memory_init] (Memory.v) works on. *)
From S2P Require Import Prelude Memory.

Definition E820_MAP_BASE : Z := 0x94000.
Definition E820_MAGIC : Z := 0x45383230.
Definition E820_TYPE_USABLE : Z := 1.

Record e820_entry := E820Entry { e_base : Z; e_length : Z; e_type : Z; e_attr : Z }.

(** A little-endian load from physical memory. *)
Definition rd32 (ram : gmap Z Z) (a : Z) : Z := le_load (fun i => ram !!! (a + i)) 4.
Definition rd64 (ram : gmap Z Z) (a : Z) : Z := le_load (fun i => ram !!! (a + i)) 8.

(** [entries[i]]: 24 packed bytes from [E820_MAP_BASE + 8]. *)
Definition entry_at (ram : gmap Z Z) (i : Z) : e820_entry :=
  let a := E820_MAP_BASE + 8 + 24 * i in
  E820Entry (rd64 ram a) (rd64 ram (a + 8)) (rd32 ram (a + 16)) (rd32 ram (a + 20)).

(** The copy loop: [i] counts the entries looked at, [written] those stored;
    [fuel] is the number of entries left. *)
Fixpoint copy_usable (fuel : nat) (ram : gmap Z Z) (max_regions i written : Z) (out : gmap Z (Z * Z))
  : Z * gmap Z (Z * Z) :=
  match fuel with
  | O => (written, out)
  | S fuel =>
      if written <? max_regions then
        let e := entry_at ram i in
        if e_type e =? E820_TYPE_USABLE
        then copy_usable fuel ram max_regions (i + 1) (written + 1) (<[written := (e_base e, e_length e)]> out)
        else copy_usable fuel ram max_regions (i + 1) written out
      else (written, out)
  end.

Definition hal_get_memory_map (ram : gmap Z Z) (max_regions : Z) (out : gmap Z (Z * Z)) : Z * gmap Z (Z * Z) :=
  if negb (rd32 ram E820_MAP_BASE =? E820_MAGIC) then (0, out)
  else
    let entry_count := rd32 ram (E820_MAP_BASE + 4) in
    if entry_count =? 0 then (0, out)
    else copy_usable (Z.to_nat entry_count) ram max_regions 0 0 out.

(** ** What it reads *)

Definition usable (e : e820_entry) : option (Z * Z) :=
  if e_type e =? E820_TYPE_USABLE then Some (e_base e, e_length e) else None.

(** The entries of the table in [ram]: none without the magic number. *)
Definition table_entries (ram : gmap Z Z) : list e820_entry :=
  if rd32 ram E820_MAP_BASE =? E820_MAGIC
  then map (entry_at ram) (seqZ 0 (rd32 ram (E820_MAP_BASE + 4))) else [].

Lemma rd32_range ram a : (forall x, in_u8 (ram !!! x)) -> 0 <= rd32 ram a < 2 ^ 32.
Proof. intros Hb. apply (le_load_range (fun i => ram !!! (a + i)) 4). intros. apply Hb. Qed.

Lemma copy_usable_spec fuel ram mx i w out :
  0 <= w ->
  let regions := take (Z.to_nat (mx - w)) (omap usable (map (entry_at ram) (seqZ i (Z.of_nat fuel)))) in
  let '(n, out') := copy_usable fuel ram mx i w out in
  n = w + Z.of_nat (length regions) /\
  (forall j, 0 <= j < Z.of_nat (length regions) -> out' !!! (w + j) = regions !!! Z.to_nat j) /\
  (forall j, j < w \/ n <= j -> out' !!! j = out !!! j).
Proof.
  revert i w out. induction fuel as [|fuel IH]; intros i w out Hw; cbv zeta; cbn [copy_usable].
  { change (seqZ i (Z.of_nat 0)) with (@nil Z). cbn [map omap list_omap]. rewrite take_nil. split; [cbn; lia|]. split; [cbn; intros; lia | done]. }
  rewrite (seqZ_cons i) by lia. replace (Z.pred (Z.of_nat (S fuel))) with (Z.of_nat fuel) by lia.
  replace (Z.succ i) with (i + 1) by lia. cbn [map omap list_omap].
  destruct (Z.ltb_spec w mx) as [Hlt|Hge].
  2: { replace (Z.to_nat (mx - w)) with 0%nat by lia. rewrite !take_0. split; [cbn; lia|]. split; [cbn; intros; lia|done]. }
  assert (Eu : usable (entry_at ram i) = if e_type (entry_at ram i) =? E820_TYPE_USABLE
                                         then Some (e_base (entry_at ram i), e_length (entry_at ram i)) else None) by done.
  destruct (e_type (entry_at ram i) =? E820_TYPE_USABLE); rewrite Eu.
  - specialize (IH (i + 1) (w + 1) (<[w := (e_base (entry_at ram i), e_length (entry_at ram i))]> out) ltac:(lia)).
    destruct (copy_usable _ _ _ _ _ _) as [n out']. cbv zeta in IH.
    replace (Z.to_nat (mx - w)) with (S (Z.to_nat (mx - (w + 1)))) by lia. cbn [firstn length].
    destruct IH as (-> & Hin & Hout). split; [lia|]. split.
    + intros j Hj. destruct (Z.eq_dec j 0) as [->|].
      * rewrite Z.add_0_r, Hout by lia. by rewrite aget_eq.
      * replace (w + j) with (w + 1 + (j - 1)) by lia. rewrite Hin by lia.
        by replace (Z.to_nat j) with (S (Z.to_nat (j - 1))) by lia.
    + intros j Hj. rewrite Hout by lia. apply aget_ne. lia.
  - specialize (IH (i + 1) w out Hw). destruct (copy_usable _ _ _ _ _ _) as [n out']. exact IH.
Qed.

Lemma memory_map_spec (ram : gmap Z Z) max_regions (out : gmap Z (Z * Z)) :
  (forall x, in_u8 (ram !!! x)) ->
  let regions := take (Z.to_nat max_regions) (omap usable (table_entries ram)) in
  let '(n, out') := hal_get_memory_map ram max_regions out in
  n = Z.of_nat (length regions) /\ take_arr out' 0 (Z.to_nat n) = regions /\
  (forall j, j < 0 \/ n <= j -> out' !!! j = out !!! j).
Proof.
  intros Hb. cbv zeta. unfold hal_get_memory_map, table_entries.
  pose proof (rd32_range ram (E820_MAP_BASE + 4) Hb) as Hc.
  destruct (rd32 ram E820_MAP_BASE =? E820_MAGIC); cbn [negb].
  2: { cbn [omap list_omap]. rewrite take_nil. by split_and!. }
  destruct (Z.eqb_spec (rd32 ram (E820_MAP_BASE + 4)) 0) as [E|E].
  { rewrite E. change (seqZ 0 0) with (@nil Z). cbn [map omap list_omap]. rewrite take_nil. by split_and!. }
  pose proof (copy_usable_spec (Z.to_nat (rd32 ram (E820_MAP_BASE + 4))) ram max_regions 0 0 out ltac:(lia)) as H.
  rewrite Z2Nat.id, Z.sub_0_r in H by lia. cbv zeta in H.
  destruct (copy_usable _ _ _ _ _ _) as [n out']. destruct H as (-> & Hin & Hout). rewrite Z.add_0_l in *.
  split; [done|]. split; [|exact Hout]. rewrite Nat2Z.id. apply list_eq. intros j.
  set (l := take _ _) in *. destruct (Nat.lt_ge_cases j (length l)) as [Hj|Hj].
  - rewrite (list_lookup_lookup_total_lt l j Hj). rewrite <- (Nat2Z.id j) at 2. rewrite <- Hin by lia.
    unfold take_arr. apply list_lookup_fmap_Some. exists (Z.of_nat j). split; [done|]. apply lookup_seqZ_lt. lia.
  - rewrite (lookup_ge_None_2 l) by lia. apply lookup_ge_None_2.
    unfold take_arr. rewrite length_map, length_seqZ. lia.
Qed.

(** Base and length are what eight bytes can hold. *)
Lemma usable_u64 (ram : gmap Z Z) max_regions :
  (forall x, in_u8 (ram !!! x)) ->
  Forall (fun r => in_u64 r.1 /\ in_u64 r.2) (take (Z.to_nat max_regions) (omap usable (table_entries ram))).
Proof.
  intros Hb. apply Forall_take, Forall_forall. intros r Hr%list_elem_of_In. apply list_elem_of_omap in Hr as (e & He & Hu).
  unfold table_entries in He. destruct (_ =? _); [|by apply not_elem_of_nil in He].
  apply list_elem_of_fmap in He as (i & -> & _). unfold usable in Hu. destruct (_ =? _); [|done].
  injection Hu as <-. cbn. split; apply (le_load_range (fun j => ram !!! (_ + j)) 8); intros; apply Hb.
Qed.

(** the kernel sees exactly the usable RAM the firmware reports: the
    regions returned are the table's entries of type 1, in order and
    unchanged, cut off at the caller's capacity; only those slots of the
    caller's array are written.  No table means no regions. *)
Theorem memory_map_is_the_usable_entries (ram : gmap Z Z) max_regions (out : gmap Z (Z * Z)) :
  (forall x, in_u8 (ram !!! x)) ->
  let regions := take (Z.to_nat max_regions) (omap usable (table_entries ram)) in
  let '(n, out') := hal_get_memory_map ram max_regions out in
  n = Z.of_nat (length regions) /\ take_arr out' 0 (Z.to_nat n) = regions /\
  (forall j, j < 0 \/ n <= j -> out' !!! j = out !!! j).
Proof. exact (memory_map_spec ram max_regions out). Qed.

(** A table as boot.asm writes it: 640K of low memory, a reserved hole, 15MB. *)
Definition put32 (v a : Z) (ram : gmap Z Z) : gmap Z Z := fill a (byte_of v) 0 4 ram.
Definition put_entry (e : e820_entry) (i : Z) (ram : gmap Z Z) : gmap Z Z :=
  let a := E820_MAP_BASE + 8 + 24 * i in
  put32 (e_attr e) (a + 20) (put32 (e_type e) (a + 16) (fill (a + 8) (byte_of (e_length e)) 0 8
    (fill a (byte_of (e_base e)) 0 8 ram))).
Definition firmware_table : gmap Z Z :=
  put_entry (E820Entry 0x100000 0xF00000 1 1) 2 (put_entry (E820Entry 0xA0000 0x60000 2 1) 1
    (put_entry (E820Entry 0 0xA0000 1 1) 0 (put32 3 (E820_MAP_BASE + 4) (put32 E820_MAGIC E820_MAP_BASE ∅)))).

Lemma put32_u8 v a ram : (forall x, in_u8 (ram !!! x)) -> forall x, in_u8 (put32 v a ram !!! x).
Proof. intros H x. unfold put32. rewrite fill_get. destruct (_ && _); [apply byte_of_range | apply H]. Qed.

Lemma put_entry_u8 e i ram : (forall x, in_u8 (ram !!! x)) -> forall x, in_u8 (put_entry e i ram !!! x).
Proof.
  intros H. unfold put_entry. do 2 apply put32_u8. intros x.
  rewrite !fill_get. repeat (destruct (_ && _); [apply byte_of_range|]). apply H.
Qed.

Lemma firmware_u8 x : in_u8 (firmware_table !!! x).
Proof.
  revert x. unfold firmware_table. do 3 apply put_entry_u8. do 2 apply put32_u8.
  intros x. rewrite lookup_total_empty. change (in_u8 0). unfold in_u8. lia.
Qed.

Lemma memory_map_is_the_usable_entries_witness :
  (hal_get_memory_map firmware_table 32 ∅).1 = 2 /\
  take_arr (hal_get_memory_map firmware_table 32 ∅).2 0 2 = [(0, 0xA0000); (0x100000, 0xF00000)].
Proof.
  pose proof (memory_map_is_the_usable_entries firmware_table 32 ∅) as H.
  specialize (H firmware_u8).
  assert (El : take (Z.to_nat 32) (omap usable (table_entries firmware_table)) = [(0, 0xA0000); (0x100000, 0xF00000)])
    by (vm_compute; reflexivity).
  revert H. rewrite El. generalize (hal_get_memory_map firmware_table 32 ∅). intros [n out] (-> & H & _).
  split; [reflexivity | exact H].
Defined.
