(* ===== verification/Access.v ===== *)
(** * Memory accesses of the kernel

    A pointer the kernel dereferences on behalf of an actor (the arguments of a
    system call, the loader's destination) goes through the address space that
    is active, at CPL 0, where the U/S bit does not matter.  An access to an
    unmapped or non-canonical address faults; a store that lands in the
    kernel's own image, below 1MB, overwrites state this model keeps elsewhere
    and ends in an outcome of its own. *)
From S2P Require Import Prelude Paging Gdt Memory Actor.

Inductive access (A : Type) := Ok (a : A) | Fault (va : Z) | Overwrites (va : Z).
Arguments Ok {A} _.
Arguments Fault {A} _.
Arguments Overwrites {A} _.

Definition bind_access {A B : Type} (x : access A) (f : A -> access B) : access B :=
  match x with Ok a => f a | Fault va => Fault va | Overwrites va => Overwrites va end.
Notation "'let?' p ':=' x 'in' e" := (bind_access x (fun p => e))
  (at level 10, p strict pattern, x at level 100, e at level 200, right associativity) : vajra_scope.

Definition canonical (va : Z) : bool := (0 <=? va) && (va <? 2 ^ 47).

Definition set_ram (f : gmap Z Z -> gmap Z Z) (k : kern) : kern :=
  let m := mach (mem k) in set_mem (set_mach (Machine (f (ram m)) (Paging.cr3 m) (faulted m)) (mem k)) k.

Section access.
Context {L : layout}.
Implicit Types (k : kern).

Definition translate (va : Z) k : option Z :=
  if canonical va then option_map t_pa (walk (pg k) (cr3 (mach (mem k))) va) else None.

Definition load_byte (va : Z) k : access Z :=
  match translate va k with Some pa => Ok (u8 (ram (mach (mem k)) !!! pa)) | None => Fault va end.

Definition store_byte (va v : Z) k : access kern :=
  match translate va k with
  | None => Fault va
  | Some pa => if pa <? COMMONS_END then Overwrites va else Ok (set_ram (<[pa := u8 v]>) k)
  end.

Fixpoint store_bytes (va : Z) (l : list Z) k : access kern :=
  match l with
  | [] => Ok k
  | v :: l => let? k := store_byte va v k in store_bytes (va + 1) l k
  end.

(** [n] bytes from [va] on; an address wraps like the pointer does. *)
Fixpoint load_bytes (va : Z) (n : nat) k : access (list Z) :=
  match n with
  | O => Ok []
  | S n => let? b := load_byte va k in let? l := load_bytes (va + 1) n k in Ok (b :: l)
  end.

(** The bytes from [va] as a C string reads them. *)
Definition string_at (va : Z) k : Z -> Z :=
  fun i => match load_byte (va + i) k with Ok b => b | _ => 0 end.

(** The string at [va] ends within [n] characters, or at least [n] are mapped:
    code that looks at no more than that reads mapped memory only. *)
Fixpoint string_mapped (n : nat) (va : Z) k : access unit :=
  match n with
  | O => Ok tt
  | S n => let? b := load_byte va k in if b =? 0 then Ok tt else string_mapped n (va + 1) k
  end.

(** ** Accesses that succeed *)

(** [va .. va + n) is mapped at [pa], outside the kernel's image. *)
Definition maps_to k (va pa n : Z) : Prop :=
  COMMONS_END <= pa /\ forall i, 0 <= i < n -> translate (va + i) k = Some (pa + i).

Definition put_bytes (pa : Z) (l : list Z) (m : gmap Z Z) : gmap Z Z :=
  fill pa (fun i => u8 (default 0 (l !! Z.to_nat i))) 0 (length l) m.

Lemma translate_set_ram va f k : translate va (set_ram f k) = translate va k.
Proof. done. Qed.

Lemma set_ram_id k m : m = ram (mach (mem k)) -> set_ram (fun _ => m) k = k.
Proof. intros ->. unfold set_ram, set_mem, set_mach. by destruct k as [? ? ? ? [? ? ? ? ? []] ? ? ? ? ? ? ?]. Qed.

Lemma store_bytes_maps va pa l k :
  maps_to k va pa (Z.of_nat (length l)) ->
  exists m, store_bytes va l k = Ok (set_ram (fun _ => m) k) /\
    forall x, m !!! x = if (pa <=? x) && (x <? pa + Z.of_nat (length l))
                        then u8 (default 0 (l !! Z.to_nat (x - pa))) else ram (mach (mem k)) !!! x.
Proof.
  revert va pa k. induction l as [|v l IH]; intros va pa k [Hlo Hm].
  { exists (ram (mach (mem k))). cbn [store_bytes length Z.of_nat]. rewrite set_ram_id by done. split; [done|].
    intros x. bdestruct_all; done || lia. }
  cbn [store_bytes]. unfold store_byte.
  pose proof (Hm 0 ltac:(cbn [length]; lia)) as H0. rewrite !Z.add_0_r in H0. rewrite H0. zcmp. cbn [bind_access].
  destruct (IH (va + 1) (pa + 1) (set_ram (<[pa:=u8 v]>) k)) as (m & -> & E).
  { split; [lia|]. intros i Hi. rewrite translate_set_ram.
    replace (va + 1 + i) with (va + (i + 1)) by lia. replace (pa + 1 + i) with (pa + (i + 1)) by lia.
    apply Hm. cbn [length]. lia. }
  exists m. split; [done|]. intros x. rewrite E. cbn [length].
  change (ram (mach (mem (set_ram (<[pa:=u8 v]>) k)))) with (<[pa:=u8 v]> (ram (mach (mem k)))).
  rewrite aget_insert. destruct (Z.eqb_spec pa x) as [<-|].
  - zcmp. by rewrite Z.sub_diag.
  - destruct (Z.leb_spec (pa + 1) x), (Z.ltb_spec x (pa + 1 + Z.of_nat (length l))); cbn [andb]; try (exfalso; lia); zcmp; try done.
    by replace (Z.to_nat (x - pa)) with (S (Z.to_nat (x - (pa + 1)))) by lia.
Qed.

Lemma load_byte_maps va pa n i k :
  maps_to k va pa n -> 0 <= i < n -> load_byte (va + i) k = Ok (u8 (ram (mach (mem k)) !!! (pa + i))).
Proof. intros [_ Hm] Hi. unfold load_byte. by rewrite Hm. Qed.

Lemma load_bytes_maps va pa n k :
  maps_to k va pa (Z.of_nat n) -> load_bytes va n k = Ok (map u8 (take_arr (ram (mach (mem k))) pa n)).
Proof.
  revert va pa. induction n as [|n IH]; intros va pa Hm; [done|]. cbn [load_bytes].
  pose proof (load_byte_maps va pa _ 0 k Hm ltac:(lia)) as H0. rewrite !Z.add_0_r in H0. rewrite H0. cbn [bind_access].
  rewrite (IH (va + 1) (pa + 1)).
  - cbn [bind_access]. unfold take_arr. rewrite (seqZ_cons 0 (Z.of_nat (S n))) by lia. cbn [map]. rewrite Z.add_0_r. do 3 f_equal.
    replace (Z.pred (Z.of_nat (S n))) with (Z.of_nat n) by lia.
    change (Z.succ 0) with (1 + 0). rewrite <- fmap_add_seqZ.
    symmetry. etransitivity; [apply map_map|]. apply map_ext. intros j. f_equal. lia.
  - destruct Hm as [Hlo Hm]. split; [lia|]. intros i Hi.
    replace (va + 1 + i) with (va + (i + 1)) by lia. replace (pa + 1 + i) with (pa + (i + 1)) by lia. apply Hm. lia.
Qed.

(** Stores change nothing but memory contents. *)
Lemma store_bytes_frame va l k k' :
  store_bytes va l k = Ok k' -> exists m, k' = set_ram (fun _ => m) k.
Proof.
  revert va k. induction l as [|v l IH]; intros va k; cbn [store_bytes].
  - intros [= <-]. exists (ram (mach (mem k))). by rewrite set_ram_id.
  - unfold store_byte. destruct (translate va k) as [pa|]; [|done]. destruct (pa <? COMMONS_END); [done|].
    cbn [bind_access]. intros H. destruct (IH _ _ H) as (m & ->). by exists m.
Qed.
End access.

Section spaces.
Context {L : layout} {LOK : layout_ok L}.

(** In an actor's address space its own stack page and the identity-mapped
    memory above the private window are where the kernel expects them. *)
Lemma own_page_maps k i page prog :
  space_ok (pg k) i page ACTOR_STACK_SIZE prog -> cr3 (mach (mem k)) = pml4_of i ->
  maps_to k page page ACTOR_STACK_SIZE.
Proof.
  intros Hs Hc. pose proof (sp_range _ _ _ _ _ Hs) as Hr. unfold COMMONS_END, PRIVATE_WINDOW_END, ACTOR_STACK_SIZE in *.
  split; [unfold COMMONS_END; lia|]. intros j Hj. unfold translate, canonical. zcmp. rewrite Hc.
  rewrite (walk_view _ _ _ _ _ _ Hs) by lia. unfold view, COMMONS_END, PRIVATE_WINDOW_END. by zcmp.
Qed.

Lemma identity_maps k i page s prog a n :
  space_ok (pg k) i page s prog -> cr3 (mach (mem k)) = pml4_of i ->
  PRIVATE_WINDOW_END <= a -> a + n <= PROGRAM_VBASE -> maps_to k a a n.
Proof.
  intros Hs Hc Ha Hn. unfold PRIVATE_WINDOW_END, PROGRAM_VBASE in *.
  split; [unfold COMMONS_END; lia|]. intros j Hj. unfold translate, canonical. zcmp. rewrite Hc.
  rewrite (walk_view _ _ _ _ _ _ Hs) by lia.
  unfold view, COMMONS_END, PRIVATE_WINDOW_END, PROGRAM_VBASE. by zcmp.
Qed.

Lemma program_maps k i page s pool phys size :
  space_ok (pg k) i page s (Some (pool, phys, size)) -> cr3 (mach (mem k)) = pml4_of i ->
  PRIVATE_WINDOW_END <= phys -> maps_to k PROGRAM_VBASE phys size.
Proof.
  intros Hs Hc Hp. pose proof (sp_prog _ _ _ _ _ Hs) as (_ & _ & _ & Hsz & _).
  unfold PRIVATE_WINDOW_END, PROGRAM_VBASE, PROGRAM_WINDOW_MAX in *.
  split; [unfold COMMONS_END; lia|]. intros j Hj. unfold translate, canonical. zcmp. rewrite Hc.
  rewrite (walk_view _ _ _ _ _ _ Hs) by lia. cbn [option_map].
  unfold view, COMMONS_END, PRIVATE_WINDOW_END, PROGRAM_VBASE. zcmp. cbn [option_map t_pa]. f_equal. lia.
Qed.
End spaces.
