(* ===== verification/Place.v ===== *)
(** * Where the processor is

    The current actor, its address space and the kernel stack its next trap
    uses: what every operation of the kernel leaves alone, and what a switch
    followed by a landing establishes. *)
From S2P Require Import Prelude Paging Memory Gdt Actor Scheduler Access.

Section place.
Context {L : layout} {LOK : layout_ok L} {KL : klayout} {KC : kcode}.
Implicit Types (k : kern).

(** The current actor, its address space and the kernel stack its next trap
    will use. *)
Record same_place k k' : Prop := SamePlace {
  sp_cur : current_actor k' = current_actor k;
  sp_cr3 : cr3 (mach (mem k')) = cr3 (mach (mem k));
  sp_rsp0 : rsp0 (ktss k') = rsp0 (ktss k);
  sp_halted : halted k' = halted k }.

#[export] Instance same_place_preorder : PreOrder same_place.
Proof. split; [by split | intros k1 k2 k3 [] []; split; congruence]. Qed.

Lemma place_mem m k : cr3 (mach m) = cr3 (mach (mem k)) -> same_place k (set_mem m k).
Proof. by split. Qed.

Lemma place_loop f lo n k : (forall i k, same_place k (f i k)) -> same_place k (loop f lo n k).
Proof. intros Hf. apply (loop_ind (fun _ k' => same_place k k')); [done|]. intros i k' _ H. by etransitivity. Qed.

Lemma alloc_scan_cr3 fuel m : cr3 (mach (alloc_scan fuel m).2) = cr3 (mach m).
Proof.
  revert m. induction fuel as [|fuel IH]; intros m; cbn [alloc_scan]; [done|].
  destruct (_ <? _); [|done]. destruct (negb _); [|by rewrite IH].
  unfold zero_page. cbn [mach set_mach snd]. by rewrite (proj1 (hal_zero_page_spec _ _)).
Qed.

Lemma alloc_page_cr3 m : cr3 (mach (alloc_page m).2) = cr3 (mach m).
Proof.
  unfold alloc_page. destruct (0 <? _); [|apply alloc_scan_cr3].
  unfold zero_page. cbn [mach set_mach snd]. by rewrite (proj1 (hal_zero_page_spec _ _)).
Qed.

Lemma free_page_cr3 a m : cr3 (mach (free_page a m)) = cr3 (mach m).
Proof. unfold free_page. destruct (a =? 0); [done|]. by destruct (_ <? _). Qed.

Lemma place_add_cap s o t k : same_place k (actor_add_cap s o t k).2.
Proof. unfold actor_add_cap. by destruct (scan _ _ _). Qed.

Lemma place_spawn e k : same_place k (actor_spawn e k).2.
Proof.
  unfold actor_spawn. destruct (scan _ _ _) as [i|]; [|done].
  pose proof (alloc_page_cr3 (mem k)) as Ha. destruct (alloc_page (mem k)) as [a m]. cbn [snd] in Ha.
  destruct (a =? 0); [by split|]. destruct (hal_address_space_create _ _ _ _) as [c p].
  destruct (c =? 0).
  - split; try done. cbn. by rewrite free_page_cr3.
  - destruct (fake_frame _ _) as [ks sp]. by split.
Qed.

Lemma place_spawn_program p s e k : same_place k (actor_spawn_program p s e k).2.
Proof.
  unfold actor_spawn_program. pose proof (place_spawn (PROGRAM_VBASE + e) k) as H.
  destruct (actor_spawn _ k) as [slot k1]. cbn [snd] in H. destruct (slot <? 0); [done|].
  destruct (hal_address_space_map_program _ _ _ _) as [rc q]. destruct (negb _); by destruct H; split.
Qed.

Lemma place_checked raw k : (forall k, same_place k (raw k).2) -> same_place k (spawn_checked raw k).2.
Proof.
  intros Hraw. unfold spawn_checked. cbv zeta. destruct (negb _); [done|]. destruct (_ <=? _); [done|].
  pose proof (Hraw (hal_disable_interrupts k)) as H. destruct (raw _) as [child k1]. cbn [snd] in H.
  assert (H1 : same_place k k1) by by destruct H; split.
  destruct (child <? 0); [by destruct H1; split|].
  set (k2 := upd _ _ k1). assert (H2 : same_place k k2) by by destruct H1; split.
  clearbody k2. set (spawner := current_actor _). clearbody spawner.
  destruct (actor_add_cap spawner CAP_SEND child k2) as [r3 k3] eqn:E3.
  destruct (actor_add_cap spawner CAP_TERMINATE child k3) as [r4 k4] eqn:E4.
  destruct (actor_add_cap child CAP_SEND spawner k4) as [r5 k5] eqn:E5.
  assert (H5 : same_place k k5).
  { pose proof (place_add_cap spawner CAP_SEND child k2) as P3. rewrite E3 in P3.
    pose proof (place_add_cap spawner CAP_TERMINATE child k3) as P4. rewrite E4 in P4.
    pose proof (place_add_cap child CAP_SEND spawner k4) as P5. rewrite E5 in P5. cbn [snd] in *.
    by rewrite H2, P3, P4. }
  by destruct H5; split.
Qed.

Lemma place_event ev k : switching ev = false -> same_place k (run_event ev k).2.
Proof.
  intros Hs. destruct ev as [d o' t'|s q|s w|e| | | |d ty x| |d o' t'|e|p s e|tg]; try discriminate; cbn [run_event coded snd].
  - unfold actor_grant. destruct (bad_slot d); [done|]. apply place_add_cap.
  - unfold actor_set_spawn_quota. by destruct (bad_slot s).
  - unfold actor_set_window. by destruct (bad_slot s).
  - pose proof (place_spawn e k) as H. by destruct (actor_spawn e k).
  - unfold actor_send. destruct (bad_slot d); [done|]. cbv zeta. destruct (negb _); [done|]. destruct (is_dead _); [done|].
    destruct (_ <=? _); [done|]. cbn [snd]. by destruct (state _).
  - unfold actor_delegate. destruct (bad_slot d); [done|]. cbv zeta. destruct (negb _); [done|].
    pose proof (place_add_cap d o' t' (hal_disable_interrupts k)) as H.
    destruct (actor_add_cap d o' t' _) as [rc k1]. cbn [snd] in *. by destruct H; split.
  - pose proof (place_checked (actor_spawn e) k (place_spawn e)) as H. unfold actor_spawn_child.
    by destruct (spawn_checked _ _).
  - pose proof (place_checked (actor_spawn_program p s e) k (place_spawn_program p s e)) as H.
    unfold actor_spawn_program_child. by destruct (spawn_checked _ _).
  - unfold actor_terminate. destruct (_ || _); [done|]. cbv zeta. by destruct (negb _).
Qed.

Lemma place_reap k : same_place k (reap_dead_actors k).
Proof.
  unfold reap_dead_actors. apply place_loop. intros i k'. unfold reap_one. destruct (i =? _); [done|].
  destruct (_ && _); [|done]. split; try done. cbn. by rewrite free_page_cr3.
Qed.

Lemma place_resched s k k' : schedule_next s k = (true, k') -> same_place k k'.
Proof.
  unfold schedule_next. cbv zeta. pose proof (place_reap (hal_disable_interrupts k)) as H.
  generalize dependent (reap_dead_actors (hal_disable_interrupts k)). intros k1 H. unfold switch_to_next.
  destruct (pick_next k1) as [n|]; [|done]. destruct (n =? _); [|done].
  intros Hk. injection Hk as <-. by destruct H; split.
Qed.

Lemma place_store va l k k' : store_bytes va l k = Ok k' -> same_place k k'.
Proof. intros H. destruct (store_bytes_frame _ _ _ _ H) as [m ->]. by split. Qed.

(** The processor is on the current actor's side. *)
Record on_actor k : Prop := OnActor {
  oa_cur : 0 <= current_actor k;
  oa_cr3 : cr3 (mach (mem k)) = pml4_of (current_actor k);
  oa_rsp0 : rsp0 (ktss k) = ktop (current_actor k) }.

Definition settled k : Prop := halted k = true \/ on_actor k.

Lemma settled_place k k' : same_place k k' -> settled k -> settled k'.
Proof. intros [E1 E2 E3 E4] [Hh|[H1 H2 H3]]; [left; congruence | right; split; congruence]. Qed.

Lemma landed_on k : landed k -> on_actor k.
Proof. intros (H1 & _ & H3 & H4 & _). by split. Qed.

Lemma place_dequeue k : same_place k (hal_enable_interrupts (dequeue k)).
Proof. done. Qed.

Lemma place_resume live k : kinv live k -> landed k -> halted k = false -> same_place k (resume k).2.
Proof.
  intros Hi (H0 & Hrip & _ & _ & _ & Hnx & Hm) Hh. unfold resume. rewrite Hh. destruct (_ =? _); [done|].
  destruct (frames k !!! current_actor k) eqn:Ef; try done. specialize (Hm eq_refl).
  set (k0 := hal_disable_interrupts _). assert (E : same_place k k0) by done.
  assert (Hc : mailbox_count (act k0 (current_actor k0)) <> 0) by (change (mailbox_count (act k (current_actor k)) <> 0); lia).
  clearbody k0. rewrite receive_loop_nonempty by done. cbn [snd].
  by etransitivity; [exact E | apply place_dequeue].
Qed.

Lemma switch_settled live k0 k : scheduled live k0 false k -> settled (resume k).2.
Proof.
  intros [Hc [[_ Hh]|[[? _]|(_ & Hh & H1 & Hl & _)]]]; [| done |].
  - left. unfold resume. by rewrite Hh.
  - right. destruct (landed_on k Hl) as [A1 A2 A3].
    destruct (place_resume live k (conj Hc H1) Hl Hh) as [E1 E2 E3 _]. split; congruence.
Qed.
(** *** Recorded calls *)

Lemma reap_frames k : frames (reap_dead_actors k) = frames k.
Proof.
  unfold reap_dead_actors. apply (loop_ind (fun _ k' => frames k' = frames k)); [done|]. intros i k' _ IH.
  unfold reap_one. destruct (_ =? _); [done|]. by destruct (_ && _).
Qed.

Lemma schedule_frames s k : frames (schedule_next s k).2 = frames k.
Proof.
  unfold schedule_next. cbv zeta. pose proof (reap_frames (hal_disable_interrupts k)) as E.
  change (frames (hal_disable_interrupts k)) with (frames k) in E.
  generalize dependent (reap_dead_actors (hal_disable_interrupts k)). intros k1 <-.
  unfold switch_to_next. destruct (pick_next k1) as [n|]; [|done]. destruct (n =? _); [done|].
  by destruct s.
Qed.

Lemma leave_frames st fr k : frames (leave st fr k).2 = <[current_actor k := fr]> (frames k).
Proof. unfold leave. by rewrite schedule_frames. Qed.

Lemma receive_frames k k' : receive_loop 1 k = (None, k') -> frames k' = <[current_actor k := FReceive]> (frames k).
Proof.
  destruct (Z.eqb_spec (mailbox_count (act k (current_actor k))) 0) as [Hz|Hz]; [|by rewrite receive_loop_nonempty].
  cbn [receive_loop]. rewrite Hz, Z.eqb_refl.
  pose proof (schedule_frames (SaveActor (current_actor k)) (set_frame (current_actor k) FReceive (upd (current_actor k) (set_state ACTOR_BLOCKED) k))) as H.
  destruct (schedule_next _ _) as [[] k1]; cbn [snd] in H; [|by intros [= <-]].
  destruct (_ =? 0); [by intros [= <-] | done].
Qed.
End place.
