(* ===== verification/Loader.v ===== *)
(** * The program loader: [core/loader.c]

    A stored object is read into the loader's scratch buffer, its header is
    validated, the code is copied into freshly claimed pages through the
    calling actor's address space, and an actor is spawned on it. *)
From S2P Require Import Prelude Paging Memory Storage Gdt Actor Scheduler Access.

Definition LOADER_SCRATCH_BYTES : Z := 4 * 512.
Definition PROGRAM_MAGIC : Z := 0x524A4156.

Record program_header := ProgramHeader { magic : Z; entry_offset : Z; code_size : Z }.
(** [sizeof(struct program_header)] *)
Definition HEADER_BYTES : Z := 12.

Definition read_header (p : gmap Z Z) : program_header :=
  ProgramHeader (le32 (p !!! 0) (p !!! 1) (p !!! 2) (p !!! 3))
                (le32 (p !!! 4) (p !!! 5) (p !!! 6) (p !!! 7))
                (le32 (p !!! 8) (p !!! 9) (p !!! 10) (p !!! 11)).

(** The four tests between reading the header and allocating. *)
Definition header_ok (n : Z) (hdr : program_header) : bool :=
  if negb (magic hdr =? PROGRAM_MAGIC) then false
  else if (code_size hdr =? 0) || (PROGRAM_WINDOW_MAX <? code_size hdr) then false
  else if u32 n <? u64 (HEADER_BYTES + code_size hdr) then false
  else negb (code_size hdr <=? entry_offset hdr).

Section loader.
Context {L : layout} {KL : klayout} {KC : kcode} {D : Type} `{!BlockDevice D}.
Implicit Types (k : kern) (st : storage D).

(** The result code with the scratch buffer, the kernel and the store. *)
Definition loader_spawn_program (object_id : Z) (scratch : gmap Z Z) k st : access (Z * gmap Z Z * kern * storage D) :=
  let '(n, scratch, st) := storage_read object_id scratch LOADER_SCRATCH_BYTES st in
  if n <? HEADER_BYTES then Ok (-1, scratch, k, st)
  else
    let hdr := read_header scratch in
    if negb (header_ok n hdr) then Ok (-1, scratch, k, st)
    else
      let pages := int32 (u32 (code_size hdr + 4095) / 4096) in
      let '(phys, m) := alloc_dma_pages pages (mem k) in
      let k := set_mem m k in
      if phys =? 0 then Ok (-1, scratch, k, st)
      else
        let? k := store_bytes phys (take_arr scratch HEADER_BYTES (Z.to_nat (code_size hdr))) k in
        let '(rc, k) := actor_spawn_program_child phys (u64 (pages * 4096)) (entry_offset hdr) k in
        Ok (rc, scratch, k, st).
End loader.

(** ** Program images *)

(** What the build step writes: magic, entry offset, size, code. *)
Definition image_bytes (entry : Z) (code : list Z) : list Z :=
  let word w := map (byte_of w) [0; 1; 2; 3] in
  word PROGRAM_MAGIC ++ word entry ++ word (Z.of_nat (length code)) ++ code.

Definition byte_in (l : list Z) (i : Z) : Z := default 0 (l !! Z.to_nat i).
Definition word_in (l : list Z) (i : Z) : Z :=
  le32 (byte_in l i) (byte_in l (i + 1)) (byte_in l (i + 2)) (byte_in l (i + 3)).

(** The entry offset and the code of a valid image. *)
Definition parse_image (l : list Z) : option (Z * list Z) :=
  let size := word_in l 8 in
  if (HEADER_BYTES <=? Z.of_nat (length l)) && (word_in l 0 =? PROGRAM_MAGIC)
     && (0 <? size) && (size <=? PROGRAM_WINDOW_MAX) && (HEADER_BYTES + size <=? Z.of_nat (length l))
     && (word_in l 4 <? size)
  then Some (word_in l 4, take (Z.to_nat size) (drop 12 l)) else None.

(** loading accepts what the build step produces. *)
Lemma parse_image_bytes entry code pad :
  0 <= entry < Z.of_nat (length code) -> Z.of_nat (length code) <= PROGRAM_WINDOW_MAX ->
  parse_image (image_bytes entry code ++ pad) = Some (entry, code).
Proof.
  intros He Hc. unfold PROGRAM_WINDOW_MAX in Hc. unfold parse_image, image_bytes. cbn [map app].
  set (l := _ :: _).
  assert (H0 : word_in l 0 = PROGRAM_MAGIC) by reflexivity.
  assert (H4 : word_in l 4 = entry).
  { change (word_in l 4) with (le32 (byte_of entry 0) (byte_of entry 1) (byte_of entry 2) (byte_of entry 3)).
    rewrite (le32_load (byte_of entry)), le_load_byte_of. apply Z.mod_small. cbn. lia. }
  assert (H8 : word_in l 8 = Z.of_nat (length code)).
  { set (c := Z.of_nat (length code)) in *.
    change (word_in l 8) with (le32 (byte_of c 0) (byte_of c 1) (byte_of c 2) (byte_of c 3)).
    rewrite (le32_load (byte_of c)), le_load_byte_of. apply Z.mod_small. cbn. lia. }
  assert (Hl : Z.of_nat (length l) = 12 + Z.of_nat (length code) + Z.of_nat (length pad)).
  { unfold l. cbn [length]. rewrite length_app. lia. }
  rewrite H0, H4, H8, Hl, Z.eqb_refl. unfold HEADER_BYTES, PROGRAM_WINDOW_MAX. zcmp.
  do 2 f_equal. unfold l. cbn [drop]. rewrite Nat2Z.id. apply take_app_length.
Qed.

Section spec.
Context {D : Type} `{!BlockDevice D} `{!BlockDeviceLaws D}.
Implicit Types (st : storage D).

Lemma read_result id buf buf_len st n out st1 :
  sto_inv st -> 0 <= buf_len <= OBJECT_MAX_BYTES -> storage_read id buf buf_len st = (n, out, st1) ->
  n = -1 \/ (0 <= n <= buf_len /\ forall i, 0 <= i < n -> in_u8 (out !!! i)).
Proof.
  intros Hi Hb. unfold storage_read. destruct (bad_id id st) eqn:Eb; [intros [= <- <- <-]; by left|].
  destruct (_ =? OBJ_REJECTED); [intros [= <- <- <-]; by left|].
  destruct (disk_read _ _ _ _) as [[rc sc] d] eqn:Er.
  destruct (Z.eqb_spec rc 0) as [->|]; cbn [negb]; [|intros [= <- <- <-]; by left].
  destruct (bad_id_false _ _ Eb) as [Hid Hl]. pose proof (si_obj _ Hi id Hid) as Hok.
  change (obj (set_scratch sc d st) id) with (obj st id).
  assert (Hu : in_use (obj st id) = 1) by by apply live_true.
  pose proof (ok_size _ _ Hok) as Hsz. specialize (ok_lba _ _ Hok Hu). intros Hlba. rewrite Hlba in Er.
  destruct (disk_read_spec _ _ _ _ _ _ _ Er ltac:(done)) as [Hrd _].
  specialize (Hrd eq_refl (object_sectors id Hid)).
  set (m := if buf_len <? size_bytes (obj st id) then buf_len else size_bytes (obj st id)).
  assert (Hm : 0 <= m <= buf_len) by (unfold m; bdestruct_all; lia).
  rewrite int32_len by (unfold OBJECT_MAX_BYTES in *; lia). intros [= <- <- <-]. right. split; [done|].
  intros i Hii. rewrite fill_in by lia. rewrite Z.sub_0_r. unfold OBJECT_MAX_BYTES in *.
  rewrite Hrd by (unfold OBJECT_MAX_BYTES in *; lia). apply disk_byte_u8.
Qed.
End spec.

(** ** Validation *)

Lemma byte_in_arr p n i : 0 <= i < Z.of_nat n -> byte_in (take_arr p 0 n) i = p !!! i.
Proof.
  intros Hi. unfold byte_in, take_arr. rewrite list_lookup_fmap, lookup_seqZ_lt by lia. cbn. f_equal. lia.
Qed.

Lemma take_arr_length {A} `{!Inhabited A} (m : gmap Z A) lo n : length (take_arr m lo n) = n.
Proof. unfold take_arr. rewrite length_map, length_seqZ. lia. Qed.

Lemma take_arr_sub (p : gmap Z Z) (n k c : nat) :
  (k + c <= n)%nat -> take c (drop k (take_arr p 0 n)) = take_arr p (Z.of_nat k) c.
Proof.
  intros H. apply list_eq. intros i. destruct (Nat.lt_ge_cases i c) as [Hi|Hi].
  - rewrite lookup_take_lt, lookup_drop by done. unfold take_arr.
    rewrite !list_lookup_fmap, !lookup_seqZ_lt by lia. cbn. do 2 f_equal. lia.
  - rewrite lookup_take_ge by done. symmetry. apply lookup_ge_None_2. by rewrite take_arr_length.
Qed.

(** The loader's tests accept exactly the valid images, and read the entry and
    the code off them. *)
Lemma header_parse p n :
  HEADER_BYTES <= n <= LOADER_SCRATCH_BYTES -> (forall i, 0 <= i < n -> in_u8 (p !!! i)) ->
  let hdr := read_header p in
  parse_image (take_arr p 0 (Z.to_nat n))
  = (if header_ok n hdr then Some (entry_offset hdr, take_arr p HEADER_BYTES (Z.to_nat (code_size hdr))) else None) /\
  (header_ok n hdr = true ->
   0 <= entry_offset hdr < code_size hdr /\ 0 < code_size hdr /\ HEADER_BYTES + code_size hdr <= n).
Proof.
  intros Hn Hb hdr. unfold HEADER_BYTES, LOADER_SCRATCH_BYTES in *.
  set (l := take_arr p 0 (Z.to_nat n)).
  assert (Hw : forall i, 0 <= i -> i + 4 <= n -> word_in l i = le32 (p !!! i) (p !!! (i + 1)) (p !!! (i + 2)) (p !!! (i + 3))).
  { intros i Hi1 Hi2. unfold word_in, l. by rewrite !byte_in_arr by lia. }
  assert (Hr : forall i, 0 <= i -> i + 4 <= n -> 0 <= word_in l i < 2 ^ 32).
  { intros i Hi1 Hi2. rewrite Hw by done. apply le32_range; apply Hb; lia. }
  assert (E0 : magic hdr = word_in l 0) by (by rewrite Hw by lia).
  assert (E4 : entry_offset hdr = word_in l 4) by (by rewrite Hw by lia).
  assert (E8 : code_size hdr = word_in l 8) by (by rewrite Hw by lia).
  pose proof (Hr 0 ltac:(lia) ltac:(lia)). pose proof (Hr 4 ltac:(lia) ltac:(lia)). pose proof (Hr 8 ltac:(lia) ltac:(lia)).
  clearbody hdr. clear Hw Hr.
  unfold parse_image, header_ok, HEADER_BYTES, PROGRAM_WINDOW_MAX.
  assert (Hl : length l = Z.to_nat n) by apply take_arr_length.
  rewrite Hl, Z2Nat.id by lia. rewrite <- E0, <- E4, <- E8 in *.
  rewrite u32_small, u64_small by (unfold in_u32, in_u64; lia).
  zcmp. destruct (magic hdr =? PROGRAM_MAGIC); cbn [negb andb]; [|done].
  destruct (Z.eqb_spec (code_size hdr) 0); zcmp; [done|]. cbn [orb].
  destruct (Z.ltb_spec 0x200000 (code_size hdr)); zcmp; [done|].
  destruct (Z.ltb_spec n (12 + code_size hdr)); zcmp; [done|].
  destruct (Z.leb_spec (code_size hdr) (entry_offset hdr)); zcmp; [done|].
  split; [|intros _; lia]. do 2 f_equal. unfold l. by rewrite take_arr_sub by lia.
Qed.

(** ** The spawned program *)
Section loaded.
Context {L : layout} {LOK : layout_ok L} {KL : klayout} {KC : kcode}.
Context (Hcode : actor_trampoline_addr <> schedule_next_ret).
Implicit Types (k : kern) (live : gset Z).

Definition ram_of k : gmap Z Z := ram (mach (mem k)).

(** Spawning writes memory only by zeroing a page nobody held. *)
Lemma spawn_ram live e k r k' :
  mem_inv (mem k) live -> actor_spawn e k = (r, k') ->
  exists a, (a ∉ live) /\ a mod 4096 = 0 /\
    forall x, ram_of k' !!! x = ram_of k !!! x \/ a <= x < a + 4096.
Proof.
  intros Hm Heq.
  assert (Hsame : exists a, (a ∉ live) /\ a mod 4096 = 0 /\ forall x, ram_of k !!! x = ram_of k !!! x \/ a <= x < a + 4096).
  { exists 0. split; [intros Hl; destruct (proj1 (mi_live _ _ Hm 0 Hl)) as (_ & Hx & _); unfold MEM_BASE in Hx; lia|].
    split; [done|]. intros x. by left. }
  unfold actor_spawn in Heq.
  destruct (scan _ 0 _) as [i|]; [|injection Heq as <- <-; exact Hsame].
  destruct (alloc_page (mem k)) as [a m] eqn:Ea.
  destruct (alloc_page_spec _ _ _ _ Hm Ea) as [(-> & Hz & Hfree & _)|(Ha0 & (Hok & _) & Hfresh & _ & Hmach)].
  - injection Heq as <- <-. unfold alloc_page in Ea. rewrite Hfree in Ea. cbn in Ea.
    destruct (alloc_scan_spec _ _ _ _ _ Hm (le_n _) Ea) as (_ & _ & [(_ & _ & E & _)|((_ & Hx & _) & _)]);
      [|unfold MEM_BASE in Hx; lia].
    unfold ram_of. cbn [mem set_mem]. rewrite E. exact Hsame.
  - assert (Hp : forall x, ram (mach m) !!! x = ram_of k !!! x \/ a <= x < a + 4096).
    { intros x. rewrite Hmach. destruct (hal_zero_page_spec a (mach (mem k))) as (_ & _ & ->).
      bdestruct_all; first [by left | right; lia]. }
    assert (Hf : ram (mach (free_page a m)) = ram (mach m)).
    { unfold free_page. destruct (a =? 0); [done|]. by destruct (_ <? _). }
    exists a. split; [done|]. split; [done|]. intros x. specialize (Hp x).
    destruct (Z.eqb_spec a 0); [done|].
    destruct (hal_address_space_create _ _ _ _) as [cr pg']. destruct (cr =? 0).
    + injection Heq as <- <-. unfold ram_of. cbn [mem set_mem]. rewrite Hf. exact Hp.
    + destruct (fake_frame _ _) as [ks sp]. injection Heq as <- <-. exact Hp.
Qed.

Lemma add_cap_frame slot op t k :
  pg (actor_add_cap slot op t k).2 = pg k /\ mem (actor_add_cap slot op t k).2 = mem k /\
  current_actor (actor_add_cap slot op t k).2 = current_actor k /\
  forall j, let a := act (actor_add_cap slot op t k).2 j in let a0 := act k j in
    a_cr3 a = a_cr3 a0 /\ state a = state a0 /\ entry a = entry a0 /\ stack_page a = stack_page a0.
Proof.
  unfold actor_add_cap. destruct (scan _ _ _) as [i|]; cbn [snd]; [|by split_and!].
  split_and!; try done. intros j. rewrite act_upd. by destruct (slot =? j).
Qed.

(** What a successful checked spawn of an image guarantees. *)
Lemma spawn_program_child_spec live phys size e k rc k' :
  kinv live k -> 0 <= current_actor k < MAX_ACTORS -> image_ok phys size ->
  actor_spawn_program_child phys size e k = (rc, k') ->
  rc < 0 \/
  (0 <= rc < MAX_ACTORS /\ rc <> current_actor k /\ state (act k' rc) = ACTOR_READY /\
   entry (act k' rc) = PROGRAM_VBASE + e /\ a_cr3 (act k' rc) = pml4_of rc /\
   (exists page pool, space_ok (pg k') rc page ACTOR_STACK_SIZE (Some (pool, phys, size))) /\
   exists a, (a ∉ live) /\ a mod 4096 = 0 /\ forall x, ram_of k' !!! x = ram_of k !!! x \/ a <= x < a + 4096).
Proof.
  intros Hi Hcur (I1 & I2 & I3 & I4 & I5) Heq. unfold actor_spawn_program_child, spawn_checked in Heq. cbv zeta in Heq.
  destruct (negb _); [injection Heq as <- <-; by left|].
  destruct (_ <=? _); [injection Heq as <- <-; by left|].
  set (k0 := hal_disable_interrupts k) in *.
  assert (H0 : kinv live k0) by by apply kinv_irq.
  destruct (actor_spawn_program phys size e k0) as [child k1] eqn:Ep.
  destruct (Z.ltb_spec child 0); [injection Heq as <- <-; left; lia|]. right.
  unfold actor_spawn_program in Ep. destruct (actor_spawn (PROGRAM_VBASE + e) k0) as [slot k2] eqn:Es.
  destruct (Z.ltb_spec slot 0); [injection Ep as <- <-; lia|].
  destruct (spawn_inv Hcode _ _ _ _ _ H0 Es) as (live2 & [Hc2 Hr2] & _ & Hsp). destruct (Hsp ltac:(lia)) as [Hne Hspace].
  destruct (spawn_slots _ _ _ _ Es) as (_ & _ & _ & [(-> & _)|(Hrange & _ & _ & sp & cr & m & Hact)]); [lia|].
  destruct (spawn_ram live _ _ _ _ (kc_mem _ _ (proj1 H0)) Es) as (a & Ha1 & Ha2 & Ha3).
  destruct (hal_address_space_map_program slot phys size (pg k2)) as [rc2 p] eqn:Em.
  destruct (Z.eqb_spec rc2 0) as [->|]; cbn [negb] in Ep; [|injection Ep as <- <-; lia].
  injection Ep as <- <-.
  destruct (map_program_ok slot _ _ phys size (pg k2) 0 p Hspace) as (pool & Hnew & _);
    [done | unfold PRIVATE_WINDOW_END in *; lia | done.. |].
  pose proof (so_alive _ _ _ _ _ _ _ (kc_slot _ _ Hc2 slot Hrange)) as Halive.
  rewrite Hact in Halive. cbn [state fresh_actor a_cr3 stack_page] in Halive. destruct (Halive ltac:(done)) as (_ & Hcr & _).
  set (k3 := upd _ _ _) in Heq.
  assert (H3 : pg k3 = p /\ mem k3 = mem k2 /\ a_cr3 (act k3 slot) = pml4_of slot /\ state (act k3 slot) = ACTOR_READY /\
               entry (act k3 slot) = PROGRAM_VBASE + e).
  { unfold k3. split; [done|]. split; [done|]. rewrite act_upd. autorewrite with kact. rewrite Hact.
    destruct (_ =? slot); cbn; by subst cr. }
  clearbody k3. destruct H3 as (P3 & M3 & C3 & S3 & E3).
  destruct (actor_add_cap (current_actor k0) CAP_SEND slot k3) as [r4 k4] eqn:E4.
  pose proof (add_cap_frame (current_actor k0) CAP_SEND slot k3) as F4. rewrite E4 in F4. cbn [snd] in F4.
  destruct (actor_add_cap (current_actor k0) CAP_TERMINATE slot k4) as [r5 k5] eqn:E5.
  pose proof (add_cap_frame (current_actor k0) CAP_TERMINATE slot k4) as F5. rewrite E5 in F5. cbn [snd] in F5.
  destruct (actor_add_cap slot CAP_SEND (current_actor k0) k5) as [r6 k6] eqn:E6.
  pose proof (add_cap_frame slot CAP_SEND (current_actor k0) k5) as F6. rewrite E6 in F6. cbn [snd] in F6.
  injection Heq as <- <-. autorewrite with kact.
  destruct F4 as (P4 & M4 & _ & A4), F5 as (P5 & M5 & _ & A5), F6 as (P6 & M6 & _ & A6).
  destruct (A4 slot) as (A41 & A42 & A43 & _), (A5 slot) as (A51 & A52 & A53 & _), (A6 slot) as (A61 & A62 & A63 & _).
  split; [done|]. split; [done|]. split; [congruence|]. split; [congruence|]. split; [congruence|]. split.
  - exists (stack_page (act k2 slot)), pool. change (space_ok (pg k6) slot (stack_page (act k2 slot)) ACTOR_STACK_SIZE (Some (pool, phys, size))).
    rewrite P6, P5, P4, P3. exact Hnew.
  - exists a. split; [done|]. split; [done|]. intros x. change (ram_of (hal_enable_interrupts k6)) with (ram_of k6).
    unfold ram_of. rewrite M6, M5, M4, M3. apply Ha3.
Qed.

(** ** From object to running program *)

Lemma contig_cr3 start count m : cr3 (mach (find_and_claim_contig start count m).2) = cr3 (mach m).
Proof.
  unfold find_and_claim_contig. destruct (count <=? 0); [done|]. destruct (search_while _ _ _ _ _) as [a|]; [|done].
  cbn [snd]. apply (loop_ind (fun _ s => cr3 (mach s) = cr3 (mach m))); [done|].
  intros i s _ IH. unfold zero_page. cbn [mach set_mach]. by rewrite (proj1 (hal_zero_page_spec _ _)).
Qed.

Lemma kinv_grow live m k pages :
  kinv live k -> mem_inv m (pages ∪ live) -> kinv (pages ∪ live) (set_mem m k).
Proof.
  intros [[C1 C2 C3 C4 C5] Hr] Hm. split; [split; try done|done].
  intros i Hi. eapply slot_ok_world; [by apply C2 | set_solver | done | done | done | done].
Qed.

Lemma kinv_ram live f k : kinv live k -> kinv live (set_ram f k).
Proof.
  intros H. pose proof (kc_mem _ _ (proj1 H)). apply (kinv_frame live k); try done. by apply set_mach_inv.
Qed.

(** The current actor is alive, in its own address space. *)
Lemma current_space live k :
  kinv live k -> 0 <= current_actor k < MAX_ACTORS ->
  exists page prog, space_ok (pg k) (current_actor k) page ACTOR_STACK_SIZE prog.
Proof.
  intros [Hc Hr] Hcur. pose proof (proj2 (Hr _ Hcur) eq_refl) as Hrun.
  destruct (so_alive _ _ _ _ _ _ _ (kc_slot _ _ Hc _ Hcur)) as (_ & _ & prog & Hs & _); [by rewrite Hrun|].
  by eexists _, _.
Qed.

(** Actor [i] is about to run [code] from offset [e]: its entry point is
    there, and the user-mode bytes at [PROGRAM_VBASE] are the code. *)
Definition runs_image k (i e : Z) (code : list Z) : Prop :=
  0 <= i < MAX_ACTORS /\ state (act k i) = ACTOR_READY /\ entry (act k i) = PROGRAM_VBASE + e /\
  0 <= e < Z.of_nat (length code) /\
  forall j, 0 <= j < Z.of_nat (length code) ->
    exists t, walk (pg k) (a_cr3 (act k i)) (PROGRAM_VBASE + j) = Some t /\ t_user t = true /\
      ram_of k !!! t_pa t = byte_in code j.

(** Copying a code of at most one page into a fresh page and spawning on it. *)
Lemma load_page live k a m code e rc k' mm :
  kinv live k -> 0 <= current_actor k < MAX_ACTORS -> a mod 4096 = 0 -> PRIVATE_WINDOW_END <= a -> a + 4096 <= PROGRAM_VBASE ->
  mem_inv m ({[a]} ∪ live) -> Z.of_nat (length code) <= 4096 -> (forall j, in_u8 (byte_in code j)) ->
  0 <= e < Z.of_nat (length code) ->
  (forall x, mm !!! x = if (a <=? x) && (x <? a + Z.of_nat (length code)) then u8 (byte_in code (x - a))
                        else ram (mach m) !!! x) ->
  actor_spawn_program_child a 4096 e (set_ram (fun _ => mm) (set_mem m k)) = (rc, k') ->
  rc < 0 \/ runs_image k' rc e code.
Proof.
  intros Hi Hcur Ham Halo Hahi Hm Hlen Hu8 He Hmm Heq. unfold PRIVATE_WINDOW_END, PROGRAM_VBASE in Halo, Hahi.
  set (k2 := set_ram _ _) in Heq. assert (H2 : kinv ({[a]} ∪ live) k2) by (apply kinv_ram, kinv_grow; done).
  destruct (spawn_program_child_spec ({[a]} ∪ live) a 4096 e k2 rc k' H2 Hcur) as [|(Hrc & _ & Hst & Hen & Hcr & Hsp & b & Hb1 & Hb2 & Hb3)];
    [unfold image_ok, PRIVATE_WINDOW_END; split_and!; done || lia | exact Heq | by left | right].
  destruct Hsp as (page & pool & Hs). split; [done|]. split; [done|]. split; [exact Hen|]. split; [done|].
  intros j Hj. exists (Translation (a + j) true true). rewrite Hcr, (walk_view _ _ _ _ _ _ Hs) by (unfold PROGRAM_VBASE; lia).
  cbn [option_map t_user t_pa]. unfold view, COMMONS_END, PRIVATE_WINDOW_END, PROGRAM_VBASE. zcmp.
  split; [do 2 f_equal; lia|]. split; [done|].
  destruct (Hb3 (a + j)) as [->|Hin].
  - unfold k2, ram_of. cbn [mem mach set_ram set_mem set_mach ram]. rewrite Hmm. zcmp.
    replace (a + j - a) with j by lia. apply u8_small, Hu8.
  - exfalso. apply Hb1. assert (b = a) as -> by (Z.div_mod_to_equations; lia). set_solver.
Qed.

Context {D : Type} `{!BlockDevice D} `{!BlockDeviceLaws D}.
Implicit Types (st : storage D).

Lemma image_pages size : 0 < size <= 4096 -> int32 (u32 (size + 4095) / 4096) = 1.
Proof.
  intros H. rewrite u32_small by (unfold in_u32; lia).
  replace ((size + 4095) / 4096) with 1 by zdm. reflexivity.
Qed.

Lemma run_pages_1 a : run_pages a 1 = {[a]}.
Proof. unfold run_pages. change (map _ (seqZ 0 1)) with [a + 0]. rewrite Z.add_0_r. set_solver. Qed.

(** Loading never faults, and changes the kernel by a spawn on a copy at most. *)
Lemma loader_spec live id scratch k st n img st1 :
  sto_inv st -> kinv live k -> 0 <= current_actor k < MAX_ACTORS ->
  cr3 (mach (mem k)) = pml4_of (current_actor k) ->
  storage_read id scratch LOADER_SCRATCH_BYTES st = (n, img, st1) ->
  exists rc k', loader_spawn_program id scratch k st = Ok (rc, img, k', st1) /\
    match parse_image (take_arr img 0 (Z.to_nat n)) with
    | None => rc = -1 /\ k' = k
    | Some (e, code) => rc < 0 \/ runs_image k' rc e code
    end /\
    (rc = -1 /\ k' = k \/
     exists a m mm e, actor_spawn_program_child a 4096 e (set_ram (fun _ => mm) (set_mem m k)) = (rc, k')).
Proof.
  intros Hst Hi Hcur Hcr Hrd. unfold loader_spawn_program. rewrite Hrd.
  destruct (Z.ltb_spec n HEADER_BYTES) as [Hn|Hn]; unfold HEADER_BYTES in Hn.
  { exists (-1), k. split; [done|]. unfold parse_image. rewrite take_arr_length. unfold HEADER_BYTES. zcmp. cbn [andb]. by split; [|left]. }
  assert (HL : 0 <= LOADER_SCRATCH_BYTES <= OBJECT_MAX_BYTES) by (unfold LOADER_SCRATCH_BYTES, OBJECT_MAX_BYTES, SECTORS_PER_OBJECT; lia).
  destruct (read_result _ _ _ _ _ _ _ Hst HL Hrd) as [->|[Hr Hu8]]; [lia|].
  destruct (header_parse img n ltac:(unfold HEADER_BYTES; lia) Hu8) as [Hp Hok]. cbv zeta in Hp, Hok.
  rewrite Hp. set (hdr := read_header img) in *. destruct (header_ok n hdr); cbn [negb]; [|exists (-1), k; by split; [|split; [|left]]].
  destruct (Hok eq_refl) as (He & Hsz & Hfit). unfold HEADER_BYTES, LOADER_SCRATCH_BYTES in *.
  rewrite image_pages by lia.
  destruct (alloc_dma_pages 1 (mem k)) as [a m] eqn:Ea. unfold alloc_dma_pages in Ea.
  pose proof (contig_cr3 0x200000 1 (mem k)) as Hc3. rewrite Ea in Hc3. cbn [snd] in Hc3.
  destruct (find_and_claim_contig_spec _ live 0x200000 1 a m (kc_mem _ _ (proj1 Hi)) ltac:(unfold MEM_BASE, MEM_CAP; lia) eq_refl ltac:(lia) Ea)
    as [(-> & ->)|(Halo & _ & Hpg & Hm)].
  { exists (-1), k. split; [by destruct k|]. split; [by left | by left]. }
  destruct (Hpg 0 ltac:(lia)) as [(Ham & _ & Hahi) _]. rewrite Z.add_0_r in *.
  rewrite run_pages_1 in Hm. pose proof (mi_top _ _ Hm) as Htop.
  assert (Htop' : mem_top (mem k) <= MEM_CAP) by apply (mi_top _ _ (kc_mem _ _ (proj1 Hi))).
  unfold MEM_CAP in *. destruct (Z.eqb_spec a 0); [lia|].
  destruct (current_space _ _ Hi Hcur) as (page & prog & Hs).
  set (code := take_arr img 12 (Z.to_nat (code_size hdr))).
  assert (Hcl : Z.of_nat (length code) = code_size hdr) by (unfold code; rewrite take_arr_length; lia).
  destruct (store_bytes_maps a a code (set_mem m k)) as (mm & -> & Emm).
  { apply (identity_maps _ (current_actor k) page ACTOR_STACK_SIZE prog); [exact Hs | by cbn; rewrite Hc3 | done |].
    rewrite Hcl. unfold PROGRAM_VBASE. lia. }
  cbn [bind_access]. change (u64 (1 * 4096)) with 4096.
  destruct (actor_spawn_program_child a 4096 (entry_offset hdr) _) as [rc k'] eqn:Esp.
  exists rc, k'. split; [done|]. split; [|right; by exists a, m, mm, (entry_offset hdr)].
  apply (load_page live k a m code (entry_offset hdr) rc k' mm); try done; try (unfold PROGRAM_VBASE; lia).
  intros j. unfold byte_in, code, take_arr. rewrite list_lookup_fmap.
  destruct (seqZ 0 _ !! Z.to_nat j) as [x|] eqn:Ex; [|unfold in_u8; cbn; lia].
  apply lookup_seqZ in Ex as [-> Hx]. cbn. apply Hu8. lia.
Qed.

(** C27: the loader runs exactly what is stored.  Loading never faults.  If the
    object is not a valid image the call fails and the kernel is unchanged; if
    it is one, either the spawn is refused or there is a new ready actor whose
    entry point lies inside the code and whose user-mode memory at
    [PROGRAM_VBASE] holds the image's code, byte for byte. *)
Theorem loader_runs_the_image live id scratch k st n img st1 :
  sto_inv st -> kinv live k -> 0 <= current_actor k < MAX_ACTORS ->
  cr3 (mach (mem k)) = pml4_of (current_actor k) ->
  storage_read id scratch LOADER_SCRATCH_BYTES st = (n, img, st1) ->
  exists rc k', loader_spawn_program id scratch k st = Ok (rc, img, k', st1) /\
    match parse_image (take_arr img 0 (Z.to_nat n)) with
    | None => rc = -1 /\ k' = k
    | Some (e, code) => rc < 0 \/ runs_image k' rc e code
    end.
Proof.
  intros H1 H2 H3 H4 H5. destruct (loader_spec live id scratch k st n img st1 H1 H2 H3 H4 H5) as (rc & k' & E & Hp & _).
  by exists rc, k'.
Qed.
End loaded.

(** ** A stored program, loaded *)
Module LoaderDemo.
Import RamDisk Demo.

(** [nop; ret], stored as object 0. *)
Definition code2 : list Z := [0x90; 0xC3].
Definition image2 : list Z := image_bytes 0 code2.
Definition store_prog : storage ram_disk := snd (storage_write 0 (str image2) 14 store1).

Lemma store_prog_inv : sto_inv store_prog.
Proof.
  unfold store_prog. destruct (storage_write 0 (str image2) 14 store1) as [r st'] eqn:E. cbn [snd].
  refine (sto_step_inv (OpWrite 0 (str image2) 14) store1 r st' (proj1 store1_inv) _ E).
  cbn. unfold in_u32. lia.
Qed.

(** One actor that may spawn, running. *)
Definition kernL2 : kern := (run_event (EvGrant 0 CAP_SPAWN 0) kern1).2.
Definition kernL : kern := (run_event EvStart kernL2).2.
#[local] Strategy expand [kern0 kern1 kernL2 kernL].

Lemma kernL_flags : current_actor kernL2 = -1 /\ halted kernL2 = false /\ c_rsp (kcpu kernL2) = 0x7000 /\
  current_actor kernL = 0 /\ halted kernL = false /\ cr3 (mach (mem kernL)) = pml4_of 0.
Proof. vm_compute. split_and!; reflexivity. Qed.

Lemma kernL_reachable : reachable kern0 kernL.
Proof.
  destruct kern2_flags as (_ & _ & _ & B1 & B2 & B3). destruct kernL_flags as (A1 & A2 & A3 & _).
  refine (boot_reach EvStart kernL2 kernL eq_refl _ A1 A2 A3 eq_refl).
  refine (boot_reach (EvGrant 0 CAP_SPAWN 0) kern1 kernL2 eq_refl _ B1 B2 B3 eq_refl).
  exact (boot_reach (EvSpawn 0x2B000) kern0 kern1 eq_refl (reach_refl kern0) eq_refl eq_refl eq_refl eq_refl).
Qed.

Lemma kernL_inv : exists live, kinv live kernL.
Proof.
  destruct (reachable_good demo_codes kern0 kernL (scheduler_init_good ∅ kern_raw mem_demo_inv eq_refl) kernL_reachable)
    as (live & Hc & Hr). exists live. split; [exact Hc|]. apply Hr. apply kernL_flags.
Qed.

Definition loaded_code (r : access (Z * gmap Z Z * kern * storage ram_disk)) : Z :=
  match r with Ok (rc, _, _, _) => rc | _ => -2 end.

Lemma loader_runs_the_image_witness :
  exists rc img k' st1, loader_spawn_program 0 ∅ kernL store_prog = Ok (rc, img, k', st1) /\ runs_image k' rc 0 code2.
Proof.
  destruct kernL_inv as [live Hi]. destruct kernL_flags as (_ & _ & _ & Hcur & _ & Hcr).
  destruct (storage_read 0 ∅ LOADER_SCRATCH_BYTES store_prog) as [[n img] st1] eqn:E.
  assert (Hp : (let '(n, img, _) := storage_read 0 ∅ LOADER_SCRATCH_BYTES store_prog in
                parse_image (take_arr img 0 (Z.to_nat n))) = Some (0, code2)) by (vm_compute; reflexivity).
  assert (Hrc : loaded_code (loader_spawn_program 0 ∅ kernL store_prog) = 1) by (vm_compute; reflexivity).
  rewrite E in Hp.
  destruct (loader_runs_the_image demo_codes live 0 ∅ kernL store_prog n img st1 store_prog_inv Hi) as (rc & k' & El & H).
  - rewrite Hcur. unfold MAX_ACTORS. lia.
  - rewrite Hcur. exact Hcr.
  - exact E.
  - rewrite Hp in H. rewrite El in Hrc. cbn [loaded_code] in Hrc. subst rc.
    exists 1, img, k', st1. split; [exact El|]. destruct H as [H|H]; [lia | exact H].
Defined.

(** The pages are claimed before the spawn is authorised: an actor without
    [CAP_SPAWN] that may read the object is refused, and the page is gone. *)
Lemma refused_load_leaks_page :
  let k := (run_event EvStart kern1).2 in
  match loader_spawn_program 0 ∅ k store_prog with
  | Ok (rc, _, k', _) => rc = -1 /\ bitmap_is_used (idx 0x200000) (bitmap (mem k)) = false /\
                         page_known 0x200000 k' = false
  | _ => False
  end.
Proof. vm_compute. split_and!; reflexivity. Qed.
End LoaderDemo.
