(* ===== verification/Syscall.v ===== *)
(** * The system-call boundary: [hal/x86_64/syscall.c]

    The whole machine as one record, and [syscall_handler] over it: the
    dispatch of the 24 calls, their capability checks, and the accesses they
    make through the caller's pointers. *)
From S2P Require Import Prelude Paging Memory Storage Gdt Actor Scheduler Isolation Ports Keyboard Rtc Console Net Access Place Loader.

Definition SYS_WRITE : Z := 1.
Definition SYS_YIELD : Z := 2.
Definition SYS_EXIT : Z := 3.
Definition SYS_SEND : Z := 4.
Definition SYS_RECEIVE : Z := 5.
Definition SYS_GRANT : Z := 6.
Definition SYS_SPAWN : Z := 7.
Definition SYS_TERMINATE : Z := 8.
Definition SYS_OBJECT_READ : Z := 9.
Definition SYS_OBJECT_WRITE : Z := 10.
Definition SYS_OBJECT_PROMOTE : Z := 11.
Definition SYS_OBJECT_REJECT : Z := 12.
Definition SYS_NET_SEND : Z := 13.
Definition SYS_NET_RECEIVE : Z := 14.
Definition SYS_NET_SEND_TO : Z := 15.
Definition SYS_NET_SEND_RELIABLE : Z := 16.
Definition SYS_SPAWN_PROGRAM : Z := 17.
Definition SYS_LOOKUP_NAME : Z := 18.
Definition SYS_LIST_OBJECTS : Z := 19.
Definition SYS_CREATE_NAME : Z := 20.
Definition SYS_RENAME_OBJECT : Z := 21.
Definition SYS_DELETE_NAME : Z := 22.
Definition SYS_KEY_READ : Z := 23.
Definition SYS_RTC_READ : Z := 24.

(** The machine: the kernel proper, the I/O ports, the object store over its
    disk, the loader's scratch buffer, the transport over its network device,
    the keyboard buffer, the console, and for every actor the pointer of its
    pending [SYS_RECEIVE] (a local variable on its kernel stack). *)
Record world (B D N : Type) := World {
  w_kern : kern; w_bus : B; w_sto : storage D; w_scratch : gmap Z Z; w_net : net N;
  w_kbd : kbd; w_con : console; w_recv : gmap Z Z }.
Arguments World {B D N} _ _ _ _ _ _ _ _.
Arguments w_kern {B D N} _.
Arguments w_bus {B D N} _.
Arguments w_sto {B D N} _.
Arguments w_scratch {B D N} _.
Arguments w_net {B D N} _.
Arguments w_kbd {B D N} _.
Arguments w_con {B D N} _.
Arguments w_recv {B D N} _.

(** Where a system call ends: back in the caller with a result in RAX; in
    another actor (or a halt), as [Actor.resume] lands; in a fault at CPL 0,
    which panics; in a store over the kernel's image; waiting for ever on the
    console's lock; or, for a string without end, nowhere within the fuel. *)
Inductive outcome (W : Type) :=
| Back (rax : Z) (w : W) | Switched (l : landing) (w : W) | Crashed (va : Z) | Overwrote (va : Z) | Deadlock | OutOfFuel.
Arguments Back {W} _ _.
Arguments Switched {W} _ _.
Arguments Crashed {W} _.
Arguments Overwrote {W} _.
Arguments Deadlock {W}.
Arguments OutOfFuel {W}.

Definition finish {W : Type} (x : access (outcome W)) : outcome W :=
  match x with Ok o => o | Fault va => Crashed va | Overwrites va => Overwrote va end.

(** Little-endian bytes of an [n]-byte field. *)
Definition field (n : nat) (v : Z) : list Z := map (byte_of v) (seqZ 0 (Z.of_nat n)).

(** The C structures the kernel fills in, as bytes. *)
Definition message_bytes (m : message) : list Z := field 8 (m_type m) ++ field 8 (m_sender m) ++ field 8 (m_data m).
Definition net_message_bytes (o : received) : list Z :=
  field 8 (rx_type o) ++ field 8 (rx_data o) ++ field 8 (rx_sender_actor o) ++ take_arr (rx_sender_mac o) 0 6.
Definition object_info_bytes (i : index_out) : list Z :=
  field 4 (io_id i) ++ field 4 (io_trust i) ++ field 4 (io_size i) ++ take_arr (io_name i) 0 16.

Section syscall.
Context {L : layout} {KL : klayout} {KC : kcode}.
Context {B D N : Type} `{!PortBus B} `{!BlockDevice D} `{!NetDevice N}.
Abbreviation world := (world B D N).
Implicit Types (w : world) (k : kern).

Definition set_kern k w : world :=
  World k (w_bus w) (w_sto w) (w_scratch w) (w_net w) (w_kbd w) (w_con w) (w_recv w).
Definition set_bus (b : B) w : world :=
  World (w_kern w) b (w_sto w) (w_scratch w) (w_net w) (w_kbd w) (w_con w) (w_recv w).
Definition set_sto (s : storage D) w : world :=
  World (w_kern w) (w_bus w) s (w_scratch w) (w_net w) (w_kbd w) (w_con w) (w_recv w).
Definition set_loader_scratch (m : gmap Z Z) w : world :=
  World (w_kern w) (w_bus w) (w_sto w) m (w_net w) (w_kbd w) (w_con w) (w_recv w).
Definition set_net (n : net N) w : world :=
  World (w_kern w) (w_bus w) (w_sto w) (w_scratch w) n (w_kbd w) (w_con w) (w_recv w).
Definition set_kbd (q : kbd) w : world :=
  World (w_kern w) (w_bus w) (w_sto w) (w_scratch w) (w_net w) q (w_con w) (w_recv w).
Definition set_con (c : console) w : world :=
  World (w_kern w) (w_bus w) (w_sto w) (w_scratch w) (w_net w) (w_kbd w) c (w_recv w).
Definition set_recv (m : gmap Z Z) w : world :=
  World (w_kern w) (w_bus w) (w_sto w) (w_scratch w) (w_net w) (w_kbd w) (w_con w) m.

(** [(uint64_t)rc] and [(uint64_t)(int64_t)rc] of an [int]. *)
Definition reply (rc : Z) w : outcome world := Back (u64 rc) w.
Definition denied w : outcome world := reply (-1) w.
Definition with_cap (op target : Z) w (o : outcome world) : outcome world :=
  if actor_current_has_cap op target (w_kern w) then o else denied w.

(** A switch away from the caller, and what happens where it lands: a pending
    receive stores its message through the pointer it was called with. *)
Definition land (k : kern) w : outcome world :=
  let '(l, k) := resume k in
  match l with
  | LReceived m =>
      finish (let? k := store_bytes (w_recv w !!! current_actor k) (message_bytes m) k in
              Ok (Switched l (set_kern k w)))
  | _ => Switched l (set_kern k w)
  end.

(** [hal_console_write] on a string in the caller's memory: one byte read, one
    character printed, until the NUL. *)
Fixpoint write_user (fuel : nat) (va : Z) k (c : console) : access (option (option console)) :=
  match fuel with
  | O => Ok None
  | S fuel =>
      let? b := load_byte va k in
      if b =? 0 then Ok (Some (Some c))
      else match hal_console_putchar b c with
           | Some c => write_user fuel (va + 1) k c
           | None => Ok (Some None)
           end
  end.

Definition sys_write (fuel : nat) (a1 : Z) w : outcome world :=
  let c := hal_console_set_window (actor_current_window (w_kern w)) (w_con w) in
  finish (let? r := write_user fuel a1 (w_kern w) c in
          Ok match r with
             | Some (Some c) => reply 0 (set_con c w)
             | Some None => Deadlock
             | None => OutOfFuel
             end).

Definition sys_yield w : outcome world :=
  let '(returned, k) := actor_yield (w_kern w) in
  if returned then reply 0 (set_kern k w) else land k w.

Definition sys_exit w : outcome world :=
  let '(returned, k) := actor_exit (w_kern w) in
  if returned then reply 0 (set_kern k w) else land k w.

(** An operation of [core/actor.c] that returns to the caller. *)
Definition kern_call (f : kern -> Z * kern) w : outcome world :=
  let '(rc, k) := f (w_kern w) in reply rc (set_kern k w).

Definition sys_receive (a1 : Z) w : outcome world :=
  let w := set_recv (<[current_actor (w_kern w) := a1]> (w_recv w)) w in
  match actor_receive (w_kern w) with
  | (Some m, k) => finish (let? k := store_bytes a1 (message_bytes m) k in Ok (reply 0 (set_kern k w)))
  | (None, k) => land k w
  end.

Definition sys_object_read (a1 a2 a3 : Z) w : outcome world :=
  let '(rc, buf, s) := storage_read (int32 a1) ∅ (u32 a3) (w_sto w) in
  let w := set_sto s w in
  finish (let? k := store_bytes a2 (take_arr buf 0 (Z.to_nat rc)) (w_kern w) in Ok (reply rc (set_kern k w))).

(** [storage_write] reads the caller's buffer only after its own checks. *)
Definition sys_object_write (a1 a2 a3 : Z) w : outcome world :=
  let id := int32 a1 in
  let len := u32 a3 in
  finish (let? l := (if bad_id id (w_sto w) || (OBJECT_MAX_BYTES <? len) then Ok []
                     else load_bytes a2 (Z.to_nat len) (w_kern w)) in
          let '(rc, s) := storage_write id (fun i => byte_in l i) len (w_sto w) in
          Ok (reply rc (set_sto s w))).

Definition sto_call (f : storage D -> Z * storage D) w : outcome world :=
  let '(rc, s) := f (w_sto w) in reply rc (set_sto s w).

Definition net_call (f : net N -> Z * net N) w : outcome world :=
  let '(rc, n) := f (w_net w) in reply rc (set_net n w).

(** [mac[i] = (uint8_t)(a3 >> (8 * i))] *)
Definition mac_of (a3 : Z) : gmap Z Z := fill 0 (byte_of a3) 0 6 ∅.

Definition sys_net_receive (a1 a2 : Z) w : outcome world :=
  let '(rc, o, n) := net_poll_receive_message (actor_current_slot (w_kern w)) rx_blank (u32 a2) (w_net w) in
  let w := set_net n w in
  if rc =? 1
  then finish (let? k := store_bytes a1 (net_message_bytes o) (w_kern w) in Ok (reply rc (set_kern k w)))
  else reply rc w.

Definition sys_spawn_program (a1 : Z) w : outcome world :=
  finish (let? r := loader_spawn_program (int32 a1) (w_scratch w) (w_kern w) (w_sto w) in
          let '(rc, sc, k, s) := r in
          Ok (reply rc (set_loader_scratch sc (set_sto s (set_kern k w))))).

Definition sys_lookup_name (a1 : Z) w : outcome world :=
  finish (let? _ := string_mapped 16 a1 (w_kern w) in
          Ok (reply (storage_lookup_by_name (string_at a1 (w_kern w)) (w_sto w)) w)).

Definition sys_list_objects (a1 a2 : Z) w : outcome world :=
  let '(rc, i) := storage_get_by_index (int32 a1) (IndexOut ∅ 0 0 0) (w_sto w) in
  if negb (rc =? 1) then reply 0 w
  else finish (let? k := store_bytes a2 (object_info_bytes i) (w_kern w) in Ok (reply 1 (set_kern k w))).

Definition grant_creator (id : Z) k : kern :=
  let slot := actor_current_slot k in
  let '(_, k) := actor_grant slot CAP_READ_OBJECT id k in
  let '(_, k) := actor_grant slot CAP_WRITE_OBJECT id k in
  let '(_, k) := actor_grant slot CAP_RENAME_OBJECT id k in
  let '(_, k) := actor_grant slot CAP_DELETE_OBJECT id k in
  k.

Definition sys_create_name (a1 : Z) w : outcome world :=
  finish (let? _ := string_mapped 16 a1 (w_kern w) in
          let '(id, s) := storage_create_named (string_at a1 (w_kern w)) (w_sto w) in
          let w := set_sto s w in
          Ok (if id <? 0 then denied w else reply id (set_kern (grant_creator id (w_kern w)) w))).

(** [storage_rename] looks at the new name only when the id is in use. *)
Definition sys_rename_object (a1 a2 : Z) w : outcome world :=
  let id := int32 a1 in
  finish (let? _ := (if (id <? 0) || (object_count (w_sto w) <=? id) || negb (Storage.live (w_sto w) id) then Ok tt
                     else string_mapped 16 a2 (w_kern w)) in
          Ok (sto_call (storage_rename id (string_at a2 (w_kern w))) w)).

Definition sys_key_read w : outcome world :=
  let '(c, q) := hal_keyboard_poll (w_kbd w) in reply c (set_kbd q w).

(** The fields of [struct rtc_time]; the byte before [year] is padding. *)
Definition sys_rtc_read (a1 : Z) w : outcome world :=
  let '(t, b) := hal_rtc_read (w_bus w) in
  finish (let? k := store_bytes a1 (map u8 [seconds t; minutes t; hours t; day t; month t]) (w_kern w) in
          let? k := store_bytes (a1 + 6) (field 2 (year t)) k in
          Ok (reply 0 (set_kern k (set_bus b w)))).

Definition syscall_handler (fuel : nat) (num a1 a2 a3 : Z) w : outcome world :=
  if num =? SYS_WRITE then sys_write fuel a1 w
  else if num =? SYS_YIELD then sys_yield w
  else if num =? SYS_EXIT then sys_exit w
  else if num =? SYS_SEND then kern_call (actor_send (int32 a1) a2 a3) w
  else if num =? SYS_RECEIVE then sys_receive a1 w
  else if num =? SYS_GRANT then kern_call (actor_delegate (int32 a1) (int32 a2) (int32 a3)) w
  else if num =? SYS_SPAWN then kern_call (actor_spawn_child a1) w
  else if num =? SYS_TERMINATE then kern_call (actor_terminate (int32 a1)) w
  else if num =? SYS_OBJECT_READ then with_cap CAP_READ_OBJECT (int32 a1) w (sys_object_read a1 a2 a3 w)
  else if num =? SYS_OBJECT_WRITE then with_cap CAP_WRITE_OBJECT (int32 a1) w (sys_object_write a1 a2 a3 w)
  else if num =? SYS_OBJECT_PROMOTE then with_cap CAP_PROMOTE_OBJECT 0 w (sto_call (storage_promote (int32 a1)) w)
  else if num =? SYS_OBJECT_REJECT then with_cap CAP_PROMOTE_OBJECT 0 w (sto_call (storage_reject (int32 a1)) w)
  else if num =? SYS_NET_SEND then
    with_cap CAP_NET 0 w (net_call (net_send_message (actor_current_slot (w_kern w)) a1 a2) w)
  else if num =? SYS_NET_SEND_TO then
    with_cap CAP_NET 0 w (net_call (net_send_message_to (actor_current_slot (w_kern w)) (mac_of a3) a1 a2) w)
  else if num =? SYS_NET_SEND_RELIABLE then
    with_cap CAP_NET 0 w (net_call (net_send_message_reliable_to (actor_current_slot (w_kern w)) (mac_of a3) a1 a2) w)
  else if num =? SYS_NET_RECEIVE then with_cap CAP_NET 0 w (sys_net_receive a1 a2 w)
  else if num =? SYS_SPAWN_PROGRAM then with_cap CAP_READ_OBJECT (int32 a1) w (sys_spawn_program a1 w)
  else if num =? SYS_LOOKUP_NAME then sys_lookup_name a1 w
  else if num =? SYS_LIST_OBJECTS then with_cap CAP_LIST_NAMES 0 w (sys_list_objects a1 a2 w)
  else if num =? SYS_CREATE_NAME then with_cap CAP_CREATE_OBJECT 0 w (sys_create_name a1 w)
  else if num =? SYS_RENAME_OBJECT then with_cap CAP_RENAME_OBJECT (int32 a1) w (sys_rename_object a1 a2 w)
  else if num =? SYS_DELETE_NAME then with_cap CAP_DELETE_OBJECT (int32 a1) w (sto_call (storage_delete (int32 a1)) w)
  else if num =? SYS_KEY_READ then with_cap CAP_CONSOLE 0 w (sys_key_read w)
  else if num =? SYS_RTC_READ then sys_rtc_read a1 w
  else denied w.
End syscall.

(** ** Reading off an outcome *)
Section effects.
Context {L : layout} {KL : klayout} {KC : kcode}.
Context {B D N : Type} `{!PortBus B} `{!BlockDevice D} `{!NetDevice N}.
Abbreviation world := (world B D N).
Implicit Types (w : world) (k : kern).

Definition final (o : outcome world) : option world :=
  match o with Back _ w | Switched _ w => Some w | _ => None end.

(** [w'] differs from [w] in the kernel proper only. *)
Definition only_kern w w' : Prop := exists k, w' = set_kern k w.

Lemma field_length n v : length (field n v) = n.
Proof. unfold field. by rewrite length_map, length_seqZ, Nat2Z.id. Qed.

Lemma only_kern_refl w : only_kern w w.
Proof. exists (w_kern w). by destruct w. Qed.

Lemma finish_bind {A : Type} (x : access A) (f : A -> access (outcome world)) w' :
  final (finish (bind_access x f)) = Some w' -> exists a, x = Ok a /\ final (finish (f a)) = Some w'.
Proof. destruct x; [by eexists|done|done]. Qed.

Lemma land_kern k w w' : final (land k w) = Some w' -> only_kern w w'.
Proof.
  unfold land. destruct (resume k) as [l k1].
  destruct l as [| |m| |]; intros H; [| |apply finish_bind in H as (k2 & _ & H)| |];
    cbn [final finish] in H; injection H as <-; by eexists.
Qed.

Lemma with_cap_final op t w o w' :
  final (with_cap op t w o) = Some w' ->
  w' = w \/ (actor_current_has_cap op t (w_kern w) = true /\ final o = Some w').
Proof.
  unfold with_cap. destruct (actor_current_has_cap op t (w_kern w)); intros H; [right; split; [reflexivity | exact H] | left].
  cbn [final denied reply] in H. by injection H as <-.
Qed.

Definition current_holds (op t : Z) k : Prop := 0 <= current_actor k /\ holds k (current_actor k) op t.

Lemma has_cap_holds op t k : actor_current_has_cap op t k = true <-> current_holds op t k.
Proof.
  unfold actor_current_has_cap, current_holds. destruct (Z.ltb_spec (current_actor k) 0).
  - split; [done | lia].
  - rewrite has_cap_spec. split; [done | by intros []].
Qed.

(** The capability a store operation needs. *)
Definition authorises k (op : sto_op) : Prop :=
  match op with
  | OpRead id _ => current_holds CAP_READ_OBJECT id k
  | OpWrite id _ _ => current_holds CAP_WRITE_OBJECT id k
  | OpPromote _ | OpReject _ => current_holds CAP_PROMOTE_OBJECT 0 k
  | OpRename id _ => current_holds CAP_RENAME_OBJECT id k
  | OpDelete id => current_holds CAP_DELETE_OBJECT id k
  | OpCreateNamed _ => current_holds CAP_CREATE_OBJECT 0 k
  | OpCreateObject _ => False
  end.

(** What a call may have done to the store, the network and the keyboard. *)
Record mediated w w' : Prop := Mediated {
  md_sto : w_sto w' = w_sto w \/ exists op r, sto_step op (w_sto w) = (r, w_sto w') /\ authorises (w_kern w) op;
  md_net : w_net w' = w_net w \/ current_holds CAP_NET 0 (w_kern w);
  md_kbd : w_kbd w' = w_kbd w \/ current_holds CAP_CONSOLE 0 (w_kern w) }.

Lemma mediated_kern w w' : only_kern w w' -> mediated w w'.
Proof. intros [k ->]. by split; left. Qed.

Lemma mediated_sto op r s w : sto_step op (w_sto w) = (r, s) -> authorises (w_kern w) op -> mediated w (set_sto s w).
Proof. intros E H. split; [right; by exists op, r | by left | by left]. Qed.

(** Reading does not depend on the caller's buffer. *)
Lemma read_any_buffer id buf len (st : storage D) r out st1 :
  storage_read id buf len st = (r, out, st1) -> sto_step (OpRead id len) st = (r, st1).
Proof.
  cbn. unfold storage_read. destruct (bad_id id st); [by intros [= <- <- <-]|].
  destruct (_ =? OBJ_REJECTED); [by intros [= <- <- <-]|].
  destruct (disk_read _ _ _ _) as [[rc sc] d]. destruct (negb _); by intros [= <- <- <-].
Qed.

(** Fields a later update does not touch. *)
Lemma mediated_frame w w' w2 :
  w_sto w2 = w_sto w' -> w_net w2 = w_net w' -> w_kbd w2 = w_kbd w' -> mediated w w' -> mediated w w2.
Proof. intros E1 E2 E3 [H1 H2 H3]. split; by rewrite ?E1, ?E2, ?E3. Qed.

(** A call that changes none of the three. *)
Ltac unmediated := split; left; reflexivity.
Ltac ended H := cbn [final finish reply denied] in H; injection H as <-.

Lemma kern_call_mediated f w w' : final (kern_call f w) = Some w' -> mediated w w'.
Proof. unfold kern_call. destruct (f (w_kern w)) as [rc k]. intros H. ended H. unmediated. Qed.

Lemma sto_call_mediated op f w w' :
  (forall s, f s = sto_step op s) -> authorises (w_kern w) op -> final (sto_call f w) = Some w' -> mediated w w'.
Proof.
  intros Hf Ha. unfold sto_call. rewrite Hf. destruct (sto_step op (w_sto w)) as [rc s] eqn:E. intros H. ended H.
  by eapply mediated_sto.
Qed.

Lemma net_call_mediated f w w' :
  current_holds CAP_NET 0 (w_kern w) -> final (net_call f w) = Some w' -> mediated w w'.
Proof.
  intros Hc. unfold net_call. destruct (f (w_net w)) as [rc n]. intros H. ended H.
  split; [left; reflexivity | right; exact Hc | left; reflexivity].
Qed.

Lemma sys_write_mediated fuel a1 w w' : final (sys_write fuel a1 w) = Some w' -> mediated w w'.
Proof.
  unfold sys_write. intros H. apply finish_bind in H as (r & _ & H).
  destruct r as [[c|]|]; [|discriminate H..]. ended H. unmediated.
Qed.

Lemma switch_mediated (r : bool * kern) w w' :
  final (let '(returned, k) := r in if returned then reply 0 (set_kern k w) else land k w) = Some w' -> mediated w w'.
Proof.
  destruct r as [[] k]; intros H; [ended H; unmediated|]. by apply mediated_kern, (land_kern k).
Qed.

Lemma sys_yield_mediated w w' : final (sys_yield w) = Some w' -> mediated w w'.
Proof. unfold sys_yield. apply switch_mediated. Qed.
Lemma sys_exit_mediated w w' : final (sys_exit w) = Some w' -> mediated w w'.
Proof. unfold sys_exit. apply switch_mediated. Qed.

Lemma sys_receive_mediated a1 w w' : final (sys_receive a1 w) = Some w' -> mediated w w'.
Proof.
  unfold sys_receive. set (w1 := set_recv _ w). intros H. apply (mediated_frame w w w'); [| | |unmediated].
  all: destruct (actor_receive (w_kern w1)) as [[m|] k];
    [apply finish_bind in H as (k2 & _ & H); ended H; reflexivity | apply land_kern in H as [k2 ->]; reflexivity].
Qed.

Lemma sys_object_read_mediated a1 a2 a3 w w' :
  current_holds CAP_READ_OBJECT (int32 a1) (w_kern w) -> final (sys_object_read a1 a2 a3 w) = Some w' -> mediated w w'.
Proof.
  intros Hc. unfold sys_object_read. destruct (storage_read _ _ _ _) as [[rc buf] s] eqn:E. intros H.
  apply finish_bind in H as (k & _ & H). ended H. apply read_any_buffer in E.
  eapply mediated_frame; [| | |exact (mediated_sto _ _ _ w E Hc)]; reflexivity.
Qed.

Lemma sys_object_write_mediated a1 a2 a3 w w' :
  current_holds CAP_WRITE_OBJECT (int32 a1) (w_kern w) -> final (sys_object_write a1 a2 a3 w) = Some w' -> mediated w w'.
Proof.
  intros Hc. unfold sys_object_write. intros H. apply finish_bind in H as (l & _ & H).
  destruct (storage_write _ _ _ _) as [rc s] eqn:E. ended H.
  exact (mediated_sto (OpWrite (int32 a1) (fun i => byte_in l i) (u32 a3)) rc s w E Hc).
Qed.

Lemma sys_net_receive_mediated a1 a2 w w' :
  current_holds CAP_NET 0 (w_kern w) -> final (sys_net_receive a1 a2 w) = Some w' -> mediated w w'.
Proof.
  intros Hc. unfold sys_net_receive. destruct (net_poll_receive_message _ _ _ _) as [[rc o] n].
  intros H. apply (mediated_frame w (set_net n w) w'); [| | |split; [left; reflexivity | by right | left; reflexivity]].
  all: destruct (rc =? 1); [apply finish_bind in H as (k & _ & H)|]; ended H; reflexivity.
Qed.

Lemma loader_store id sc k (st : storage D) rc sc' k' st' :
  loader_spawn_program id sc k st = Ok (rc, sc', k', st') ->
  exists r, sto_step (OpRead id LOADER_SCRATCH_BYTES) st = (r, st').
Proof.
  unfold loader_spawn_program. destruct (storage_read _ _ _ _) as [[n buf] st1] eqn:E.
  apply read_any_buffer in E. intros H. exists n. rewrite E. f_equal.
  destruct (n <? HEADER_BYTES); [by injection H|]. destruct (negb _); [by injection H|].
  destruct (alloc_dma_pages _ _) as [phys m]. destruct (phys =? 0); [by injection H|].
  destruct (store_bytes _ _ _) as [k1| |]; [|done|done]. cbn [bind_access] in H.
  destruct (actor_spawn_program_child _ _ _ _) as [r k2]. by injection H.
Qed.

Lemma sys_spawn_program_mediated a1 w w' :
  current_holds CAP_READ_OBJECT (int32 a1) (w_kern w) -> final (sys_spawn_program a1 w) = Some w' -> mediated w w'.
Proof.
  intros Hc. unfold sys_spawn_program. intros H. apply finish_bind in H as ([[[rc sc] k] s] & E & H). ended H.
  apply loader_store in E as [r E].
  eapply mediated_frame; [| | |exact (mediated_sto _ _ _ w E Hc)]; reflexivity.
Qed.

Lemma sys_lookup_name_mediated a1 w w' : final (sys_lookup_name a1 w) = Some w' -> mediated w w'.
Proof. unfold sys_lookup_name. intros H. apply finish_bind in H as (u & _ & H). ended H. unmediated. Qed.

Lemma sys_list_objects_mediated a1 a2 w w' : final (sys_list_objects a1 a2 w) = Some w' -> mediated w w'.
Proof.
  unfold sys_list_objects. destruct (storage_get_by_index _ _ _) as [rc i]. destruct (negb _); intros H.
  - ended H. unmediated.
  - apply finish_bind in H as (k & _ & H). ended H. unmediated.
Qed.

Lemma sys_create_name_mediated a1 w w' :
  current_holds CAP_CREATE_OBJECT 0 (w_kern w) -> final (sys_create_name a1 w) = Some w' -> mediated w w'.
Proof.
  intros Hc. unfold sys_create_name. intros H. apply finish_bind in H as (u & _ & H).
  destruct (storage_create_named _ _) as [id s] eqn:E.
  eapply mediated_frame; [| | |exact (mediated_sto (OpCreateNamed (string_at a1 (w_kern w))) id s w E Hc)];
    destruct (id <? 0); ended H; reflexivity.
Qed.

Lemma sys_rename_object_mediated a1 a2 w w' :
  current_holds CAP_RENAME_OBJECT (int32 a1) (w_kern w) -> final (sys_rename_object a1 a2 w) = Some w' -> mediated w w'.
Proof.
  intros Hc. unfold sys_rename_object. intros H. apply finish_bind in H as (u & _ & H).
  exact (sto_call_mediated (OpRename (int32 a1) (string_at a2 (w_kern w))) _ w w' (fun _ => eq_refl) Hc H).
Qed.

Lemma sys_key_read_mediated w w' :
  current_holds CAP_CONSOLE 0 (w_kern w) -> final (sys_key_read w) = Some w' -> mediated w w'.
Proof.
  intros Hc. unfold sys_key_read. destruct (hal_keyboard_poll (w_kbd w)) as [c q]. intros H. ended H.
  split; [left; reflexivity | left; reflexivity | by right].
Qed.

Lemma sys_rtc_read_mediated a1 w w' : final (sys_rtc_read a1 w) = Some w' -> mediated w w'.
Proof.
  unfold sys_rtc_read. destruct (hal_rtc_read (w_bus w)) as [t b]. intros H.
  apply finish_bind in H as (k & _ & H). apply finish_bind in H as (k2 & _ & H). ended H. unmediated.
Qed.

Lemma guarded op t w o w' :
  final (with_cap op t w o) = Some w' ->
  (current_holds op t (w_kern w) -> final o = Some w' -> mediated w w') -> mediated w w'.
Proof.
  intros H Ho. apply with_cap_final in H as [->|[Hc H]]; [unmediated|]. apply Ho; [by apply has_cap_holds | exact H].
Qed.

Lemma either_branch (b : bool) (o1 o2 : outcome world) w' (P : Prop) :
  final (if b then o1 else o2) = Some w' -> (final o1 = Some w' -> P) -> (final o2 = Some w' -> P) -> P.
Proof. destruct b; auto. Qed.
Ltac either H := apply (either_branch _ _ _ _ _ H); clear H; intros H.

Lemma handler_mediated fuel num a1 a2 a3 w w' :
  final (syscall_handler fuel num a1 a2 a3 w) = Some w' -> mediated w w'.
Proof.
  unfold syscall_handler. intros H.
  either H; [exact (sys_write_mediated _ _ _ _ H)|].
  either H; [exact (sys_yield_mediated w w' H)|].
  either H; [exact (sys_exit_mediated w w' H)|].
  either H; [by eapply kern_call_mediated|].
  either H; [by eapply sys_receive_mediated|].
  either H; [by eapply kern_call_mediated|].
  either H; [by eapply kern_call_mediated|].
  either H; [by eapply kern_call_mediated|].
  either H; [eapply guarded; [exact H|]; intros; by eapply sys_object_read_mediated|].
  either H; [eapply guarded; [exact H|]; intros; by eapply sys_object_write_mediated|].
  either H;
    [eapply guarded; [exact H|]; intros; by apply (sto_call_mediated (OpPromote (int32 a1)) _ w w' (fun _ => eq_refl))|].
  either H;
    [eapply guarded; [exact H|]; intros; by apply (sto_call_mediated (OpReject (int32 a1)) _ w w' (fun _ => eq_refl))|].
  either H; [eapply guarded; [exact H|]; intros; by eapply net_call_mediated|].
  either H; [eapply guarded; [exact H|]; intros; by eapply net_call_mediated|].
  either H; [eapply guarded; [exact H|]; intros; by eapply net_call_mediated|].
  either H; [eapply guarded; [exact H|]; intros; by eapply sys_net_receive_mediated|].
  either H; [eapply guarded; [exact H|]; intros; by eapply sys_spawn_program_mediated|].
  either H; [by eapply sys_lookup_name_mediated|].
  either H; [eapply guarded; [exact H|]; intros; by eapply sys_list_objects_mediated|].
  either H; [eapply guarded; [exact H|]; intros; by eapply sys_create_name_mediated|].
  either H; [eapply guarded; [exact H|]; intros; by eapply sys_rename_object_mediated|].
  either H;
    [eapply guarded; [exact H|]; intros; by apply (sto_call_mediated (OpDelete (int32 a1)) _ w w' (fun _ => eq_refl))|].
  either H; [eapply guarded; [exact H|]; intros; by eapply sys_key_read_mediated|].
  either H; [by eapply sys_rtc_read_mediated|].
  ended H. unmediated.
Qed.
End effects.

(** ** Objects under the reference monitor *)
Section objects.
Context {L : layout} {KL : klayout} {KC : kcode}.
Context {B D N : Type} `{!PortBus B} `{!BlockDevice D} `{!BlockDeviceLaws D} `{!NetDevice N}.
Implicit Types (w : world B D N).

(** The object an operation changes, if it is an existing one. *)
Definition changes_object (op : sto_op) (id : Z) : Prop :=
  match op with
  | OpWrite i _ _ | OpRename i _ | OpDelete i | OpPromote i | OpReject i => i = id
  | OpRead _ _ | OpCreateNamed _ | OpCreateObject _ => False
  end.

Lemma step_other_object op (st : storage D) r st' id :
  sto_inv st -> sto_step op st = (r, st') -> 0 <= id < MAX_OBJECTS -> Storage.live st id = true ->
  ~ changes_object op id -> obj st' id = obj st id.
Proof.
  intros Hi Heq Hid Hl Hc.
  assert (Hset : forall j o, j <> id -> obj (directory_save (set_obj j o st)) id = obj st id).
  { intros j o Hj. rewrite obj_save, obj_set. by destruct (Z.eqb_spec j id). }
  destruct op as [nm|nm|j nm|j|j len|j buf len|j|j]; cbn in Heq, Hc.
  - unfold storage_create_object in Heq. destruct (_ <=? _); [by injection Heq as <- <-|]. by eapply alloc_keeps_live.
  - unfold storage_create_named in Heq. destruct (_ <=? _); [by injection Heq as <- <-|]. by eapply alloc_keeps_live.
  - unfold storage_rename in Heq. repeat case_match_hyp Heq; injection Heq as <- <-; by first [done | apply Hset].
  - unfold storage_delete in Heq. repeat case_match_hyp Heq; injection Heq as <- <-; by first [done | apply Hset].
  - unfold storage_read in Heq. repeat case_match_hyp Heq; by injection Heq as <- <-.
  - unfold storage_write in Heq. destruct (bad_id j st); [by injection Heq as <- <-|].
    destruct (_ <? _); [by injection Heq as <- <-|]. destruct (disk_write _ _ _ _) as [rc d].
    destruct (negb _); injection Heq as <- <-; [done|]. rewrite obj_save, obj_set. by destruct (Z.eqb_spec j id).
  - unfold storage_promote in Heq. repeat case_match_hyp Heq; injection Heq as <- <-; by first [done | apply Hset].
  - unfold storage_reject in Heq. repeat case_match_hyp Heq; injection Heq as <- <-; by first [done | apply Hset].
Qed.

End objects.


Ltac ended H := cbn [final finish reply denied] in H; injection H as <-.

(** ** The machine's invariant *)
Section invariant.
Context {L : layout} {LOK : layout_ok L} {KL : klayout} {KC : kcode}.
Context {B D N : Type} `{!PortBus B} `{!BlockDevice D} `{!BlockDeviceLaws D} `{!NetDevice N}.
Context (Hcode : actor_trampoline_addr <> schedule_next_ret).
Implicit Types (w : world B D N) (k : kern) (live : gset Z).

(** The components' own invariants, together. *)
Record machine_ok w : Prop := MachineOk {
  ok_kern : ksound (w_kern w); ok_sto : sto_inv (w_sto w); ok_kbd : kbd_ok (w_kbd w); ok_con : con_ok (w_con w) }.

(** The kernel has been entered from the current actor: on its own stack, in
    its own address space. *)
Record in_syscall k : Prop := InSyscall {
  is_run : halted k = false; is_cur : 0 <= current_actor k;
  is_stack : in_own_stack (current_actor k) (c_rsp (kcpu k));
  is_space : cr3 (mach (mem k)) = pml4_of (current_actor k) }.

Lemma sound_kinv k : ksound k -> halted k = false -> exists live, kinv live k.
Proof. intros [(live & Hc & Hr) _] Hh. exists live. split; [exact Hc | exact (Hr Hh)]. Qed.

Lemma kinv_good live k : kinv live k -> kgood k.
Proof. intros [Hc Hr]. by exists live. Qed.

Lemma keeps_sound k k' : ksound k -> kgood k' -> keeps k k' -> ksound k'.
Proof. intros [_ Hk] Hg H. split; [exact Hg | by eapply isolated_keeps]. Qed.

Lemma sound_ram f k : ksound k -> ksound (set_ram f k).
Proof.
  intros Hk. apply (keeps_sound k); [done | | by split; [|apply grows_same|]].
  destruct Hk as [(live & [C1 C2 C3 C4 C5] & Hr) _]. exists live. split; [split; try done|exact Hr]. by apply set_mach_inv.
Qed.

Lemma store_sound va l k k' : store_bytes va l k = Ok k' -> ksound k -> ksound k'.
Proof. intros H Hk. destruct (store_bytes_frame _ _ _ _ H) as [m ->]. by apply sound_ram. Qed.

(** Replacing the kernel by a good one, and the rest by good ones. *)
Lemma ok_with k w : machine_ok w -> ksound k -> machine_ok (set_kern k w).
Proof. intros [_ ? ? ?] Hk. by split. Qed.

Lemma ok_store s w : machine_ok w -> sto_inv s -> machine_ok (set_sto s w).
Proof. intros [? _ ? ?] Hs. by split. Qed.

Lemma string_u8 va k j : in_u8 (string_at va k j).
Proof. unfold string_at, load_byte. destruct (translate _ _); [apply u8_range | unfold in_u8; lia]. Qed.

Lemma step_ok op r s w : machine_ok w -> op_bytes_ok op -> sto_step op (w_sto w) = (r, s) -> machine_ok (set_sto s w).
Proof. intros Hw Hop E. apply ok_store; [done|]. eapply sto_step_inv_bytes; [apply Hw | exact Hop | exact E]. Qed.

Lemma sto_call_ok op f w w' :
  machine_ok w -> op_bytes_ok op -> (forall s, f s = sto_step op s) -> final (sto_call f w) = Some w' -> machine_ok w'.
Proof.
  intros Hw Hop Hf. unfold sto_call. rewrite Hf. destruct (sto_step op (w_sto w)) as [rc s] eqn:E. intros H. ended H.
  by eapply step_ok.
Qed.

Lemma net_call_ok f w w' : machine_ok w -> final (net_call f w) = Some w' -> machine_ok w'.
Proof. intros [? ? ? ?]. unfold net_call. destruct (f (w_net w)) as [rc n]. intros H. ended H. by split. Qed.

(** The kernel operations that return to the caller are kernel events. *)
Lemma event_sound ev k : ksound k -> in_syscall k -> event_ok ev ->
  match ev with EvStart | EvYield | EvExit | EvReceive | EvSpawnProgram _ _ _ => False | _ => True end -> ksound (run_event ev k).2.
Proof.
  intros Hk [Hh H0 _ _] Hok Hev. destruct (sound_kinv k Hk Hh) as [live Hi]. split.
  - destruct (coded_event_inv Hcode live ev k Hi Hok ltac:(done)) as [live' H]; [by destruct ev|]. by eapply kinv_good.
  - apply (isolated_event Hcode live); [done | apply Hk | done].
Qed.

Lemma kern_call_ok f w w' : machine_ok w -> ksound (f (w_kern w)).2 -> final (kern_call f w) = Some w' -> machine_ok w'.
Proof.
  intros Hw. unfold kern_call. destruct (f (w_kern w)) as [rc k]. intros Hk H. ended H. by apply ok_with.
Qed.

(** A switch: the landing was settled by the scheduler's own theorems. *)
Lemma land_good k w w' r k2 :
  machine_ok w -> settle (false, k) = (r, k2) -> good_result k2 r -> isolated k2 -> final (land k w) = Some w' -> machine_ok w'.
Proof.
  unfold settle, land. destruct (resume k) as [l k1]. intros Hw [= <- <-] [Hg _] Hi H. assert (Hs : ksound k1) by by split.
  destruct l as [| |m| |]; [| |apply finish_bind in H as (k3 & E & H)| |]; cbn [final finish] in H; injection H as <-;
    apply ok_with; try done. by eapply store_sound.
Qed.

Lemma leaving_ok st fr w w' :
  machine_ok w -> in_syscall (w_kern w) ->
  (st = ACTOR_READY /\ fr = FYield \/ st = ACTOR_DEAD /\ fr = FExit) ->
  final (let '(returned, k) := leave st fr (hal_disable_interrupts (w_kern w)) in
         if returned then reply 0 (set_kern k w) else land k w) = Some w' -> machine_ok w'.
Proof.
  intros Hw [Hh H0 Hs _] Hcase. destruct (sound_kinv _ (ok_kern _ Hw) Hh) as [live Hi].
  pose proof (leave_good Hcode live (hal_disable_interrupts (w_kern w)) st fr) as Hg.
  pose proof (isolated_leave Hcode live st fr (hal_disable_interrupts (w_kern w)) (kinv_irq live _ false Hi) H0 Hs Hh Hcase
    (isolated_irq false _ (proj2 (ok_kern _ Hw)))) as Hx.
  destruct (leave st fr (hal_disable_interrupts (w_kern w))) as [returned k].
  destruct (settle (returned, k)) as [r k2] eqn:Es.
  specialize (Hg r k2 (kinv_irq live _ false Hi) H0 Hs Hh Hcase eq_refl).
  destruct returned; intros H; [|by eapply land_good].
  ended H. unfold settle in Es. injection Es as <- <-. apply ok_with; [done | split; [apply Hg | exact Hx]].
Qed.

Lemma sys_yield_ok w w' : machine_ok w -> in_syscall (w_kern w) -> final (sys_yield w) = Some w' -> machine_ok w'.
Proof.
  intros Hw Hs. unfold sys_yield. rewrite yield_leave by apply Hs. apply leaving_ok; [done | done | by left].
Qed.

Lemma sys_exit_ok w w' : machine_ok w -> in_syscall (w_kern w) -> final (sys_exit w) = Some w' -> machine_ok w'.
Proof. intros Hw Hs. unfold sys_exit. rewrite exit_leave. apply leaving_ok; [done | done | by right]. Qed.

Lemma sys_receive_ok a1 w w' : machine_ok w -> in_syscall (w_kern w) -> final (sys_receive a1 w) = Some w' -> machine_ok w'.
Proof.
  intros Hw [Hh H0 Hs _]. destruct (sound_kinv _ (ok_kern _ Hw) Hh) as [live Hi].
  unfold sys_receive. set (w1 := set_recv _ w). change (w_kern w1) with (w_kern w).
  assert (Hw1 : machine_ok w1) by by destruct Hw.
  pose proof (fun r k' => receive_good Hcode live (hal_disable_interrupts (w_kern w)) r k' (kinv_irq live _ false Hi) H0 Hs Hh) as Hg.
  pose proof (isolated_receive Hcode live (hal_disable_interrupts (w_kern w)) (kinv_irq live _ false Hi) H0 Hs Hh
    (isolated_irq false _ (proj2 (ok_kern _ Hw)))) as Hx.
  unfold actor_receive. destruct (receive_loop 1 (hal_disable_interrupts (w_kern w))) as [[m|] k].
  - intros H. apply finish_bind in H as (k2 & E & H). ended H. apply ok_with; [done|].
    eapply store_sound; [exact E|]. split; [apply (Hg _ _ eq_refl) | exact Hx].
  - destruct (settle (false, k)) as [r k2] eqn:Es. intros H. eapply land_good; [exact Hw1 | exact Es | | exact Hx | exact H].
    by apply Hg.
Qed.

Lemma write_user_ok fuel va k c c' : con_ok c -> write_user fuel va k c = Ok (Some (Some c')) -> con_ok c'.
Proof.
  revert va c. induction fuel as [|fuel IH]; intros va c Hc; cbn [write_user]; [done|].
  destruct (load_byte va k) as [b| |]; cbn [bind_access]; [|done|done].
  destruct (b =? 0); [by intros [= <-]|].
  destruct (putchar_ok b c Hc) as (c1 & -> & Hc1 & _). by apply IH.
Qed.

Lemma set_window_ok win c : con_ok c -> con_ok (hal_console_set_window win c).
Proof.
  intros [? ? ? ? ? ?]. unfold hal_console_set_window. destruct (_ || _) eqn:E; [by split|]. breflect.
  split; try done. cbn. unfold WIN_COUNT, CONSOLE_WIN_LOG, CONSOLE_WIN_SHELL in *. lia.
Qed.

Lemma sys_write_ok fuel a1 w w' : machine_ok w -> final (sys_write fuel a1 w) = Some w' -> machine_ok w'.
Proof.
  intros [? ? ? Hc]. unfold sys_write. intros H. apply finish_bind in H as (r & E & H).
  destruct r as [[c|]|]; [|discriminate H..]. ended H. split; try done.
  eapply write_user_ok; [|exact E]. by apply set_window_ok.
Qed.

Lemma sys_object_read_ok a1 a2 a3 w w' : machine_ok w -> final (sys_object_read a1 a2 a3 w) = Some w' -> machine_ok w'.
Proof.
  intros Hw. unfold sys_object_read. destruct (storage_read _ _ _ _) as [[rc buf] s] eqn:E. intros H.
  apply finish_bind in H as (k & Ek & H). ended H. apply read_any_buffer in E.
  apply ok_with; [exact (step_ok (OpRead (int32 a1) (u32 a3)) rc s w Hw (u32_range a3) E)|]. eapply store_sound; [exact Ek | apply Hw].
Qed.

Lemma sys_object_write_ok a1 a2 a3 w w' : machine_ok w -> final (sys_object_write a1 a2 a3 w) = Some w' -> machine_ok w'.
Proof.
  intros Hw. unfold sys_object_write. intros H. apply finish_bind in H as (l & _ & H).
  destruct (storage_write _ _ _ _) as [rc s] eqn:E. ended H.
  apply (step_ok (OpWrite (int32 a1) (fun i => byte_in l i) (u32 a3)) rc s w Hw); [apply u32_range | exact E].
Qed.

Lemma sys_net_receive_ok a1 a2 w w' : machine_ok w -> final (sys_net_receive a1 a2 w) = Some w' -> machine_ok w'.
Proof.
  intros Hw. unfold sys_net_receive. destruct (net_poll_receive_message _ _ _ _) as [[rc o] n].
  assert (Hn : machine_ok (set_net n w)) by by destruct Hw.
  destruct (rc =? 1); intros H.
  - apply finish_bind in H as (k & Ek & H). ended H. apply ok_with; [done|]. eapply store_sound; [exact Ek | apply Hw].
  - by ended H.
Qed.

(** The loader: pages are claimed, filled and mapped. *)
Lemma loader_sound id sc k (st : storage D) rc sc' k' st' :
  ksound k -> in_syscall k -> loader_spawn_program id sc k st = Ok (rc, sc', k', st') -> ksound k'.
Proof.
  intros Hk [Hh H0 _ _]. destruct (sound_kinv k Hk Hh) as [live Hi]. unfold loader_spawn_program.
  destruct (storage_read _ _ _ _) as [[n buf] st1].
  destruct (n <? HEADER_BYTES); [by intros [= <- <- <- <-]|]. destruct (negb _); [by intros [= <- <- <- <-]|].
  set (pages := int32 _). assert (Hpg : pages < 2 ^ 31) by apply int32_range.
  destruct (alloc_dma_pages pages (mem k)) as [a m] eqn:Ea.
  destruct (find_and_claim_contig_spec _ live 0x200000 pages a m (kc_mem _ _ (proj1 Hi))
              ltac:(unfold MEM_BASE, MEM_CAP; lia) eq_refl ltac:(lia) Ea) as [(-> & ->)|(Halo & Hc & Hok & Hm)].
  { cbn [Z.eqb]. intros [= <- <- <- <-]. destruct k; exact Hk. }
  destruct (Z.eqb_spec a 0) as [|Ha0]; [lia|].
  destruct (store_bytes _ _ _) as [k1| |] eqn:Es; cbn [bind_access]; [|done|done].
  destruct (store_bytes_frame _ _ _ _ Es) as [mm ->].
  assert (H1 : kinv (run_pages a pages ∪ live) (set_ram (fun _ => mm) (set_mem m k))) by (apply kinv_ram, kinv_grow; done).
  destruct (Hok 0 ltac:(lia)) as [(Ham & _ & Hahi) _]. rewrite Z.add_0_r in *.
  pose proof (mi_top _ _ (kc_mem _ _ (proj1 Hi))) as Ht. unfold MEM_CAP in Ht.
  rewrite u64_small by (unfold in_u64; lia).
  assert (Himg : image_ok a (pages * 4096)).
  { unfold image_ok, PRIVATE_WINDOW_END. split_and!; try lia. by rewrite Z.mod_mul. }
  pose proof (coded_event_inv Hcode _ (EvSpawnProgram a (pages * 4096) (entry_offset (read_header buf))) _ H1 Himg) as Hev.
  pose proof (isolated_load Hcode live pages a m k (set_ram (fun _ => mm) (set_mem m k)) (entry_offset (read_header buf)) Hi (proj2 Hk)
    ltac:(lia) Ea Ha0 ltac:(by split; [|apply grows_same|]) ltac:(by intros i) ltac:(by eexists) Himg) as Hx.
  cbn [run_event coded] in Hev. destruct (actor_spawn_program_child _ _ _ _) as [r k2]. cbn [snd] in Hev, Hx.
  intros [= <- <- <- <-]. destruct Hev as [live' Hev]; try done. split; [by eapply kinv_good | exact Hx].
Qed.

Lemma sys_spawn_program_ok a1 w w' :
  machine_ok w -> in_syscall (w_kern w) -> final (sys_spawn_program a1 w) = Some w' -> machine_ok w'.
Proof.
  intros Hw Hs. unfold sys_spawn_program. intros H. apply finish_bind in H as ([[[rc sc] k] s] & E & H). ended H.
  pose proof (loader_sound _ _ _ _ _ _ _ _ (ok_kern _ Hw) Hs E) as Hk. apply loader_store in E as [r E].
  assert (Hb : op_bytes_ok (OpRead (int32 a1) LOADER_SCRATCH_BYTES)) by done.
  destruct (step_ok (OpRead (int32 a1) LOADER_SCRATCH_BYTES) r s w Hw Hb E) as [? ? ? ?]. by split.
Qed.

Lemma sys_lookup_name_ok a1 w w' : machine_ok w -> final (sys_lookup_name a1 w) = Some w' -> machine_ok w'.
Proof. unfold sys_lookup_name. intros Hw H. apply finish_bind in H as (u & _ & H). by ended H. Qed.

Lemma sys_list_objects_ok a1 a2 w w' : machine_ok w -> final (sys_list_objects a1 a2 w) = Some w' -> machine_ok w'.
Proof.
  intros Hw. unfold sys_list_objects. destruct (storage_get_by_index _ _ _) as [rc i]. destruct (negb _); intros H.
  - by ended H.
  - apply finish_bind in H as (k & Ek & H). ended H. apply ok_with; [done|]. eapply store_sound; [exact Ek | apply Hw].
Qed.

Lemma grant_sound dest op t k : ksound k -> ksound (actor_grant dest op t k).2.
Proof.
  intros Hk. pose proof (keeps_coded (EvGrant dest op t) k I) as Hkeep. apply (keeps_sound k); [done| |exact Hkeep].
  destruct Hk as [(live & Hc & Hr) _]. unfold actor_grant. destruct (bad_slot dest) eqn:Eb; [by exists live|].
  apply bad_slot_false in Eb. unfold actor_add_cap. destruct (scan _ _ _) as [i|]; [|by exists live]. cbn [snd].
  exists live. split.
  - apply kcore_upd; try done. by apply (slot_ok_same _ _ _ _ _ _ (act k dest)), (kc_slot _ _ Hc).
  - intros Hh j Hj. rewrite act_upd. destruct (Z.eqb_spec dest j) as [<-|]; by apply Hr.
Qed.

Lemma grant_creator_sound id k : ksound k -> ksound (grant_creator id k).
Proof.
  intros Hk. unfold grant_creator.
  assert (Hg : forall op k1, ksound k1 -> forall r k2, actor_grant (actor_current_slot k) op id k1 = (r, k2) -> ksound k2).
  { intros op k1 H1 r k2 E. pose proof (grant_sound (actor_current_slot k) op id k1 H1) as H. by rewrite E in H. }
  destruct (actor_grant _ CAP_READ_OBJECT id k) as [r1 k1] eqn:E1. apply (Hg _ _ Hk) in E1.
  destruct (actor_grant _ CAP_WRITE_OBJECT id k1) as [r2 k2] eqn:E2. apply (Hg _ _ E1) in E2.
  destruct (actor_grant _ CAP_RENAME_OBJECT id k2) as [r3 k3] eqn:E3. apply (Hg _ _ E2) in E3.
  destruct (actor_grant _ CAP_DELETE_OBJECT id k3) as [r4 k4] eqn:E4. by apply (Hg _ _ E3) in E4.
Qed.

Lemma sys_create_name_ok a1 w w' : machine_ok w -> final (sys_create_name a1 w) = Some w' -> machine_ok w'.
Proof.
  intros Hw. unfold sys_create_name. intros H. apply finish_bind in H as (u & _ & H).
  destruct (storage_create_named _ _) as [id s] eqn:E.
  assert (Hs : machine_ok (set_sto s w)).
  { apply (step_ok (OpCreateNamed (string_at a1 (w_kern w))) id s w Hw); [|exact E]. intros j. apply string_u8. }
  destruct (id <? 0); ended H; [done|]. apply ok_with; [done|]. apply grant_creator_sound, Hw.
Qed.

Lemma sys_rename_object_ok a1 a2 w w' : machine_ok w -> final (sys_rename_object a1 a2 w) = Some w' -> machine_ok w'.
Proof.
  intros Hw. unfold sys_rename_object. intros H. apply finish_bind in H as (u & _ & H).
  apply (sto_call_ok (OpRename (int32 a1) (string_at a2 (w_kern w)))
    (storage_rename (int32 a1) (string_at a2 (w_kern w))) w w' Hw); [|done|exact H].
  intros j. apply string_u8.
Qed.

Lemma sys_key_read_ok w w' : machine_ok w -> final (sys_key_read w) = Some w' -> machine_ok w'.
Proof.
  intros [? ? Hk ?]. unfold sys_key_read. pose proof (poll_refines (w_kbd w) Hk) as Hp.
  destruct (hal_keyboard_poll (w_kbd w)) as [c q]. intros H. ended H. split; try done.
  cbn [w_kbd set_kbd]. destruct (kbd_queue (w_kbd w)); [by injection Hp as _ ->|].
  destruct Hp as (q' & [= _ ->] & Hq & _). exact Hq.
Qed.

Lemma sys_rtc_read_ok a1 w w' : machine_ok w -> final (sys_rtc_read a1 w) = Some w' -> machine_ok w'.
Proof.
  intros Hw. unfold sys_rtc_read. destruct (hal_rtc_read (w_bus w)) as [t b]. intros H.
  apply finish_bind in H as (k & E & H). apply finish_bind in H as (k2 & E2 & H). ended H.
  destruct Hw as [Hk ? ? ?]. split; try done. eapply store_sound; [exact E2|]. by eapply store_sound.
Qed.

Lemma guarded_ok op t w o w' :
  machine_ok w -> final (with_cap op t w o) = Some w' -> (final o = Some w' -> machine_ok w') -> machine_ok w'.
Proof. intros Hw H Ho. apply with_cap_final in H as [->|[_ H]]; auto. Qed.

Ltac either H := apply (either_branch _ _ _ _ _ H); clear H; intros H.
Ltac event H ev Hw Hs :=
  by apply (kern_call_ok _ _ _ Hw) in H; [|apply (event_sound ev)]; [| apply Hw | apply Hs | |].

(** The whole machine keeps its invariant.  A system call that ends, in the
    caller or in the actor it switched to, leaves the page allocator, the
    actors, the scheduler, the object store, the keyboard buffer and the
    console well formed, whatever its number and arguments were. *)
Lemma syscalls_preserve_machine fuel num a1 a2 a3 w w' :
  machine_ok w -> in_syscall (w_kern w) ->
  final (syscall_handler fuel num a1 a2 a3 w) = Some w' -> machine_ok w'.
Proof.
  intros Hw Hs. unfold syscall_handler. intros H.
  either H; [by eapply sys_write_ok|].
  either H; [exact (sys_yield_ok w w' Hw Hs H)|].
  either H; [exact (sys_exit_ok w w' Hw Hs H)|].
  either H; [event H (EvSend (int32 a1) a2 a3) Hw Hs|].
  either H; [exact (sys_receive_ok a1 w w' Hw Hs H)|].
  either H; [event H (EvDelegate (int32 a1) (int32 a2) (int32 a3)) Hw Hs|].
  either H; [event H (EvSpawnChild a1) Hw Hs|].
  either H; [event H (EvTerminate (int32 a1)) Hw Hs|].
  either H; [eapply guarded_ok; [done..|]; by apply sys_object_read_ok|].
  either H; [eapply guarded_ok; [done..|]; by apply sys_object_write_ok|].
  either H; [eapply guarded_ok; [done..|]; by apply (sto_call_ok (OpPromote (int32 a1)))|].
  either H; [eapply guarded_ok; [done..|]; by apply (sto_call_ok (OpReject (int32 a1)))|].
  do 3 (either H; [eapply guarded_ok; [done..|]; by apply net_call_ok|]).
  either H; [eapply guarded_ok; [done..|]; by apply sys_net_receive_ok|].
  either H; [eapply guarded_ok; [done..|]; by apply sys_spawn_program_ok|].
  either H; [by eapply sys_lookup_name_ok|].
  either H; [eapply guarded_ok; [done..|]; by apply sys_list_objects_ok|].
  either H; [eapply guarded_ok; [done..|]; by apply sys_create_name_ok|].
  either H; [eapply guarded_ok; [done..|]; by apply sys_rename_object_ok|].
  either H; [eapply guarded_ok; [done..|]; by apply (sto_call_ok (OpDelete (int32 a1)))|].
  either H; [eapply guarded_ok; [done..|]; by apply sys_key_read_ok|].
  either H; [by eapply sys_rtc_read_ok|]. by ended H.
Qed.
End invariant.

(** ** Pointers *)
Section pointers.
Context {L : layout} {LOK : layout_ok L} {KL : klayout} {KC : kcode}.
Context {B D N : Type} `{!PortBus B} `{!BlockDevice D} `{!NetDevice N}.
Implicit Types (w : world B D N).

(** Pointer arguments are used as they come: [SYS_RTC_READ], which needs no
    capability, writes through any address, and in every actor's address space
    the first megabyte is the kernel's own image. *)
Lemma rtc_read_overwrites_kernel live fuel va a2 a3 w :
  kinv live (w_kern w) -> in_syscall (w_kern w) -> 0 <= va < COMMONS_END ->
  syscall_handler fuel SYS_RTC_READ va a2 a3 w = Overwrote va.
Proof.
  intros Hi [_ H0 _ Hs] Hva. destruct (current_space live (w_kern w) Hi) as (page & prog & Hsp).
  { pose proof (kc_cur _ _ (proj1 Hi)). lia. }
  change (syscall_handler fuel SYS_RTC_READ va a2 a3 w) with (sys_rtc_read va w). unfold sys_rtc_read.
  destruct (hal_rtc_read (w_bus w)) as [t b]. cbn [map store_bytes]. unfold COMMONS_END in Hva.
  assert (Ht : translate va (w_kern w) = Some va).
  { unfold translate, canonical. zcmp. rewrite Hs, (walk_view _ _ _ _ _ _ Hsp) by lia.
    unfold view, COMMONS_END. by zcmp. }
  unfold store_byte. rewrite Ht. unfold COMMONS_END. by zcmp.
Qed.
End pointers.

(** ** A small machine *)
Module SyscallDemo.
Import RamDisk Demo.

(** One running actor, inside the kernel, that may spawn, read object 0 and
    create objects; object 0 holds the program of [Loader.LoaderDemo]. *)
Definition kernG1 : kern := (run_event (EvGrant 0 CAP_SPAWN 0) kern1).2.
Definition kernG2 : kern := (run_event (EvGrant 0 CAP_READ_OBJECT 0) kernG1).2.
Definition kernG3 : kern := (run_event (EvGrant 0 CAP_CREATE_OBJECT 0) kernG2).2.
Definition kernG : kern := (run_event EvStart kernG3).2.
Definition kernS : kern := enter (entry_cpu kernG) kernG.
#[local] Strategy expand [kern0 kern1 kernG1 kernG2 kernG3 kernG kernS].

Definition clock0 : cmos := Cmos 0 (RtcTime 30 15 10 1 6 2024) true false 0.
Definition station : box := Box [2; 0; 0; 0; 0; 1] [] [].
Definition world0 : world cmos ram_disk box :=
  World kernS clock0 LoaderDemo.store_prog ∅ (net_init (Net ∅ 0 0 station)).2 kbd0 console0 ∅.

(** The actor's own page. *)
Definition buffer : Z := 0x100000.

Lemma kernG_flags :
  (current_actor kernG1 = -1 /\ halted kernG1 = false /\ c_rsp (kcpu kernG1) = 0x7000) /\
  (current_actor kernG2 = -1 /\ halted kernG2 = false /\ c_rsp (kcpu kernG2) = 0x7000) /\
  (current_actor kernG3 = -1 /\ halted kernG3 = false /\ c_rsp (kcpu kernG3) = 0x7000) /\
  current_actor kernG = 0 /\ halted kernG = false.
Proof. vm_compute. split_and!; reflexivity. Qed.

(** A kernel the boot events lead to. *)
Definition boot_reached k : Prop := reachable kern0 k /\ isolated k.

Lemma boot_reached_step ev k k' : k' = (run_event ev k).2 -> boot_reached k ->
  current_actor k = -1 -> halted k = false -> c_rsp (kcpu k) = 0x7000 -> boot_event ev = true -> boot_reached k'.
Proof.
  intros E [Hr Hi] H1 H2 H3 H4. split; [by apply (boot_reach ev k)|].
  apply (kstep_isolated demo_codes k ev (run_event ev k).1 k').
  - exact (reachable_good demo_codes kern0 k (scheduler_init_good ∅ kern_raw mem_demo_inv eq_refl) Hr).
  - apply step_boot; [exact H1 | exact H2 | exact H4 | rewrite H3; left; cbn; lia | rewrite E; apply surjective_pairing].
  - by destruct ev.
  - exact Hi.
Qed.

Lemma kernG_reached : boot_reached kernG.
Proof.
  destruct kern2_flags as (_ & _ & _ & B1 & B2 & B3).
  destruct kernG_flags as ((P1 & P2 & P3) & (Q1 & Q2 & Q3) & (R1 & R2 & R3) & _).
  refine (boot_reached_step EvStart kernG3 kernG eq_refl _ R1 R2 R3 eq_refl).
  refine (boot_reached_step (EvGrant 0 CAP_CREATE_OBJECT 0) kernG2 kernG3 eq_refl _ Q1 Q2 Q3 eq_refl).
  refine (boot_reached_step (EvGrant 0 CAP_READ_OBJECT 0) kernG1 kernG2 eq_refl _ P1 P2 P3 eq_refl).
  refine (boot_reached_step (EvGrant 0 CAP_SPAWN 0) kern1 kernG1 eq_refl _ B1 B2 B3 eq_refl).
  exact (boot_reached_step (EvSpawn 0x2B000) kern0 kern1 eq_refl (conj (reach_refl kern0) (isolated_init kern_raw)) eq_refl eq_refl eq_refl eq_refl).
Qed.

Lemma kernS_inv : exists live, kinv live kernS.
Proof.
  destruct (reachable_good demo_codes kern0 kernG (scheduler_init_good ∅ kern_raw mem_demo_inv eq_refl) (proj1 kernG_reached))
    as (live & Hc & Hr). exists live. apply enter_inv. split; [exact Hc|]. apply Hr. apply kernG_flags.
Qed.

Lemma world0_ok : machine_ok world0.
Proof.
  split; [|exact LoaderDemo.store_prog_inv|exact kbd0_ok|exact console0_ok].
  destruct kernS_inv as [live H]. split; [by eapply kinv_good|].
  exact (isolated_enter (entry_cpu kernG) kernG (proj2 kernG_reached)).
Qed.

Lemma kernS_flags : halted kernS = false /\ current_actor kernS = 0 /\ c_rsp (kcpu kernS) = ktop 0 /\
  cr3 (mach (mem kernS)) = pml4_of 0.
Proof. vm_compute. split_and!; reflexivity. Qed.

Lemma world0_in_syscall : in_syscall (w_kern world0).
Proof.
  destruct kernS_flags as (H1 & H2 & H3 & H4). change (w_kern world0) with kernS.
  split; rewrite ?H2, ?H3, ?H4; [exact H1 | lia | | reflexivity].
  unfold in_own_stack, KERNEL_STACK_SIZE. lia.
Qed.

Definition rax {W} (o : outcome W) : option Z := match o with Back r _ => Some r | _ => None end.

Lemma lacks_by op t (w : world cmos ram_disk box) : actor_current_has_cap op t (w_kern w) = false -> ~ current_holds op t (w_kern w).
Proof. intros H Hc. apply has_cap_holds in Hc. congruence. Qed.

Lemma world0_lacks :
  ~ current_holds CAP_WRITE_OBJECT 0 (w_kern world0) /\ ~ current_holds CAP_RENAME_OBJECT 0 (w_kern world0) /\
  ~ current_holds CAP_DELETE_OBJECT 0 (w_kern world0) /\ ~ current_holds CAP_PROMOTE_OBJECT 0 (w_kern world0).
Proof. split_and!; apply lacks_by; vm_compute; reflexivity. Qed.

(** Spawning the stored program. *)
Lemma program_spawn_preserves_machine :
  let o := syscall_handler 1 SYS_SPAWN_PROGRAM 0 0 0 world0 in
  rax o = Some 1 /\ exists w', final o = Some w' /\ machine_ok w'.
Proof.
  intros o. assert (Ho : rax o = Some 1) by (vm_compute; reflexivity). split; [exact Ho|].
  destruct (final o) as [w'|] eqn:E; [|destruct o; discriminate]. exists w'. split; [reflexivity|].
  pose proof (syscalls_preserve_machine demo_codes 1 SYS_SPAWN_PROGRAM 0 0 0 world0 w' world0_ok world0_in_syscall) as M.
  specialize (M E). exact M.
Qed.

(** The clock is read into the actor's own page table. *)
Lemma clock_over_page_table : syscall_handler 1 SYS_RTC_READ (pml4_of 0) 0 0 world0 = Overwrote (pml4_of 0).
Proof.
  destruct kernS_inv as [live Hi]. change kernS with (w_kern world0) in Hi.
  generalize world0, Hi, world0_in_syscall. intros w Hw Hs.
  apply (rtc_read_overwrites_kernel live 1 _ 0 0 w Hw Hs). unfold COMMONS_END. vm_compute.
  split; [discriminate | reflexivity].
Qed.
End SyscallDemo.
