(* ===== verification/Authority.v ===== *)
(** * Authority: what a system call can do, on every way it can end

    The properties of [syscall_handler] as a reference monitor: complete
    mediation of the store, the network and the keyboard, integrity of objects
    and of capability tables, refusal without the capability.  Each theorem
    speaks about every outcome: the answer, the switch to another actor, the
    fault on a pointer that is not mapped, and the store through a pointer into
    the kernel's own image, which the code does not check for. *)
From S2P Require Import Prelude Paging Memory Storage Gdt Actor Scheduler Isolation Ports Keyboard Rtc Console Net Access Place Loader Syscall.

(** The dispatch, one call number at a time. *)
Ltac call H := match goal with |- context [if ?n =? ?c then _ else _] => destruct (Z.eqb_spec n c) as [->|_]; [H|] end.

(** ** The memory a call goes through its caller's pointers for *)

Inductive direction := Loads | Stores.

(** The buffers among the arguments of a call.  A string is read up to its NUL:
    at most 16 bytes for a name, with no bound for [SYS_WRITE]. *)
Definition argument_buffers (num a1 a2 a3 : Z) : list (direction * Z * Z) :=
  if num =? SYS_WRITE then [(Loads, a1, 2 ^ 48)]
  else if num =? SYS_RECEIVE then [(Stores, a1, 24)]
  else if num =? SYS_OBJECT_READ then [(Stores, a2, u32 a3)]
  else if num =? SYS_OBJECT_WRITE then [(Loads, a2, u32 a3)]
  else if num =? SYS_NET_RECEIVE then [(Stores, a1, 30)]
  else if (num =? SYS_LOOKUP_NAME) || (num =? SYS_CREATE_NAME) then [(Loads, a1, 16)]
  else if num =? SYS_RENAME_OBJECT then [(Loads, a2, 16)]
  else if num =? SYS_LIST_OBJECTS then [(Stores, a2, 28)]
  else if num =? SYS_RTC_READ then [(Stores, a1, 8)]
  else [].

(** The three calls that may switch to another actor. *)
Definition switching_call (num : Z) : bool := (num =? SYS_YIELD) || (num =? SYS_EXIT) || (num =? SYS_RECEIVE).

Section pointers.
Context {L : layout} {LOK : layout_ok L} {KL : klayout} {KC : kcode}.
Context {B D N : Type} `{!PortBus B} `{!BlockDevice D} `{!BlockDeviceLaws D} `{!NetDevice N}.
Context (Hcode : actor_trampoline_addr <> schedule_next_ret).
Implicit Types (w : world B D N) (k : kern).

(** [va] is inside a buffer of the call; or a switch lands in an actor that is
    suspended in [SYS_RECEIVE], and [va] is inside the buffer of that call. *)
Definition in_argument (d : direction) (num a1 a2 a3 va : Z) : Prop :=
  exists b n, (d, b, n) ∈ argument_buffers num a1 a2 a3 /\ b <= va < b + n.
Definition in_pending (num va : Z) w : Prop :=
  switching_call num = true /\ exists i, 0 <= i < MAX_ACTORS /\ i <> current_actor (w_kern w) /\
    frames (w_kern w) !!! i = FReceive /\ w_recv w !!! i <= va < w_recv w !!! i + 24.
Definition stores_at (num a1 a2 a3 va : Z) w : Prop := in_argument Stores num a1 a2 a3 va \/ in_pending num va w.

(** How a call that does not return ends. *)
Definition strays (P Q : Z -> Prop) (R : Prop) (o : outcome (world B D N)) : Prop :=
  match o with
  | Back _ _ | Switched _ _ => True
  | Crashed va => P va
  | Overwrote va => 0 <= va < COMMONS_END /\ Q va
  | Deadlock => False
  | OutOfFuel => R
  end.

(** In an actor's address space the kernel's image is reached through the
    addresses below 1MB only. *)
Definition low_identity k : Prop := forall va pa, translate va k = Some pa -> pa < COMMONS_END -> 0 <= va < COMMONS_END.

Lemma space_low k i page prog :
  space_ok (pg k) i page ACTOR_STACK_SIZE prog ->
  match prog with Some (_, phys, _) => PRIVATE_WINDOW_END <= phys | None => True end ->
  cr3 (mach (mem k)) = pml4_of i -> low_identity k.
Proof.
  intros Hs Hp Hc va pa Ht Hlow. unfold translate in Ht. destruct (canonical va) eqn:Ec; [|done]. unfold canonical in Ec. breflect.
  rewrite Hc, (walk_view _ _ _ _ _ _ Hs) in Ht by lia. unfold view, COMMONS_END, PRIVATE_WINDOW_END, PROGRAM_VBASE in *.
  destruct (Z.ltb_spec va 0x100000); [lia|]. exfalso.
  destruct (Z.ltb_spec va 0x200000); [destruct (_ && _); [|done]; cbn in Ht; injection Ht as <-; lia|].
  destruct (Z.ltb_spec va 0x10000000); [cbn in Ht; injection Ht as <-; lia|].
  destruct prog as [[[pool phys] size]|]; [|done]. cbn in Ht. destruct (Z.ltb_spec va (0x10000000 + size)); [|done].
  cbn in Ht. injection Ht as <-. lia.
Qed.

Lemma current_low live k : kinv live k -> 0 <= current_actor k -> cr3 (mach (mem k)) = pml4_of (current_actor k) -> low_identity k.
Proof.
  intros [Hc Hr] H0 Hcr. pose proof (kc_cur _ _ Hc). assert (Hi : 0 <= current_actor k < MAX_ACTORS) by lia.
  destruct (so_alive _ _ _ _ _ _ _ (kc_slot _ _ Hc _ Hi)) as (_ & _ & prog & Hs & Hp); [by rewrite (proj2 (Hr _ Hi) eq_refl)|].
  by eapply space_low.
Qed.

(** Where a run of bytes can go wrong. *)
Lemma store_bytes_stray va l k :
  match store_bytes va l k with
  | Ok _ => True
  | Fault v => va <= v < va + Z.of_nat (length l)
  | Overwrites v => va <= v < va + Z.of_nat (length l) /\ exists pa, translate v k = Some pa /\ pa < COMMONS_END
  end.
Proof.
  revert va k. induction l as [|x l IH]; intros va k; cbn [store_bytes]; [done|]. unfold store_byte.
  destruct (translate va k) as [pa|] eqn:E; [|cbn [bind_access length]; lia].
  destruct (Z.ltb_spec pa COMMONS_END); cbn [bind_access].
  - split; [cbn [length]; lia | by exists pa].
  - specialize (IH (va + 1) (set_ram (<[pa := u8 x]>) k)). destruct (store_bytes _ _ _); [done | cbn [length]; lia |].
    destruct IH as [IH (pa' & H1 & H2)]. split; [cbn [length]; lia | by exists pa'].
Qed.

Lemma load_bytes_stray va n k :
  match load_bytes va n k with Ok _ => True | Fault v => va <= v < va + Z.of_nat n | Overwrites _ => False end.
Proof.
  revert va. induction n as [|n IH]; intros va; cbn [load_bytes]; [done|]. unfold load_byte.
  destruct (translate va k); cbn [bind_access]; [|lia].
  specialize (IH (va + 1)). destruct (load_bytes (va + 1) n k); cbn [bind_access]; [done | lia | done].
Qed.

Lemma string_mapped_stray n va k :
  match string_mapped n va k with Ok _ => True | Fault v => va <= v < va + Z.of_nat n | Overwrites _ => False end.
Proof.
  revert va. induction n as [|n IH]; intros va; cbn [string_mapped]; [done|]. unfold load_byte.
  destruct (translate va k); cbn [bind_access]; [|lia]. destruct (_ =? 0); [done|].
  specialize (IH (va + 1)). destruct (string_mapped n (va + 1) k); [done | lia | done].
Qed.

(** A string is read to its NUL or to the first address not mapped; no address
    from [2 ^ 47] on is. *)
Lemma write_user_stray fuel va k c :
  con_ok c ->
  match write_user fuel va k c with
  | Ok (Some (Some _)) => True
  | Ok (Some None) | Overwrites _ => False
  | Ok None => fuel = O \/ 0 <= va /\ Z.of_nat fuel <= 2 ^ 47 - va
  | Fault v => va <= v /\ (v = va \/ 0 <= va /\ v <= 2 ^ 47)
  end.
Proof.
  revert va c. induction fuel as [|fuel IH]; intros va c Hc; cbn [write_user]; [by left|]. unfold load_byte.
  destruct (translate va k) as [pa|] eqn:E; cbn [bind_access]; [|lia].
  assert (Hva : 0 <= va < 2 ^ 47) by (unfold translate in E; destruct (canonical va) eqn:Ec; [unfold canonical in Ec; breflect; lia | done]).
  destruct (_ =? 0); [done|]. destruct (putchar_ok (u8 (ram (mach (mem k)) !!! pa)) c Hc) as (c' & -> & Hc' & _).
  specialize (IH (va + 1) c' Hc'). destruct (write_user fuel (va + 1) k c') as [[[|]|]| |]; try done; lia.
Qed.

(** ** Ways to end, operation by operation *)

(** Conversion unfolds the scheduler last. *)
#[local] Strategy 50 [settle resume leave].
#[local] Strategy 100 [schedule_next receive_loop].

Lemma strays_final P Q R o : (exists w', final o = Some w') -> strays P Q R o.
Proof. by intros [w' H]; destruct o. Qed.

Lemma strays_mono (P P' Q Q' : Z -> Prop) (R R' : Prop) o :
  (forall va, P va -> P' va) -> (forall va, 0 <= va < COMMONS_END -> Q va -> Q' va) -> (R -> R') -> strays P Q R o -> strays P' Q' R' o.
Proof. intros H1 H2 H3. destruct o; cbn; auto. intros [? ?]; auto. Qed.

Lemma with_cap_strays op t w o P Q R : strays P Q R o -> strays P Q R (with_cap op t w o).
Proof. unfold with_cap. by destruct (actor_current_has_cap _ _ _). Qed.

Lemma store_strays P Q R va l k (f : kern -> access (outcome (world B D N))) :
  low_identity k -> (forall v, va <= v < va + Z.of_nat (length l) -> P v /\ Q v) ->
  (forall k', store_bytes va l k = Ok k' -> strays P Q R (finish (f k'))) ->
  strays P Q R (finish (let? k := store_bytes va l k in f k)).
Proof.
  intros Hlow Hv Hf. pose proof (store_bytes_stray va l k) as H.
  destruct (store_bytes va l k) as [k'|v|v] eqn:E; [by apply Hf | by apply Hv |].
  destruct H as (H & pa & Ht & Hpa). split; [by eapply Hlow | by apply Hv].
Qed.

Lemma ok_strays P Q R o : strays P Q R o -> strays P Q R (finish (Ok o)).
Proof. done. Qed.

Lemma message_bytes_length m : length (message_bytes m) = 24%nat.
Proof. unfold message_bytes. by rewrite !length_app, !field_length. Qed.

Lemma net_message_bytes_length o : length (net_message_bytes o) = 30%nat.
Proof. unfold net_message_bytes. by rewrite !length_app, !field_length, take_arr_length. Qed.

Lemma object_info_bytes_length i : length (object_info_bytes i) = 28%nat.
Proof. unfold object_info_bytes. by rewrite !length_app, !field_length, take_arr_length. Qed.

Lemma kern_call_strays f w P Q R : strays P Q R (kern_call f w).
Proof. unfold kern_call. by destruct (f _). Qed.
Lemma sto_call_strays f w P Q R : strays P Q R (sto_call f w).
Proof. unfold sto_call. by destruct (f _). Qed.
Lemma net_call_strays f w P Q R : strays P Q R (net_call f w).
Proof. unfold net_call. by destruct (f _). Qed.

(** After a switch only the resumed actor's own pending receive is written. *)
Lemma land_strays live k0 k w P Q R :
  scheduled live k0 false k ->
  (forall va, frames k !!! current_actor k = FReceive -> 0 <= current_actor k < MAX_ACTORS -> current_actor k <> current_actor k0 ->
     w_recv w !!! current_actor k <= va < w_recv w !!! current_actor k + 24 -> P va /\ Q va) ->
  strays P Q R (land k w).
Proof.
  intros Hs Hr. unfold land. destruct Hs as [Hc [[_ Hh]|[[? _]|(_ & Hh & H1 & Hl & Hne)]]]; [| done |].
  { assert (E : resume k = (LStopped, k)) by (unfold resume; by rewrite Hh). by rewrite E. }
  pose proof (place_resume live k (conj Hc H1) Hl Hh) as Hp.
  destruct (resume k) as [l k1] eqn:Er. cbn [snd] in Hp.
  destruct (resume_spec Hcode live k l k1 (conj Hc H1) Hl Hh Er) as (Hi1 & _ & Hcur & _ & _ & Hf).
  destruct l as [| |m| |]; try done. destruct Hl as (H0 & _ & Hcr & _). pose proof (kc_cur _ _ Hc).
  assert (Hfr : frames k !!! current_actor k = FReceive) by (by destruct (frames k !!! current_actor k)).
  apply store_strays; [| |by intros k2 _].
  - apply (current_low live); [exact Hi1 | by rewrite Hcur |]. rewrite (sp_cr3 _ _ Hp), Hcur. exact Hcr.
  - intros v Hv. rewrite message_bytes_length in Hv. rewrite Hcur in Hv. apply Hr; [done | lia | done | lia].
Qed.

Lemma syscall_low w : machine_ok w -> in_syscall (w_kern w) -> low_identity (w_kern w).
Proof.
  intros Hw [Hh H0 _ Hcr]. destruct (sound_kinv _ (ok_kern _ Hw) Hh) as [live Hi]. by eapply current_low.
Qed.

Lemma leaving_strays st fr num w P R :
  machine_ok w -> in_syscall (w_kern w) -> switching_call num = true ->
  (st = ACTOR_READY /\ fr = FYield \/ st = ACTOR_DEAD /\ fr = FExit) -> (forall va, in_pending num va w -> P va) ->
  strays P (fun va => in_pending num va w) R
    (let '(returned, k) := leave st fr (hal_disable_interrupts (w_kern w)) in if returned then reply 0 (set_kern k w) else land k w).
Proof.
  intros Hw [Hh H0 Hs _] Hn Hcase HP. destruct (sound_kinv _ (ok_kern _ Hw) Hh) as [live Hi].
  pose proof (leave_frames st fr (hal_disable_interrupts (w_kern w))) as Hf. unfold leave in Hf |- *.
  destruct (schedule_next _ _) as [[] k2] eqn:E; [done|]. cbn [snd] in Hf.
  destruct (yield_schedules Hcode live (hal_disable_interrupts (w_kern w)) st fr false k2 (kinv_irq live _ false Hi) H0 Hs Hh Hcase E)
    as (l & k1 & Hsch).
  apply (land_strays l k1); [exact Hsch|]. intros va Hfr Hcur _ Hva.
  assert (Hp : in_pending num va w); [|by split; [apply HP|]].
  split; [done|]. exists (current_actor k2). rewrite Hf, aget_insert in Hfr.
  change (current_actor (hal_disable_interrupts (w_kern w))) with (current_actor (w_kern w)) in Hfr.
  destruct (Z.eqb_spec (current_actor (w_kern w)) (current_actor k2)) as [|Hne]; [by destruct Hcase as [[_ ->]|[_ ->]]|].
  split_and!; try done; lia.
Qed.

(** The call and where it may go wrong. *)
Definition call_strays (fuel : nat) (num a1 a2 a3 : Z) w (o : outcome (world B D N)) : Prop :=
  strays (fun va => in_argument Loads num a1 a2 a3 va \/ stores_at num a1 a2 a3 va w) (fun va => stores_at num a1 a2 a3 va w)
    (num = SYS_WRITE /\ Z.of_nat fuel <= 2 ^ 47) o.

Lemma in_one d num a1 a2 a3 va b n : argument_buffers num a1 a2 a3 = [(d, b, n)] -> b <= va < b + n -> in_argument d num a1 a2 a3 va.
Proof. intros E H. exists b, n. rewrite E. split; [by apply list_elem_of_singleton | exact H]. Qed.

Lemma store_one fuel num a1 a2 a3 w b n va l k (f : kern -> access (outcome (world B D N))) :
  argument_buffers num a1 a2 a3 = [(Stores, b, n)] -> low_identity k -> b <= va -> va + Z.of_nat (length l) <= b + n ->
  (forall k', store_bytes va l k = Ok k' -> call_strays fuel num a1 a2 a3 w (finish (f k'))) ->
  call_strays fuel num a1 a2 a3 w (finish (let? k := store_bytes va l k in f k)).
Proof.
  intros E Hlow Hb Hl Hf. apply store_strays; [done | | exact Hf]. intros v Hv.
  assert (H : in_argument Stores num a1 a2 a3 v) by (apply (in_one _ _ _ _ _ _ b n E); lia).
  split; [right|]; by left.
Qed.

Lemma load_one {A : Type} fuel num a1 a2 a3 w b n (x : access A) (f : A -> access (outcome (world B D N))) :
  argument_buffers num a1 a2 a3 = [(Loads, b, n)] ->
  match x with Ok _ => True | Fault v => b <= v < b + n | Overwrites _ => False end ->
  (forall r, call_strays fuel num a1 a2 a3 w (finish (f r))) -> call_strays fuel num a1 a2 a3 w (finish (let? r := x in f r)).
Proof.
  intros E H Hf. destruct x as [r|v|v]; [apply Hf | left; by apply (in_one _ _ _ _ _ _ b n E) | done].
Qed.

Lemma sys_write_strays fuel a1 a2 a3 w : machine_ok w -> call_strays fuel SYS_WRITE a1 a2 a3 w (sys_write fuel a1 w).
Proof.
  intros Hw. unfold sys_write.
  pose proof (write_user_stray fuel a1 (w_kern w) (hal_console_set_window (actor_current_window (w_kern w)) (w_con w)) (set_window_ok _ _ (ok_con _ Hw))) as H.
  destruct (write_user _ _ _ _) as [[[c|]|]|v|v]; try done; cbn [bind_access finish].
  - split; [done | lia].
  - left. apply (in_one _ SYS_WRITE _ _ _ _ a1 (2 ^ 48) eq_refl). lia.
Qed.

Lemma sys_yield_strays fuel a1 a2 a3 w :
  machine_ok w -> in_syscall (w_kern w) -> call_strays fuel SYS_YIELD a1 a2 a3 w (sys_yield w).
Proof.
  intros Hw Hs. unfold sys_yield. rewrite yield_leave by apply Hs.
  eapply strays_mono; [| | |apply (leaving_strays ACTOR_READY FYield SYS_YIELD w (fun va => in_pending SYS_YIELD va w) False); auto]; [| |done].
  - intros va H. by right; right.
  - intros va _ H. by right.
Qed.

Lemma sys_exit_strays fuel a1 a2 a3 w :
  machine_ok w -> in_syscall (w_kern w) -> call_strays fuel SYS_EXIT a1 a2 a3 w (sys_exit w).
Proof.
  intros Hw Hs. unfold sys_exit. rewrite exit_leave.
  eapply strays_mono; [| | |apply (leaving_strays ACTOR_DEAD FExit SYS_EXIT w (fun va => in_pending SYS_EXIT va w) False); auto]; [| |done].
  - intros va H. by right; right.
  - intros va _ H. by right.
Qed.

Lemma sys_receive_strays fuel a1 a2 a3 w :
  machine_ok w -> in_syscall (w_kern w) -> call_strays fuel SYS_RECEIVE a1 a2 a3 w (sys_receive a1 w).
Proof.
  intros Hw Hin. pose proof (syscall_low w Hw Hin) as Hlow. destruct Hin as [Hh H0 Hs _].
  destruct (sound_kinv _ (ok_kern _ Hw) Hh) as [live Hi].
  unfold sys_receive, actor_receive. set (w1 := set_recv _ w). change (w_kern w1) with (w_kern w).
  set (k := hal_disable_interrupts (w_kern w)). assert (Hik : kinv live k) by by apply kinv_irq.
  destruct (Z.eqb_spec (mailbox_count (act k (current_actor k))) 0) as [Hz|Hz].
  - destruct (receive_schedules Hcode live k Hik H0 Hs Hh Hz) as (k2 & l & E & Hsch). rewrite E.
    apply receive_frames in E. apply (land_strays l k); [exact Hsch|]. intros va Hfr Hcur Hne Hva.
    assert (Hp : in_pending SYS_RECEIVE va w); [|by split; right; [right|]].
    split; [done|]. exists (current_actor k2). change (w_recv w1) with (<[current_actor k := a1]> (w_recv w)) in Hva.
    rewrite E, aget_ne in Hfr by done. rewrite aget_ne in Hva by done. split_and!; try done; lia.
  - rewrite receive_loop_nonempty by done.
    apply (store_one _ _ _ _ _ _ a1 24); [done | exact Hlow | lia | rewrite message_bytes_length; lia | done].
Qed.

Lemma read_length id buf len (st : storage D) n out st1 :
  sto_inv st -> in_u32 len -> storage_read id buf len st = (n, out, st1) -> n <= len.
Proof.
  intros Hi [Hl _]. unfold storage_read. destruct (bad_id id st) eqn:Eb; [intros [= <- _ _]; lia|].
  destruct (_ =? OBJ_REJECTED); [intros [= <- _ _]; lia|].
  destruct (disk_read _ _ _ _) as [[rc sc] d]. destruct (negb _); [intros [= <- _ _]; lia|].
  destruct (bad_id_false _ _ Eb) as [Hid _]. pose proof (ok_size _ _ (si_obj _ Hi id Hid)) as Hsz.
  change (obj (set_scratch sc d st) id) with (obj st id). intros [= <- _ _].
  rewrite int32_len; [bdestruct_all; lia|]. bdestruct_all; lia.
Qed.

Lemma sys_object_read_strays fuel a1 a2 a3 w :
  machine_ok w -> in_syscall (w_kern w) -> call_strays fuel SYS_OBJECT_READ a1 a2 a3 w (sys_object_read a1 a2 a3 w).
Proof.
  intros Hw Hs. unfold sys_object_read. destruct (storage_read _ _ _ _) as [[rc buf] s] eqn:E.
  apply (store_one _ _ _ _ _ _ a2 (u32 a3)); [done | by apply (syscall_low w) | lia | | done].
  rewrite take_arr_length. pose proof (read_length _ _ _ _ _ _ _ (ok_sto _ Hw) (u32_range a3) E).
  destruct (u32_range a3) as [Hr _]. lia.
Qed.

Lemma sys_object_write_strays fuel a1 a2 a3 w : call_strays fuel SYS_OBJECT_WRITE a1 a2 a3 w (sys_object_write a1 a2 a3 w).
Proof.
  unfold sys_object_write. cbv zeta. apply (load_one _ _ _ _ _ _ a2 (u32 a3)); [done | |].
  - destruct (_ || _); [done|]. pose proof (load_bytes_stray a2 (Z.to_nat (u32 a3)) (w_kern w)) as H.
    rewrite Z2Nat.id in H by apply u32_range. by destruct (load_bytes _ _ _).
  - intros l. by destruct (storage_write _ _ _ _).
Qed.

Lemma sys_net_receive_strays fuel a1 a2 a3 w :
  machine_ok w -> in_syscall (w_kern w) -> call_strays fuel SYS_NET_RECEIVE a1 a2 a3 w (sys_net_receive a1 a2 w).
Proof.
  intros Hw Hs. unfold sys_net_receive. destruct (net_poll_receive_message _ _ _ _) as [[rc o] n].
  destruct (rc =? 1); [|done]. apply (store_one _ _ _ _ _ _ a1 30); [done | by apply (syscall_low w) | lia | rewrite net_message_bytes_length; lia | done].
Qed.

Lemma sys_spawn_program_strays fuel a1 a2 a3 w :
  machine_ok w -> in_syscall (w_kern w) -> call_strays fuel SYS_SPAWN_PROGRAM a1 a2 a3 w (sys_spawn_program a1 w).
Proof.
  intros Hw [Hh H0 _ Hcr]. destruct (sound_kinv _ (ok_kern _ Hw) Hh) as [live Hi]. pose proof (kc_cur _ _ (proj1 Hi)).
  destruct (storage_read (int32 a1) (w_scratch w) LOADER_SCRATCH_BYTES (w_sto w)) as [[n img] st1] eqn:E.
  destruct (loader_spec Hcode live (int32 a1) (w_scratch w) (w_kern w) (w_sto w) n img st1 (ok_sto _ Hw) Hi ltac:(lia) Hcr E)
    as (rc & k' & El & _). unfold sys_spawn_program. by rewrite El.
Qed.

Lemma sys_list_objects_strays fuel a1 a2 a3 w :
  machine_ok w -> in_syscall (w_kern w) -> call_strays fuel SYS_LIST_OBJECTS a1 a2 a3 w (sys_list_objects a1 a2 w).
Proof.
  intros Hw Hs. unfold sys_list_objects. destruct (storage_get_by_index _ _ _) as [rc i].
  destruct (negb _); [done|]. apply (store_one _ _ _ _ _ _ a2 28); [done | by apply syscall_low | lia | rewrite object_info_bytes_length; lia | done].
Qed.

Lemma name_strays fuel num a1 a2 a3 w va (f : unit -> access (outcome (world B D N))) :
  argument_buffers num a1 a2 a3 = [(Loads, va, 16)] -> (forall u, call_strays fuel num a1 a2 a3 w (finish (f u))) ->
  call_strays fuel num a1 a2 a3 w (finish (let? u := string_mapped 16 va (w_kern w) in f u)).
Proof. intros E Hf. apply (load_one _ _ _ _ _ _ va 16); [exact E | apply string_mapped_stray | exact Hf]. Qed.

Lemma sys_create_name_strays fuel a1 a2 a3 w : call_strays fuel SYS_CREATE_NAME a1 a2 a3 w (sys_create_name a1 w).
Proof.
  unfold sys_create_name. apply (name_strays _ _ _ _ _ _ a1); [done|]. intros _.
  destruct (storage_create_named _ _) as [id s]. by destruct (id <? 0).
Qed.

Lemma sys_rename_object_strays fuel a1 a2 a3 w : call_strays fuel SYS_RENAME_OBJECT a1 a2 a3 w (sys_rename_object a1 a2 w).
Proof.
  unfold sys_rename_object. cbv zeta. apply (load_one _ _ _ _ _ _ a2 16); [done | |].
  - destruct (_ || _); [done | apply string_mapped_stray].
  - intros _. apply sto_call_strays.
Qed.

Lemma sys_rtc_read_strays fuel a1 a2 a3 w :
  machine_ok w -> in_syscall (w_kern w) -> call_strays fuel SYS_RTC_READ a1 a2 a3 w (sys_rtc_read a1 w).
Proof.
  intros Hw Hs. pose proof (syscall_low w Hw Hs) as Hlow. unfold sys_rtc_read. destruct (hal_rtc_read _) as [t b].
  apply (store_one _ _ _ _ _ _ a1 8); [done | done | lia | cbn; lia|]. intros k' E.
  destruct (store_bytes_frame _ _ _ _ E) as [m ->].
  apply (store_one _ _ _ _ _ _ a1 8); [done | done | lia | rewrite field_length; lia | done].
Qed.

Lemma handler_strays fuel num a1 a2 a3 w :
  machine_ok w -> in_syscall (w_kern w) -> call_strays fuel num a1 a2 a3 w (syscall_handler fuel num a1 a2 a3 w).
Proof.
  intros Hw Hs. unfold syscall_handler.
  call ltac:(by apply sys_write_strays).
  call ltac:(by apply sys_yield_strays).
  call ltac:(by apply sys_exit_strays).
  call ltac:(apply kern_call_strays).
  call ltac:(by apply sys_receive_strays).
  do 3 call ltac:(apply kern_call_strays).
  call ltac:(by apply with_cap_strays, sys_object_read_strays).
  call ltac:(apply with_cap_strays, sys_object_write_strays).
  do 2 call ltac:(apply with_cap_strays, sto_call_strays).
  do 3 call ltac:(apply with_cap_strays, net_call_strays).
  call ltac:(by apply with_cap_strays, sys_net_receive_strays).
  call ltac:(by apply with_cap_strays, sys_spawn_program_strays).
  call ltac:(unfold sys_lookup_name; by apply (name_strays _ _ _ _ _ _ a1)).
  call ltac:(by apply with_cap_strays, sys_list_objects_strays).
  call ltac:(apply with_cap_strays, sys_create_name_strays).
  call ltac:(apply with_cap_strays, sys_rename_object_strays).
  call ltac:(apply with_cap_strays, sto_call_strays).
  call ltac:(apply with_cap_strays; unfold sys_key_read; by destruct (hal_keyboard_poll (w_kbd w))).
  call ltac:(by apply sys_rtc_read_strays). done.
Qed.
End pointers.

(** ** Refusal *)

Section refusal.
Context {L : layout} {KL : klayout} {KC : kcode}.
Context {B D N : Type} `{!PortBus B} `{!BlockDevice D} `{!NetDevice N}.
Implicit Types (w : world B D N) (k : kern).

(** The capabilities {operation, target} a call requires, in the order they are
    looked for. *)
Definition required_caps (num a1 a2 a3 : Z) : list (Z * Z) :=
  if num =? SYS_SEND then [(CAP_SEND, int32 a1)]
  else if num =? SYS_GRANT then [(int32 a2, int32 a3)]
  else if num =? SYS_SPAWN then [(CAP_SPAWN, 0)]
  else if num =? SYS_TERMINATE then [(CAP_TERMINATE, int32 a1)]
  else if num =? SYS_OBJECT_READ then [(CAP_READ_OBJECT, int32 a1)]
  else if num =? SYS_OBJECT_WRITE then [(CAP_WRITE_OBJECT, int32 a1)]
  else if (num =? SYS_OBJECT_PROMOTE) || (num =? SYS_OBJECT_REJECT) then [(CAP_PROMOTE_OBJECT, 0)]
  else if (num =? SYS_NET_SEND) || (num =? SYS_NET_RECEIVE) || (num =? SYS_NET_SEND_TO) || (num =? SYS_NET_SEND_RELIABLE)
  then [(CAP_NET, 0)]
  else if num =? SYS_SPAWN_PROGRAM then [(CAP_READ_OBJECT, int32 a1); (CAP_SPAWN, 0)]
  else if num =? SYS_LIST_OBJECTS then [(CAP_LIST_NAMES, 0)]
  else if num =? SYS_CREATE_NAME then [(CAP_CREATE_OBJECT, 0)]
  else if num =? SYS_RENAME_OBJECT then [(CAP_RENAME_OBJECT, int32 a1)]
  else if num =? SYS_DELETE_NAME then [(CAP_DELETE_OBJECT, int32 a1)]
  else if num =? SYS_KEY_READ then [(CAP_CONSOLE, 0)]
  else [].

(** The six calls any actor may make. *)
Definition ungated (num : Z) : bool :=
  (num =? SYS_WRITE) || (num =? SYS_YIELD) || (num =? SYS_EXIT) || (num =? SYS_RECEIVE)
  || (num =? SYS_LOOKUP_NAME) || (num =? SYS_RTC_READ).

Lemma irq_id k : set_irq (irq k) k = k.
Proof. by destruct k. Qed.

Lemma lacks_cap op t k : 0 <= current_actor k -> ~ current_holds op t k ->
  actor_has_cap (current_actor k) op t k = false.
Proof.
  intros H0 H. destruct (actor_has_cap _ _ _ _) eqn:E; [|done]. exfalso. apply H. split; [done|]. by apply has_cap_spec.
Qed.

(** The four operations of [core/actor.c] that check for themselves. *)
Definition refuses (f : kern -> Z * kern) k : Prop := exists b, f k = (-1, set_irq b k).

Lemma refuses_at_once f k : f k = (-1, k) -> refuses f k.
Proof. intros E. exists (irq k). by rewrite irq_id. Qed.

Lemma send_refuses d t x k : 0 <= current_actor k -> ~ current_holds CAP_SEND d k -> refuses (actor_send d t x) k.
Proof.
  intros H0 H. unfold refuses, actor_send. destruct (bad_slot d); [by apply (refuses_at_once (fun k => (-1, k)))|].
  exists true. cbv zeta.
  change (actor_has_cap (current_actor (hal_disable_interrupts k)) CAP_SEND d (hal_disable_interrupts k))
    with (actor_has_cap (current_actor k) CAP_SEND d k). by rewrite lacks_cap.
Qed.

Lemma delegate_refuses d o t k : 0 <= current_actor k -> ~ current_holds o t k -> refuses (actor_delegate d o t) k.
Proof.
  intros H0 H. unfold refuses, actor_delegate. destruct (bad_slot d); [by apply (refuses_at_once (fun k => (-1, k)))|].
  exists true. cbv zeta.
  change (actor_has_cap (current_actor (hal_disable_interrupts k)) o t (hal_disable_interrupts k))
    with (actor_has_cap (current_actor k) o t k). by rewrite lacks_cap.
Qed.

Lemma spawn_refuses e k : 0 <= current_actor k -> ~ current_holds CAP_SPAWN 0 k -> refuses (actor_spawn_child e) k.
Proof.
  intros H0 H. exists true. unfold actor_spawn_child, spawn_checked. cbv zeta.
  change (actor_has_cap (current_actor (hal_disable_interrupts k)) CAP_SPAWN 0 (hal_disable_interrupts k))
    with (actor_has_cap (current_actor k) CAP_SPAWN 0 k). by rewrite lacks_cap.
Qed.

Lemma terminate_refuses t k : 0 <= current_actor k -> ~ current_holds CAP_TERMINATE t k -> refuses (actor_terminate t) k.
Proof.
  intros H0 H. unfold refuses, actor_terminate. destruct (_ || _); [by apply (refuses_at_once (fun k => (-1, k)))|].
  exists true. cbv zeta.
  change (actor_has_cap (current_actor (hal_disable_interrupts k)) CAP_TERMINATE t (hal_disable_interrupts k))
    with (actor_has_cap (current_actor k) CAP_TERMINATE t k). by rewrite lacks_cap.
Qed.

Definition refused w (o : outcome (world B D N)) : Prop :=
  exists b, o = Back (2 ^ 64 - 1) (set_kern (set_irq b (w_kern w)) w).

Lemma denied_refused w : refused w (denied w).
Proof. exists (irq (w_kern w)). rewrite irq_id. by destruct w. Qed.

Lemma kern_call_refused f w : refuses f (w_kern w) -> refused w (kern_call f w).
Proof. intros [b E]. exists b. unfold kern_call. by rewrite E. Qed.

Lemma with_cap_refused op t w o : ~ current_holds op t (w_kern w) -> refused w (with_cap op t w o).
Proof.
  intros H. unfold with_cap. destruct (actor_current_has_cap _ _ _) eqn:E; [|apply denied_refused].
  exfalso. by apply H, has_cap_holds.
Qed.

(** A call that may not be made: a required capability is missing, or there is
    no such call. *)
Definition denied_call (num a1 a2 a3 : Z) k : Prop :=
  match required_caps num a1 a2 a3 with
  | [] => ungated num = false
  | caps => exists op t, (op, t) ∈ caps /\ ~ current_holds op t k
  end.

(** Refused after the loader has run: -1, and what has changed is the page
    allocator and the memory of the claimed frames, the loader's scratch
    buffer, and whatever reading the object does to the disk. *)
Definition refused_after_load (id : Z) w (o : outcome (world B D N)) : Prop :=
  exists m b sc s n, sto_step (OpRead id LOADER_SCRATCH_BYTES) (w_sto w) = (n, s) /\
    o = Back (2 ^ 64 - 1) (set_loader_scratch sc (set_sto s (set_kern (set_irq b (set_mem m (w_kern w))) w))).

Lemma spawn_program_refuses p s e k : 0 <= current_actor k -> ~ current_holds CAP_SPAWN 0 k -> refuses (actor_spawn_program_child p s e) k.
Proof.
  intros H0 H. exists true. unfold actor_spawn_program_child, spawn_checked. cbv zeta.
  change (actor_has_cap (current_actor (hal_disable_interrupts k)) CAP_SPAWN 0 (hal_disable_interrupts k))
    with (actor_has_cap (current_actor k) CAP_SPAWN 0 k). by rewrite lacks_cap.
Qed.
End refusal.

Section refusals.
Context {L : layout} {LOK : layout_ok L} {KL : klayout} {KC : kcode}.
Context {B D N : Type} `{!PortBus B} `{!BlockDevice D} `{!BlockDeviceLaws D} `{!NetDevice N}.
Context (Hcode : actor_trampoline_addr <> schedule_next_ret).
Implicit Types (w : world B D N) (k : kern).

Lemma spawn_program_denied a1 w :
  machine_ok w -> in_syscall (w_kern w) -> ~ current_holds CAP_SPAWN 0 (w_kern w) ->
  refused_after_load (int32 a1) w (sys_spawn_program a1 w).
Proof.
  intros Hw [Hh H0 _ Hcr] Hn. destruct (sound_kinv _ (ok_kern _ Hw) Hh) as [live Hi]. pose proof (kc_cur _ _ (proj1 Hi)).
  destruct (storage_read (int32 a1) (w_scratch w) LOADER_SCRATCH_BYTES (w_sto w)) as [[n img] st1] eqn:E.
  destruct (loader_spec Hcode live (int32 a1) (w_scratch w) (w_kern w) (w_sto w) n img st1 (ok_sto _ Hw) Hi ltac:(lia) Hcr E)
    as (rc & k' & El & _ & Hk). unfold sys_spawn_program. rewrite El. cbn [bind_access finish]. unfold reply.
  assert (Hk' : rc = -1 /\ exists m b, k' = set_irq b (set_mem m (w_kern w))).
  { destruct Hk as [[-> ->]|(a & m & mm & e & Hk)].
    - split; [done|]. exists (mem (w_kern w)), (irq (w_kern w)). by destruct (w_kern w).
    - destruct (spawn_program_refuses a 4096 e (set_ram (fun _ => mm) (set_mem m (w_kern w))) H0 Hn) as [b Hb].
      rewrite Hb in Hk. injection Hk as <- <-. split; [done|]. by eexists _, b. }
  destruct Hk' as (-> & m & b & ->). exists m, b, img, st1, n. split; [by eapply read_any_buffer|reflexivity].
Qed.

Lemma missing_one op t k : (exists o t', (o, t') ∈ [(op, t)] /\ ~ current_holds o t' k) -> ~ current_holds op t k.
Proof. intros (o & t' & Hin & Hn). apply list_elem_of_singleton in Hin. by injection Hin as -> ->. Qed.

Lemma denied_refused_call fuel num a1 a2 a3 w :
  machine_ok w -> in_syscall (w_kern w) -> denied_call num a1 a2 a3 (w_kern w) ->
  refused w (syscall_handler fuel num a1 a2 a3 w) \/
  num = SYS_SPAWN_PROGRAM /\ current_holds CAP_READ_OBJECT (int32 a1) (w_kern w) /\
  ~ current_holds CAP_SPAWN 0 (w_kern w) /\ refused_after_load (int32 a1) w (syscall_handler fuel num a1 a2 a3 w).
Proof.
  intros Hw Hs. pose proof (is_cur _ Hs) as H0. unfold denied_call, required_caps, syscall_handler, ungated.
  destruct (Z.eqb_spec num SYS_WRITE) as [->|]; [done|].
  destruct (Z.eqb_spec num SYS_YIELD) as [->|]; [done|].
  destruct (Z.eqb_spec num SYS_EXIT) as [->|]; [done|].
  destruct (num =? SYS_SEND); [intros H%missing_one; left; by apply kern_call_refused, send_refuses|].
  destruct (Z.eqb_spec num SYS_RECEIVE) as [->|]; [done|].
  destruct (num =? SYS_GRANT); [intros H%missing_one; left; by apply kern_call_refused, delegate_refuses|].
  destruct (num =? SYS_SPAWN); [intros H%missing_one; left; by apply kern_call_refused, spawn_refuses|].
  destruct (num =? SYS_TERMINATE); [intros H%missing_one; left; by apply kern_call_refused, terminate_refuses|].
  destruct (num =? SYS_OBJECT_READ); [intros H%missing_one; left; by apply with_cap_refused|].
  destruct (num =? SYS_OBJECT_WRITE); [intros H%missing_one; left; by apply with_cap_refused|].
  destruct (num =? SYS_OBJECT_PROMOTE); [intros H%missing_one; left; by apply with_cap_refused|].
  destruct (num =? SYS_OBJECT_REJECT); [intros H%missing_one; left; by apply with_cap_refused|]. cbn [orb].
  destruct (num =? SYS_NET_SEND); [intros H%missing_one; left; by apply with_cap_refused|]. cbn [orb].
  destruct (num =? SYS_NET_SEND_TO); [rewrite orb_true_r; intros H%missing_one; left; by apply with_cap_refused|].
  destruct (num =? SYS_NET_SEND_RELIABLE); [rewrite orb_true_r; intros H%missing_one; left; by apply with_cap_refused|].
  destruct (num =? SYS_NET_RECEIVE); [intros H%missing_one; left; by apply with_cap_refused|]. cbn [orb].
  destruct (Z.eqb_spec num SYS_SPAWN_PROGRAM) as [->|].
  { intros (o & t & Hin & Hn). unfold with_cap.
    destruct (actor_current_has_cap CAP_READ_OBJECT (int32 a1) (w_kern w)) eqn:Ec; [|left; apply denied_refused].
    apply has_cap_holds in Ec. right. apply elem_of_cons in Hin as [Hin|Hin%list_elem_of_singleton]; injection Hin as -> ->; [done|].
    do 3 (split; [done|]). by apply spawn_program_denied. }
  destruct (Z.eqb_spec num SYS_LOOKUP_NAME) as [->|]; [done|].
  destruct (num =? SYS_LIST_OBJECTS); [intros H%missing_one; left; by apply with_cap_refused|].
  destruct (num =? SYS_CREATE_NAME); [intros H%missing_one; left; by apply with_cap_refused|].
  destruct (num =? SYS_RENAME_OBJECT); [intros H%missing_one; left; by apply with_cap_refused|].
  destruct (num =? SYS_DELETE_NAME); [intros H%missing_one; left; by apply with_cap_refused|].
  destruct (num =? SYS_KEY_READ); [intros H%missing_one; left; by apply with_cap_refused|].
  destruct (num =? SYS_RTC_READ); [done|]. intros _. left. apply denied_refused.
Qed.

(** C34: fail closed.  A call for which the caller misses a capability the call
    requires, and a call with an unknown number, return -1 and change nothing
    but the interrupt flag the caller runs with anyway; with one exception,
    which the loader's order of checks makes: [SYS_SPAWN_PROGRAM] by an actor
    that may read the object but not spawn also returns -1, creates no actor
    and no right, but has read the object and keeps the frames it claimed. *)
Theorem denied_syscall_is_refused fuel num a1 a2 a3 w :
  machine_ok w -> in_syscall (w_kern w) -> denied_call num a1 a2 a3 (w_kern w) ->
  refused w (syscall_handler fuel num a1 a2 a3 w) \/
  num = SYS_SPAWN_PROGRAM /\ current_holds CAP_READ_OBJECT (int32 a1) (w_kern w) /\
  ~ current_holds CAP_SPAWN 0 (w_kern w) /\ refused_after_load (int32 a1) w (syscall_handler fuel num a1 a2 a3 w).
Proof. apply denied_refused_call. Qed.
End refusals.

(** ** What each call leaves of the kernel *)
Section kept.
Context {L : layout} {KL : klayout} {KC : kcode}.
Context {B D N : Type} `{!PortBus B} `{!BlockDevice D} `{!NetDevice N}.
Implicit Types (w : world B D N) (k : kern).

Ltac ended H := cbn [final finish reply denied] in H; injection H as <-.

Lemma sto_call_kern f w w' : final (sto_call f w) = Some w' -> w_kern w' = w_kern w.
Proof. unfold sto_call. destruct (f (w_sto w)). intros H. by ended H. Qed.

Lemma net_call_kern f w w' : final (net_call f w) = Some w' -> w_kern w' = w_kern w.
Proof. unfold net_call. destruct (f (w_net w)). intros H. by ended H. Qed.

Lemma sys_write_kern fuel a1 w w' : final (sys_write fuel a1 w) = Some w' -> w_kern w' = w_kern w.
Proof.
  unfold sys_write. intros H. apply finish_bind in H as (r & _ & H). destruct r as [[c|]|]; [|discriminate H..]. by ended H.
Qed.

Lemma sys_object_write_kern a1 a2 a3 w w' : final (sys_object_write a1 a2 a3 w) = Some w' -> w_kern w' = w_kern w.
Proof.
  unfold sys_object_write. intros H. apply finish_bind in H as (l & _ & H).
  destruct (storage_write _ _ _ _) as [rc s]. by ended H.
Qed.

Lemma sys_rename_object_kern a1 a2 w w' : final (sys_rename_object a1 a2 w) = Some w' -> w_kern w' = w_kern w.
Proof.
  unfold sys_rename_object. intros H. apply finish_bind in H as (u & _ & H). by eapply sto_call_kern.
Qed.

Lemma sys_key_read_kern w w' : final (sys_key_read w) = Some w' -> w_kern w' = w_kern w.
Proof. unfold sys_key_read. destruct (hal_keyboard_poll _). intros H. by ended H. Qed.

Lemma sys_lookup_name_kern a1 w w' : final (sys_lookup_name a1 w) = Some w' -> w_kern w' = w_kern w.
Proof. unfold sys_lookup_name. intros H. apply finish_bind in H as (u & _ & H). by ended H. Qed.

(** The capability tables. *)
Definition same_caps k k' : Prop := forall j, caps (act k' j) = caps (act k j).

#[export] Instance same_caps_preorder : PreOrder same_caps.
Proof. split; [by intros k j | intros k1 k2 k3 H1 H2 j; by rewrite H2, H1]. Qed.

Lemma same_caps_eq k k' : k' = k -> same_caps k k'.
Proof. by intros -> j. Qed.

Lemma store_caps va l k k' : store_bytes va l k = Ok k' -> same_caps k k'.
Proof. intros H. destruct (store_bytes_frame _ _ _ _ H) as [m ->]. by intros j. Qed.

Lemma land_caps k w w' : final (land k w) = Some w' -> same_caps k (w_kern w').
Proof.
  unfold land. pose proof (resume_kept caps (fun _ _ => eq_refl) (fun _ _ => eq_refl) (fun _ _ => eq_refl) (fun _ _ _ _ => eq_refl) k) as Hr.
  destruct (resume k) as [l k1]. cbn [snd] in Hr.
  destruct l as [| |m| |]; intros H; [| |apply finish_bind in H as (k2 & E & H)| |]; ended H; try exact Hr.
  etransitivity; [exact Hr | by eapply store_caps].
Qed.

Lemma leaving_caps st fr w w' :
  final (let '(returned, k) := leave st fr (hal_disable_interrupts (w_kern w)) in
         if returned then reply 0 (set_kern k w) else land k w) = Some w' -> same_caps (w_kern w) (w_kern w').
Proof.
  assert (Hl : same_caps (w_kern w) (leave st fr (hal_disable_interrupts (w_kern w))).2).
  { intros j. unfold leave. rewrite (schedule_kept caps) by done. autorewrite with kact. by rewrite (upd_kept caps). }
  destruct (leave _ _ _) as [[] k]; intros H; [by ended H|]. etransitivity; [exact Hl | by eapply land_caps].
Qed.

Lemma sys_receive_caps a1 w w' : final (sys_receive a1 w) = Some w' -> same_caps (w_kern w) (w_kern w').
Proof.
  unfold sys_receive. set (w1 := set_recv _ w). change (w_kern w1) with (w_kern w).
  pose proof (receive_caps (w_kern w)) as Hr. destruct (actor_receive (w_kern w)) as [[m|] k]; intros H.
  - apply finish_bind in H as (k2 & E & H). ended H. etransitivity; [exact Hr | by eapply store_caps].
  - etransitivity; [exact Hr | by eapply land_caps].
Qed.

Lemma sys_object_read_caps a1 a2 a3 w w' : final (sys_object_read a1 a2 a3 w) = Some w' -> same_caps (w_kern w) (w_kern w').
Proof.
  unfold sys_object_read. destruct (storage_read _ _ _ _) as [[rc buf] s]. intros H.
  apply finish_bind in H as (k & E & H). ended H. exact (store_caps _ _ _ _ E).
Qed.

Lemma sys_net_receive_caps a1 a2 w w' : final (sys_net_receive a1 a2 w) = Some w' -> same_caps (w_kern w) (w_kern w').
Proof.
  unfold sys_net_receive. destruct (net_poll_receive_message _ _ _ _) as [[rc o] n]. destruct (rc =? 1); intros H.
  - apply finish_bind in H as (k & E & H). ended H. exact (store_caps _ _ _ _ E).
  - by ended H.
Qed.

Lemma sys_list_objects_caps a1 a2 w w' : final (sys_list_objects a1 a2 w) = Some w' -> same_caps (w_kern w) (w_kern w').
Proof.
  unfold sys_list_objects. destruct (storage_get_by_index _ _ _) as [rc i]. destruct (negb _); intros H; [by ended H|].
  apply finish_bind in H as (k & E & H). ended H. exact (store_caps _ _ _ _ E).
Qed.

Lemma sys_rtc_read_caps a1 w w' : final (sys_rtc_read a1 w) = Some w' -> same_caps (w_kern w) (w_kern w').
Proof.
  unfold sys_rtc_read. destruct (hal_rtc_read _) as [t b]. intros H.
  apply finish_bind in H as (k & E & H). apply finish_bind in H as (k2 & E2 & H). ended H.
  change (same_caps (w_kern w) k2). etransitivity; by eapply store_caps.
Qed.

(** A right in the table afterwards was there before. *)
Definition no_new_caps k k' : Prop := forall j op t, op <> 0 -> holds k' j op t -> holds k j op t.

Lemma same_no_new k k' : same_caps k k' -> no_new_caps k k'.
Proof. intros H j op t _. apply holds_caps, H. Qed.

Lemma add_cap_new s o t0 k j op t : op <> 0 -> holds (actor_add_cap s o t0 k).2 j op t -> holds k j op t \/ (j = s /\ op = o /\ t = t0).
Proof.
  intros Ho H. destruct (actor_add_cap s o t0 k) as [rc k'] eqn:E. rewrite (add_cap_holds _ _ _ _ _ _ _ _ _ E Ho) in H.
  destruct H as [?|(_ & ?)]; auto.
Qed.

(** The four rights of a creator. *)
Lemma grant_creator_caps id k j op t :
  op <> 0 -> holds (grant_creator id k) j op t ->
  holds k j op t \/ (j = current_actor k /\ t = id /\ op ∈ [CAP_READ_OBJECT; CAP_WRITE_OBJECT; CAP_RENAME_OBJECT; CAP_DELETE_OBJECT]).
Proof.
  intros Ho. unfold grant_creator. unfold actor_current_slot.
  assert (Hg : forall o k1 r k2, actor_grant (current_actor k) o id k1 = (r, k2) -> holds k2 j op t ->
     holds k1 j op t \/ (j = current_actor k /\ op = o /\ t = id)).
  { intros o k1 r k2 E H. unfold actor_grant in E. destruct (bad_slot _); [injection E as _ <-; by left|].
    pose proof (add_cap_new (current_actor k) o id k1 j op t Ho) as Ha. rewrite E in Ha. by apply Ha. }
  destruct (actor_grant _ CAP_READ_OBJECT id k) as [r1 k1] eqn:E1.
  destruct (actor_grant _ CAP_WRITE_OBJECT id k1) as [r2 k2] eqn:E2.
  destruct (actor_grant _ CAP_RENAME_OBJECT id k2) as [r3 k3] eqn:E3.
  destruct (actor_grant _ CAP_DELETE_OBJECT id k3) as [r4 k4] eqn:E4. intros H.
  apply (Hg _ _ _ _ E4) in H as [H|(-> & -> & ->)]; [|right; split_and!; set_solver].
  apply (Hg _ _ _ _ E3) in H as [H|(-> & -> & ->)]; [|right; split_and!; set_solver].
  apply (Hg _ _ _ _ E2) in H as [H|(-> & -> & ->)]; [|right; split_and!; set_solver].
  apply (Hg _ _ _ _ E1) in H as [H|(-> & -> & ->)]; [by left | right; split_and!; set_solver].
Qed.
End kept.

(** ** Where rights come from *)
Section origins.
Context {L : layout} {LOK : layout_ok L} {KL : klayout} {KC : kcode}.
Context {B D N : Type} `{!PortBus B} `{!BlockDevice D} `{!BlockDeviceLaws D} `{!NetDevice N}.
Context (Hcode : actor_trampoline_addr <> schedule_next_ret).
Implicit Types (w : world B D N) (k : kern).

(** The right {[op], [t]} slot [j] holds after a call ended in [o] and not
    before: delegated by a caller that holds it; one of the three a spawn by a
    caller with [CAP_SPAWN] makes for a new child; or one of the four the
    creator of a new object gets, having [CAP_CREATE_OBJECT]. *)
Inductive origin (num a1 a2 a3 : Z) w (o : outcome (world B D N)) w' : Z -> Z -> Z -> Prop :=
| by_delegation rc :
    num = SYS_GRANT -> current_holds (int32 a2) (int32 a3) (w_kern w) -> o = Back rc w' ->
    origin num a1 a2 a3 w o w' (int32 a1) (int32 a2) (int32 a3)
| by_spawn child j op t :
    num = SYS_SPAWN \/ num = SYS_SPAWN_PROGRAM -> current_holds CAP_SPAWN 0 (w_kern w) ->
    o = Back child w' -> 0 <= child < MAX_ACTORS -> state (act (w_kern w) child) = ACTOR_DEAD ->
    spawn_grants child (current_actor (w_kern w)) j op t -> origin num a1 a2 a3 w o w' j op t
| by_creation id op :
    num = SYS_CREATE_NAME -> current_holds CAP_CREATE_OBJECT 0 (w_kern w) ->
    o = Back id w' -> 0 <= id < MAX_OBJECTS -> Storage.live (w_sto w) id = false -> Storage.live (w_sto w') id = true ->
    op ∈ [CAP_READ_OBJECT; CAP_WRITE_OBJECT; CAP_RENAME_OBJECT; CAP_DELETE_OBJECT] ->
    origin num a1 a2 a3 w o w' (current_actor (w_kern w)) op id.

(** Every right after the call was there before, or has an origin. *)
Definition accounted num a1 a2 a3 w (o : outcome (world B D N)) : Prop :=
  forall w', final o = Some w' -> forall j op t, op <> 0 -> holds (w_kern w') j op t ->
    holds (w_kern w) j op t \/ origin num a1 a2 a3 w o w' j op t.

Lemma accounted_same num a1 a2 a3 w o :
  (forall w', final o = Some w' -> same_caps (w_kern w) (w_kern w')) -> accounted num a1 a2 a3 w o.
Proof. intros H w' E j op t Ho Hh. left. by apply (same_no_new _ _ (H w' E)). Qed.

Lemma accounted_with_cap op t num a1 a2 a3 w o :
  (current_holds op t (w_kern w) -> accounted num a1 a2 a3 w o) -> accounted num a1 a2 a3 w (with_cap op t w o).
Proof.
  intros H. unfold with_cap. destruct (actor_current_has_cap _ _ _) eqn:E; [by apply H, has_cap_holds|].
  apply accounted_same. intros w' [= <-]. done.
Qed.

Lemma same_kern_accounted num a1 a2 a3 w o :
  (forall w', final o = Some w' -> w_kern w' = w_kern w) -> accounted num a1 a2 a3 w o.
Proof. intros H. apply accounted_same. intros w' E. by apply same_caps_eq, H. Qed.

Lemma kern_call_accounted num a1 a2 a3 f w :
  (forall rc k, f (w_kern w) = (rc, k) -> forall j op t, op <> 0 -> holds k j op t ->
     holds (w_kern w) j op t \/ origin num a1 a2 a3 w (Back (u64 rc) (set_kern k w)) (set_kern k w) j op t) ->
  accounted num a1 a2 a3 w (kern_call f w).
Proof.
  intros H w'. unfold kern_call. destruct (f (w_kern w)) as [rc k]. intros [= <-] j op t Ho Hh. by apply (H rc k).
Qed.

Lemma send_accounted d x y num a1 a2 a3 w : accounted num a1 a2 a3 w (kern_call (actor_send d x y) w).
Proof.
  apply kern_call_accounted. intros rc k E j op t _ H. left.
  apply (f_equal snd) in E. cbn in E. subst k. revert H. apply holds_caps, send_caps.
Qed.

Lemma terminate_accounted x num a1 a2 a3 w : accounted num a1 a2 a3 w (kern_call (actor_terminate x) w).
Proof.
  apply kern_call_accounted. intros rc k E j op t _ H. left.
  apply (f_equal snd) in E. cbn in E. subst k. revert H. apply holds_caps, terminate_caps.
Qed.

Lemma delegate_accounted a1 a2 a3 w :
  0 <= current_actor (w_kern w) ->
  accounted SYS_GRANT a1 a2 a3 w (kern_call (actor_delegate (int32 a1) (int32 a2) (int32 a3)) w).
Proof.
  intros H0. apply kern_call_accounted. intros rc k E j op t Ho Hh. apply (f_equal snd) in E. cbn in E. subst k.
  destruct (event_origins (EvDelegate (int32 a1) (int32 a2) (int32 a3)) (w_kern w) j op t Ho Hh) as [|(-> & -> & -> & Hc)]; [by left|].
  right. by apply (by_delegation _ _ _ _ _ _ _ (u64 rc)).
Qed.

Lemma spawn_slot_dead e k r k' : actor_spawn e k = (r, k') -> 0 <= r -> r < MAX_ACTORS /\ state (act k r) = ACTOR_DEAD.
Proof. intros E H. destruct (spawn_slots _ _ _ _ E) as (_ & _ & _ & [[-> _]|(? & ? & _)]); [lia | by split; [lia|]]. Qed.

Lemma spawn_program_slot_dead p s e k r k' :
  actor_spawn_program p s e k = (r, k') -> 0 <= r -> r < MAX_ACTORS /\ state (act k r) = ACTOR_DEAD.
Proof. intros E H. destruct (spawn_program_slots _ _ _ _ _ _ E) as (_ & _ & [[-> _]|(? & ? & _)]); [lia | by split; [lia|]]. Qed.

(** A checked spawn on a kernel with the caller's tables. *)
Lemma spawn_accounted raw k0 rc k num a1 a2 a3 w w' j op t :
  (forall k r k', raw k = (r, k') -> 0 <= r -> r < MAX_ACTORS /\ state (act k r) = ACTOR_DEAD) ->
  (forall k r k', raw k = (r, k') -> forall j o t, o <> 0 -> holds k' j o t -> holds k j o t) ->
  num = SYS_SPAWN \/ num = SYS_SPAWN_PROGRAM -> 0 <= current_actor (w_kern w) ->
  (forall i, act k0 i = act (w_kern w) i) -> current_actor k0 = current_actor (w_kern w) ->
  spawn_checked raw k0 = (rc, k) -> op <> 0 -> holds k j op t ->
  holds (w_kern w) j op t \/ origin num a1 a2 a3 w (Back (u64 rc) w') w' j op t.
Proof.
  intros H1 H2 Hn H0 Ha Hc E Ho Hh.
  destruct (spawn_checked_caps raw k0 rc k j op t (fun k0 r0 k1 E j o t => H2 k0 r0 k1 E j o t) E Ho Hh) as [H|(Hs & Hr & Hg)].
  - left. unfold holds in *. by rewrite <- Ha.
  - destruct (spawn_checked_slot raw k0 rc k H1 E Hr) as [Hlt Hd]. right. rewrite Hc in Hs, Hg. rewrite Ha in Hd.
    apply (by_spawn _ _ _ _ _ _ _ rc); [done | | by rewrite u64_small by (unfold in_u64, MAX_ACTORS in *; lia) | lia | done | done].
    split; [done|]. unfold holds in *. by rewrite <- Ha.
Qed.

Lemma spawn_child_accounted a1 a2 a3 w :
  0 <= current_actor (w_kern w) -> accounted SYS_SPAWN a1 a2 a3 w (kern_call (actor_spawn_child a1) w).
Proof.
  intros H0. apply kern_call_accounted. intros rc k E j op t Ho Hh. unfold actor_spawn_child in E.
  eapply (spawn_accounted (actor_spawn a1) (w_kern w)); [apply spawn_slot_dead | apply spawn_caps_shrink | by left | done | done | done | exact E | done | done].
Qed.

Lemma sys_spawn_program_accounted a1 a2 a3 w :
  machine_ok w -> in_syscall (w_kern w) -> accounted SYS_SPAWN_PROGRAM a1 a2 a3 w (sys_spawn_program a1 w).
Proof.
  intros Hw [Hh H0 _ Hcr]. destruct (sound_kinv _ (ok_kern _ Hw) Hh) as [live Hi]. pose proof (kc_cur _ _ (proj1 Hi)).
  destruct (storage_read (int32 a1) (w_scratch w) LOADER_SCRATCH_BYTES (w_sto w)) as [[n img] st1] eqn:E.
  destruct (loader_spec Hcode live (int32 a1) (w_scratch w) (w_kern w) (w_sto w) n img st1 (ok_sto _ Hw) Hi ltac:(lia) Hcr E)
    as (rc & k' & El & _ & Hk). unfold sys_spawn_program. rewrite El. cbn [bind_access finish]. intros w' Hf j op t Ho Hhold.
  injection Hf as <-. change (holds k' j op t) in Hhold. destruct Hk as [[-> ->]|(a & m & mm & e & Hk)]; [by left|].
  unfold actor_spawn_program_child in Hk.
  eapply (spawn_accounted (actor_spawn_program a 4096 e)); [apply spawn_program_slot_dead | apply spawn_program_caps_shrink | by right | done | | | exact Hk | done | done]; done.
Qed.

Lemma sys_create_name_accounted a1 a2 a3 w :
  machine_ok w -> current_holds CAP_CREATE_OBJECT 0 (w_kern w) -> accounted SYS_CREATE_NAME a1 a2 a3 w (sys_create_name a1 w).
Proof.
  intros Hw Hc. unfold sys_create_name. intros w' H j op t Ho Hh. pose proof H as H'. apply finish_bind in H' as (u & Eu & H').
  rewrite Eu in H |- *. cbn [bind_access] in H |- *. clear H'.
  destruct (storage_create_named (string_at a1 (w_kern w)) (w_sto w)) as [id s] eqn:E.
  cbn [finish] in H |- *. destruct (Z.ltb_spec id 0) as [Hid|Hid]; cbn [final denied reply] in H; injection H as <-; [by left|].
  change (holds (grant_creator id (w_kern w)) j op t) in Hh.
  destruct (grant_creator_caps id (w_kern w) j op t Ho Hh) as [|(-> & -> & Hop)]; [by left|]. right.
  unfold storage_create_named in E. destruct (_ <=? _); [injection E as <- _; lia|].
  destruct (alloc_object_spec _ _ _ _ (ok_sto _ Hw) (fun j => string_u8 a1 (w_kern w) j) E) as [(-> & _)|(Hr & Hold & _ & Hnew & _)]; [lia|].
  apply (by_creation _ _ _ _ _ _ _ id); try done. unfold reply. by rewrite u64_small by (unfold in_u64, MAX_OBJECTS in *; lia).
Qed.

Lemma handler_accounted fuel num a1 a2 a3 w :
  machine_ok w -> in_syscall (w_kern w) -> accounted num a1 a2 a3 w (syscall_handler fuel num a1 a2 a3 w).
Proof.
  intros Hw Hs. pose proof (is_cur _ Hs) as H0. unfold syscall_handler.
  call ltac:(apply same_kern_accounted; intros w'; by apply sys_write_kern).
  call ltac:(apply accounted_same; intros w'; unfold sys_yield; rewrite yield_leave by done; apply leaving_caps).
  call ltac:(apply accounted_same; intros w'; unfold sys_exit; rewrite exit_leave; apply leaving_caps).
  call ltac:(apply send_accounted).
  call ltac:(apply accounted_same; intros w'; apply sys_receive_caps).
  call ltac:(by apply delegate_accounted).
  call ltac:(by apply spawn_child_accounted).
  call ltac:(apply terminate_accounted).
  call ltac:(apply accounted_with_cap; intros _; apply accounted_same; intros w'; apply sys_object_read_caps).
  call ltac:(apply accounted_with_cap; intros _; apply same_kern_accounted; intros w'; apply sys_object_write_kern).
  do 2 call ltac:(apply accounted_with_cap; intros _; apply same_kern_accounted; intros w'; apply sto_call_kern).
  do 3 call ltac:(apply accounted_with_cap; intros _; apply same_kern_accounted; intros w'; apply net_call_kern).
  call ltac:(apply accounted_with_cap; intros _; apply accounted_same; intros w'; apply sys_net_receive_caps).
  call ltac:(apply accounted_with_cap; intros _; by apply sys_spawn_program_accounted).
  call ltac:(apply same_kern_accounted; intros w'; apply sys_lookup_name_kern).
  call ltac:(apply accounted_with_cap; intros _; apply accounted_same; intros w'; apply sys_list_objects_caps).
  call ltac:(apply accounted_with_cap; intros Hc; by apply sys_create_name_accounted).
  call ltac:(apply accounted_with_cap; intros _; apply same_kern_accounted; intros w'; apply sys_rename_object_kern).
  call ltac:(apply accounted_with_cap; intros _; apply same_kern_accounted; intros w'; apply sto_call_kern).
  call ltac:(apply accounted_with_cap; intros _; apply same_kern_accounted; intros w'; apply sys_key_read_kern).
  call ltac:(apply accounted_same; intros w'; apply sys_rtc_read_caps).
  apply same_kern_accounted. by intros w' [= <-].
Qed.
End origins.

(** ** The reference monitor *)
Section monitor.
Context {L : layout} {LOK : layout_ok L} {KL : klayout} {KC : kcode}.
Context {B D N : Type} `{!PortBus B} `{!BlockDevice D} `{!BlockDeviceLaws D} `{!NetDevice N}.
Implicit Types (w : world B D N) (k : kern).

(** The caller holds every capability the call requires. *)
Definition permitted (num a1 a2 a3 : Z) k : Prop :=
  forall op t, (op, t) ∈ required_caps num a1 a2 a3 -> current_holds op t k.

Lemma stray_permitted fuel num a1 a2 a3 w :
  actor_trampoline_addr <> schedule_next_ret -> machine_ok w -> in_syscall (w_kern w) ->
  match syscall_handler fuel num a1 a2 a3 w with Crashed _ | Overwrote _ => permitted num a1 a2 a3 (w_kern w) | _ => True end.
Proof.
  intros Hcode Hw Hs.
  assert (H : match syscall_handler fuel num a1 a2 a3 w with Crashed _ | Overwrote _ => False | _ => True end \/
              permitted num a1 a2 a3 (w_kern w)); [|by destruct H as [H|H]; destruct (syscall_handler _ _ _ _ _ _)].
  destruct (decide (Forall (fun c => actor_current_has_cap c.1 c.2 (w_kern w) = true) (required_caps num a1 a2 a3))) as [Hall|Hnot].
  - right. intros op t Hin. apply has_cap_holds. rewrite Forall_forall in Hall. exact (Hall (op, t) (proj1 (list_elem_of_In _ _) Hin)).
  - left. assert (Hd : denied_call num a1 a2 a3 (w_kern w)).
    { unfold denied_call. destruct (required_caps num a1 a2 a3) as [|c l] eqn:E; [by destruct Hnot|].
      apply not_Forall_Exists in Hnot; [|apply _]. apply Exists_exists in Hnot as ([op t] & Hin & Hn). exists op, t. split; [first [done | by apply list_elem_of_In]|].
      intros Hh. apply Hn. by apply has_cap_holds. }
    destruct (denied_refused_call Hcode fuel num a1 a2 a3 w Hw Hs Hd) as [[b ->]|(_ & _ & _ & m & b & sc & s & n & _ & ->)]; done.
Qed.

Lemma object_untouched fuel num a1 a2 a3 w w' id :
  sto_inv (w_sto w) -> final (syscall_handler fuel num a1 a2 a3 w) = Some w' ->
  0 <= id < MAX_OBJECTS -> Storage.live (w_sto w) id = true ->
  ~ current_holds CAP_WRITE_OBJECT id (w_kern w) -> ~ current_holds CAP_RENAME_OBJECT id (w_kern w) ->
  ~ current_holds CAP_DELETE_OBJECT id (w_kern w) -> ~ current_holds CAP_PROMOTE_OBJECT 0 (w_kern w) ->
  obj (w_sto w') id = obj (w_sto w) id /\
  forall i, 0 <= i < OBJECT_MAX_BYTES -> data_byte (w_sto w') id i = data_byte (w_sto w) id i.
Proof.
  intros Hi H Hid Hl Hw Hr Hd Hp.
  destruct (md_sto _ _ (handler_mediated fuel num a1 a2 a3 w w' H)) as [->|(op & r & E & Ha)]; [done|].
  assert (Hc : ~ changes_object op id) by (destruct op; cbn in Ha |- *; intros E'; subst; tauto).
  split; [by eapply step_other_object|]. intros i Hii. eapply data_isolation; try done.
  by destruct op.
Qed.


(** C13: object integrity.  An actor that holds no capability to write, rename,
    delete or judge an object cannot affect it by any system call that ends:
    its name, size, trust level and every byte of its data stay as they were.
    What is left is a call that stops the machine, and one that is handed, or
    lands in a receive that was handed, a buffer inside the kernel's own image
    below 1MB, where the object table is among what it overwrites. *)
Theorem unauthorised_actor_cannot_change_object fuel num a1 a2 a3 w id :
  actor_trampoline_addr <> schedule_next_ret -> machine_ok w -> in_syscall (w_kern w) ->
  0 <= id < MAX_OBJECTS -> Storage.live (w_sto w) id = true ->
  ~ current_holds CAP_WRITE_OBJECT id (w_kern w) -> ~ current_holds CAP_RENAME_OBJECT id (w_kern w) ->
  ~ current_holds CAP_DELETE_OBJECT id (w_kern w) -> ~ current_holds CAP_PROMOTE_OBJECT 0 (w_kern w) ->
  match syscall_handler fuel num a1 a2 a3 w with
  | Back _ w' | Switched _ w' =>
      obj (w_sto w') id = obj (w_sto w) id /\
      forall i, 0 <= i < OBJECT_MAX_BYTES -> data_byte (w_sto w') id i = data_byte (w_sto w) id i
  | Crashed va => in_argument Loads num a1 a2 a3 va \/ stores_at num a1 a2 a3 va w
  | Overwrote va => 0 <= va < COMMONS_END /\ stores_at num a1 a2 a3 va w
  | Deadlock => False
  | OutOfFuel => num = SYS_WRITE /\ Z.of_nat fuel <= 2 ^ 47
  end.
Proof.
  intros Hcode Hw Hs Hid Hl Hwr Hr Hd Hp. pose proof (handler_strays Hcode fuel num a1 a2 a3 w Hw Hs) as Hst.
  pose proof (fun w' H => object_untouched fuel num a1 a2 a3 w w' id (ok_sto _ Hw) H Hid Hl Hwr Hr Hd Hp) as Hu. unfold call_strays in Hst.
  destruct (syscall_handler fuel num a1 a2 a3 w) as [r w'|l w'|va|va| |]; cbn [strays final] in *; try done; by apply Hu.
Qed.

(** C7: capabilities cannot be forged.  After any system call that ends,
    whatever right any actor holds it held before, or the caller, holding
    exactly that right, delegated it by [SYS_GRANT]; or it is one of the three
    rights between a spawner that holds [CAP_SPAWN] and the child the call
    made in a dead slot; or it is one of the four rights over an object the
    call has just created, in the hands of its creator, who holds
    [CAP_CREATE_OBJECT].  A switch gives nobody anything.  (The other ways to
    end are those of C4.) *)
Theorem capabilities_not_forged fuel num a1 a2 a3 w :
  actor_trampoline_addr <> schedule_next_ret -> machine_ok w -> in_syscall (w_kern w) ->
  match syscall_handler fuel num a1 a2 a3 w with
  | Back r w' =>
      forall j op t, op <> 0 -> holds (w_kern w') j op t ->
        holds (w_kern w) j op t \/ origin num a1 a2 a3 w (Back r w') w' j op t
  | Switched _ w' => forall j op t, op <> 0 -> holds (w_kern w') j op t -> holds (w_kern w) j op t
  | Crashed va => in_argument Loads num a1 a2 a3 va \/ stores_at num a1 a2 a3 va w
  | Overwrote va => 0 <= va < COMMONS_END /\ stores_at num a1 a2 a3 va w
  | Deadlock => False
  | OutOfFuel => num = SYS_WRITE /\ Z.of_nat fuel <= 2 ^ 47
  end.
Proof.
  intros Hcode Hw Hs. pose proof (handler_strays Hcode fuel num a1 a2 a3 w Hw Hs) as Hst.
  pose proof (handler_accounted Hcode fuel num a1 a2 a3 w Hw Hs) as Ha. unfold call_strays in Hst.
  destruct (syscall_handler fuel num a1 a2 a3 w) as [r w'|l w'|va|va| |]; cbn [strays] in *; try done.
  - by apply Ha.
  - intros j op t Ho Hh. destruct (Ha w' eq_refl j op t Ho Hh) as [|[]]; done.
Qed.
End monitor.

(** ** On the small machine of [Syscall.v] *)
Module AuthorityDemo.
Import RamDisk Demo SyscallDemo.


(** Creating another object leaves object 0 alone. *)
Lemma unauthorised_actor_cannot_change_object_witness :
  match syscall_handler 1 SYS_CREATE_NAME buffer 0 0 world0 with
  | Back r w' => r = 1 /\ obj (w_sto w') 0 = obj (w_sto world0) 0
  | _ => False
  end.
Proof.
  assert (Ho : rax (syscall_handler 1 SYS_CREATE_NAME buffer 0 0 world0) = Some 1) by (vm_compute; reflexivity).
  assert (Hl : Storage.live (w_sto world0) 0 = true) by (vm_compute; reflexivity).
  assert (H0 : 0 <= 0 < MAX_OBJECTS) by (unfold MAX_OBJECTS; lia). destruct world0_lacks as (C1 & C2 & C3 & C4).
  pose proof (unauthorised_actor_cannot_change_object 1 SYS_CREATE_NAME buffer 0 0 world0 0 demo_codes world0_ok world0_in_syscall
    H0 Hl C1 C2 C3 C4) as M.
  destruct (syscall_handler 1 SYS_CREATE_NAME buffer 0 0 world0) as [r w'|l w'|va|va| |]; try discriminate Ho.
  injection Ho as Ho. split; [exact Ho|]. destruct M as [M _]. exact M.
Defined.

(** ... and the creator has the four rights over the new one. *)
Lemma capabilities_not_forged_witness :
  match syscall_handler 1 SYS_CREATE_NAME buffer 0 0 world0 with
  | Back r w' => r = 1 /\ (holds (w_kern w') 0 CAP_WRITE_OBJECT 1 ->
      holds (w_kern world0) 0 CAP_WRITE_OBJECT 1 \/
      origin SYS_CREATE_NAME buffer 0 0 world0 (Back r w') w' 0 CAP_WRITE_OBJECT 1)
  | _ => False
  end.
Proof.
  assert (Ho : rax (syscall_handler 1 SYS_CREATE_NAME buffer 0 0 world0) = Some 1) by (vm_compute; reflexivity).
  pose proof (capabilities_not_forged 1 SYS_CREATE_NAME buffer 0 0 world0 demo_codes world0_ok world0_in_syscall) as M.
  destruct (syscall_handler 1 SYS_CREATE_NAME buffer 0 0 world0) as [r w'|l w'|va|va| |]; try discriminate Ho.
  injection Ho as Ho. split; [exact Ho|]. apply M. discriminate.
Defined.

(** Deleting object 0 is refused. *)
Lemma denied_syscall_is_refused_witness : refused world0 (syscall_handler 1 SYS_DELETE_NAME 0 0 0 world0).
Proof.
  destruct (denied_syscall_is_refused demo_codes 1 SYS_DELETE_NAME 0 0 0 world0 world0_ok world0_in_syscall) as [M|(M & _)].
  - exists CAP_DELETE_OBJECT, 0. split; [left|]. apply (lacks_by CAP_DELETE_OBJECT 0 world0). vm_compute. reflexivity.
  - exact M.
  - discriminate M.
Defined.
End AuthorityDemo.
