(* ===== verification/Interrupts.v ===== *)
(** * Interrupts: the IDT, the assembly stubs and the exception handler

    Models [hal/x86_64/interrupts.c], the entry stubs of
    [hal/x86_64/isr_stubs.asm] and the ring-3 side of the system-call gate,
    [hal/x86_64/syscall_invoke.c].  How the processor reads a gate is the
    architecture's documented behaviour ([deliver] and [entry_stack]). *)
From Stdlib Require Import String Ascii.
From S2P Require Import Prelude Paging Memory Storage Gdt Actor Scheduler Ports Pic Keyboard Rtc Console Net Access Syscall.

(** ** The table *)

Definition IDT_ENTRIES : Z := 256.
Definition TIMER_VECTOR : Z := 32.
Definition KEYBOARD_VECTOR : Z := 33.
Definition SYSCALL_VECTOR : Z := 0x80.

Record idt_entry := IdtEntry {
  offset_low : Z; selector : Z; g_ist : Z; type_attr : Z; offset_mid : Z; offset_high : Z; reserved : Z }.
#[export] Instance idt_entry_inhabited : Inhabited idt_entry := populate (IdtEntry 0 0 0 0 0 0 0).

(** The table, its descriptor, and the IDTR of the boot core and of the AP. *)
Record idt_state := IdtState { idt : gmap Z idt_entry; idtp : Z * Z; idtr : Z * Z; ap_idtr : Z * Z }.

(** Where the linker puts the stubs and the table. *)
Class icode := ICode { isr_stub : Z -> Z; idt_addr : Z }.

Section idt.
Context {KL : klayout} {IC : icode}.

Definition gate (handler ist dpl : Z) : idt_entry :=
  IdtEntry (u16 (handler .&. 0xFFFF)) 0x18 ist
           (u8 ((0x80 .|. ((dpl .&. 0x3) .<<. 5)) .|. 0x0E))
           (u16 ((handler .>>. 16) .&. 0xFFFF)) (u32 ((handler .>>. 32) .&. 0xFFFFFFFF)) 0.
Definition idt_set_gate (vector handler ist dpl : Z) (t : gmap Z idt_entry) : gmap Z idt_entry :=
  <[vector := gate handler ist dpl]> t.

Definition hal_interrupts_init (g : gdt_state) (s : idt_state) : gdt_state * idt_state :=
  let g := hal_gdt_init g in
  let t := idt_set_gate 0 (isr_stub 0) 0 0 (idt s) in
  let t := idt_set_gate 6 (isr_stub 6) 0 0 t in
  let t := idt_set_gate 8 (isr_stub 8) 1 0 t in
  let t := idt_set_gate 13 (isr_stub 13) 0 0 t in
  let t := idt_set_gate 14 (isr_stub 14) 0 0 t in
  let t := idt_set_gate TIMER_VECTOR (isr_stub 32) 0 0 t in
  let t := idt_set_gate KEYBOARD_VECTOR (isr_stub 33) 0 0 t in
  let t := idt_set_gate SYSCALL_VECTOR (isr_stub 128) 0 3 t in
  let p := (IDT_ENTRIES * 16 - 1, idt_addr) in
  (g, IdtState t p p (ap_idtr s)).

Definition hal_idt_load_ap (s : idt_state) : idt_state := IdtState (idt s) (idtp s) (idtr s) (idtp s).
End idt.

(** ** How the processor uses a gate *)

Definition gate_offset (e : idt_entry) : Z := offset_low e + 2 ^ 16 * offset_mid e + 2 ^ 32 * offset_high e.
Definition gate_type (e : idt_entry) : Z := type_attr e mod 16.
Definition gate_dpl (e : idt_entry) : Z := (type_attr e / 32) mod 4.
Definition gate_present (e : idt_entry) : bool := Z.testbit (type_attr e) 7.

Inductive delivery := Enters (rip cs ist : Z) | GeneralProtection | NotPresent.

(** An exception, a hardware interrupt, or an [int vector] executed at [cpl]. *)
Definition deliver (limit : Z) (t : gmap Z idt_entry) (vector cpl : Z) (software : bool) : delivery :=
  let e := t !!! vector in
  if limit <? vector * 16 + 15 then GeneralProtection
  else if negb ((gate_type e =? 0xE) || (gate_type e =? 0xF)) then GeneralProtection
  else if software && (gate_dpl e <? cpl) then GeneralProtection
  else if negb (gate_present e) then NotPresent
  else Enters (gate_offset e) (selector e) (g_ist e).

(** The stack the handler runs on. *)
Definition entry_stack (t : tss64) (cpl sp ist : Z) : Z :=
  if negb (ist =? 0) then Gdt.ist t !!! (ist - 1) else if cpl =? 3 then rsp0 t else sp.

Definition registered (v : Z) : bool :=
  (v =? 0) || (v =? 6) || (v =? 8) || (v =? 13) || (v =? 14) || (v =? 32) || (v =? 33) || (v =? 128).

Section routing.
Context {KL : klayout} {IC : icode}.

Lemma gate_offset_of h ist dpl : in_u64 h -> gate_offset (gate h ist dpl) = h.
Proof.
  intros Ha. unfold in_u64 in Ha. unfold gate_offset, gate. cbn [offset_low offset_mid offset_high].
  change 0xFFFFFFFF with (Z.ones 32). change 0xFFFF with (Z.ones 16).
  rewrite !Z.land_ones, !Z.shiftr_div_pow2 by lia. unfold u16, u32. zdm.
Qed.

Lemma deliver_gate t v h ist dpl cpl software :
  t !!! v = gate h ist dpl -> in_u64 h -> 0 <= v < IDT_ENTRIES -> dpl = 0 \/ dpl = 3 -> 0 <= cpl <= 3 ->
  deliver (IDT_ENTRIES * 16 - 1) t v cpl software =
  if negb software || (cpl <=? dpl) then Enters h 0x18 ist else GeneralProtection.
Proof.
  intros Ht Hh Hv Hd Hcpl. unfold IDT_ENTRIES in *. unfold deliver. rewrite Ht, gate_offset_of by done. zcmp.
  assert (E : gate_type (gate h ist dpl) = 0xE /\ gate_dpl (gate h ist dpl) = dpl /\ gate_present (gate h ist dpl) = true)
    by by destruct Hd as [->| ->].
  destruct E as (-> & -> & ->). rewrite Z.leb_antisym. cbn. by destruct software, (dpl <? cpl).
Qed.

Lemma deliver_zero t v cpl software :
  t !!! v = inhabitant -> deliver (IDT_ENTRIES * 16 - 1) t v cpl software = GeneralProtection.
Proof. intros Ht. unfold deliver. rewrite Ht. by destruct (_ <? _). Qed.

(** C28: the gates.  From a zeroed table, after [hal_interrupts_init] exactly
    eight vectors are handled, each by its own stub in the 64-bit kernel code
    segment; everything else is a general protection fault.  Ring 3 can raise
    exactly one of them on purpose, the system-call gate; hardware can raise
    them all.  The double fault always runs on its own stack, and every other
    entry from ring 3 on the stack in [RSP0]. *)
Theorem only_syscall_gate_is_callable g s v cpl software sp :
  (forall i, in_u64 (isr_stub i)) -> (forall i, idt s !!! i = inhabitant) -> 0 <= v < 256 -> 0 <= cpl <= 3 ->
  let '(g', s') := hal_interrupts_init g s in
  deliver (fst (idtr s')) (idt s') v cpl software =
    (if registered v && (negb software || (cpl =? 0) || (v =? SYSCALL_VECTOR))
     then Enters (isr_stub v) 0x18 (if v =? 8 then 1 else 0) else GeneralProtection) /\
  desc_code64 (gdt g' !!! (0x18 / 8)) = true /\ desc_dpl (gdt g' !!! (0x18 / 8)) = 0 /\
  entry_stack (tss g') cpl sp 1 = df_stack_addr + DF_STACK_SIZE /\
  entry_stack (tss g') 3 sp 0 = hal_get_kernel_stack_top 0.
Proof.
  intros Hs Hz Hv Hcpl. unfold hal_interrupts_init. cbv zeta. cbn [idtr fst idt].
  split; [|unfold hal_gdt_init; cbn [gdt tss]; change (0x18 / 8) with 3; rewrite !aget_insert;
          split_and!; [reflexivity | reflexivity | exact (aget_eq _ _ _) | reflexivity]].
  set (t := idt_set_gate SYSCALL_VECTOR _ _ _ _).
  assert (Ht : t !!! v = if registered v then gate (isr_stub v) (if v =? 8 then 1 else 0) (if v =? SYSCALL_VECTOR then 3 else 0)
                         else inhabitant).
  { unfold t, idt_set_gate, registered, SYSCALL_VECTOR, TIMER_VECTOR, KEYBOARD_VECTOR. rewrite !aget_insert, Hz. clear t.
    rewrite !(Z.eqb_sym _ v).
    repeat match goal with |- context [v =? ?n] => destruct (Z.eqb_spec v n) as [->|]; [reflexivity|] end. reflexivity. }
  destruct (registered v) eqn:Er.
  - rewrite (deliver_gate t v _ _ _ cpl software Ht); [|apply Hs|done|destruct (v =? SYSCALL_VECTOR); [by right | by left]|done].
    cbn [andb]. destruct (Z.eqb_spec v SYSCALL_VECTOR).
    + rewrite orb_true_r. zcmp. by rewrite orb_true_r.
    + rewrite orb_false_r. destruct (Z.eqb_spec cpl 0); zcmp; done.
  - by apply deliver_zero.
Qed.
End routing.

(** ** The entry stubs *)

(** The general registers but the stack pointer, as the stubs save them. *)
Record gregs := Gregs {
  rax : Z; rbx : Z; rcx : Z; rdx : Z; rsi : Z; rdi : Z; rbp : Z;
  r8 : Z; r9 : Z; r10 : Z; r11 : Z; r12 : Z; r13 : Z; r14 : Z; r15 : Z }.

Definition push_regs (r : gregs) (s : gmap Z Z * Z) : gmap Z Z * Z :=
  foldl (fun s v => push_word v s) s
    [rax r; rbx r; rcx r; rdx r; rsi r; rdi r; rbp r; r8 r; r9 r; r10 r; r11 r; r12 r; r13 r; r14 r; r15 r].
Definition pop_regs (m : gmap Z Z) (sp : Z) : gregs :=
  Gregs (m !!! (sp + 112)) (m !!! (sp + 104)) (m !!! (sp + 96)) (m !!! (sp + 88)) (m !!! (sp + 80)) (m !!! (sp + 72))
        (m !!! (sp + 64)) (m !!! (sp + 56)) (m !!! (sp + 48)) (m !!! (sp + 40)) (m !!! (sp + 32)) (m !!! (sp + 24))
        (m !!! (sp + 16)) (m !!! (sp + 8)) (m !!! sp).

(** [isr_common], entered with the vector and an error code on the stack. *)
Definition isr_common (h : Z -> Z -> Z -> gmap Z Z -> gmap Z Z) (r : gregs) (s : gmap Z Z * Z) : gregs * (gmap Z Z * Z) :=
  let '(m, sp) := push_regs r s in
  let m := h (m !!! (sp + 120)) (m !!! (sp + 128)) (m !!! (sp + 136)) m in
  (pop_regs m sp, (m, sp + 120 + 16)).
Definition isr_noerr (vector : Z) h r s := isr_common h r (push_word vector (push_word 0 s)).
Definition isr_err (vector : Z) h r s := isr_common h r (push_word vector s).

(** [isr_stub_128] and [syscall_common]. *)
Definition isr_stub_128 (h : Z -> Z -> Z -> Z -> gmap Z Z -> Z * gmap Z Z) (r : gregs) (s : gmap Z Z * Z)
  : gregs * (gmap Z Z * Z) :=
  let '(m, sp) := push_regs r (push_word 128 (push_word 0 s)) in
  let '(ret, m) := h (m !!! (sp + 112)) (m !!! (sp + 72)) (m !!! (sp + 80)) (m !!! (sp + 88)) m in
  let m := <[sp + 112 := ret]> m in
  (pop_regs m sp, (m, sp + 120 + 16)).

(** The asm statement of [hal_syscall] binds RAX, RDI, RSI and RDX; the stack
    is the one the processor switches to. *)
Definition hal_syscall h (num a1 a2 a3 : Z) (r : gregs) (s : gmap Z Z * Z) : Z * gregs * (gmap Z Z * Z) :=
  let r := Gregs num (rbx r) (rcx r) a3 a2 a1 (rbp r) (r8 r) (r9 r) (r10 r) (r11 r) (r12 r) (r13 r) (r14 r) (r15 r) in
  let '(r, s) := isr_stub_128 h r s in
  (rax r, r, s).

Definition set_rax (v : Z) (r : gregs) : gregs :=
  Gregs v (rbx r) (rcx r) (rdx r) (rsi r) (rdi r) (rbp r) (r8 r) (r9 r) (r10 r) (r11 r) (r12 r) (r13 r) (r14 r) (r15 r).

(** Pushing a list of words. *)
Lemma push_list l m sp :
  exists m', foldl (fun s v => push_word v s) (m, sp) l = (m', sp - 8 * Z.of_nat (length l)) /\
    (forall x, sp <= x -> m' !!! x = m !!! x) /\
    forall i v, l !! i = Some v -> m' !!! (sp - 8 * Z.of_nat i - 8) = v.
Proof.
  revert m sp. induction l as [|v l IH]; intros m sp; cbn [foldl length].
  - exists m. by replace (sp - 8 * Z.of_nat 0) with sp by lia.
  - unfold push_word at 2. cbn [fst snd]. destruct (IH (<[sp - 8 := v]> m) (sp - 8)) as (m' & -> & Hk & Hv).
    exists m'. split; [f_equal; lia|]. split.
    + intros x Hx. rewrite Hk, aget_ne by lia. done.
    + intros [|i] u; cbn [lookup list_lookup].
      * intros [= <-]. rewrite Z.mul_0_r, Z.sub_0_r, Hk by lia. apply aget_eq.
      * intros H. rewrite <- (Hv i u H). f_equal. lia.
Qed.

(** Pushing the registers, and reading them back from any memory that kept
    the fifteen words. *)
Lemma push_regs_spec r m sp :
  exists m', push_regs r (m, sp) = (m', sp - 120) /\
    (forall x, sp <= x -> m' !!! x = m !!! x) /\
    forall m2, (forall x, sp - 120 <= x < sp -> m2 !!! x = m' !!! x) -> pop_regs m2 (sp - 120) = r.
Proof.
  unfold push_regs. set (l := [_; _; _; _; _; _; _; _; _; _; _; _; _; _; _]).
  destruct (push_list l m sp) as (m' & -> & Hk & Hv). exists m'. split; [done|]. split; [done|]. intros m2 H2.
  assert (Hw : forall o v, l !! Z.to_nat (14 - o / 8) = Some v -> 0 <= o / 8 <= 14 -> o mod 8 = 0 -> m2 !!! (sp - 120 + o) = v).
  { intros o v Hl Ho Hm. rewrite <- (Hv _ _ Hl). replace (sp - 8 * Z.of_nat (Z.to_nat (14 - o / 8)) - 8) with (sp - 120 + o) by zdm.
    apply H2. zdm. }
  unfold pop_regs. replace (m2 !!! (sp - 120)) with (m2 !!! (sp - 120 + 0)) by (f_equal; lia).
  destruct r. f_equal; (eapply Hw; [reflexivity | vm_compute; split; discriminate | reflexivity]).
Qed.

(** What a C handler leaves alone: the words of its caller's frames. *)
Definition keeps_above (sp : Z) (m m' : gmap Z Z) : Prop := forall x, sp <= x -> m' !!! x = m !!! x.

(** An exception or a hardware interrupt that returns is invisible to the code
    it interrupted: every register and the stack are as they were. *)
Lemma isr_transparent vector (h : Z -> Z -> Z -> gmap Z Z -> gmap Z Z) r m sp :
  (forall v e i m, keeps_above (sp - 136) m (h v e i m)) ->
  exists m1, keeps_above sp m m1 /\ isr_noerr vector h r (m, sp) = (r, (h vector 0 (m !!! sp) m1, sp)).
Proof.
  intros Hh. unfold isr_noerr, isr_common. set (s := push_word vector _).
  assert (Es : s = (<[sp - 16 := vector]> (<[sp - 8 := 0]> m), sp - 16)).
  { unfold s, push_word. cbn [fst snd]. by replace (sp - 8 - 8) with (sp - 16) by lia. }
  rewrite Es. destruct (push_regs_spec r (<[sp - 16 := vector]> (<[sp - 8 := 0]> m)) (sp - 16)) as (m1 & -> & Hk & Hp).
  exists m1. split.
  { intros x Hx. rewrite Hk by lia. by rewrite !aget_ne by lia. }
  replace (sp - 16 - 120 + 120) with (sp - 16) by lia. replace (sp - 16 - 120 + 128) with (sp - 8) by lia.
  replace (sp - 16 - 120 + 136) with sp by lia. rewrite !Hk by lia. rewrite !aget_insert. zcmp.
  rewrite Hp; [do 2 f_equal; lia|]. intros x Hx. apply Hh. lia.
Qed.

(** C38: the calling convention of the gate.  The kernel's handler gets exactly
    the number and the three arguments given to [hal_syscall]; its result comes
    back as the result; every other register, and the stack, are restored. *)
Theorem syscall_calling_convention (h : Z -> Z -> Z -> Z -> gmap Z Z -> Z * gmap Z Z) num a1 a2 a3 r m sp :
  (forall n x y z m, keeps_above (sp - 136) m (snd (h n x y z m))) ->
  exists m1, keeps_above sp m m1 /\
    let ret := fst (h num a1 a2 a3 m1) in
    let '(v, r', (m', sp')) := hal_syscall h num a1 a2 a3 r (m, sp) in
    v = ret /\ sp' = sp /\ keeps_above sp m m' /\
    r' = Gregs ret (rbx r) (rcx r) a3 a2 a1 (rbp r) (r8 r) (r9 r) (r10 r) (r11 r) (r12 r) (r13 r) (r14 r) (r15 r).
Proof.
  intros Hh. unfold hal_syscall, isr_stub_128. set (r1 := Gregs num _ _ _ _ _ _ _ _ _ _ _ _ _ _).
  set (s := push_word 128 _).
  assert (Es : s = (<[sp - 16 := 128]> (<[sp - 8 := 0]> m), sp - 16)).
  { unfold s, push_word. cbn [fst snd]. by replace (sp - 8 - 8) with (sp - 16) by lia. }
  rewrite Es. destruct (push_regs_spec r1 (<[sp - 16 := 128]> (<[sp - 8 := 0]> m)) (sp - 16)) as (m1 & -> & Hk & Hp).
  assert (Hm1 : keeps_above sp m m1).
  { intros x Hx. rewrite Hk by lia. by rewrite !aget_ne by lia. }
  exists m1. split; [exact Hm1|].
  assert (Hargs : pop_regs m1 (sp - 16 - 120) = r1) by by apply Hp.
  unfold pop_regs in Hargs. injection Hargs as H1 H2 H3 H4 H5 H6 H7 H8 H9 H10 H11 H12 H13 H14 H15.
  rewrite H1, H6, H5, H4. cbn [rax rdi rsi rdx r1].
  pose proof (Hh num a1 a2 a3 m1) as Hq. destruct (h num a1 a2 a3 m1) as [ret m2]. cbn [fst snd] in *.
  set (sq := sp - 16 - 120) in *. assert (Hsq : sq = sp - 136) by (unfold sq; lia).
  assert (Hpop : pop_regs (<[sq + 112 := ret]> m2) sq = set_rax ret r1).
  { unfold pop_regs. rewrite aget_eq, !aget_ne by lia. rewrite !Hq by lia.
    rewrite H2, H3, H4, H5, H6, H7, H8, H9, H10, H11, H12, H13, H14, H15. reflexivity. }
  rewrite Hpop. split_and!; [reflexivity | lia | | reflexivity].
  intros x Hx. rewrite aget_ne by lia. rewrite Hq by lia. by apply Hm1.
Qed.

(** ** The exception handler *)

Inductive handled (W : Type) := Resumes (w : W) | Elsewhere (o : outcome W) | Panics (w : W) | PanicDeadlock.
Arguments Resumes {W} _.
Arguments Elsewhere {W} _.
Arguments Panics {W} _.
Arguments PanicDeadlock {W}.

Section handler.
Context {L : layout} {KL : klayout} {KC : kcode}.
Context {B D N : Type} `{!PortBus B} `{!BlockDevice D} `{!NetDevice N}.
Implicit Types (w : world B D N) (c : console).

Definition newline_text (s : string) : list Z := [10] ++ bytes s.

(** The diagnostic screen: a title, and lines of a label and a number. *)
Definition write_line (label : list Z) (v : Z) (oc : option console) : option console :=
  match oc with
  | Some c => match Console.hal_console_write label c with Some c => hal_console_write_hex64 v c | None => None end
  | None => None
  end.
Definition write_end (oc : option console) : option console :=
  match oc with Some c => Console.hal_console_write [10] c | None => None end.

Definition panic_title : list Z := bytes "KERNEL PANIC - Unhandled Exception" ++ [10; 10].
Definition panic_screen (vector error_code rip cr2 : Z) c : option console :=
  let oc := Console.hal_console_write panic_title (hal_console_init c) in
  let oc := write_line (bytes "Vector:     ") vector oc in
  let oc := write_line (newline_text "Error Code: ") error_code oc in
  let oc := write_line (newline_text "RIP:        ") rip oc in
  let oc := write_end oc in
  if vector =? 14 then write_end (write_line (newline_text "CR2 (fault address): ") cr2 oc) else oc.

Definition exception_handler (vector error_code rip cr2 : Z) w : handled (world B D N) :=
  if vector =? TIMER_VECTOR then
    let w := set_bus (hal_pic_send_eoi 0 (w_bus w)) w in
    let '(returned, k) := actor_yield (w_kern w) in
    if returned then Resumes (set_kern k w) else Elsewhere (land k w)
  else if vector =? KEYBOARD_VECTOR then
    let w := set_bus (hal_pic_send_eoi 1 (w_bus w)) w in
    let '(q, b) := hal_keyboard_irq_handler (w_kbd w) (w_bus w) in
    Resumes (set_kbd q (set_bus b w))
  else
    let w := set_kern (hal_disable_interrupts (w_kern w)) w in
    match panic_screen vector error_code rip cr2 (w_con w) with
    | Some c => Panics (set_con c (set_kern (hal_halt_forever (w_kern w)) w))
    | None => PanicDeadlock
    end.

(** ** What the panic screen says *)

Definition panic_text (vector error_code rip cr2 : Z) : list Z :=
  panic_title ++ bytes "Vector:     0x" ++ hex_text vector ++
  [10] ++ bytes "Error Code: 0x" ++ hex_text error_code ++
  [10] ++ bytes "RIP:        0x" ++ hex_text rip ++ [10] ++
  (if vector =? 14 then [10] ++ bytes "CR2 (fault address): 0x" ++ hex_text cr2 ++ [10] else []).

(** The console [oc] has been sent [t] since [c]. *)
Definition sent c (t : list Z) (oc : option console) : Prop :=
  exists c', oc = Some c' /\ con_ok c' /\ serial c' = serial c ++ t.

Lemma map_u8 l : Forall in_u8 l -> map u8 l = l.
Proof. induction 1 as [|x l Hx _ IH]; [done|]. cbn [map]. by rewrite IH, u8_small. Qed.

Lemma write_sent c t l c0 : con_ok c0 -> serial c0 = serial c ++ t -> Forall in_u8 l ->
  sent c (t ++ l) (Console.hal_console_write l c0).
Proof.
  intros Hok Hs Hl. destruct (write_ok l c0 Hok) as (c' & -> & Hok' & Hs' & _). exists c'. split_and!; try done.
  by rewrite Hs', Hs, <- app_assoc, map_u8.
Qed.

Lemma line_sent c t label v oc : in_u64 v -> Forall in_u8 label -> sent c t oc ->
  sent c (t ++ label ++ bytes "0x" ++ hex_text v) (write_line label v oc).
Proof.
  intros Hv Hl (c0 & -> & Hok & Hs). unfold write_line.
  destruct (write_sent c t label c0 Hok Hs Hl) as (c1 & -> & Hok1 & Hs1).
  destruct (hex64_exact v c1 Hv Hok1) as (_ & _ & _ & c2 & -> & Hok2 & Hs2). exists c2. split_and!; try done.
  by rewrite Hs2, Hs1, <- !app_assoc.
Qed.

Lemma end_sent c t oc : sent c t oc -> sent c (t ++ [10]) (write_end oc).
Proof. intros (c0 & -> & Hok & Hs). apply write_sent; try done. by repeat constructor. Qed.

Lemma text_u8 s : Forall in_u8 (bytes s).
Proof.
  induction s as [|a s IH]; cbn [bytes]; constructor; [|exact IH].
  pose proof (Ascii.nat_ascii_bounded a). unfold in_u8. lia.
Qed.

Lemma panic_screen_sent vector error_code rip cr2 c :
  con_ok c -> in_u64 vector -> in_u64 error_code -> in_u64 rip -> in_u64 cr2 ->
  sent c (panic_text vector error_code rip cr2) (panic_screen vector error_code rip cr2 c).
Proof.
  intros Hc Hv He Hr H2. unfold panic_screen, panic_text.
  pose proof (write_sent c [] panic_title (hal_console_init c) (init_kept _ Hc)
    ltac:(by rewrite app_nil_r) ltac:(apply Forall_app; split; [apply text_u8 | by repeat constructor])) as H0.
  assert (Hn : forall s, Forall in_u8 (newline_text s)) by (intros s; constructor; [done | apply text_u8]).
  apply (line_sent _ _ (bytes "Vector:     ") vector) in H0; [|done|apply text_u8].
  apply (line_sent _ _ (newline_text "Error Code: ") error_code) in H0; [|done|apply Hn].
  apply (line_sent _ _ (newline_text "RIP:        ") rip) in H0; [|done|apply Hn].
  apply end_sent in H0. destruct (vector =? 14).
  - apply (line_sent _ _ (newline_text "CR2 (fault address): ") cr2) in H0; [|done|apply Hn].
    apply end_sent in H0. cbn [app newline_text bytes] in *. rewrite <- !app_assoc in H0. exact H0.
  - cbn [app newline_text bytes] in *. rewrite <- !app_assoc in H0. exact H0.
Qed.

(** a fault is reported.  Any other vector takes the interrupts away, prints
    a screen whose transcript names the vector, the error code, the faulting
    address and for a page fault the address accessed, in digits that read back
    as those values, and halts; memory, actors, page tables, the store and the
    devices are not touched. *)
Theorem faults_are_reported vector error_code rip cr2 w :
  con_ok (w_con w) -> in_u64 vector -> in_u64 error_code -> in_u64 rip -> in_u64 cr2 ->
  vector <> TIMER_VECTOR -> vector <> KEYBOARD_VECTOR ->
  exists c, exception_handler vector error_code rip cr2 w =
      Panics (set_con c (set_kern (hal_halt_forever (hal_disable_interrupts (w_kern w))) w)) /\
    serial c = serial (w_con w) ++ panic_text vector error_code rip cr2 /\
    parse_hex (hex_text vector) = vector /\ parse_hex (hex_text error_code) = error_code /\
    parse_hex (hex_text rip) = rip /\ parse_hex (hex_text cr2) = cr2.
Proof.
  intros Hc Hv He Hr H2 Ht Hk. unfold exception_handler. rewrite (proj2 (Z.eqb_neq _ _) Ht), (proj2 (Z.eqb_neq _ _) Hk).
  pose proof (panic_screen_sent vector error_code rip cr2 (w_con w) Hc Hv He Hr H2) as Hp.
  destruct Hp as (c & Ec & _ & Hs). exists c. change (w_con (set_kern _ w)) with (w_con w). rewrite Ec.
  split_and!; [reflexivity | exact Hs | ..]; by apply (hex64_exact _ (w_con w)).
Qed.
End handler.

(** ** Closed examples *)
Module InterruptDemo.
Import Demo RamDisk SyscallDemo.

#[local] Instance demo_icode : icode := ICode (fun v => 0x24000 + v mod 256 * 32) 0x23000.
Definition idt_zero : idt_state := IdtState ∅ (0, 0) (0, 0) (0, 0).

Lemma stubs_u64 i : in_u64 (isr_stub i).
Proof. unfold in_u64. cbn. pose proof (Z.mod_pos_bound i 256). lia. Qed.

(** [int 14] from ring 3 is refused. *)
Lemma only_syscall_gate_is_callable_witness :
  let s' := (hal_interrupts_init gdt_boot idt_zero).2 in deliver (fst (idtr s')) (idt s') 14 3 true = GeneralProtection.
Proof.
  pose proof (only_syscall_gate_is_callable gdt_boot idt_zero 14 3 true 0 stubs_u64 (fun i => lookup_total_empty i)
    ltac:(lia) ltac:(lia)) as H.
  destruct (hal_interrupts_init gdt_boot idt_zero) as [g' s']. exact (proj1 H).
Defined.

(** A handler that adds its arguments and writes below its frame. *)
Lemma syscall_calling_convention_witness :
  let h := fun n x y z (m : gmap Z Z) => (n + x + y + z, <[0 := 7]> m) in
  (hal_syscall h 4 30 200 1000 (Gregs 0 1 2 3 4 5 6 8 9 10 11 12 13 14 15) (∅, 0x21000)).1.1 = 1234.
Proof.
  intros h. set (r := Gregs 0 1 2 3 4 5 6 8 9 10 11 12 13 14 15).
  destruct (syscall_calling_convention h 4 30 200 1000 r ∅ 0x21000) as (m1 & _ & H).
  - intros n x y z m a Ha. apply aget_ne. lia.
  - cbv zeta in H. destruct (hal_syscall h 4 30 200 1000 r (∅, 0x21000)) as [[v r'] [m' sp']].
    destruct H as (Hv & _). exact Hv.
Defined.

Lemma faults_are_reported_witness :
  exists c, exception_handler 14 2 0x2B010 0xDEAD000 world0 =
    Panics (set_con c (set_kern (hal_halt_forever (hal_disable_interrupts (w_kern world0))) world0)).
Proof.
  pose proof (faults_are_reported 14 2 0x2B010 0xDEAD000 world0 (ok_con _ world0_ok)) as H.
  destruct H as (c & H & _); [unfold in_u64; lia.. | unfold TIMER_VECTOR; lia | unfold KEYBOARD_VECTOR; lia |].
  exists c. exact H.
Defined.
End InterruptDemo.
