(* ===== verification/Machine.v ===== *)
(** * The running machine

    The components together: from any well-formed state, any sequence of
    system calls, interrupts, faults, ring-3 stores and hardware activity keeps
    every component's invariant, and the processor always continues in the
    address space and on the kernel stack of the actor the scheduler chose. *)
From S2P Require Import Prelude Paging Memory Storage Gdt Actor Scheduler Ports Pic Keyboard Rtc Console Net Access Isolation Place Loader Syscall Authority Interrupts.

(** ** Every system call leaves the processor in place *)

Section settles.
Context {L : layout} {LOK : layout_ok L} {KL : klayout} {KC : kcode}.
Context {B D N : Type} `{!PortBus B} `{!BlockDevice D} `{!BlockDeviceLaws D} `{!NetDevice N}.
Context (Hcode : actor_trampoline_addr <> schedule_next_ret).
Implicit Types (w : world B D N) (k : kern).

Definition stays w w' : Prop := same_place (w_kern w) (w_kern w').

Ltac ended H := cbn [final finish reply denied] in H; injection H as <-.
Ltac either H := apply (either_branch _ _ _ _ _ H); clear H; intros H.

Lemma kern_call_stays f w w' : (forall k, same_place k (f k).2) -> final (kern_call f w) = Some w' -> stays w w'.
Proof.
  intros Hf. unfold kern_call. pose proof (Hf (w_kern w)) as H. destruct (f (w_kern w)) as [rc k].
  intros E. ended E. exact H.
Qed.

Lemma event_call ev f : switching ev = false -> (forall k, coded (f k) = run_event ev k) ->
  forall k, same_place k (f k).2.
Proof.
  intros Hs Hf k. pose proof (place_event ev k Hs) as H. rewrite <- Hf in H. unfold coded in H.
  by destruct (f k).
Qed.

Lemma store_stays k w x (f : kern -> outcome (world B D N)) w' :
  same_place (w_kern w) k ->
  (forall k', x = Ok k' -> same_place k k') -> (forall k', final (f k') = Some w' -> w_kern w' = k') ->
  final (finish (let? k := x in Ok (f k))) = Some w' -> stays w w'.
Proof.
  intros H0 H1 H2 H. apply finish_bind in H as (k' & E & H). cbn [finish] in H. unfold stays.
  rewrite (H2 _ H). etransitivity; [exact H0 | by apply H1].
Qed.

Lemma land_settled live k0 k w w' : scheduled live k0 false k -> final (land k w) = Some w' -> settled (w_kern w').
Proof.
  intros Hs. pose proof (switch_settled live k0 k Hs) as H. unfold land. destruct (resume k) as [l k1]. cbn [snd] in H.
  destruct l as [| |m| |]; intros E; [| |apply finish_bind in E as (k2 & Es & E)| |]; cbn [final finish] in E;
    injection E as <-; try exact H. eapply settled_place; [by eapply place_store | exact H].
Qed.

Lemma leaving_settled st fr w w' :
  machine_ok w -> in_syscall (w_kern w) -> settled (w_kern w) ->
  (st = ACTOR_READY /\ fr = FYield \/ st = ACTOR_DEAD /\ fr = FExit) ->
  final (let '(returned, k) := leave st fr (hal_disable_interrupts (w_kern w)) in
         if returned then reply 0 (set_kern k w) else land k w) = Some w' -> settled (w_kern w').
Proof.
  intros Hw [Hh H0 Hs _] Hon Hcase. destruct (sound_kinv _ (ok_kern _ Hw) Hh) as [live Hi].
  unfold leave. set (k := hal_disable_interrupts (w_kern w)).
  destruct (schedule_next _ _) as [b k2] eqn:E. intros H.
  destruct (yield_schedules Hcode live k st fr b k2 (kinv_irq live _ false Hi) H0 Hs Hh Hcase E) as (l & k1 & Hsch).
  destruct b; [ended H | by eapply land_settled].
  apply (settled_place (w_kern w)); [|exact Hon]. apply place_resched in E. etransitivity; [|exact E]. done.
Qed.

Lemma sys_receive_settled a1 w w' :
  machine_ok w -> in_syscall (w_kern w) -> settled (w_kern w) ->
  final (sys_receive a1 w) = Some w' -> settled (w_kern w').
Proof.
  intros Hw [Hh H0 Hs _] Hon. destruct (sound_kinv _ (ok_kern _ Hw) Hh) as [live Hi].
  unfold sys_receive, actor_receive. set (w1 := set_recv _ w). change (w_kern w1) with (w_kern w).
  set (k := hal_disable_interrupts (w_kern w)).
  assert (Hik : kinv live k) by by apply kinv_irq.
  destruct (Z.eqb_spec (mailbox_count (act k (current_actor k))) 0) as [Hz|Hz].
  - destruct (receive_schedules Hcode live k Hik H0 Hs Hh Hz) as (k2 & l & -> & Hsch). by apply (land_settled l k).
  - rewrite receive_loop_nonempty by done. intros H. apply finish_bind in H as (k2 & E & H). ended H.
    apply (settled_place (w_kern w)); [|exact Hon].
    etransitivity; [|exact (place_store _ _ _ _ E)]. transitivity k; [done | apply place_dequeue].
Qed.

Lemma loader_place id sc k (st : storage D) rc sc' k' st' :
  loader_spawn_program id sc k st = Ok (rc, sc', k', st') -> same_place k k'.
Proof.
  unfold loader_spawn_program. destruct (storage_read _ _ _ _) as [[n buf] st1].
  destruct (n <? HEADER_BYTES); [by intros [= <- <- <- <-]|]. destruct (negb _); [by intros [= <- <- <- <-]|].
  set (pages := int32 _). pose proof (contig_cr3 0x200000 pages (mem k)) as Hc3.
  unfold alloc_dma_pages. destruct (find_and_claim_contig _ _ _) as [a m]. cbn [snd] in Hc3.
  destruct (a =? 0); [by intros [= <- <- <- <-]; split|].
  destruct (store_bytes _ _ _) as [k1| |] eqn:Es; cbn [bind_access]; [|done|done]. apply place_store in Es.
  pose proof (place_event (EvSpawnProgram a (u64 (pages * 4096)) (entry_offset (read_header buf))) k1 eq_refl) as He.
  cbn [run_event coded] in He. destruct (actor_spawn_program_child _ _ _ _) as [r k2]. cbn [snd] in He.
  intros [= <- <- <- <-]. etransitivity; [|exact He]. etransitivity; [|exact Es]. by split.
Qed.

Lemma grant_creator_place id k : same_place k (grant_creator id k).
Proof.
  unfold grant_creator.
  assert (Hg : forall op k1 r k2, actor_grant (actor_current_slot k) op id k1 = (r, k2) -> same_place k1 k2).
  { intros op k1 r k2 E. pose proof (place_event (EvGrant (actor_current_slot k) op id) k1 eq_refl) as H.
    cbn [run_event coded] in H. by rewrite E in H. }
  destruct (actor_grant _ CAP_READ_OBJECT id k) as [r1 k1] eqn:E1. apply Hg in E1.
  destruct (actor_grant _ CAP_WRITE_OBJECT id k1) as [r2 k2] eqn:E2. apply Hg in E2.
  destruct (actor_grant _ CAP_RENAME_OBJECT id k2) as [r3 k3] eqn:E3. apply Hg in E3.
  destruct (actor_grant _ CAP_DELETE_OBJECT id k3) as [r4 k4] eqn:E4. apply Hg in E4.
  by rewrite E1, E2, E3.
Qed.

Lemma guarded_settled op t w o w' : settled (w_kern w) ->
  final (with_cap op t w o) = Some w' -> (final o = Some w' -> settled (w_kern w')) -> settled (w_kern w').
Proof. intros Hs H Ho. apply with_cap_final in H as [->|[_ H]]; auto. Qed.

Lemma same_kern w w' : settled (w_kern w) -> w_kern w' = w_kern w -> settled (w_kern w').
Proof. by intros H ->. Qed.

Lemma sys_object_read_stays a1 a2 a3 w w' : final (sys_object_read a1 a2 a3 w) = Some w' -> stays w w'.
Proof.
  unfold sys_object_read. destruct (storage_read _ _ _ _) as [[rc buf] s]. intros H.
  apply finish_bind in H as (k & E & H). ended H. exact (place_store _ _ _ _ E).
Qed.

Lemma sys_net_receive_stays a1 a2 w w' : final (sys_net_receive a1 a2 w) = Some w' -> stays w w'.
Proof.
  unfold sys_net_receive. destruct (net_poll_receive_message _ _ _ _) as [[rc o] n]. destruct (rc =? 1); intros H.
  - apply finish_bind in H as (k & E & H). ended H. exact (place_store _ _ _ _ E).
  - ended H. by unfold stays.
Qed.

Lemma sys_spawn_program_stays a1 w w' : final (sys_spawn_program a1 w) = Some w' -> stays w w'.
Proof.
  unfold sys_spawn_program. intros H. apply finish_bind in H as ([[[rc sc] k] s] & E & H). ended H.
  exact (loader_place _ _ _ _ _ _ _ _ E).
Qed.

Lemma sys_list_objects_stays a1 a2 w w' : final (sys_list_objects a1 a2 w) = Some w' -> stays w w'.
Proof.
  unfold sys_list_objects. destruct (storage_get_by_index _ _ _) as [rc i]. destruct (negb _); intros H.
  - ended H. by unfold stays.
  - apply finish_bind in H as (k & E & H). ended H. exact (place_store _ _ _ _ E).
Qed.

Lemma sys_create_name_stays a1 w w' : final (sys_create_name a1 w) = Some w' -> stays w w'.
Proof.
  unfold sys_create_name. intros H. apply finish_bind in H as (u & _ & H).
  destruct (storage_create_named _ _) as [id s]. destruct (id <? 0); ended H; [by unfold stays|].
  exact (grant_creator_place id (w_kern w)).
Qed.

Lemma sys_rtc_read_stays a1 w w' : final (sys_rtc_read a1 w) = Some w' -> stays w w'.
Proof.
  unfold sys_rtc_read. destruct (hal_rtc_read _) as [t b]. intros H.
  apply finish_bind in H as (k & E & H). apply finish_bind in H as (k2 & E2 & H). ended H.
  change (same_place (w_kern w) k2). etransitivity; by eapply place_store.
Qed.

Lemma sys_yield_settled w w' : machine_ok w -> in_syscall (w_kern w) -> settled (w_kern w) ->
  final (sys_yield w) = Some w' -> settled (w_kern w').
Proof.
  intros Hw Hs Hon. unfold sys_yield. rewrite yield_leave by apply Hs. apply leaving_settled; [done | done | done | by left].
Qed.

Lemma sys_exit_settled w w' : machine_ok w -> in_syscall (w_kern w) -> settled (w_kern w) ->
  final (sys_exit w) = Some w' -> settled (w_kern w').
Proof.
  intros Hw Hs Hon. unfold sys_exit. rewrite exit_leave. apply leaving_settled; [done | done | done | by right].
Qed.

Lemma handler_settled fuel num a1 a2 a3 w w' :
  machine_ok w -> in_syscall (w_kern w) -> settled (w_kern w) ->
  final (syscall_handler fuel num a1 a2 a3 w) = Some w' -> settled (w_kern w').
Proof.
  intros Hw Hs Hon. unfold syscall_handler. intros H.
  assert (Hst : stays w w' -> settled (w_kern w')) by (intros P; exact (settled_place _ _ P Hon)).
  assert (Hsame : w_kern w' = w_kern w -> settled (w_kern w')) by by intros ->.
  either H; [by eapply Hsame, sys_write_kern|].
  either H; [exact (sys_yield_settled w w' Hw Hs Hon H)|].
  either H; [exact (sys_exit_settled w w' Hw Hs Hon H)|].
  either H; [apply Hst, (kern_call_stays (actor_send (int32 a1) a2 a3)); [exact (event_call (EvSend (int32 a1) a2 a3) (actor_send (int32 a1) a2 a3) eq_refl (fun _ => eq_refl)) | exact H]|].
  either H; [by eapply sys_receive_settled|].
  either H; [apply Hst, (kern_call_stays (actor_delegate (int32 a1) (int32 a2) (int32 a3))); [exact (event_call (EvDelegate (int32 a1) (int32 a2) (int32 a3)) (actor_delegate (int32 a1) (int32 a2) (int32 a3)) eq_refl (fun _ => eq_refl)) | exact H]|].
  either H; [apply Hst, (kern_call_stays (actor_spawn_child a1)); [exact (event_call (EvSpawnChild a1) (actor_spawn_child a1) eq_refl (fun _ => eq_refl)) | exact H]|].
  either H; [apply Hst, (kern_call_stays (actor_terminate (int32 a1))); [exact (event_call (EvTerminate (int32 a1)) (actor_terminate (int32 a1)) eq_refl (fun _ => eq_refl)) | exact H]|].
  either H; [eapply guarded_settled; [done..|]; intros Ho; by eapply Hst, sys_object_read_stays|].
  either H; [eapply guarded_settled; [done..|]; intros Ho; by eapply Hsame, sys_object_write_kern|].
  do 2 (either H; [eapply guarded_settled; [done..|]; intros Ho; by eapply Hsame, sto_call_kern|]).
  do 3 (either H; [eapply guarded_settled; [done..|]; intros Ho; by eapply Hsame, net_call_kern|]).
  either H; [eapply guarded_settled; [done..|]; intros Ho; by eapply Hst, sys_net_receive_stays|].
  either H; [eapply guarded_settled; [done..|]; intros Ho; by eapply Hst, sys_spawn_program_stays|].
  either H; [by eapply Hsame, sys_lookup_name_kern|].
  either H; [eapply guarded_settled; [done..|]; intros Ho; by eapply Hst, sys_list_objects_stays|].
  either H; [eapply guarded_settled; [done..|]; intros Ho; by eapply Hst, sys_create_name_stays|].
  either H; [eapply guarded_settled; [done..|]; intros Ho; by eapply Hsame, sys_rename_object_kern|].
  either H; [eapply guarded_settled; [done..|]; intros Ho; by eapply Hsame, sto_call_kern|].
  either H; [eapply guarded_settled; [done..|]; intros Ho; by eapply Hsame, sys_key_read_kern|].
  either H; [by eapply Hst, sys_rtc_read_stays|]. by ended H.
Qed.
End settles.

(** ** The machine as a transition system *)

Section machine.
Context {L : layout} {LOK : layout_ok L} {KL : klayout} {KC : kcode}.
Context {B D N : Type} `{!PortBus B} `{!BlockDevice D} `{!BlockDeviceLaws D} `{!NetDevice N}.
Context (Hcode : actor_trampoline_addr <> schedule_next_ret).
Implicit Types (w : world B D N) (k : kern).

(** What the machine is doing: it goes on (or has halted) in a known state; it
    has stopped on a page fault of the kernel, which panics; a store of the
    kernel has landed in its own image, after which this model says nothing; or
    it spins on the console's lock for ever. *)
Inductive status := Runs w | Faulted (va : Z) | Overwritten (va : Z) | Hung.

(** The status a system call ends in; [None] when it has not ended yet. *)
Definition after (o : outcome (world B D N)) : option status :=
  match o with
  | Back _ w | Switched _ w => Some (Runs w)
  | Crashed va => Some (Faulted va)
  | Overwrote va => Some (Overwritten va)
  | Deadlock => Some Hung
  | OutOfFuel => None
  end.

Definition after_interrupt (h : handled (world B D N)) : option status :=
  match h with Resumes w | Panics w => Some (Runs w) | Elsewhere o => after o | PanicDeadlock => Some Hung end.

(** An actor is running, not the boot code, and the machine has not stopped. *)
Definition running k : Prop := halted k = false /\ 0 <= current_actor k.

(** A trap enters the kernel on the current actor's own stack. *)
Definition trap (c : cpu) w : world B D N := set_kern (enter c (w_kern w)) w.

(** One step of the machine: a system call or an interrupt taken while an
    actor runs, however it ends; stores by the actor's own code; or activity of
    the hardware behind the ports and the network. *)
Inductive mstep : status -> status -> Prop :=
| step_syscall fuel num a1 a2 a3 c w s :
    running (w_kern w) -> in_own_stack (current_actor (w_kern w)) (c_rsp c) ->
    after (syscall_handler fuel num a1 a2 a3 (trap c w)) = Some s -> mstep (Runs w) s
| step_interrupt vector error_code rip cr2 c w s :
    running (w_kern w) -> in_own_stack (current_actor (w_kern w)) (c_rsp c) ->
    in_u64 vector -> in_u64 error_code -> in_u64 rip -> in_u64 cr2 ->
    after_interrupt (exception_handler vector error_code rip cr2 (trap c w)) = Some s -> mstep (Runs w) s
| step_user f w : running (w_kern w) -> mstep (Runs w) (Runs (set_kern (set_ram f (w_kern w)) w))
| step_hardware b (n : N) w :
    mstep (Runs w) (Runs (set_bus b (set_net (set_nic n (w_net w)) w))).

(** Between two steps. *)
Record machine_inv w : Prop := MachineInv { mi_ok : machine_ok w; mi_place : settled (w_kern w) }.

Lemma trap_ok c w : machine_ok w -> machine_ok (trap c w).
Proof.
  intros [[(live & Hc & Hr) Hi] ? ? ?]. split; try done. split; [|by apply isolated_enter].
  exists live. split; [|exact Hr]. by apply (kcore_frame live (w_kern w)).
Qed.

Lemma trap_in_syscall c w : settled (w_kern w) -> running (w_kern w) ->
  in_own_stack (current_actor (w_kern w)) (c_rsp c) -> in_syscall (w_kern (trap c w)).
Proof. intros [Hh|[H1 H2 H3]] [Hr H0] Hs; [congruence | by split]. Qed.

Lemma trap_settled c w : settled (w_kern w) -> settled (w_kern (trap c w)).
Proof. apply settled_place. done. Qed.

(** A store through [va] that nothing checked: an address below 1MB inside a
    buffer of a permitted call made at [w], or of the pending receive of the
    actor a switch made at [w] resumes. *)
Definition wild_store (va : Z) w : Prop :=
  0 <= va < COMMONS_END /\ exists num a1 a2 a3, permitted num a1 a2 a3 (w_kern w) /\ stores_at num a1 a2 a3 va w.

(** A fault on a buffer of a permitted call. *)
Definition stray_access (va : Z) w : Prop :=
  exists num a1 a2 a3, permitted num a1 a2 a3 (w_kern w) /\ (in_argument Loads num a1 a2 a3 va \/ stores_at num a1 a2 a3 va w).

Definition next_ok w s : Prop :=
  match s with
  | Runs w' => machine_inv w'
  | Faulted va => stray_access va w
  | Overwritten va => wild_store va w
  | Hung => False
  end.

(** The timer's handler is a yield, after the acknowledgement. *)
Lemma timer_is_yield e i a w :
  after_interrupt (exception_handler TIMER_VECTOR e i a w) = after (sys_yield (set_bus (hal_pic_send_eoi 0 (w_bus w)) w)).
Proof.
  unfold exception_handler, sys_yield. rewrite Z.eqb_refl. change (w_kern (set_bus _ w)) with (w_kern w).
  by destruct (actor_yield (w_kern w)) as [[] k].
Qed.

Lemma syscall_next fuel num a1 a2 a3 w s :
  machine_ok w -> in_syscall (w_kern w) -> settled (w_kern w) ->
  after (syscall_handler fuel num a1 a2 a3 w) = Some s -> next_ok w s.
Proof.
  intros Hw Hs Hon. pose proof (syscalls_preserve_machine Hcode fuel num a1 a2 a3 w) as H1.
  pose proof (handler_settled Hcode fuel num a1 a2 a3 w) as H2.
  pose proof (handler_strays Hcode fuel num a1 a2 a3 w Hw Hs) as H3. unfold call_strays in H3.
  pose proof (stray_permitted fuel num a1 a2 a3 w Hcode Hw Hs) as H4.
  destruct (syscall_handler fuel num a1 a2 a3 w) as [r w'|l w'|va|va| |]; cbn [after strays] in *; intros [= <-]; cbn [next_ok].
  - split; [by apply (H1 w') | by apply (H2 w')].
  - split; [by apply (H1 w') | by apply (H2 w')].
  - by exists num, a1, a2, a3.
  - split; [apply H3|]. exists num, a1, a2, a3. split; [done | apply H3].
  - done.
Qed.

Lemma interrupt_next vector e i a w s :
  machine_ok w -> in_syscall (w_kern w) -> settled (w_kern w) ->
  in_u64 vector -> in_u64 e -> in_u64 i -> in_u64 a ->
  after_interrupt (exception_handler vector e i a w) = Some s -> next_ok w s.
Proof.
  intros Hw Hs Hon Hv He Hi Ha. destruct (Z.eq_dec vector TIMER_VECTOR) as [->|Hnt].
  { rewrite timer_is_yield. set (w1 := set_bus _ w). assert (H1 : machine_ok w1) by by destruct Hw; split.
    exact (syscall_next 0 SYS_YIELD 0 0 0 w1 s H1 Hs Hon). }
  unfold exception_handler. rewrite (proj2 (Z.eqb_neq _ _) Hnt).
  destruct (Z.eqb_spec vector KEYBOARD_VECTOR).
  - change (w_kbd (set_bus _ w)) with (w_kbd w). unfold hal_keyboard_irq_handler, inb.
    destruct (port_in 1 KBD_DATA_PORT _) as [sc b] eqn:Ep. cbn [after_interrupt]. intros [= <-].
    assert (Hk : kbd_ok (handle_scancode (u8 sc) (w_kbd w))) by (apply scancode_refines; [apply u8_range | apply Hw]).
    split; [|exact Hon]. destruct Hw as [W1 W2 W3 W4]. by split.
  - change (w_con (set_kern _ w)) with (w_con w).
    destruct (panic_screen_sent vector e i a (w_con w) (ok_con _ Hw) Hv He Hi Ha) as (c & -> & Hc & _).
    cbn [after_interrupt]. intros [= <-]. split; [|by left].
    destruct Hw as [[(live & Hk & _) Hx] W2 W3 W4]. split; try done. split; [|by apply (isolated_keeps (w_kern w)); [apply keeps_same|]].
    exists live. split; [by apply (kcore_frame live (w_kern w)) | done].
Qed.

Lemma mstep_next w s : machine_inv w -> mstep (Runs w) s -> next_ok w s.
Proof.
  intros [Hw Hp] Hstep. inversion Hstep as [fuel num a1 a2 a3 c w0 s0 Hr Hs H|v e i a c w0 s0 Hr Hs Hv He Hi Ha H|f w0 Hr|b n w0]; subst.
  - pose proof (syscall_next fuel num a1 a2 a3 _ s (trap_ok c w Hw) (trap_in_syscall c w Hp Hr Hs) (trap_settled c w Hp) H) as Hn.
    by destruct s.
  - pose proof (interrupt_next v e i a _ s (trap_ok c w Hw) (trap_in_syscall c w Hp Hr Hs) (trap_settled c w Hp) Hv He Hi Ha H) as Hn.
    by destruct s.
  - split; [|by apply (settled_place (w_kern w))]. apply ok_with; [done|]. apply sound_ram, Hw.
  - destruct Hw. by split; [split|].
Qed.

(** Every system call ends: with enough fuel for the longest string that is
    mapped, the handler has an outcome. *)
Lemma syscall_ends num a1 a2 a3 c w :
  machine_inv w -> running (w_kern w) -> in_own_stack (current_actor (w_kern w)) (c_rsp c) ->
  exists fuel s, after (syscall_handler fuel num a1 a2 a3 (trap c w)) = Some s.
Proof.
  intros [Hw Hp] Hr Hs.
  assert (Hfuel : exists fuel, 2 ^ 47 < Z.of_nat fuel) by (exists (Z.to_nat (2 ^ 47 + 1)); rewrite Z2Nat.id; lia).
  destruct Hfuel as [fuel Hf]. exists fuel.
  pose proof (handler_strays Hcode fuel num a1 a2 a3 _ (trap_ok c w Hw) (trap_in_syscall c w Hp Hr Hs)) as H. unfold call_strays in H.
  destruct (syscall_handler fuel num a1 a2 a3 (trap c w)); cbn [after strays] in *; try by eexists. lia.
Qed.

(** What is reached from [w]: a well-formed state that is where the scheduler
    put it and where every system call ends; or a stop or a wild store that a
    reached state's system call or switch made through an unchecked pointer. *)
Definition reaches_well w s : Prop :=
  match s with
  | Runs w' =>
      machine_ok w' /\
      (halted (w_kern w') = false ->
       0 <= current_actor (w_kern w') < MAX_ACTORS /\
       state (act (w_kern w') (current_actor (w_kern w'))) = ACTOR_RUNNING /\
       cr3 (mach (mem (w_kern w'))) = pml4_of (current_actor (w_kern w')) /\
       rsp0 (ktss (w_kern w')) = ktop (current_actor (w_kern w')) /\
       forall num a1 a2 a3 c, in_own_stack (current_actor (w_kern w')) (c_rsp c) ->
         exists fuel s', after (syscall_handler fuel num a1 a2 a3 (trap c w')) = Some s')
  | Faulted va => exists w0, rtc mstep (Runs w) (Runs w0) /\ stray_access va w0
  | Overwritten va => exists w0, rtc mstep (Runs w) (Runs w0) /\ wild_store va w0
  | Hung => False
  end.

Lemma reached_well w s : machine_inv w -> rtc mstep (Runs w) s -> reaches_well w s.
Proof.
  intros Hi Hrun.
  assert (H : match s with
              | Runs w' => machine_inv w'
              | Faulted va => exists w0, rtc mstep (Runs w) (Runs w0) /\ stray_access va w0
              | Overwritten va => exists w0, rtc mstep (Runs w) (Runs w0) /\ wild_store va w0
              | Hung => False
              end).
  { revert s Hrun. apply rtc_ind_r; [exact Hi|]. intros s1 s2 Hr Hstep IH.
    destruct s1 as [w1|va|va|]; [|by inversion Hstep..].
    pose proof (mstep_next w1 s2 IH Hstep) as Hn. destruct s2; cbn in Hn |- *; eauto. }
  destruct s as [w'|va|va|]; try exact H. destruct H as [Hok Hpl]. split; [done|]. intros Hh.
  destruct Hpl as [E|Hon]; [congruence|]. pose proof Hon as [H0 H1 H2].
  destruct (sound_kinv _ (ok_kern _ Hok) Hh) as (live & Hc & Hr). pose proof (kc_cur _ _ Hc).
  split_and!; [lia | lia | by apply Hr; [lia|] | done | done |].
  intros num a1 a2 a3 c Hs. apply syscall_ends; [by split; [|right] | by split | exact Hs].
Qed.

End machine.

(** ** A closed run *)
Module MachineDemo.
Import RamDisk Demo SyscallDemo.

Lemma world0_place : settled (w_kern world0) /\ running (w_kern world0).
Proof.
  assert (H : rsp0 (ktss kernS) = ktop 0) by (vm_compute; reflexivity).
  destruct kernS_flags as (H1 & H2 & H3 & H4). change (w_kern world0) with kernS.
  split; [right; split | split]; rewrite ?H2; [lia | exact H4 | exact H | exact H1 | lia].
Qed.

End MachineDemo.
