(* ===== verification/VirtioNet.v ===== *)
(** * The network driver

    Models [hal/x86_64/virtio_net.c], the legacy virtio-net driver: two
    descriptor rings in DMA memory shared with the device.  Rings and buffers
    are bytes of physical memory, above the private window and so mapped one to
    one in every address space; the device changes them on its own whenever the
    driver looks ([dma]).  A buffer number the device returns is used unchecked
    as an index into the eight receive buffers, as in the source; the model
    reads address 0 for a number out of range, where C reads past the array. *)
From S2P Require Import Prelude Paging Memory Ports Pci Net.

Definition VIRTIO_VENDOR_ID : Z := 0x1AF4.
Definition VIRTIO_NET_DEVICE_ID_LEGACY : Z := 0x1000.
Definition VIRTIO_REG_HOST_FEATURES : Z := 0x00.
Definition VIRTIO_REG_GUEST_FEATURES : Z := 0x04.
Definition VIRTIO_REG_QUEUE_PFN : Z := 0x08.
Definition VIRTIO_REG_QUEUE_NUM : Z := 0x0C.
Definition VIRTIO_REG_QUEUE_SEL : Z := 0x0E.
Definition VIRTIO_REG_QUEUE_NOTIFY : Z := 0x10.
Definition VIRTIO_REG_STATUS : Z := 0x12.
Definition VIRTIO_REG_CONFIG : Z := 0x14.
Definition VIRTIO_STATUS_ACKNOWLEDGE : Z := 0x01.
Definition VIRTIO_STATUS_DRIVER : Z := 0x02.
Definition VIRTIO_STATUS_DRIVER_OK : Z := 0x04.
Definition VIRTIO_STATUS_FAILED : Z := 0x80.
Definition VIRTQ_DESC_F_WRITE : Z := 2.
Definition VIRTIO_QUEUE_RX : Z := 0.
Definition VIRTIO_QUEUE_TX : Z := 1.
Definition NET_HDR_LEN : Z := 10.
Definition RX_BUF_COUNT : Z := 8.
Definition FRAME_BUF_SIZE : Z := 2048.
Definition TX_SPINS : Z := 1000000.

(** What the device does to memory between two accesses of the driver. *)
Class DmaBus (B : Type) := { dma : gmap Z Z -> B -> gmap Z Z * B }.

(** [struct virtq], its pointers as addresses. *)
Record virtq := Virtq {
  q_desc : Z; q_avail_idx : Z; q_avail_ring : Z; q_used_idx : Z; q_used_ring : Z;
  q_size : Z; q_last_used : Z; q_next_avail : Z }.

(** The static variables, the allocator with the memory, and the ports. *)
Record nic_state (B : Type) := Nic {
  io_base : Z; config_off : Z; rx_q : virtq; tx_q : virtq; rx_bufs : gmap Z Z; tx_buf : Z; net_ready : Z;
  n_mem : mem_state; n_bus : B }.
Arguments Nic {B} _ _ _ _ _ _ _ _ _.
Arguments io_base {B} _.
Arguments config_off {B} _.
Arguments rx_q {B} _.
Arguments tx_q {B} _.
Arguments rx_bufs {B} _.
Arguments tx_buf {B} _.
Arguments net_ready {B} _.
Arguments n_mem {B} _.
Arguments n_bus {B} _.

Section driver.
Context {B : Type} `{!PortBus B} `{!DmaBus B}.
Implicit Types (s : nic_state B) (q : virtq) (ram : gmap Z Z).

Definition n_ram s : gmap Z Z := ram (mach (n_mem s)).
Definition put_ram (r : gmap Z Z) (m : mem_state) : mem_state :=
  set_mach (Machine r (cr3 (mach m)) (faulted (mach m))) m.

Definition set_pci (io off : Z) s : nic_state B :=
  Nic io off (rx_q s) (tx_q s) (rx_bufs s) (tx_buf s) (net_ready s) (n_mem s) (n_bus s).
Definition set_rx q s : nic_state B :=
  Nic (io_base s) (config_off s) q (tx_q s) (rx_bufs s) (tx_buf s) (net_ready s) (n_mem s) (n_bus s).
Definition set_tx q s : nic_state B :=
  Nic (io_base s) (config_off s) (rx_q s) q (rx_bufs s) (tx_buf s) (net_ready s) (n_mem s) (n_bus s).
Definition set_rx_buf (i a : Z) s : nic_state B :=
  Nic (io_base s) (config_off s) (rx_q s) (tx_q s) (<[i := a]> (rx_bufs s)) (tx_buf s) (net_ready s) (n_mem s) (n_bus s).
Definition set_tx_buf (a : Z) s : nic_state B :=
  Nic (io_base s) (config_off s) (rx_q s) (tx_q s) (rx_bufs s) a (net_ready s) (n_mem s) (n_bus s).
Definition set_ready (v : Z) s : nic_state B :=
  Nic (io_base s) (config_off s) (rx_q s) (tx_q s) (rx_bufs s) (tx_buf s) v (n_mem s) (n_bus s).
Definition set_n_mem (m : mem_state) s : nic_state B :=
  Nic (io_base s) (config_off s) (rx_q s) (tx_q s) (rx_bufs s) (tx_buf s) (net_ready s) m (n_bus s).
Definition set_n_bus (b : B) s : nic_state B :=
  Nic (io_base s) (config_off s) (rx_q s) (tx_q s) (rx_bufs s) (tx_buf s) (net_ready s) (n_mem s) b.
Definition set_n_ram (r : gmap Z Z) s : nic_state B := set_n_mem (put_ram r (n_mem s)) s.

(** [outb(io_base + reg, v)] and friends. *)
Definition reg_outb (reg v : Z) s : nic_state B := set_n_bus (outb (u16 (io_base s + reg)) v (n_bus s)) s.
Definition reg_outw (reg v : Z) s : nic_state B := set_n_bus (outw (u16 (io_base s + reg)) v (n_bus s)) s.
Definition reg_outl (reg v : Z) s : nic_state B := set_n_bus (outl (u16 (io_base s + reg)) v (n_bus s)) s.

Definition virtq_used_elem_id q (slot : Z) ram : Z := load 4 (q_used_ring q + slot * 8) ram.
Definition virtq_used_elem_len q (slot : Z) ram : Z := load 4 (q_used_ring q + slot * 8 + 4) ram.

(** The queue laid out at [base]. *)
Definition virtq_layout (base qsize : Z) : virtq :=
  let desc_bytes := u32 (16 * qsize) in
  let avail_bytes := u32 (4 + 2 * qsize) in
  let used_offset := u32 (desc_bytes + avail_bytes + 4095) .&. 0xFFFFF000 in
  Virtq base (base + desc_bytes + 2) (base + desc_bytes + 4) (base + used_offset + 2) (base + used_offset + 4) qsize 0 0.
Definition virtq_bytes (qsize : Z) : Z :=
  u32 ((u32 (u32 (16 * qsize) + u32 (4 + 2 * qsize) + 4095) .&. 0xFFFFF000) + u32 (4 + 8 * qsize)).

Definition virtq_init (queue_index : Z) s : option virtq * nic_state B :=
  let s := reg_outw VIRTIO_REG_QUEUE_SEL queue_index s in
  let '(qsize, b) := inw (u16 (io_base s + VIRTIO_REG_QUEUE_NUM)) (n_bus s) in
  let s := set_n_bus b s in
  if qsize =? 0 then (None, s)
  else
    let pages := int32 (u32 (virtq_bytes qsize + 4095) / 4096) in
    let '(mem, m) := alloc_dma_pages pages (n_mem s) in
    let s := set_n_mem m s in
    if mem =? 0 then (None, s)
    else (Some (virtq_layout mem qsize), reg_outl VIRTIO_REG_QUEUE_PFN (u32 (mem / 4096)) s).

Definition set_next_avail (v : Z) q : virtq :=
  Virtq (q_desc q) (q_avail_idx q) (q_avail_ring q) (q_used_idx q) (q_used_ring q) (q_size q) (q_last_used q) v.
Definition set_last_used (v : Z) q : virtq :=
  Virtq (q_desc q) (q_avail_idx q) (q_avail_ring q) (q_used_idx q) (q_used_ring q) (q_size q) v (q_next_avail q).

(** The memory writes of [virtq_publish], and its queue state. *)
Definition publish_ram q (desc_index : Z) ram : gmap Z Z :=
  let ram := store 2 (q_avail_ring q + 2 * (q_next_avail q mod q_size q)) desc_index ram in
  store 2 (q_avail_idx q) (u16 (q_next_avail q + 1)) ram.
Definition published q : virtq := set_next_avail (u16 (q_next_avail q + 1)) q.

(** One descriptor. *)
Definition put_desc q (i addr len flags : Z) ram : gmap Z Z :=
  let d := q_desc q + 16 * i in
  store 2 (d + 14) 0 (store 2 (d + 12) flags (store 4 (d + 8) len (store 8 d addr ram))).

Definition virtq_publish_rx (desc_index : Z) s : nic_state B :=
  let s := set_n_ram (publish_ram (rx_q s) desc_index (n_ram s)) s in
  reg_outw VIRTIO_REG_QUEUE_NOTIFY VIRTIO_QUEUE_RX (set_rx (published (rx_q s)) s).
Definition virtq_publish_tx (desc_index : Z) s : nic_state B :=
  let s := set_n_ram (publish_ram (tx_q s) desc_index (n_ram s)) s in
  reg_outw VIRTIO_REG_QUEUE_NOTIFY VIRTIO_QUEUE_TX (set_tx (published (tx_q s)) s).

Definition rx_post (desc_index : Z) s : nic_state B :=
  virtq_publish_rx desc_index
    (set_n_ram (put_desc (rx_q s) desc_index (rx_bufs s !!! desc_index) FRAME_BUF_SIZE VIRTQ_DESC_F_WRITE (n_ram s)) s).

Definition init_failed s : Z * nic_state B := (-1, reg_outb VIRTIO_REG_STATUS VIRTIO_STATUS_FAILED s).

(** The loop that fills the receive ring, from buffer [i]. *)
Fixpoint post_buffers (fuel : nat) (i : Z) s : bool * nic_state B :=
  match fuel with
  | O => (true, s)
  | S fuel =>
      if (i <? RX_BUF_COUNT) && (i <? q_size (rx_q s)) then
        let '(a, m) := alloc_dma_pages 1 (n_mem s) in
        let s := set_rx_buf i a (set_n_mem m s) in
        if a =? 0 then (false, s) else post_buffers fuel (i + 1) (rx_post i s)
      else (true, s)
  end.

Definition hal_net_init s : Z * nic_state B :=
  let '(dev, b) := hal_pci_find_device VIRTIO_VENDOR_ID VIRTIO_NET_DEVICE_ID_LEGACY (n_bus s) in
  let s := set_n_bus b s in
  match dev with
  | None => (-1, s)
  | Some dev =>
      let s := set_pci (pd_io_base dev) (u16 (VIRTIO_REG_CONFIG + if pd_has_msix dev =? 0 then 0 else 4)) s in
      let s := reg_outb VIRTIO_REG_STATUS 0 s in
      let s := reg_outb VIRTIO_REG_STATUS VIRTIO_STATUS_ACKNOWLEDGE s in
      let s := reg_outb VIRTIO_REG_STATUS (VIRTIO_STATUS_ACKNOWLEDGE .|. VIRTIO_STATUS_DRIVER) s in
      let '(_, b) := inl (u16 (io_base s + VIRTIO_REG_HOST_FEATURES)) (n_bus s) in
      let s := reg_outl VIRTIO_REG_GUEST_FEATURES 0 (set_n_bus b s) in
      let '(rx, s) := virtq_init VIRTIO_QUEUE_RX s in
      match rx with
      | None => init_failed s
      | Some rx =>
          let s := set_rx rx s in
          let '(tx, s) := virtq_init VIRTIO_QUEUE_TX s in
          match tx with
          | None => init_failed s
          | Some tx =>
              let '(posted, s) := post_buffers (Z.to_nat RX_BUF_COUNT) 0 (set_tx tx s) in
              if negb posted then init_failed s
              else
                let '(a, m) := alloc_dma_pages 1 (n_mem s) in
                let s := set_tx_buf a (set_n_mem m s) in
                if a =? 0 then init_failed s
                else
                  (0, set_ready 1 (reg_outb VIRTIO_REG_STATUS
                        ((VIRTIO_STATUS_ACKNOWLEDGE .|. VIRTIO_STATUS_DRIVER) .|. VIRTIO_STATUS_DRIVER_OK) s))
          end
      end
  end.

Definition hal_net_get_mac (mac : gmap Z Z) s : gmap Z Z * nic_state B :=
  let '(mac, b) := loop (fun i (x : gmap Z Z * B) =>
                           let '(v, b) := inb (u16 (io_base s + config_off s + i)) x.2 in (<[i := v]> x.1, b))
                     0 6 (mac, n_bus s) in
  (mac, set_n_bus b s).

(** The device runs, then the driver looks at [*q.used_idx]. *)
Definition dma_step s : nic_state B :=
  let '(r, b) := dma (n_ram s) (n_bus s) in set_n_bus b (set_n_ram r s).

Definition tx_poll s : option Z * nic_state B :=
  let s := dma_step s in
  let u := load 2 (q_used_idx (tx_q s)) (n_ram s) in
  if negb (u =? q_last_used (tx_q s)) then (Some 0, set_tx (set_last_used u (tx_q s)) s) else (None, s).

Definition hal_net_send (frame : list Z) s : Z * nic_state B :=
  let len := Z.of_nat (length frame) in
  if (net_ready s =? 0) || (FRAME_BUF_SIZE <? u32 (NET_HDR_LEN + len)) then (-1, s)
  else
    let ram := fill (tx_buf s) (fun _ => 0) 0 (Z.to_nat NET_HDR_LEN) (n_ram s) in
    let ram := fill (tx_buf s + NET_HDR_LEN) (fun i => byte_at frame i) 0 (length frame) ram in
    let ram := put_desc (tx_q s) 0 (tx_buf s) (u32 (NET_HDR_LEN + len)) 0 ram in
    let s := virtq_publish_tx 0 (set_n_ram ram s) in
    let '(_, s) := poll_until (Z.to_nat TX_SPINS) tx_poll s in
    (0, s).

Fixpoint rx_loop (spins : nat) (buf : gmap Z Z) (max_len : Z) s : Z * gmap Z Z * nic_state B :=
  match spins with
  | O => (0, buf, s)
  | S spins =>
      let s := dma_step s in
      let q := rx_q s in
      if negb (load 2 (q_used_idx q) (n_ram s) =? q_last_used q) then
        let slot := q_last_used q mod q_size q in
        let desc_index := virtq_used_elem_id q slot (n_ram s) in
        let total_len := virtq_used_elem_len q slot (n_ram s) in
        let s := set_rx (set_last_used (u16 (q_last_used q + 1)) q) s in
        if total_len <? NET_HDR_LEN then rx_loop spins buf max_len (rx_post (u16 desc_index) s)
        else
          let frame_len := total_len - NET_HDR_LEN in
          if max_len <? frame_len then (-1, buf, rx_post (u16 desc_index) s)
          else
            let src := rx_bufs s !!! desc_index + NET_HDR_LEN in
            (int32 frame_len, fill 0 (fun i => n_ram s !!! (src + i)) 0 (Z.to_nat frame_len) buf,
             rx_post (u16 desc_index) s)
      else rx_loop spins buf max_len s
  end.

Definition hal_net_poll_receive (buf : gmap Z Z) (max_len max_spins : Z) s : Z * gmap Z Z * nic_state B :=
  if net_ready s =? 0 then (-1, buf, s) else rx_loop (Z.to_nat max_spins) buf max_len s.

(** The driver offers the transport its device. *)
#[export] Instance virtio_device : NetDevice (nic_state B) := {|
  nd_init := hal_net_init;
  nd_get_mac := hal_net_get_mac;
  nd_send := hal_net_send;
  nd_poll := hal_net_poll_receive;
|}.
End driver.

(** ** Slots of a ring *)

Lemma slot_ne p p' n : 0 < n -> 0 < p - p' < n -> p mod n <> p' mod n.
Proof.
  intros Hn Hd E. assert (H : (p - p') mod n = 0) by (rewrite Zminus_mod, E, Z.sub_diag; apply Z.mod_0_l; lia).
  rewrite Z.mod_small in H by lia. lia.
Qed.

Lemma u16_range x : 0 <= u16 x < 2 ^ 16.
Proof. unfold u16. apply Z.mod_pos_bound. lia. Qed.

Lemma u16_add x y : u16 (u16 x + y) = u16 (x + y).
Proof. unfold u16. by rewrite Zplus_mod_idemp_l. Qed.

Lemma u16_ne x y : 0 < x - y < 2 ^ 16 -> u16 x <> u16 y.
Proof. apply slot_ne. done. Qed.

(** ** The ring in memory *)

(** The ring sizes a device can have. *)
Definition ring_size (n : Z) : Prop := exists e, 3 <= e <= 15 /\ n = 2 ^ e.

(** Where legacy virtio puts the used ring: the available ring ends with a
    sixteen-bit event field. *)
Definition used_offset (n : Z) : Z := (16 * n + 6 + 2 * n + 4095) / 4096 * 4096.

Lemma ring_size_cases (P : Z -> Prop) :
  P 8 -> P 16 -> P 32 -> P 64 -> P 128 -> P 256 -> P 512 -> P 1024 -> P 2048 -> P 4096 -> P 8192 -> P 16384 -> P 32768 ->
  forall n, ring_size n -> P n.
Proof.
  intros. match goal with H : ring_size _ |- _ => destruct H as (e & He & ->) end.
  assert (e = 3 \/ e = 4 \/ e = 5 \/ e = 6 \/ e = 7 \/ e = 8 \/ e = 9 \/ e = 10 \/ e = 11 \/ e = 12 \/ e = 13 \/ e = 14 \/ e = 15)
    as Hc by lia.
  repeat destruct Hc as [->|Hc]; try subst e; assumption.
Qed.

(** The queue [q] has its ring at [base]. *)
Record ring_at (q : virtq) (base n : Z) : Prop := RingAt {
  ra_desc : q_desc q = base; ra_aidx : q_avail_idx q = base + 16 * n + 2; ra_avail : q_avail_ring q = base + 16 * n + 4;
  ra_uidx : q_used_idx q = base + used_offset n + 2; ra_used : q_used_ring q = base + used_offset n + 4;
  ra_size : q_size q = n }.

Lemma layout_offsets n : ring_size n ->
  u32 (16 * n) = 16 * n /\ u32 (u32 (16 * n) + u32 (4 + 2 * n) + 4095) .&. 0xFFFFF000 = used_offset n /\
  used_offset n + 4 + 8 * n <= 4096 * int32 (u32 (virtq_bytes n + 4095) / 4096).
Proof. revert n. apply ring_size_cases; (vm_compute; split_and!; [reflexivity | reflexivity | discriminate]). Qed.

(** The driver's layout, computed without the event field, is the device's,
    for every ring size; and it fits the pages the driver asks for. *)
Lemma layout_agrees base n : ring_size n ->
  ring_at (virtq_layout base n) base n /\
  used_offset n + 4 + 8 * n <= 4096 * int32 (u32 (virtq_bytes n + 4095) / 4096).
Proof.
  intros Hn. destruct (layout_offsets n Hn) as (E1 & E2 & Hb). split; [|exact Hb].
  unfold virtq_layout. cbv zeta. rewrite E2, E1. by split.
Qed.

Lemma ring_facts n : ring_size n -> 8 <= n <= 32768 /\ 18 * n + 6 <= used_offset n /\ 2 ^ 16 mod n = 0.
Proof. revert n. apply ring_size_cases; (vm_compute; split_and!; first [reflexivity | discriminate]). Qed.

Lemma u16_slot x n : ring_size n -> u16 x mod n = x mod n.
Proof.
  intros Hn. destruct (ring_facts n Hn) as (H8 & _ & Hm). unfold u16. apply Z.div_exact in Hm; [|lia].
  rewrite Hm. apply Z.mod_mod_divide. exists (2 ^ 16 / n). lia.
Qed.

Lemma publish_spec q i ram :
  q_avail_ring q = q_avail_idx q + 2 -> 0 < q_size q -> 0 <= i < 2 ^ 16 ->
  let ram' := publish_ram q i ram in let slot := q_avail_ring q + 2 * (q_next_avail q mod q_size q) in
  load 2 (q_avail_idx q) ram' = u16 (q_next_avail q + 1) /\ load 2 slot ram' = i /\
  forall x, ~ (q_avail_idx q <= x < q_avail_idx q + 2) -> ~ (slot <= x < slot + 2) -> ram' !!! x = ram !!! x.
Proof.
  intros Ha Hn Hi. cbv zeta. unfold publish_ram. pose proof (Z.mod_pos_bound (q_next_avail q) (q_size q) Hn) as Hb.
  split_and!.
  - apply load_store, u16_range.
  - rewrite (load_ext _ _ (store 2 (q_avail_ring q + 2 * (q_next_avail q mod q_size q)) i ram)); [by apply load_store|].
    intros x Hx. apply store_out. lia.
  - intros x H1 H2. rewrite !store_out by lia. done.
Qed.

Lemma put_desc_spec q i addr len flags ram :
  0 <= addr < 2 ^ 64 -> 0 <= len < 2 ^ 32 ->
  let ram' := put_desc q i addr len flags ram in let d := q_desc q + 16 * i in
  load 8 d ram' = addr /\ load 4 (d + 8) ram' = len /\
  forall x, ~ (d <= x < d + 16) -> ram' !!! x = ram !!! x.
Proof.
  intros Ha Hl. cbv zeta. unfold put_desc. set (d := q_desc q + 16 * i). split_and!.
  - rewrite (load_ext _ _ (store 8 d addr ram)); [by apply load_store|]. intros x Hx. by rewrite !store_out by lia.
  - rewrite (load_ext _ _ (store 4 (d + 8) len (store 8 d addr ram))); [by apply load_store|].
    intros x Hx. by rewrite !store_out by lia.
  - intros x Hx. by rewrite !store_out by lia.
Qed.

(** ** A conforming device *)

(** The documented legacy device: it learns the rings from the page numbers
    written to it, takes descriptors from the available rings in order, and
    reports them in the used rings.  [v_in] are frames on the wire for it,
    [v_out] the frames it has transmitted. *)
Record vdev := Vdev {
  v_pci : pci; v_io : Z; v_mac : list Z; v_qsize : Z; v_status : Z; v_sel : Z; v_pfn : gmap Z Z; v_seen : gmap Z Z;
  v_in : list (list Z); v_out : list (list Z) }.

Definition spec_queue (base n : Z) : virtq :=
  Virtq base (base + 16 * n + 2) (base + 16 * n + 4) (base + used_offset n + 2) (base + used_offset n + 4) n 0 0.
Definition dev_queue (d : vdev) (i : Z) : virtq := spec_queue (4096 * (v_pfn d !!! i)) (v_qsize d).

(** Report buffer [id], of which [len] bytes were written. *)
Definition use_elem (q : virtq) (id len : Z) (ram : gmap Z Z) : gmap Z Z :=
  let u := load 2 (q_used_idx q) ram in
  let e := q_used_ring q + u mod q_size q * 8 in
  store 2 (q_used_idx q) (u16 (u + 1)) (store 4 (e + 4) len (store 4 e id ram)).

Definition next_id (q : virtq) (seen : Z) (ram : gmap Z Z) : Z := load 2 (q_avail_ring q + 2 * (seen mod q_size q)) ram.
Definition desc_addr (q : virtq) (id : Z) (ram : gmap Z Z) : Z := load 8 (q_desc q + 16 * id) ram.
Definition desc_len (q : virtq) (id : Z) (ram : gmap Z Z) : Z := load 4 (q_desc q + 16 * id + 8) ram.

Definition dev_tx (ram : gmap Z Z) (d : vdev) : gmap Z Z * vdev :=
  let q := dev_queue d VIRTIO_QUEUE_TX in
  let seen := v_seen d !!! VIRTIO_QUEUE_TX in
  if load 2 (q_avail_idx q) ram =? seen then (ram, d)
  else
    let id := next_id q seen ram in
    (use_elem q id 0 ram,
     Vdev (v_pci d) (v_io d) (v_mac d) (v_qsize d) (v_status d) (v_sel d) (v_pfn d)
          (<[VIRTIO_QUEUE_TX := u16 (seen + 1)]> (v_seen d)) (v_in d)
          (v_out d ++ [take_arr ram (desc_addr q id ram + NET_HDR_LEN) (Z.to_nat (desc_len q id ram - NET_HDR_LEN))])).

(** The header and the frame, in the buffer at [a]. *)
Definition put_frame (a : Z) (f : list Z) (ram : gmap Z Z) : gmap Z Z :=
  fill (a + NET_HDR_LEN) (byte_at f) 0 (length f) (fill a (fun _ => 0) 0 (Z.to_nat NET_HDR_LEN) ram).

Definition dev_rx (ram : gmap Z Z) (d : vdev) : gmap Z Z * vdev :=
  let q := dev_queue d VIRTIO_QUEUE_RX in
  let seen := v_seen d !!! VIRTIO_QUEUE_RX in
  match v_in d with
  | [] => (ram, d)
  | f :: fs =>
      if load 2 (q_avail_idx q) ram =? seen then (ram, d)
      else
        let id := next_id q seen ram in
        let len := NET_HDR_LEN + Z.of_nat (length f) in
        if desc_len q id ram <? len then
          (ram, Vdev (v_pci d) (v_io d) (v_mac d) (v_qsize d) (v_status d) (v_sel d) (v_pfn d) (v_seen d) fs (v_out d))
        else
          (use_elem q id len (put_frame (desc_addr q id ram) f ram),
           Vdev (v_pci d) (v_io d) (v_mac d) (v_qsize d) (v_status d) (v_sel d) (v_pfn d)
                (<[VIRTIO_QUEUE_RX := u16 (seen + 1)]> (v_seen d)) fs (v_out d))
  end.

Definition dev_dma (ram : gmap Z Z) (d : vdev) : gmap Z Z * vdev :=
  if Z.testbit (v_status d) 2 then let '(ram, d) := dev_tx ram d in dev_rx ram d else (ram, d).

Definition is_pci (p : Z) : bool := (p =? PCI_CONFIG_ADDRESS) || (p =? PCI_CONFIG_DATA).
Definition with_pci (m : pci) (d : vdev) : vdev :=
  Vdev m (v_io d) (v_mac d) (v_qsize d) (v_status d) (v_sel d) (v_pfn d) (v_seen d) (v_in d) (v_out d).
Definition dev_in (w p : Z) (d : vdev) : Z * vdev :=
  if is_pci p then let '(v, m) := pci_in w p (v_pci d) in (v, with_pci m d)
  else if p =? v_io d + VIRTIO_REG_QUEUE_NUM then (v_qsize d, d)
  else if (v_io d + VIRTIO_REG_CONFIG <=? p) && (p <? v_io d + VIRTIO_REG_CONFIG + 6)
  then (byte_at (v_mac d) (p - (v_io d + VIRTIO_REG_CONFIG)), d)
  else (0, d).
Definition dev_out (w p v : Z) (d : vdev) : vdev :=
  if is_pci p then with_pci (pci_out w p v (v_pci d)) d
  else if p =? v_io d + VIRTIO_REG_STATUS then
    if v =? 0 then Vdev (v_pci d) (v_io d) (v_mac d) (v_qsize d) 0 0 ∅ ∅ (v_in d) (v_out d)
    else Vdev (v_pci d) (v_io d) (v_mac d) (v_qsize d) v (v_sel d) (v_pfn d) (v_seen d) (v_in d) (v_out d)
  else if p =? v_io d + VIRTIO_REG_QUEUE_SEL then
    Vdev (v_pci d) (v_io d) (v_mac d) (v_qsize d) (v_status d) v (v_pfn d) (v_seen d) (v_in d) (v_out d)
  else if p =? v_io d + VIRTIO_REG_QUEUE_PFN then
    Vdev (v_pci d) (v_io d) (v_mac d) (v_qsize d) (v_status d) (v_sel d) (<[v_sel d := v]> (v_pfn d))
         (<[v_sel d := 0]> (v_seen d)) (v_in d) (v_out d)
  else d.
#[export] Instance vdev_bus : PortBus vdev := {| port_in := dev_in; port_out := dev_out |}.
#[export] Instance vdev_dma : DmaBus vdev := {| dma := dev_dma |}.

Lemma use_elem_spec q base n u id len ram :
  ring_size n -> ring_at q base n -> load 2 (q_used_idx q) ram = u16 u -> 0 <= id < 2 ^ 32 -> 0 <= len < 2 ^ 32 ->
  let ram' := use_elem q id len ram in let e := q_used_ring q + u mod n * 8 in
  load 2 (q_used_idx q) ram' = u16 (u + 1) /\ load 4 e ram' = id /\ load 4 (e + 4) ram' = len /\
  forall x, ~ (q_used_idx q <= x < q_used_idx q + 2) -> ~ (e <= x < e + 8) -> ram' !!! x = ram !!! x.
Proof.
  intros Hn [_ _ _ E1 E2 E3] Hu Hid Hlen. cbv zeta. unfold use_elem. rewrite Hu, E3, u16_slot, u16_add by done.
  destruct (ring_facts n Hn) as (H8 & _ & _). pose proof (Z.mod_pos_bound u n ltac:(lia)) as Hb.
  set (e := q_used_ring q + u mod n * 8). assert (He : q_used_idx q + 2 <= e) by (unfold e; lia). split_and!.
  - apply load_store, u16_range.
  - rewrite (load_ext _ _ (store 4 e id ram)); [by apply load_store|]. intros x Hx. by rewrite !store_out by lia.
  - rewrite (load_ext _ _ (store 4 (e + 4) len (store 4 e id ram))); [by apply load_store|].
    intros x Hx. by rewrite !store_out by lia.
  - intros x H1 H2. by rewrite !store_out by lia.
Qed.

Lemma put_frame_spec a f ram :
  let ram' := put_frame a f ram in
  (forall i, 0 <= i < Z.of_nat (length f) -> ram' !!! (a + NET_HDR_LEN + i) = byte_at f i) /\
  forall x, ~ (a <= x < a + NET_HDR_LEN + Z.of_nat (length f)) -> ram' !!! x = ram !!! x.
Proof.
  cbv zeta. unfold put_frame, NET_HDR_LEN. split.
  - intros i Hi. rewrite fill_in by lia. f_equal. lia.
  - intros x Hx. by rewrite !fill_out by lia.
Qed.

(** ** The receive ring *)

Section receive_ring.
Context (n base : Z) (bufs : Z -> Z) (Hn : ring_size n).
Context (Hbuf : forall i, 0 <= i < 8 -> 0 <= bufs i < 2 ^ 64).
Context (Hring : forall i, 0 <= i < 8 -> bufs i + 2048 <= base \/ base + used_offset n + 4 + 8 * n <= bufs i).
Context (Hsep : forall i j, 0 <= i < 8 -> 0 <= j < 8 -> i <> j -> bufs i + 2048 <= bufs j \/ bufs j + 2048 <= bufs i).

(** The memory of the receive ring [q], as a queue: the driver has consumed
    [u] frames, [bl] are delivered and not yet consumed; all other buffers are
    posted.  Positions are counted from the start and wrap at 65536 in memory;
    the buffer at position [p] is always number [p mod 8]. *)
Record rx_mem q (u : Z) (bl : list (list Z)) (ram : gmap Z Z) : Prop := RxMem {
  rm_avail : load 2 (q_avail_idx q) ram = u16 (u + 8);
  rm_used : load 2 (q_used_idx q) ram = u16 (u + Z.of_nat (length bl));
  rm_len : (length bl <= 8)%nat;
  rm_posted : forall p, u + Z.of_nat (length bl) <= p < u + 8 -> load 2 (q_avail_ring q + 2 * (p mod n)) ram = p mod 8;
  rm_desc : forall i, 0 <= i < 8 -> load 8 (q_desc q + 16 * i) ram = bufs i /\ load 4 (q_desc q + 16 * i + 8) ram = 2048;
  rm_back : forall j f, bl !! j = Some f -> let p := u + Z.of_nat j in
    Z.of_nat (length f) <= 2038 /\
    load 4 (q_used_ring q + p mod n * 8) ram = p mod 8 /\
    load 4 (q_used_ring q + p mod n * 8 + 4) ram = NET_HDR_LEN + Z.of_nat (length f) /\
    forall i, 0 <= i < Z.of_nat (length f) -> ram !!! (bufs (p mod 8) + NET_HDR_LEN + i) = byte_at f i }.

(** Its footprint. *)
Definition rx_foot (x : Z) : Prop :=
  base <= x < base + used_offset n + 4 + 8 * n \/ exists i, 0 <= i < 8 /\ bufs i <= x < bufs i + 2048.

Lemma mod8 p : 0 <= p mod 8 < 8.
Proof. by apply Z.mod_pos_bound. Qed.

Lemma slot_range p : 0 <= p mod n < n.
Proof. apply Z.mod_pos_bound. destruct (ring_facts n Hn). lia. Qed.

Lemma rx_mem_ext q u bl ram ram' :
  ring_at q base n -> rx_mem q u bl ram -> (forall x, rx_foot x -> ram' !!! x = ram !!! x) -> rx_mem q u bl ram'.
Proof.
  intros [E0 E1 E2 E3 E4 _] [H1 H2 H3 H4 H5 H6] Hx. destruct (ring_facts n Hn) as (H8 & Ho & _).
  assert (Hl : forall m a, base <= a -> a + Z.of_nat m <= base + used_offset n + 4 + 8 * n -> load m a ram' = load m a ram).
  { intros m a Ha1 Ha2. apply load_ext. intros x Hxx. apply Hx. left. lia. }
  split; try done.
  - rewrite Hl; [done | lia..].
  - rewrite Hl; [done | lia..].
  - intros p Hp. pose proof (slot_range p). rewrite Hl; [by apply H4 | lia..].
  - intros i Hi. rewrite !Hl by lia. by apply H5.
  - intros j f Hj p. destruct (H6 j f Hj) as (A1 & A2 & A3 & A4). fold p in A2, A3, A4. pose proof (slot_range p).
    split; [done|]. rewrite !Hl by lia. split; [done|]. split; [done|].
    intros i Hi. rewrite <- A4 by done. apply Hx. right. exists (p mod 8). pose proof (mod8 p). unfold NET_HDR_LEN. lia.
Qed.

(** The device delivers the frame [f]. *)
Lemma rx_deliver q u bl ram f :
  ring_at q base n -> rx_mem q u bl ram -> (length bl < 8)%nat -> Z.of_nat (length f) <= 2038 ->
  let id := next_id q (u16 (u + Z.of_nat (length bl))) ram in
  let ram' := use_elem q id (NET_HDR_LEN + Z.of_nat (length f)) (put_frame (desc_addr q id ram) f ram) in
  desc_len q id ram = 2048 /\ rx_mem q u (bl ++ [f]) ram' /\ forall x, ~ rx_foot x -> ram' !!! x = ram !!! x.
Proof.
  intros Hq Hm Hlt Hf id. pose proof Hm as [H1 H2 H3 H4 H5 H6]. pose proof Hq as [E0 E1 E2 E3 E4 E5].
  destruct (ring_facts n Hn) as (H8 & Ho & _). set (U := u + Z.of_nat (length bl)) in *.
  assert (Hid : id = U mod 8).
  { unfold id, next_id. rewrite E5, u16_slot by done. apply H4. lia. }
  pose proof (mod8 U) as HU. pose proof (slot_range U) as HUs.
  destruct (H5 (U mod 8) HU) as [Ha Hl]. unfold desc_addr, desc_len. rewrite Hid, Ha, Hl.
  set (ram' := use_elem q _ _ _).
  destruct (put_frame_spec (bufs (U mod 8)) f ram) as [Hf1 Hf2]. set (r1 := put_frame (bufs (U mod 8)) f ram) in *.
  assert (Hb : NET_HDR_LEN + Z.of_nat (length f) <= 2048) by (unfold NET_HDR_LEN; lia).
  pose proof (Hring _ HU) as HrU. pose proof (Hbuf _ HU) as HbU.
  assert (Hr1 : forall m a, base <= a -> a + Z.of_nat m <= base + used_offset n + 4 + 8 * n -> load m a r1 = load m a ram).
  { intros m a G1 G2. apply load_ext. intros x Hx. apply Hf2. lia. }
  assert (Hu1 : load 2 (q_used_idx q) r1 = u16 U) by (rewrite Hr1; [done | lia..]).
  destruct (use_elem_spec q base n U (U mod 8) (NET_HDR_LEN + Z.of_nat (length f)) r1 Hn Hq Hu1) as (U1 & U2 & U3 & U4);
    [lia | unfold NET_HDR_LEN; lia |]. fold ram' in U1, U2, U3, U4.
  split; [done|]. split.
  2: { intros x Hx. rewrite U4, Hf2; [done|..]; intros Hxx; apply Hx; [right; exists (U mod 8); lia | left; lia | left; lia]. }
  assert (Hr2 : forall m a, base <= a -> a + Z.of_nat m <= q_used_idx q -> load m a ram' = load m a ram).
  { intros m a G1 G2. rewrite <- Hr1 by lia. apply load_ext. intros x Hx. apply U4; lia. }
  split.
  - rewrite Hr2; [done | lia..].
  - rewrite U1, length_app. f_equal. cbn. lia.
  - rewrite length_app. cbn. lia.
  - intros p Hp. rewrite length_app in Hp. cbn in Hp. pose proof (slot_range p). rewrite Hr2 by lia. apply H4. lia.
  - intros i Hi. rewrite !Hr2 by lia. by apply H5.
  - intros j g Hj p. destruct (Nat.eq_dec j (length bl)) as [->|Hne].
    + rewrite list_lookup_middle in Hj by done. injection Hj as <-. unfold p. fold U. split_and!; try done.
      intros i Hi. rewrite U4, Hf1 by (unfold NET_HDR_LEN in *; lia). done.
    + assert (Hjl : (j < length bl)%nat) by (apply lookup_lt_Some in Hj; rewrite length_app in Hj; cbn in Hj; lia).
      rewrite lookup_app_l in Hj by done. destruct (H6 j g Hj) as (A1 & A2 & A3 & A4). fold p in A2, A3, A4.
      assert (Hps : U mod n <> p mod n) by (apply slot_ne; unfold p, U; lia).
      assert (Hp8 : U mod 8 <> p mod 8) by (apply slot_ne; unfold p, U; lia).
      pose proof (slot_range p). pose proof (mod8 p) as Hpm.
      assert (Hel : forall m a, q_used_ring q + p mod n * 8 <= a -> a + Z.of_nat m <= q_used_ring q + p mod n * 8 + 8 ->
        load m a ram' = load m a ram).
      { intros m a G1 G2. rewrite <- Hr1 by lia. apply load_ext. intros x Hx. apply U4; lia. }
      split; [done|]. rewrite !Hel by lia. split; [done|]. split; [done|].
      intros i Hi. rewrite <- A4 by done.
      pose proof (Hring _ Hpm). pose proof (Hsep (U mod 8) (p mod 8) HU Hpm Hp8). unfold NET_HDR_LEN in *.
      rewrite U4, Hf2 by lia. done.
Qed.

(** The driver consumes the oldest delivered frame and posts its buffer again. *)
Lemma rx_consume q u f bl ram :
  ring_at q base n -> q_next_avail q = u16 (u + 8) -> rx_mem q u (f :: bl) ram ->
  let ram' := publish_ram q (u mod 8) (put_desc q (u mod 8) (bufs (u mod 8)) FRAME_BUF_SIZE VIRTQ_DESC_F_WRITE ram) in
  rx_mem q (u + 1) bl ram' /\ forall x, ~ rx_foot x -> ram' !!! x = ram !!! x.
Proof.
  intros Hq Hnx Hm ram'. pose proof Hm as [H1 H2 H3 H4 H5 H6]. pose proof Hq as [E0 E1 E2 E3 E4 E5].
  destruct (ring_facts n Hn) as (H8 & Ho & _). cbn [length] in *. pose proof (mod8 u) as Hu8.
  destruct (put_desc_spec q (u mod 8) (bufs (u mod 8)) FRAME_BUF_SIZE VIRTQ_DESC_F_WRITE ram) as (D1 & D2 & D3);
    [by apply Hbuf | done |]. set (r1 := put_desc _ _ _ _ _ _) in *.
  destruct (publish_spec q (u mod 8) r1) as (P1 & P2 & P3); [lia | rewrite E5; lia | lia |].
  fold ram' in P1, P2, P3. rewrite E5, Hnx, u16_slot in P2, P3 by done. rewrite Hnx, u16_add in P1.
  pose proof (slot_range (u + 8)) as Hs8.
  assert (Hfr : forall x, ~ (q_desc q + 16 * (u mod 8) <= x < q_desc q + 16 * (u mod 8) + 16) ->
    ~ (q_avail_idx q <= x < q_avail_idx q + 2) ->
    ~ (q_avail_ring q + 2 * ((u + 8) mod n) <= x < q_avail_ring q + 2 * ((u + 8) mod n) + 2) -> ram' !!! x = ram !!! x).
  { intros x G1 G2 G3. by rewrite P3, D3. }
  split.
  2: { intros x Hx. apply Hfr; intros Hxx; apply Hx; left; lia. }
  assert (Hhi : forall m a, base + 16 * n + 4 + 2 * n <= a -> load m a ram' = load m a ram).
  { intros m a G. apply load_ext. intros x Hx. apply Hfr; lia. }
  split.
  - rewrite P1. f_equal. lia.
  - rewrite Hhi by lia. rewrite H2. f_equal. lia.
  - lia.
  - intros p Hp. destruct (Z.eq_dec p (u + 8)) as [->|Hne].
    + rewrite P2. by rewrite <- (Z.mod_add u 1 8).
    + assert (Hps : (u + 8) mod n <> p mod n) by (apply slot_ne; lia). pose proof (slot_range p).
      rewrite <- H4 by lia. apply load_ext. intros x Hx. apply Hfr; lia.
  - intros i Hi. destruct (Z.eq_dec i (u mod 8)) as [->|Hne].
    + rewrite (load_ext 8 _ r1), (load_ext 4 _ r1); [done|..]; intros x Hx; apply P3; lia.
    + destruct (H5 i Hi) as [<- <-]. split; apply load_ext; intros x Hx; apply Hfr; lia.
  - intros j g Hj p. destruct (H6 (S j) g Hj) as (A1 & A2 & A3 & A4).
    replace (u + Z.of_nat (S j)) with p in A2, A3, A4 by lia. pose proof (slot_range p). pose proof (mod8 p) as Hp8.
    split; [done|]. rewrite !Hhi by lia. split; [done|]. split; [done|].
    intros i Hi. rewrite <- A4 by done. pose proof (Hring _ Hp8). unfold NET_HDR_LEN in *. apply Hfr; lia.
Qed.
End receive_ring.

(** ** The driver and the device, together *)

Lemma rx_mem_queue n bufs q q' base u bl ram :
  ring_at q base n -> ring_at q' base n -> rx_mem n bufs q u bl ram -> rx_mem n bufs q' u bl ram.
Proof.
  intros [A0 A1 A2 A3 A4 _] [B0 B1 B2 B3 B4 _] [H1 H2 H3 H4 H5 H6].
  rewrite A0 in H5. rewrite A1 in H1. rewrite A2 in H4. rewrite A3 in H2. rewrite A4 in H6.
  split; rewrite ?B0, ?B1, ?B2, ?B3, ?B4; assumption.
Qed.

Lemma spec_ring base n : ring_at (spec_queue base n) base n.
Proof. by split. Qed.

(** Frames that fit a receive buffer. *)
Definition fits_buf (f : list Z) : Prop := Z.of_nat (length f) <= 2038.

(** Where everything is: the receive ring at [rb], the transmit ring at [tb],
    the eight receive buffers and the transmit buffer, all apart. *)
Record apart (n rb tb : Z) (bufs : Z -> Z) (txb : Z) : Prop := Apart {
  ap_n : ring_size n;
  ap_buf : forall i, 0 <= i < 8 -> 0 <= bufs i < 2 ^ 64;
  ap_ring : forall i, 0 <= i < 8 -> bufs i + 2048 <= rb \/ rb + used_offset n + 4 + 8 * n <= bufs i;
  ap_sep : forall i j, 0 <= i < 8 -> 0 <= j < 8 -> i <> j -> bufs i + 2048 <= bufs j \/ bufs j + 2048 <= bufs i;
  ap_tx : forall x, tb <= x < tb + used_offset n + 4 + 8 * n -> ~ rx_foot n rb bufs x;
  ap_txb : forall x, txb <= x < txb + 2048 -> ~ rx_foot n rb bufs x /\ ~ (tb <= x < tb + used_offset n + 4 + 8 * n);
  ap_txb64 : 0 <= txb < 2 ^ 64 }.

Record rx_linked n rb (bufs : Z -> Z) q u (bl : list (list Z)) ram (d : vdev) : Prop := RxLinked {
  rl_q : ring_at q rb n; rl_base : 4096 * (v_pfn d !!! VIRTIO_QUEUE_RX) = rb; rl_size : v_qsize d = n;
  rl_last : q_last_used q = u16 u; rl_next : q_next_avail q = u16 (u + 8);
  rl_seen : v_seen d !!! VIRTIO_QUEUE_RX = u16 (u + Z.of_nat (length bl));
  rl_mem : rx_mem n bufs q u bl ram; rl_fits : Forall fits_buf (v_in d) }.

(** What a step of the device leaves alone. *)
Definition same_card (d d' : vdev) : Prop :=
  v_pci d' = v_pci d /\ v_io d' = v_io d /\ v_mac d' = v_mac d /\ v_qsize d' = v_qsize d /\ v_status d' = v_status d /\
  v_pfn d' = v_pfn d.

Lemma dev_rx_step n rb tb bufs txb q u bl ram d :
  apart n rb tb bufs txb -> rx_linked n rb bufs q u bl ram d ->
  let '(ram', d') := dev_rx ram d in
  exists bl', rx_linked n rb bufs q u bl' ram' d' /\ bl' ++ v_in d' = bl ++ v_in d /\
    (bl ++ v_in d <> [] -> bl' <> []) /\ same_card d d' /\ v_out d' = v_out d /\
    v_seen d' !!! VIRTIO_QUEUE_TX = v_seen d !!! VIRTIO_QUEUE_TX /\
    forall x, ~ rx_foot n rb bufs x -> ram' !!! x = ram !!! x.
Proof.
  intros [Hn Hbuf Hring Hsep _ _ _] Hl. pose proof Hl as [L1 L2 L3 L4 L5 L6 L7 L8].
  unfold dev_rx, dev_queue. rewrite L2, L3, L6. pose proof (spec_ring rb n) as Hq.
  pose proof (rx_mem_queue _ _ _ _ _ _ _ _ L1 Hq L7) as Hm. set (q' := spec_queue rb n) in *.
  destruct (v_in d) as [|f fs] eqn:Ein.
  { exists bl. rewrite Ein. split_and!; try done. intros H. by rewrite app_nil_r in H. }
  apply Forall_cons_1 in L8 as [Hf Hfs]. rewrite (rm_avail _ _ _ _ _ _ Hm).
  destruct (Nat.eq_dec (length bl) 8%nat) as [E8|Hne].
  { rewrite E8. change (u + Z.of_nat 8) with (u + 8). rewrite Z.eqb_refl. exists bl. rewrite Ein. split_and!; try done.
    intros _ ->. done. }
  pose proof (rm_len _ _ _ _ _ _ Hm).
  rewrite (proj2 (Z.eqb_neq _ _)) by (apply u16_ne; lia).
  destruct (rx_deliver n rb bufs Hn Hbuf Hring Hsep q' u bl ram f Hq Hm ltac:(lia) Hf) as (Hlen & Hm' & Hout).
  set (id := next_id _ _ _) in *. rewrite Hlen. unfold fits_buf, NET_HDR_LEN in *.
  rewrite (proj2 (Z.ltb_ge _ _)) by lia.
  exists (bl ++ [f]). cbn [v_in v_out v_seen]. split.
  { split; cbn [v_pfn v_qsize v_seen v_in]; try done.
    - rewrite aget_eq, u16_add, length_app. f_equal. cbn. lia.
    - exact (rx_mem_queue _ _ _ _ _ _ _ _ Hq L1 Hm'). }
  split_and!; try done; [by rewrite <- app_assoc | by destruct bl | by rewrite aget_ne by done].
Qed.

Record tx_linked n tb q t ram (d : vdev) : Prop := TxLinked {
  tl_q : ring_at q tb n; tl_base : 4096 * (v_pfn d !!! VIRTIO_QUEUE_TX) = tb; tl_size : v_qsize d = n;
  tl_last : q_last_used q = u16 t; tl_next : q_next_avail q = u16 t;
  tl_seen : v_seen d !!! VIRTIO_QUEUE_TX = u16 t;
  tl_avail : load 2 (q_avail_idx q) ram = u16 t; tl_used : load 2 (q_used_idx q) ram = u16 t }.

Definition tx_foot n tb (x : Z) : Prop := tb <= x < tb + used_offset n + 4 + 8 * n.

Lemma tx_linked_ext n tb q t ram ram' d d' :
  ring_size n -> tx_linked n tb q t ram d -> (forall x, tx_foot n tb x -> ram' !!! x = ram !!! x) -> same_card d d' ->
  v_seen d' !!! VIRTIO_QUEUE_TX = v_seen d !!! VIRTIO_QUEUE_TX -> tx_linked n tb q t ram' d'.
Proof.
  intros Hn [[E0 E1 E2 E3 E4 E5] T2 T3 T4 T5 T6 T7 T8] Hx (S1 & S2 & S3 & S4 & S5 & S6) Hs.
  destruct (ring_facts n Hn) as (H8 & Ho & _).
  split; rewrite ?S4, ?S6, ?Hs; try done.
  - rewrite <- T7. apply load_ext. intros x Hxx. apply Hx. unfold tx_foot. lia.
  - rewrite <- T8. apply load_ext. intros x Hxx. apply Hx. unfold tx_foot. lia.
Qed.

(** The driver publishes the frame [f]; the device sends it and returns the
    descriptor. *)
Lemma tx_round n rb tb bufs txb q t ram d f :
  apart n rb tb bufs txb -> tx_linked n tb q t ram d -> fits_buf f ->
  let len := NET_HDR_LEN + Z.of_nat (length f) in
  let ram1 := publish_ram q 0 (put_desc q 0 txb len 0 (put_frame txb f ram)) in
  let '(ram', d') := dev_tx ram1 d in
  v_out d' = v_out d ++ [f] /\ v_in d' = v_in d /\ same_card d d' /\
  v_seen d' !!! VIRTIO_QUEUE_RX = v_seen d !!! VIRTIO_QUEUE_RX /\
  tx_linked n tb (set_last_used (u16 (t + 1)) (published q)) (t + 1) ram' d' /\
  forall x, rx_foot n rb bufs x -> ram' !!! x = ram !!! x.
Proof.
  intros [Hn _ _ _ Hat Hab H64] Ht Hf len ram1. pose proof Ht as [[E0 E1 E2 E3 E4 E5] T2 T3 T4 T5 T6 T7 T8].
  unfold fits_buf, NET_HDR_LEN in *. destruct (ring_facts n Hn) as (H8 & Ho & _).
  destruct (put_frame_spec txb f ram) as [F1 F2]. set (r0 := put_frame txb f ram) in *. unfold NET_HDR_LEN in F1, F2.
  destruct (put_desc_spec q 0 txb len 0 r0 H64 ltac:(lia)) as (D1 & D2 & D3). set (r1 := put_desc q 0 txb len 0 r0) in *.
  destruct (publish_spec q 0 r1 ltac:(lia) ltac:(lia) ltac:(lia)) as (P1 & P2 & P3). fold ram1 in P1, P2, P3.
  rewrite T5, E5, u16_slot in P2, P3 by done. rewrite T5, u16_add in P1.
  pose proof (Z.mod_pos_bound t n ltac:(lia)) as Hs.
  assert (Hin : forall x, txb <= x < txb + 2048 -> ~ tx_foot n tb x) by (intros x Hx; apply Hab, Hx).
  assert (Hr1 : forall x, tx_foot n tb x -> ~ (q_desc q <= x < q_desc q + 16) -> r1 !!! x = ram !!! x).
  { intros x Hx Hd. rewrite D3 by lia. apply F2. intros Hxx. apply (Hin x); [lia | exact Hx]. }
  unfold dev_tx, dev_queue. rewrite T2, T3, T6. set (qd := spec_queue tb n).
  assert (Ea : q_avail_idx qd = q_avail_idx q /\ q_avail_ring qd = q_avail_ring q /\ q_desc qd = q_desc q /\
               q_used_idx qd = q_used_idx q /\ q_used_ring qd = q_used_ring q /\ q_size qd = n).
  { unfold qd. cbn. split_and!; congruence. }
  destruct Ea as (G1 & G2 & G3 & G4 & G5 & G6). unfold next_id, desc_addr, desc_len. rewrite G1, G2, G3, G6, P1.
  rewrite (proj2 (Z.eqb_neq _ _)) by (apply u16_ne; lia). rewrite u16_slot by done. rewrite P2.
  assert (Hd : forall m a, q_desc q <= a -> a + Z.of_nat m <= q_desc q + 16 -> load m a ram1 = load m a r1).
  { intros m a A1 A2. apply load_ext. intros x Hx. apply P3; lia. }
  rewrite !Hd, D1, D2 by lia.
  assert (Hu : load 2 (q_used_idx qd) ram1 = u16 t).
  { rewrite G4, <- T8. apply load_ext. intros x Hx. rewrite P3, Hr1; [done|..]; unfold tx_foot; lia. }
  destruct (use_elem_spec qd tb n t 0 0 ram1 Hn (spec_ring tb n) Hu ltac:(lia) ltac:(lia)) as (U1 & U2 & U3 & U4).
  set (ram' := use_elem qd 0 0 ram1) in *. rewrite G4, G5 in *. cbn [v_out v_in v_seen].
  split_and!; try done.
  - do 2 f_equal. unfold len. unfold NET_HDR_LEN.
    replace (Z.to_nat (10 + Z.of_nat (length f) - 10)) with (length f) by lia.
    apply list_eq. intros i. unfold take_arr. destruct (Nat.lt_ge_cases i (length f)) as [Hi|Hi].
    + rewrite list_lookup_fmap, lookup_seqZ_lt by lia. cbn [fmap option_map option_fmap].
      destruct (lookup_lt_is_Some_2 f i Hi) as [v Hv]. rewrite Hv. f_equal.
      assert (Hx : txb <= txb + 10 + (0 + Z.of_nat i) < txb + 2048) by lia. pose proof (Hin _ Hx) as Hnx. unfold tx_foot in Hnx.
      rewrite P3, D3 by lia. rewrite F1 by lia. unfold byte_at. by rewrite Z.add_0_l, Nat2Z.id, Hv.
    + rewrite list_lookup_fmap, lookup_seqZ_ge by lia. symmetry. by apply lookup_ge_None_2.
  - by rewrite aget_ne.
  - split; cbn [v_pfn v_qsize v_seen set_last_used published set_next_avail q_last_used q_next_avail q_avail_idx q_used_idx]; try done.
    + by rewrite T5, u16_add.
    + by rewrite aget_eq, u16_add.
    + rewrite <- P1. apply load_ext. intros x Hx. apply U4; lia.
  - intros x Hx. assert (Hnt : ~ tx_foot n tb x) by (intros H; exact (Hat x H Hx)). unfold tx_foot in Hnt.
    assert (Hnb : ~ (txb <= x < txb + 2048)) by (intros H; exact (proj1 (Hab x H) Hx)).
    rewrite U4, P3, D3, F2 by lia. done.
Qed.

Definition ports_ok (s : nic_state vdev) : Prop :=
  v_io (n_bus s) = io_base s /\ config_off s = VIRTIO_REG_CONFIG /\ 0 <= io_base s /\ io_base s + 0x20 < 2 ^ 16 /\
  (forall p, io_base s <= p < io_base s + 0x20 -> is_pci p = false) /\ Forall in_u8 (v_mac (n_bus s)).

(** The driver's state with the device's represents the abstract station
    [bx]: its inbox is what was delivered and not yet consumed, then what is
    still on the wire; its outbox is what was transmitted. *)
Definition represents (s : nic_state vdev) (bx : box) : Prop :=
  exists n rb tb u t bl,
    apart n rb tb (fun i => rx_bufs s !!! i) (tx_buf s) /\
    rx_linked n rb (fun i => rx_bufs s !!! i) (rx_q s) u bl (n_ram s) (n_bus s) /\
    tx_linked n tb (tx_q s) t (n_ram s) (n_bus s) /\
    net_ready s = 1 /\ Z.testbit (v_status (n_bus s)) 2 = true /\ ports_ok s /\
    b_in bx = bl ++ v_in (n_bus s) /\ b_out bx = v_out (n_bus s) /\ b_mac bx = v_mac (n_bus s).

Section together.
Implicit Types (s : nic_state vdev).

Lemma notify_noop i s : ports_ok s -> reg_outw VIRTIO_REG_QUEUE_NOTIFY i s = s.
Proof.
  intros (Hio & _ & H0 & H16 & Hp & _). unfold reg_outw, outw, VIRTIO_REG_QUEUE_NOTIFY.
  replace (u16 (io_base s + 16)) with (io_base s + 16) by (unfold u16; rewrite Z.mod_small; lia).
  cbn [port_out vdev_bus]. unfold dev_out. rewrite Hp by lia.
  unfold VIRTIO_REG_STATUS, VIRTIO_REG_QUEUE_SEL, VIRTIO_REG_QUEUE_PFN. rewrite Hio. zcmp. by destruct s.
Qed.

Lemma poll_first {T R} (poll : T -> option R * T) n (s : T) (r : R) :
  (0 < n)%nat -> (poll s).1 = Some r -> poll_until n poll s = poll s.
Proof. destruct n; [lia|]. intros _ H. cbn. destruct (poll s) as [o s']. cbn in H. by subst. Qed.

Lemma fill_ext {A} `{!Inhabited A} (g h : Z -> A) base n m :
  (forall i, 0 <= i < Z.of_nat n -> g i = h i) -> fill base g 0 n m = fill base h 0 n m.
Proof. intros H. unfold fill. apply loop_ext. intros i x Hi. rewrite H by lia. done. Qed.

Lemma card_ports s d' : same_card (n_bus s) d' -> ports_ok s -> v_io d' = io_base s /\ Forall in_u8 (v_mac d').
Proof. intros (_ & E2 & E3 & _) (P1 & _ & _ & _ & _ & P6). split; congruence. Qed.

(** A frame sent is transmitted as it is, and the driver returns 0. *)
Lemma send_represents f s bx :
  represents s bx -> fits_buf f ->
  exists s', hal_net_send f s = (0, s') /\ represents s' (Box (b_mac bx) (b_in bx) (b_out bx ++ [f])).
Proof.
  intros (n & rb & tb & u & t & bl & Ha & Hr & Ht & Hrd & Hst & Hp & Hbi & Hbo & Hbm) Hf.
  unfold hal_net_send, FRAME_BUF_SIZE. rewrite Hrd. unfold fits_buf in Hf.
  rewrite u32_small by (unfold in_u32, NET_HDR_LEN; lia). unfold NET_HDR_LEN at 1. zcmp.
  change (fill (tx_buf s + NET_HDR_LEN) (fun i => byte_at f i) 0 (length f)
            (fill (tx_buf s) (fun _ => 0) 0 (Z.to_nat NET_HDR_LEN) (n_ram s))) with (put_frame (tx_buf s) f (n_ram s)).
  unfold virtq_publish_tx. rewrite notify_noop by exact Hp.
  pose proof (tx_round n rb tb _ (tx_buf s) (tx_q s) t (n_ram s) (n_bus s) f Ha Ht Hf) as Htx. cbv zeta in Htx.
  set (r1 := publish_ram _ _ _) in Htx.
  match goal with |- context [poll_until _ _ ?x] => set (s1 := x) end.
  assert (Er : n_ram s1 = r1) by reflexivity. assert (Eb : n_bus s1 = n_bus s) by reflexivity.
  assert (Eq : tx_q s1 = published (tx_q s) /\ rx_q s1 = rx_q s /\ rx_bufs s1 = rx_bufs s /\ tx_buf s1 = tx_buf s /\
               net_ready s1 = 1 /\ io_base s1 = io_base s /\ config_off s1 = config_off s) by by split_and!.
  clearbody s1. destruct Eq as (Q1 & Q2 & Q3 & Q4 & Q5 & Q6 & Q7).
  destruct (dev_tx r1 (n_bus s)) as [r2 d2] eqn:E2. destruct Htx as (X1 & X2 & X3 & X4 & X5 & X6).
  pose proof Hr as [L1 L2 L3 L4 L5 L6 L7 L8]. pose proof X3 as (S1 & S2 & S3 & S4 & S5 & S6).
  assert (Hr2 : rx_linked n rb (fun i => rx_bufs s !!! i) (rx_q s) u bl r2 d2).
  { split; rewrite ?S4, ?S6, ?X2, ?X4; try done. eapply rx_mem_ext; [apply Ha | exact L1 | exact L7 | exact X6]. }
  pose proof (dev_rx_step n rb tb _ _ _ u bl r2 d2 Ha Hr2) as Hrx.
  destruct (dev_rx r2 d2) as [r3 d3] eqn:E3. destruct Hrx as (bl' & Y1 & Y2 & _ & Y4 & Y5 & Y6 & Y7).
  assert (Ed : dma_step s1 = set_n_bus d3 (set_n_ram r3 s1)).
  { unfold dma_step. cbn [dma vdev_dma]. unfold dev_dma. by rewrite Er, Eb, Hst, E2, E3. }
  pose proof (ring_facts n (ap_n _ _ _ _ _ Ha)) as (H8 & Ho & _).
  assert (X5' : tx_linked n tb (set_last_used (u16 (t + 1)) (published (tx_q s))) (t + 1) r3 d3).
  { eapply tx_linked_ext; [apply Ha | exact X5 | | exact Y4 | exact Y6]. intros x Hx. apply Y7. by apply Ha. }
  assert (Epoll : tx_poll s1 = (Some 0, set_tx (set_last_used (u16 (t + 1)) (published (tx_q s))) (set_n_bus d3 (set_n_ram r3 s1)))).
  { unfold tx_poll. rewrite Ed. cbv zeta. change (n_ram (set_n_bus d3 (set_n_ram r3 s1))) with r3.
    change (tx_q (set_n_bus d3 (set_n_ram r3 s1))) with (tx_q s1). rewrite Q1.
    pose proof (tl_used _ _ _ _ _ _ X5') as Hu. cbn [set_last_used published set_next_avail q_used_idx] in Hu.
    cbn [set_last_used published set_next_avail q_used_idx q_last_used]. rewrite Hu, (tl_last _ _ _ _ _ _ Ht).
    rewrite (proj2 (Z.eqb_neq _ _)) by (apply u16_ne; lia). done. }
  rewrite (poll_first tx_poll (Z.to_nat TX_SPINS) s1 0) by (unfold TX_SPINS; lia || by rewrite Epoll). rewrite Epoll.
  eexists. split; [reflexivity|]. exists n, rb, tb, u, (t + 1), bl'.
  assert (Hc : same_card (n_bus s) d3) by (destruct Y4 as (? & ? & ? & ? & ? & ?); split_and!; congruence).
  destruct (card_ports s d3 Hc Hp) as [Hio Hmac]. destruct Hc as (_ & _ & C3 & _ & C5 & _).
  cbn [set_tx set_n_bus set_n_ram set_n_mem rx_bufs tx_buf rx_q tx_q net_ready n_bus b_in b_out b_mac].
  change (n_ram (set_tx _ (set_n_bus d3 (set_n_ram r3 s1)))) with r3.
  rewrite Q2, Q3, Q4. split_and!; try done.
  - by rewrite C5.
  - unfold ports_ok. cbn. rewrite Q6, Q7. destruct Hp as (_ & P2 & P3 & P4 & P5 & _). by split_and!.
  - rewrite Hbi, Y2, X2. done.
  - rewrite Hbo, Y5, X1. done.
  - by rewrite C3.
Qed.

(** With nothing to transmit, a look at the ring lets the device deliver. *)
Lemma idle_dma n rb tb u t bl s :
  apart n rb tb (fun i => rx_bufs s !!! i) (tx_buf s) ->
  rx_linked n rb (fun i => rx_bufs s !!! i) (rx_q s) u bl (n_ram s) (n_bus s) ->
  tx_linked n tb (tx_q s) t (n_ram s) (n_bus s) -> Z.testbit (v_status (n_bus s)) 2 = true ->
  exists r d bl', dma_step s = set_n_bus d (set_n_ram r s) /\ same_card (n_bus s) d /\ v_out d = v_out (n_bus s) /\
    rx_linked n rb (fun i => rx_bufs s !!! i) (rx_q s) u bl' r d /\ tx_linked n tb (tx_q s) t r d /\
    bl' ++ v_in d = bl ++ v_in (n_bus s) /\ (bl ++ v_in (n_bus s) <> [] -> bl' <> []).
Proof.
  intros Ha Hr Ht Hst. pose proof (dev_rx_step n rb tb _ _ _ u bl (n_ram s) (n_bus s) Ha Hr) as Hrx.
  assert (Etx : dev_tx (n_ram s) (n_bus s) = (n_ram s, n_bus s)).
  { destruct Ht as [[E0 E1 E2 E3 E4 E5] T2 T3 T4 T5 T6 T7 T8]. unfold dev_tx, dev_queue. rewrite T2, T6.
    cbn [spec_queue q_avail_idx]. rewrite T3, <- E1, T7. by rewrite Z.eqb_refl. }
  destruct (dev_rx (n_ram s) (n_bus s)) as [r d] eqn:E. destruct Hrx as (bl' & Y1 & Y2 & Y3 & Y4 & Y5 & Y6 & Y7).
  exists r, d, bl'. split_and!; try done.
  - unfold dma_step. cbn [dma vdev_dma]. unfold dev_dma. by rewrite Hst, Etx, E.
  - eapply tx_linked_ext; [apply Ha | exact Ht | | exact Y4 | exact Y6]. intros x Hx. apply Y7. by apply Ha.
Qed.

(** The driver's half of a reception, in memory: the queue is one shorter. *)
Lemma consume_linked n rb tb txb bufs q u f bl ram d :
  apart n rb tb bufs txb -> rx_linked n rb bufs q u (f :: bl) ram d ->
  let ram' := publish_ram q (u mod 8) (put_desc q (u mod 8) (bufs (u mod 8)) FRAME_BUF_SIZE VIRTQ_DESC_F_WRITE ram) in
  rx_linked n rb bufs (published (set_last_used (u16 (q_last_used q + 1)) q)) (u + 1) bl ram' d /\
  forall x, ~ rx_foot n rb bufs x -> ram' !!! x = ram !!! x.
Proof.
  intros [Hn Hbuf Hring Hsep _ _ _] [L1 L2 L3 L4 L5 L6 L7 L8] ram'.
  destruct (rx_consume n rb bufs Hn Hbuf Hring q u f bl ram L1 L5 L7) as [Hm Ho]. split; [|exact Ho].
  assert (L1' : ring_at (published (set_last_used (u16 (q_last_used q + 1)) q)) rb n) by (destruct L1; by split).
  split; try done; cbn [published set_next_avail set_last_used q_last_used q_next_avail].
  - by rewrite L4, u16_add.
  - rewrite L5, u16_add. f_equal. lia.
  - rewrite L6. cbn [length]. f_equal. lia.
  - exact (rx_mem_queue _ _ _ _ _ _ _ _ L1 L1' Hm).
Qed.

(** What the ring says of the oldest delivered frame. *)
Lemma front_frame n rb bufs q u f bl ram d :
  ring_size n -> rx_linked n rb bufs q u (f :: bl) ram d ->
  load 2 (q_used_idx q) ram <> q_last_used q /\
  virtq_used_elem_id q (q_last_used q mod q_size q) ram = u mod 8 /\
  virtq_used_elem_len q (q_last_used q mod q_size q) ram = NET_HDR_LEN + Z.of_nat (length f) /\ fits_buf f /\
  forall i, 0 <= i < Z.of_nat (length f) -> ram !!! (bufs (u mod 8) + NET_HDR_LEN + i) = byte_at f i.
Proof.
  intros Hn [[_ _ _ _ _ L1] L2 L3 L4 L5 L6 [M1 M2 M3 M4 M5 M6] L8]. destruct (M6 0%nat f eq_refl) as (A1 & A2 & A3 & A4).
  rewrite Z.add_0_r in *. unfold virtq_used_elem_id, virtq_used_elem_len. rewrite L1, L4, u16_slot by done.
  split_and!; try done. rewrite M2. cbn [length] in *. apply u16_ne. lia.
Qed.

Lemma empty_ring n rb bufs q u ram d :
  rx_linked n rb bufs q u [] ram d -> load 2 (q_used_idx q) ram = q_last_used q.
Proof. intros [_ _ _ L4 _ _ [_ M2 _ _ _ _] _]. by rewrite M2, L4, Z.add_0_r. Qed.

(** Receiving is taking from the queue, whatever the budget. *)
Lemma rx_loop_represents spins buf max_len s bx :
  represents s bx -> (0 < spins)%nat ->
  let '(rc, buf', q) := poll_queue (b_in bx) buf max_len in
  exists s', rx_loop spins buf max_len s = (rc, buf', s') /\ represents s' (Box (b_mac bx) q (b_out bx)).
Proof.
  revert s. induction spins as [|spins IH]; intros s Hrep Hpos; [lia|]. cbn [rx_loop].
  destruct Hrep as (n & rb & tb & u & t & bl & Ha & Hr & Ht & Hrd & Hst & Hp & Hbi & Hbo & Hbm).
  destruct (idle_dma n rb tb u t bl s Ha Hr Ht Hst) as (r & d & bl' & Ed & Hc & Hout & Hr' & Ht' & Hin & Hne).
  rewrite Ed. set (s1 := set_n_bus d (set_n_ram r s)).
  destruct (card_ports s d Hc Hp) as [Hio Hmac]. pose proof Hc as (_ & _ & C3 & _ & C5 & _).
  assert (Hp1 : ports_ok s1) by (destruct Hp as (_ & P2 & P3 & P4 & P5 & _); unfold ports_ok; cbn; by split_and!).
  change (rx_q s1) with (rx_q s). change (n_ram s1) with r.
  destruct bl' as [|f bl'].
  - rewrite (empty_ring _ _ _ _ _ _ _ Hr'), Z.eqb_refl. cbn [negb].
    assert (E0 : b_in bx = []) by (rewrite Hbi; destruct (bl ++ v_in (n_bus s)); [done | by destruct Hne]).
    assert (Hrep1 : represents s1 bx).
    { exists n, rb, tb, u, t, []. split_and!; try done;
        [by change (Z.testbit (v_status d) 2 = true); rewrite C5 | by rewrite Hbi, <- Hin | by cbn; rewrite Hbo, Hout | by cbn; rewrite C3]. }
    destruct spins as [|spins].
    + rewrite E0. cbn. exists s1. split; [done|]. rewrite <- E0. by destruct bx.
    + apply IH; [exact Hrep1 | lia].
  - pose proof (front_frame n rb _ _ u f bl' r d (ap_n _ _ _ _ _ Ha) Hr') as (F1 & F2 & F3 & F4 & F5).
    rewrite (proj2 (Z.eqb_neq _ _) F1). cbn [negb]. rewrite F2, F3. unfold fits_buf in F4.
    unfold NET_HDR_LEN at 1 2. zcmp. replace (NET_HDR_LEN + Z.of_nat (length f) - NET_HDR_LEN) with (Z.of_nat (length f)) by lia.
    assert (Eid : u16 (u mod 8) = u mod 8) by (unfold u16; apply Z.mod_small; pose proof (mod8 u); lia). rewrite Eid.
    destruct (consume_linked n rb tb (tx_buf s) _ (rx_q s) u f bl' r d Ha Hr') as [Hr2 Hfr].
    unfold rx_post, virtq_publish_rx. rewrite notify_noop by exact Hp1.
    set (r2 := publish_ram (rx_q s) (u mod 8) _) in Hr2, Hfr.
    match goal with |- context [(-1, buf, ?x)] => set (s2 := x) end.
    assert (Hrep2 : represents s2 (Box (b_mac bx) (bl' ++ v_in d) (b_out bx))).
    { exists n, rb, tb, (u + 1), t, bl'.
      assert (Ht2 : tx_linked n tb (tx_q s) t r2 d).
      { eapply tx_linked_ext; [apply Ha | exact Ht' | | done | done]. intros x Hx. apply Hfr. by apply Ha. }
      split_and!; try done; [by change (Z.testbit (v_status d) 2 = true); rewrite C5 | by cbn; rewrite Hbo, Hout | by cbn; rewrite C3, Hbm]. }
    rewrite Hbi, <- Hin. cbn [app poll_queue]. destruct (max_len <? Z.of_nat (length f)).
    + exists s2. by split.
    + exists s2. split; [|exact Hrep2]. rewrite int32_small by (unfold in_int32; lia). rewrite Nat2Z.id. do 2 f_equal.
      apply fill_ext. intros i Hi. exact (F5 i Hi).
Qed.

(** C14: the driver and the device are the abstract station.  Through the two
    rings in shared memory, [hal_net_send] transmits exactly the frame it is
    given, [hal_net_poll_receive] hands over the frames in order, dropping only
    those that do not fit the caller's buffer, and [hal_net_get_mac] reads the
    station's address: what the transport is proved against. *)
Theorem virtio_refines_station s bx f buf max_len spins m :
  represents s bx -> fits_buf f -> 0 < spins ->
  (exists s', nd_send f s = ((nd_send f bx).1, s') /\ represents s' (nd_send f bx).2) /\
  (let '(rc, buf', bx') := nd_poll buf max_len spins bx in
   exists s', nd_poll buf max_len spins s = (rc, buf', s') /\ represents s' bx') /\
  nd_get_mac m s = ((nd_get_mac m bx).1, s).
Proof.
  intros Hrep Hf Hs. split; [exact (send_represents f s bx Hrep Hf)|]. split.
  - cbn [nd_poll box_device virtio_device]. unfold hal_net_poll_receive.
    pose proof (rx_loop_represents (Z.to_nat spins) buf max_len s bx Hrep ltac:(lia)) as H.
    destruct (poll_queue (b_in bx) buf max_len) as [[rc buf'] q].
    destruct Hrep as (n & rb & tb & u & t & bl & _ & _ & _ & -> & _). exact H.
  - destruct Hrep as (n & rb & tb & u & t & bl & _ & _ & _ & _ & _ & Hp & _ & _ & Hm).
    destruct Hp as (P1 & P2 & P3 & P4 & P5 & P6). cbn [nd_get_mac box_device virtio_device fst]. unfold hal_net_get_mac.
    rewrite P2, Hm.
    match goal with |- context [loop ?g 0 6 _] => set (step := g) end.
    assert (Hl : forall k, (k <= 6)%nat -> loop step 0 k (m, n_bus s) = (fill 0 (byte_at (v_mac (n_bus s))) 0 k m, n_bus s)).
    { induction k as [|k IH]; intros Hk; [done|]. rewrite loop_S, IH, fill_S by lia. unfold step. cbn [fst snd].
      rewrite !Z.add_0_l. unfold inb. cbn [port_in vdev_bus]. unfold dev_in.
      replace (u16 (io_base s + VIRTIO_REG_CONFIG + Z.of_nat k)) with (io_base s + VIRTIO_REG_CONFIG + Z.of_nat k)
        by (unfold u16, VIRTIO_REG_CONFIG; rewrite Z.mod_small; lia).
      unfold VIRTIO_REG_CONFIG, VIRTIO_REG_QUEUE_NUM. rewrite P5, P1 by lia. zcmp. do 2 f_equal.
      replace (io_base s + 20 + Z.of_nat k - (io_base s + 20)) with (Z.of_nat k) by lia. apply u8_small.
      unfold byte_at. destruct (v_mac (n_bus s) !! Z.to_nat (Z.of_nat k)) eqn:E; [|done].
      rewrite Forall_lookup in P6. exact (P6 _ _ E). }
    rewrite (Hl 6%nat) by lia. by destruct s.
Qed.
End together.

(** ** A closed example: a card with an eight-entry ring and a frame waiting *)
Module VirtioDemo.
Definition mac0 : list Z := [2; 0; 0; 0; 0; 9].
Definition card0 : vdev :=
  Vdev (Pci 0 {[(3, 0) := {[0 := 0x10001AF4; 4 := 0xC001]}]}) 0xC000 mac0 8 0 0 ∅ ∅ [[1; 2; 3]] [].
Definition queue_raw : virtq := Virtq 0 0 0 0 0 0 0 0.
Definition nic_raw : nic_state vdev := Nic 0 0 queue_raw queue_raw ∅ 0 0 mem_demo card0.
(** After [hal_net_init] has found and set up the card. *)
Definition nic0 : nic_state vdev := (hal_net_init nic_raw).2.

Lemma below8 (P : Z -> Prop) : P 0 -> P 1 -> P 2 -> P 3 -> P 4 -> P 5 -> P 6 -> P 7 -> forall i, 0 <= i < 8 -> P i.
Proof.
  intros. assert (i = 0 \/ i = 1 \/ i = 2 \/ i = 3 \/ i = 4 \/ i = 5 \/ i = 6 \/ i = 7) as Hc by lia.
  repeat destruct Hc as [->|Hc]; try subst i; assumption.
Qed.

Lemma nic0_fields :
  rx_q nic0 = Virtq 0x200000 0x200082 0x200084 0x201002 0x201004 8 0 8 /\
  tx_q nic0 = Virtq 0x202000 0x202082 0x202084 0x203002 0x203004 8 0 0 /\
  tx_buf nic0 = 0x20C000 /\ net_ready nic0 = 1 /\ io_base nic0 = 0xC000 /\ config_off nic0 = 0x14 /\
  v_status (n_bus nic0) = 7 /\ v_pfn (n_bus nic0) !!! 0 = 0x200 /\ v_pfn (n_bus nic0) !!! 1 = 0x202 /\
  v_seen (n_bus nic0) !!! 0 = 0 /\ v_seen (n_bus nic0) !!! 1 = 0 /\ v_qsize (n_bus nic0) = 8 /\
  v_in (n_bus nic0) = [[1; 2; 3]] /\ v_out (n_bus nic0) = [] /\ v_mac (n_bus nic0) = mac0 /\ v_io (n_bus nic0) = 0xC000.
Proof. vm_compute. split_and!; reflexivity. Qed.

Lemma nic0_bufs : forall i, 0 <= i < 8 -> rx_bufs nic0 !!! i = 0x204000 + 0x1000 * i.
Proof. apply below8; vm_compute; reflexivity. Qed.

Lemma nic0_rings :
  load 2 0x200082 (n_ram nic0) = 8 /\ load 2 0x201002 (n_ram nic0) = 0 /\
  load 2 0x202082 (n_ram nic0) = 0 /\ load 2 0x203002 (n_ram nic0) = 0.
Proof. vm_compute. split_and!; reflexivity. Qed.

Lemma nic0_posted : forall p, 0 <= p < 8 -> load 2 (0x200084 + 2 * (p mod 8)) (n_ram nic0) = p mod 8.
Proof. apply below8; vm_compute; reflexivity. Qed.

Lemma nic0_desc : forall i, 0 <= i < 8 ->
  load 8 (0x200000 + 16 * i) (n_ram nic0) = 0x204000 + 0x1000 * i /\ load 4 (0x200000 + 16 * i + 8) (n_ram nic0) = 2048.
Proof. apply below8; vm_compute; split; reflexivity. Qed.

Lemma nic0_represents : represents nic0 (Box mac0 [[1; 2; 3]] []).
Proof.
  pose proof nic0_fields as HF. pose proof nic0_rings as HR. pose proof nic0_bufs as Hb.
  pose proof nic0_posted as Hpost. pose proof nic0_desc as Hdesc. revert HF HR Hb Hpost Hdesc.
  generalize nic0. intros s HF HR Hb Hpost Hdesc.
  destruct HF as (F1 & F2 & F3 & F4 & F5 & F6 & F7 & F8 & F9 & F10 & F11 & F12 & F13 & F14 & F15 & F16).
  destruct HR as (R1 & R2 & R3 & R4).
  exists 8, 0x200000, 0x202000, 0, 0, []. rewrite F1, F2, F3, F4, F7, F13, F14, F15.
  assert (H8 : ring_size 8) by (exists 3; lia). assert (Hu : used_offset 8 = 4096) by reflexivity.
  assert (Hin : forall i, 0 <= i < 8 -> 0x204000 <= rx_bufs s !!! i <= 0x20B000) by (intros i Hi; rewrite Hb by done; lia).
  assert (Hfoot : forall x, rx_foot 8 0x200000 (fun i => rx_bufs s !!! i) x ->
    0x200000 <= x < 0x201044 \/ 0x204000 <= x < 0x20B800).
  { intros x [H|(i & Hi & H)]; [rewrite Hu in H; lia | specialize (Hin i Hi); lia]. }
  split_and!; try done.
  - split; rewrite ?Hu; try done; try lia.
    + intros i Hi. specialize (Hin i Hi). lia.
    + intros i Hi. specialize (Hin i Hi). lia.
    + intros i j Hi Hj Hne. rewrite !Hb by done. lia.
    + intros x Hx Hf. destruct (Hfoot x Hf); lia.
    + intros x Hx. split; [|lia]. intros Hf. destruct (Hfoot x Hf); lia.
  - split; unfold VIRTIO_QUEUE_RX; rewrite ?F8, ?F10, ?F13; cbn -[load]; try done.
    + split; cbn -[load]; try done.
      * lia.
      * intros i Hi. rewrite Hb by done. by apply Hdesc.
    + by repeat constructor.
  - split; unfold VIRTIO_QUEUE_TX; rewrite ?F9, ?F11; done.
  - unfold ports_ok. rewrite F5, F6, F15, F16. split_and!; try done.
    + intros p Hp. unfold is_pci, PCI_CONFIG_ADDRESS, PCI_CONFIG_DATA. by zcmp.
    + by repeat constructor.
Qed.

Lemma virtio_refines_station_witness :
  exists s', hal_net_send [7; 8] nic0 = (0, s') /\ represents s' (Box mac0 [[1; 2; 3]] [[7; 8]]).
Proof.
  assert (Hf : fits_buf [7; 8]) by (unfold fits_buf; cbn; lia).
  pose proof (virtio_refines_station nic0 (Box mac0 [[1; 2; 3]] []) [7; 8] ∅ 64 1 ∅ nic0_represents Hf ltac:(lia)) as (H & _).
  exact H.
Defined.
End VirtioDemo.
