(* ===== verification/Smp.v ===== *)
(** * The second core: [hal/x86_64/apic.c], [hal/x86_64/smp.c]

    The local APIC, the mailbox hand-over between the boot processor and the
    application processor, as two state machines that interleave on shared
    memory, and the console's lock between two cores.  What the processors do
    with an interprocessor interrupt is the hardware's documented behaviour. *)
From Stdlib Require Import String Ascii.
From S2P Require Import Prelude Paging Gdt Console Interrupts.

Definition LAPIC_BASE : Z := 0xFEE00000.
Definition LAPIC_ID : Z := 0x020.
Definition LAPIC_SVR : Z := 0x0F0.
Definition LAPIC_ICR_LO : Z := 0x300.
Definition IA32_APIC_BASE_MSR : Z := 0x1B.
Definition IA32_APIC_BASE_ENABLE : Z := 1 .<<. 11.
Definition AP_TRAMPOLINE_ADDR : Z := 0x96000.
Definition AP_TRAMPOLINE_PAGE : Z := 0x96.
Definition AP_BOOT_FLAG_ADDR : Z := 0x96FF0.
Definition AP_ENTRY_PTR_ADDR : Z := 0x96FF8.
Definition AP_STACK_TOP : Z := 0x99000.
Definition AP_POLLS : Z := 0x2000000.

(** ** One core's local APIC *)

(** The model-specific registers, the two registers the kernel uses, and what
    has been written to the interrupt command register, oldest first. *)
Record lapic := Lapic { msrs : gmap Z Z; id_reg : Z; svr : Z; icr_sent : list Z }.

Definition wrmsr (msr value : Z) (a : lapic) : lapic :=
  let lo := value .&. 0xFFFFFFFF in
  let hi := u32 (value .>>. 32) in
  Lapic (<[msr := (hi .<<. 32) .|. lo]> (msrs a)) (id_reg a) (svr a) (icr_sent a).
Definition rdmsr (msr : Z) (a : lapic) : Z :=
  let lo := u32 (msrs a !!! msr) in
  let hi := u32 (msrs a !!! msr .>>. 32) in
  (hi .<<. 32) .|. lo.

Section apic.
Context {L : layout}.
Implicit Types (st : pg_state) (a : lapic).

(** [lapic_reg]: the register's address, if the boot page tables, under which
    both cores run here, map it for writing; [None] is a page fault. *)
Definition lapic_reg (offset : Z) st : option Z :=
  t ← walk st BOOT_PML4_PHYS_BASE (LAPIC_BASE + offset);
  if t_writable t then Some (t_pa t - LAPIC_MMIO_PHYS) else None.

Definition mmio_read (offset : Z) st a : option Z :=
  r ← lapic_reg offset st;
  Some (if r =? LAPIC_ID then id_reg a else if r =? LAPIC_SVR then svr a else 0).

Definition mmio_write (offset v : Z) st a : option lapic :=
  r ← lapic_reg offset st;
  Some (if r =? LAPIC_SVR then Lapic (msrs a) (id_reg a) v (icr_sent a)
        else if r =? LAPIC_ICR_LO then Lapic (msrs a) (id_reg a) (svr a) (icr_sent a ++ [v])
        else a).

Definition hal_lapic_enable st a : option lapic :=
  let base := rdmsr IA32_APIC_BASE_MSR a in
  let a := wrmsr IA32_APIC_BASE_MSR (base .|. IA32_APIC_BASE_ENABLE) a in
  mmio_write LAPIC_SVR 0x1FF st a.

Definition hal_lapic_id st a : option Z := v ← mmio_read LAPIC_ID st a; Some (v .>>. 24).

(** The two commands; [ipi_delay] is time only. *)
Definition send_init st a : option lapic := mmio_write LAPIC_ICR_LO 0x000C4500 st a.
Definition send_sipi (trampoline_page : Z) st a : option lapic :=
  mmio_write LAPIC_ICR_LO (0x000C4600 .|. trampoline_page) st a.
Definition hal_lapic_send_init_sipi (trampoline_page : Z) st a : option lapic :=
  a ← send_init st a; send_sipi trampoline_page st a.
End apic.

(** The unit is powered and its delivery is enabled. *)
Definition apic_on (a : lapic) : bool := Z.testbit (msrs a !!! IA32_APIC_BASE_MSR) 11 && Z.testbit (svr a) 8.

(** ** Waking the application processor

    [hal_smp_boot_ap] on the boot processor and, once the startup command
    arrives, the trampoline and [ap_entry_c] on the other one.  A step is one
    access to the shared memory, the page tables, the descriptor tables or an
    APIC; the two processors' steps interleave freely. *)

Inductive bsp_pc :=
| BMap | BEnable | BCopy (i : Z) | BClear | BEntry | BInit | BSipi | BPoll (spin : Z) | BDone (rc : Z) | BFault.

(** [AOff]: there is no second processor.  [ARun page]: started at a page.
    [ALost]: executing something that is not the kernel's. *)
Inductive ap_pc :=
| AOff | ASleep | AWaitSipi | ARun (page : Z) | ARead | AGdt | AIdt | AApic | AId | AFlag (id : Z) | ADemo (id : Z)
| ALost | AFault.

Record smp := Smp {
  s_ram : gmap Z Z; s_pg : pg_state; s_gdt : gdt_state; s_idt : idt_state; s_bsp : lapic; s_ap : lapic }.

Definition set_s_ram m (s : smp) : smp := Smp m (s_pg s) (s_gdt s) (s_idt s) (s_bsp s) (s_ap s).
Definition set_s_bsp a (s : smp) : smp := Smp (s_ram s) (s_pg s) (s_gdt s) (s_idt s) a (s_ap s).
Definition set_s_ap a (s : smp) : smp := Smp (s_ram s) (s_pg s) (s_gdt s) (s_idt s) (s_bsp s) a.

(** What an interrupt command does to the other processor: delivery mode in
    bits 8 to 10 (5 INIT, 6 startup), assert in bit 14, and the shorthand "all
    but self" in bits 18 and 19; a startup is taken only after an INIT. *)
Definition deliver_ipi (v : Z) (a : ap_pc) : ap_pc :=
  if (Z.testbit v 14 && (((v .>>. 18) .&. 3) =? 3)) then
    match a with
    | AOff => AOff
    | _ => if ((v .>>. 8) .&. 7) =? 5 then AWaitSipi
           else if ((v .>>. 8) .&. 7) =? 6
                then match a with AWaitSipi => ARun (v .&. 0xFF) | _ => a end
                else a
    end
  else a.

Section handover.
Context {L : layout} {K : klayout}.
(** The trampoline's assembled bytes and the address of [ap_entry_c]. *)
Context (ap_trampoline_blob : list Z) (ap_entry_c : Z).
Implicit Types (s : smp).

Definition blob_len : Z := Z.of_nat (length ap_trampoline_blob).

(** A command reaches the other processor only if the sender's APIC is on. *)
Definition send (cmd : pg_state -> lapic -> option lapic) (next : bsp_pc) (a : ap_pc) s : bsp_pc * ap_pc * smp :=
  match cmd (s_pg s) (s_bsp s) with
  | None => (BFault, a, s)
  | Some l => (next, if apic_on (s_bsp s) then deliver_ipi (List.last (icr_sent l) 0) a else a, set_s_bsp l s)
  end.

(** [hal_smp_boot_ap], one step; [None] once it has returned. *)
Definition bsp_step (b : bsp_pc) (a : ap_pc) s : option (bsp_pc * ap_pc * smp) :=
  match b with
  | BMap => Some (BEnable, a, Smp (s_ram s) (hal_map_lapic_mmio (s_pg s)) (s_gdt s) (s_idt s) (s_bsp s) (s_ap s))
  | BEnable => Some match hal_lapic_enable (s_pg s) (s_bsp s) with
                    | Some l => (BCopy 0, a, set_s_bsp l s)
                    | None => (BFault, a, s)
                    end
  | BCopy i => Some (if i <? blob_len
                     then (BCopy (i + 1), a,
                           set_s_ram (<[AP_TRAMPOLINE_ADDR + i := default 0 (ap_trampoline_blob !! Z.to_nat i)]> (s_ram s)) s)
                     else (BClear, a, s))
  | BClear => Some (BEntry, a, set_s_ram (store 8 AP_BOOT_FLAG_ADDR 0 (s_ram s)) s)
  | BEntry => Some (BInit, a, set_s_ram (store 8 AP_ENTRY_PTR_ADDR ap_entry_c (s_ram s)) s)
  | BInit => Some (send send_init BSipi a s)
  | BSipi => Some (send (send_sipi AP_TRAMPOLINE_PAGE) (BPoll 0) a s)
  | BPoll spin => Some (if spin <? AP_POLLS
                        then if negb (load 8 AP_BOOT_FLAG_ADDR (s_ram s) =? 0) then (BDone 1, a, s)
                             else (BPoll (spin + 1), a, s)
                        else (BDone 0, a, s))
  | BDone _ | BFault => None
  end.

(** The trampoline's code is at the page the processor starts at. *)
Definition trampoline_at (page : Z) (m : gmap Z Z) : bool :=
  forallb (fun i => m !!! (page * 4096 + Z.of_nat i) =? default 0 (ap_trampoline_blob !! i)) (seq 0 (length ap_trampoline_blob)).

(** [ap_trampoline.asm], which loads the boot processor's CR3 and [rsp] and
    calls through the mailbox, then [ap_entry_c]. *)
Definition ap_step (a : ap_pc) s : option (ap_pc * smp) :=
  match a with
  | ARun page => Some (if trampoline_at page (s_ram s) && (page =? AP_TRAMPOLINE_PAGE) then ARead else ALost, s)
  | ARead => Some (if load 8 AP_ENTRY_PTR_ADDR (s_ram s) =? ap_entry_c then AGdt else ALost, s)
  | AGdt => Some (AIdt, Smp (s_ram s) (s_pg s) (hal_gdt_load_ap AP_STACK_TOP (s_gdt s)) (s_idt s) (s_bsp s) (s_ap s))
  | AIdt => Some (AApic, Smp (s_ram s) (s_pg s) (s_gdt s) (hal_idt_load_ap (s_idt s)) (s_bsp s) (s_ap s))
  | AApic => Some match hal_lapic_enable (s_pg s) (s_ap s) with
                  | Some l => (AId, set_s_ap l s)
                  | None => (AFault, s)
                  end
  | AId => Some match hal_lapic_id (s_pg s) (s_ap s) with Some id => (AFlag id, s) | None => (AFault, s) end
  | AFlag id => Some (ADemo id, set_s_ram (store 8 AP_BOOT_FLAG_ADDR (u32 (id + 1)) (s_ram s)) s)
  | AOff | ASleep | AWaitSipi | ADemo _ | ALost | AFault => None
  end.

Definition config : Type := bsp_pc * ap_pc * smp.

(** [smp_run n c c']: an interleaving with [n] steps of the boot processor. *)
Inductive smp_run : nat -> config -> config -> Prop :=
| run_nil c : smp_run 0 c c
| run_bsp n c b a s c' : smp_run n c (b, a, s) -> bsp_step b a s = Some c' -> smp_run (S n) c c'
| run_ap n c b a s a' s' : smp_run n c (b, a, s) -> ap_step a s = Some (a', s') -> smp_run n c (b, a', s').

(** An executable interleaving, chosen by a schedule. *)
Definition turn (who : bool) (c : config) : config :=
  let '(b, a, s) := c in
  if who then default c (bsp_step b a s)
  else match ap_step a s with Some (a', s') => (b, a', s') | None => c end.
Definition run_schedule (l : list bool) (c : config) : config := fold_left (fun c w => turn w c) l c.
End handover.

(** ** The registers are mapped *)

(** The linker page-aligns the two LAPIC tables and keeps them apart from the
    other tables. *)
Class lapic_layout_ok (L : layout) : Prop := {
  ll_aligned : lapic_pd_addr mod 4096 = 0 /\ lapic_pt_addr mod 4096 = 0;
  ll_range : 0 < lapic_pd_addr < 0x90000 /\ 0 < lapic_pt_addr < 0x90000 /\ lapic_pd_addr <> lapic_pt_addr;
  ll_apart : Forall (fun '(a, n) => in_pool a n lapic_pd_addr = false /\ in_pool a n lapic_pt_addr = false)
    [(as_pml4_addr, MAX_ACTORS); (as_pdpt_addr, MAX_ACTORS); (as_pd_addr, MAX_ACTORS); (as_pt0_addr, MAX_ACTORS);
     (as_pt1_addr, PROGRAM_POOL_SIZE)] }.

#[export] Instance demo_lapic_ok : lapic_layout_ok demo_layout.
Proof. split; [done | done | repeat constructor]. Qed.

Section mapped.
Context {L : layout} {LOK : layout_ok L} {LAP : lapic_layout_ok L}.
Implicit Types (st : pg_state).

Lemma boot_table a st : 0x90000 <= a -> table_at st a =
  if a =? BOOT_PML4_PHYS_BASE then Some boot_pml4
  else if a =? BOOT_PDPT_PHYS_BASE then Some (boot_pdpt st)
  else if a =? PAGE_DIR_PHYS_BASE then Some (boot_pd st) else None.
Proof.
  intros Ha. pose proof lo_bounds as Hb. rewrite !List.Forall_cons_iff in Hb.
  destruct Hb as (? & ? & ? & ? & ? & _). unfold table_at, MAX_ACTORS, PROGRAM_POOL_SIZE.
  rewrite !in_pool_miss by lia. pose proof ll_range as Hr. repeat case_match; breflect; try done; lia.
Qed.

Lemma lapic_table st : table_at st lapic_pd_addr = Some (lapic_pd st) /\ table_at st lapic_pt_addr = Some (lapic_pt st).
Proof.
  pose proof ll_apart as Ha. rewrite !List.Forall_cons_iff in Ha.
  destruct Ha as ((A1 & A2) & (B1 & B2) & (C1 & C2) & (D1 & D2) & (E1 & E2) & _).
  pose proof ll_range as Hr. unfold table_at. rewrite A1, A2, B1, B2, C1, C2, D1, D2, E1, E2.
  unfold BOOT_PML4_PHYS_BASE, BOOT_PDPT_PHYS_BASE, PAGE_DIR_PHYS_BASE. split.
  - repeat (rewrite (proj2 (Z.eqb_neq _ _)) by lia). by rewrite Z.eqb_refl.
  - repeat (rewrite (proj2 (Z.eqb_neq _ _)) by lia). by rewrite Z.eqb_refl.
Qed.

(** The boot tables map the APIC's page, writable and for the kernel only. *)
Definition lapic_mapped st : Prop :=
  forall off, 0 <= off < 4096 -> walk st BOOT_PML4_PHYS_BASE (LAPIC_BASE + off) = Some (Translation (LAPIC_BASE + off) true false).

Lemma map_lapic_mapped st : lapic_mapped (hal_map_lapic_mmio st).
Proof.
  intros off Ho. destruct ll_aligned as [La1 La2]. pose proof ll_range as Hr.
  assert (I4 : va_index (LAPIC_BASE + off) 39 = 0) by (unfold LAPIC_BASE; rewrite va_index_spec by lia; Z.div_mod_to_equations; lia).
  assert (I3 : va_index (LAPIC_BASE + off) 30 = 3) by (unfold LAPIC_BASE; rewrite va_index_spec by lia; Z.div_mod_to_equations; lia).
  assert (I2 : va_index (LAPIC_BASE + off) 21 = 503) by (unfold LAPIC_BASE; rewrite va_index_spec by lia; Z.div_mod_to_equations; lia).
  assert (I1 : va_index (LAPIC_BASE + off) 12 = 0) by (unfold LAPIC_BASE; rewrite va_index_spec by lia; Z.div_mod_to_equations; lia).
  destruct (entry3 lapic_pd_addr) as (D1 & D2 & D3 & D4 & D5); [lia | done |].
  destruct (entry3 lapic_pt_addr) as (T1 & T2 & T3 & T4 & T5); [lia | done |].
  destruct (entry3 LAPIC_MMIO_PHYS) as (P1 & P2 & P3 & P4 & _); [by unfold LAPIC_MMIO_PHYS | done |].
  assert (T4' : table_at (hal_map_lapic_mmio st) BOOT_PML4_PHYS_BASE = Some boot_pml4) by by rewrite boot_table.
  assert (T3' : table_at (hal_map_lapic_mmio st) BOOT_PDPT_PHYS_BASE = Some (boot_pdpt (hal_map_lapic_mmio st)))
    by by rewrite boot_table.
  unfold walk. rewrite T4'. cbn [mbind option_bind]. rewrite I4, I3, I2, I1.
  change (pte_addr (boot_pml4 !!! 0)) with BOOT_PDPT_PHYS_BASE. rewrite T3'. cbn [mbind option_bind boot_pdpt hal_map_lapic_mmio].
  change (LAPIC_MMIO_PHYS / (PAGE_SIZE_2M * PD_ENTRIES)) with 3. rewrite aget_eq.
  rewrite D1, D2, D3, D4, (proj1 (lapic_table _)). cbn [lapic_pd hal_map_lapic_mmio mbind option_bind].
  change (LAPIC_MMIO_PHYS mod (PAGE_SIZE_2M * PD_ENTRIES) / PAGE_SIZE_2M) with 503. rewrite aget_eq.
  rewrite T1, T2, T3, T4, T5, (proj2 (lapic_table _)). cbn [lapic_pt hal_map_lapic_mmio mbind option_bind].
  change (LAPIC_MMIO_PHYS mod PAGE_SIZE_2M / PAGE_SIZE_4K) with 0. rewrite aget_eq.
  rewrite P1, P2, P3, P4. cbn [negb]. do 2 f_equal. unfold LAPIC_MMIO_PHYS, LAPIC_BASE, PAGE_SIZE_4K.
  Z.div_mod_to_equations; lia.
Qed.

Lemma lapic_reg_mapped st off : lapic_mapped st -> 0 <= off < 4096 -> lapic_reg off st = Some off.
Proof. intros H Ho. unfold lapic_reg. rewrite H by done. cbn. f_equal. unfold LAPIC_BASE, LAPIC_MMIO_PHYS. lia. Qed.
End mapped.

(** ** The hand-over is sound *)

Lemma wrmsr_bit msr v k a : 0 <= k < 32 -> Z.testbit (msrs (wrmsr msr v a) !!! msr) k = Z.testbit v k.
Proof.
  intros Hk. unfold wrmsr. cbn [msrs]. rewrite aget_eq, Z.lor_spec, Z.shiftl_spec, Z.land_spec by lia.
  rewrite (Z.testbit_neg_r _ (k - 32)) by lia. change 0xFFFFFFFF with (Z.ones 32).
  rewrite Z.ones_spec_low by lia. by rewrite andb_true_r.
Qed.

Section soundness.
Context {L : layout} {LOK : layout_ok L} {LAP : lapic_layout_ok L} {K : klayout}.
Context (ap_trampoline_blob : list Z) (ap_entry_c : Z).
(** The trampoline ends below its mailbox cells. *)
Context (Hblob : Z.of_nat (length ap_trampoline_blob) <= AP_BOOT_FLAG_ADDR - AP_TRAMPOLINE_ADDR).
Context (Hentry : in_u64 ap_entry_c).
Implicit Types (s : smp) (b : bsp_pc) (a : ap_pc).
Abbreviation blen := (blob_len ap_trampoline_blob).
Abbreviation bstep := (bsp_step ap_trampoline_blob ap_entry_c).
Abbreviation astep := (ap_step ap_trampoline_blob ap_entry_c).
Abbreviation run := (smp_run ap_trampoline_blob ap_entry_c).

Lemma mmio_write_on off v st l : lapic_mapped st -> 0 <= off < 4096 ->
  mmio_write off v st l =
  Some (if off =? LAPIC_SVR then Lapic (msrs l) (id_reg l) v (icr_sent l)
        else if off =? LAPIC_ICR_LO then Lapic (msrs l) (id_reg l) (svr l) (icr_sent l ++ [v]) else l).
Proof. intros H Ho. unfold mmio_write. by rewrite lapic_reg_mapped. Qed.

Lemma lapic_enable_spec st l : lapic_mapped st ->
  exists l', hal_lapic_enable st l = Some l' /\ apic_on l' = true /\ id_reg l' = id_reg l /\ icr_sent l' = icr_sent l.
Proof.
  intros H. unfold hal_lapic_enable. rewrite mmio_write_on by done. rewrite Z.eqb_refl.
  pose proof (wrmsr_bit IA32_APIC_BASE_MSR (rdmsr IA32_APIC_BASE_MSR l .|. IA32_APIC_BASE_ENABLE) 11 l ltac:(lia)) as Hb.
  assert (E : id_reg (wrmsr IA32_APIC_BASE_MSR (rdmsr IA32_APIC_BASE_MSR l .|. IA32_APIC_BASE_ENABLE) l) = id_reg l /\
    icr_sent (wrmsr IA32_APIC_BASE_MSR (rdmsr IA32_APIC_BASE_MSR l .|. IA32_APIC_BASE_ENABLE) l) = icr_sent l) by done.
  revert Hb E. generalize (wrmsr IA32_APIC_BASE_MSR (rdmsr IA32_APIC_BASE_MSR l .|. IA32_APIC_BASE_ENABLE) l).
  intros l1 Hb E. eexists. split; [reflexivity|]. split; [|exact E]. unfold apic_on. cbn [msrs svr]. rewrite Hb, Z.lor_spec. change (Z.testbit IA32_APIC_BASE_ENABLE 11) with true. by rewrite orb_true_r.
Qed.

Lemma lapic_id_spec st l : lapic_mapped st -> hal_lapic_id st l = Some (id_reg l .>>. 24).
Proof. intros H. unfold hal_lapic_id, mmio_read. by rewrite lapic_reg_mapped. Qed.

(** How far the boot processor is. *)
Definition stage b : Z :=
  match b with
  | BMap => 0 | BEnable => 1 | BCopy _ => 2 | BClear => 3 | BEntry => 4 | BInit => 5 | BSipi => 6 | BPoll _ => 7
  | BDone _ => 8 | BFault => 9
  end.

Definition copied (n : Z) (m : gmap Z Z) : Prop :=
  forall i, 0 <= i < n -> m !!! (AP_TRAMPOLINE_ADDR + i) = default 0 (ap_trampoline_blob !! Z.to_nat i).
Definition flag_of a : Z := match a with ADemo id => id + 1 | _ => 0 end.

(** The other processor on its way, with its own registers set up as far as
    its position says. *)
Definition gdt_loaded s : Prop :=
  ap_tr (s_gdt s) = GDT_AP_TSS_SELECTOR /\ ap_gdtr (s_gdt s) = gdtp (s_gdt s) /\ rsp0 (tss_ap (s_gdt s)) = AP_STACK_TOP.
Definition idt_loaded s : Prop := ap_idtr (s_idt s) = idtp (s_idt s).
Definition on_the_way a s : Prop :=
  match a with
  | ARun page => page = AP_TRAMPOLINE_PAGE
  | ARead | AGdt => True
  | AIdt => gdt_loaded s
  | AApic => gdt_loaded s /\ idt_loaded s
  | AId => gdt_loaded s /\ idt_loaded s /\ apic_on (s_ap s) = true
  | AFlag id | ADemo id =>
      gdt_loaded s /\ idt_loaded s /\ apic_on (s_ap s) = true /\ id = id_reg (s_ap s) .>>. 24
  | _ => False
  end.

Record hand_inv b a s : Prop := HandInv {
  hi_fault : b <> BFault;
  hi_mapped : 1 <= stage b -> lapic_mapped (s_pg s);
  hi_on : 2 <= stage b -> apic_on (s_bsp s) = true;
  hi_copied : match b with BMap | BEnable => True | BCopy i => 0 <= i <= blen /\ copied i (s_ram s)
              | _ => copied blen (s_ram s) end;
  hi_entry : 5 <= stage b -> load 8 AP_ENTRY_PTR_ADDR (s_ram s) = ap_entry_c;
  hi_flag : 4 <= stage b -> load 8 AP_BOOT_FLAG_ADDR (s_ram s) = flag_of a;
  hi_ap : a = AOff \/ (if stage b <=? 5 then a = ASleep else if stage b =? 6 then a = AWaitSipi else on_the_way a s);
  hi_rc : forall rc, b = BDone rc -> rc = 0 \/ rc = 1 /\ exists id, a = ADemo id;
  hi_id : in_u32 (id_reg (s_ap s)) }.

Lemma copied_trampoline m : copied blen m -> trampoline_at ap_trampoline_blob AP_TRAMPOLINE_PAGE m = true.
Proof.
  intros H. unfold trampoline_at. apply forallb_forall. intros i Hi%in_seq.
  apply Z.eqb_eq. change (AP_TRAMPOLINE_PAGE * 4096) with AP_TRAMPOLINE_ADDR.
  rewrite H by (unfold blob_len; lia). by rewrite Nat2Z.id.
Qed.

Lemma copied_keep n m m' : n <= blen -> (forall x, x < AP_BOOT_FLAG_ADDR -> m' !!! x = m !!! x) -> copied n m -> copied n m'.
Proof. intros Hn H Hc i Hi. unfold blob_len in *. rewrite H by (unfold AP_TRAMPOLINE_ADDR, AP_BOOT_FLAG_ADDR in *; lia). by apply Hc. Qed.

Lemma store_flag_keeps v m x : x < AP_BOOT_FLAG_ADDR -> store 8 AP_BOOT_FLAG_ADDR v m !!! x = m !!! x.
Proof. intros H. apply store_out. lia. Qed.

Lemma store_flag_entry v m : load 8 AP_ENTRY_PTR_ADDR (store 8 AP_BOOT_FLAG_ADDR v m) = load 8 AP_ENTRY_PTR_ADDR m.
Proof. apply load_ext. intros x Hx. apply store_out. unfold AP_BOOT_FLAG_ADDR, AP_ENTRY_PTR_ADDR in *. lia. Qed.

Lemma ap_id_range s : in_u32 (id_reg (s_ap s)) -> 0 <= id_reg (s_ap s) .>>. 24 < 256.
Proof. unfold in_u32. intros H. rewrite Z.shiftr_div_pow2 by lia. zdm. Qed.

(** A step of the other processor that leaves memory and page tables alone. *)
Lemma hand_keep b a a' s s' :
  hand_inv b a s -> 7 <= stage b -> s_ram s' = s_ram s -> s_pg s' = s_pg s -> s_bsp s' = s_bsp s ->
  id_reg (s_ap s') = id_reg (s_ap s) -> flag_of a' = flag_of a -> on_the_way a' s' -> (forall id, a <> ADemo id) ->
  hand_inv b a' s'.
Proof.
  intros [H1 H2 H3 H4 H5 H6 H7 H8 H9] Hb Er Ep Eb Ei Ef Hw Hn.
  split; rewrite ?Er, ?Ep, ?Eb, ?Ei, ?Ef; try done.
  - right. rewrite (proj2 (Z.leb_gt _ _)), (proj2 (Z.eqb_neq _ _)) by lia. done.
  - intros rc E. destruct (H8 rc E) as [->|[-> [id ->]]]; [by left | by destruct (Hn id)].
Qed.

Lemma ap_step_inv b a s a' s' : hand_inv b a s -> astep a s = Some (a', s') -> hand_inv b a' s'.
Proof.
  intros Hi Hs. pose proof Hi as [H1 H2 H3 H4 H5 H6 H7 H8 H9]. destruct H7 as [->|H7]; [done|].
  destruct (Z.leb_spec (stage b) 5); [by subst a|]. destruct (Z.eqb_spec (stage b) 6); [by subst a|].
  assert (Hc : copied blen (s_ram s)) by (destruct b; cbn in *; try lia; done).
  assert (Hm : lapic_mapped (s_pg s)) by (apply H2; lia). assert (Hb : 7 <= stage b) by lia.
  destruct a as [| | |page| | | | | |id|id| |]; cbn [on_the_way] in H7; try done; cbn [ap_step] in Hs.
  - subst page. rewrite copied_trampoline in Hs by done. injection Hs as <- <-. by eapply hand_keep.
  - rewrite H5, Z.eqb_refl in Hs by lia. injection Hs as <- <-. by eapply hand_keep.
  - injection Hs as <- <-. by eapply hand_keep.
  - injection Hs as <- <-. by eapply hand_keep.
  - destruct (lapic_enable_spec _ (s_ap s) Hm) as (l & El & Hl & Ei & _). rewrite El in Hs. injection Hs as <- <-.
    eapply hand_keep; try done. by destruct H7.
  - rewrite lapic_id_spec in Hs by done. injection Hs as <- <-. eapply hand_keep; try done. by destruct H7 as (? & ? & ?).
  - injection Hs as <- <-. pose proof (ap_id_range s H9) as Hid. destruct H7 as (G & I & On & Eid).
    rewrite <- Eid in Hid.
    assert (Eu : u32 (id + 1) = id + 1) by (apply u32_small; unfold in_u32; lia).
    split; cbn [s_ram s_pg s_bsp s_ap set_s_ram]; try done.
    + assert (Hk : copied blen (store 8 AP_BOOT_FLAG_ADDR (u32 (id + 1)) (s_ram s))).
      { eapply copied_keep; [reflexivity | intros x Hx; by apply store_flag_keeps | done]. }
      destruct b; cbn in *; try lia; done.
    + intros Hb'. rewrite store_flag_entry. by apply H5.
    + intros _. rewrite load_store; [by rewrite Eu | rewrite Eu; cbn; lia].
    + right. rewrite (proj2 (Z.leb_gt _ _)), (proj2 (Z.eqb_neq _ _)) by lia. by split_and!.
    + intros rc E. destruct (H8 rc E) as [->|[-> [? ?]]]; [by left | done].
Qed.

(** A step of the boot processor while the other one sleeps. *)
Lemma bsp_step_inv b a s b' a' s' : hand_inv b a s -> bstep b a s = Some (b', a', s') -> hand_inv b' a' s'.
Proof.
  intros [H1 H2 H3 H4 H5 H6 H7 H8 H9] Hs.
  destruct b as [| |i| | | | |spin|rc|]; cbn [bsp_step stage Z.leb Z.eqb] in *; try done.
  - injection Hs as <- <- <-. split; cbn; try done; try lia; try (intros _; first [apply H2 | apply H3]; lia). intros _. apply map_lapic_mapped.
  - destruct (lapic_enable_spec _ (s_bsp s) (H2 ltac:(lia))) as (l & El & Hl & _). rewrite El in Hs. injection Hs as <- <- <-.
    split; cbn; try done; try lia; try (intros _; first [apply H2 | apply H3]; lia). split; [unfold blob_len; lia|]. intros i Hi. lia.
  - destruct (Z.ltb_spec i blen) as [Hi|Hi]; injection Hs as <- <- <-; (split; cbn [stage s_ram s_pg s_bsp s_ap set_s_ram]; try done; try lia; try (intros _; first [apply H2 | apply H3]; lia)).
    + destruct H4 as [Hr Hc]. split; [lia|]. intros j Hj. destruct (Z.eq_dec j i) as [->|Hne]; [by rewrite aget_eq|].
      rewrite aget_ne by lia. apply Hc. lia.
    + destruct H4 as [Hr Hc]. by replace blen with i by lia.
  - injection Hs as <- <- <-. split; cbn [stage s_ram s_pg s_bsp s_ap set_s_ram]; try done; try lia; try (intros _; first [apply H2 | apply H3]; lia).
    + eapply copied_keep; [reflexivity | intros x Hx; by apply store_flag_keeps | done].
    + intros _. rewrite load_store by done. by destruct H7 as [->| ->].
  - injection Hs as <- <- <-. split; cbn [stage s_ram s_pg s_bsp s_ap set_s_ram]; try done; try lia; try (intros _; first [apply H2 | apply H3]; lia).
    + eapply copied_keep; [reflexivity | | done]. intros x Hx. apply store_out. unfold AP_BOOT_FLAG_ADDR, AP_ENTRY_PTR_ADDR in *. lia.
    + intros _. by apply load_store.
    + intros _. rewrite <- H6 by lia. apply load_ext. intros x Hx. apply store_out.
      unfold AP_BOOT_FLAG_ADDR, AP_ENTRY_PTR_ADDR in *. lia.
  - unfold send, send_init in Hs. rewrite mmio_write_on in Hs by (done || (apply H2; lia)).
    rewrite (H3 ltac:(lia)) in Hs. change (LAPIC_ICR_LO =? LAPIC_SVR) with false in Hs. rewrite Z.eqb_refl in Hs. cbn [icr_sent] in Hs.
    rewrite List.last_last in Hs. injection Hs as <- <- <-.
    assert (E : deliver_ipi 0xC4500 a = match a with AOff => AOff | _ => AWaitSipi end) by by destruct a.
    split; cbn [stage s_ram s_pg s_bsp s_ap set_s_bsp]; rewrite ?E; try done; try (intros _; first [apply H2 | apply H3 | apply H5]; lia).
    + intros _. rewrite H6 by lia. by destruct H7 as [->| ->].
    + destruct H7 as [->| ->]; [by left | by right].
  - unfold send, send_sipi in Hs. rewrite mmio_write_on in Hs by (done || (apply H2; lia)).
    rewrite (H3 ltac:(lia)) in Hs. change (LAPIC_ICR_LO =? LAPIC_SVR) with false in Hs. rewrite Z.eqb_refl in Hs. cbn [icr_sent] in Hs.
    rewrite List.last_last in Hs. injection Hs as <- <- <-.
    assert (E : deliver_ipi (0xC4600 .|. AP_TRAMPOLINE_PAGE) a =
      match a with AOff => AOff | AWaitSipi => ARun AP_TRAMPOLINE_PAGE | _ => a end) by by destruct a.
    split; cbn [stage s_ram s_pg s_bsp s_ap set_s_bsp]; rewrite ?E; try done; try (intros _; first [apply H2 | apply H3 | apply H5]; lia).
    + intros _. rewrite H6 by lia. by destruct H7 as [->| ->].
    + destruct H7 as [->| ->]; [by left | by right].
  - assert (Hd : forall rc, (rc = 0 \/ rc = 1 /\ exists id, a = ADemo id) -> hand_inv (BDone rc) a s).
    { intros rc Hrc. split; cbn [stage]; try done; try (intros _; first [apply H2|apply H3|apply H5|apply H6]; lia).
      by intros ? [= <-]. }
    destruct (spin <? AP_POLLS); [|injection Hs as <- <- <-; apply Hd; by left].
    destruct (load 8 AP_BOOT_FLAG_ADDR (s_ram s) =? 0) eqn:E; cbn [negb] in Hs; injection Hs as <- <- <-; [by split|].
    apply Hd. right. split; [done|]. rewrite H6 in E by lia. destruct a; try discriminate. by eexists.
Qed.

Lemma hand_start a s : a = AOff \/ a = ASleep -> in_u32 (id_reg (s_ap s)) -> hand_inv BMap a s.
Proof. intros Ha Hi. by split. Qed.

Lemma smp_run_inv n c c' : run n c c' -> hand_inv c.1.1 c.1.2 c.2 -> hand_inv c'.1.1 c'.1.2 c'.2.
Proof.
  intros Hr Hi. induction Hr as [c|n c b a s [[b' a'] s'] _ IH Hs|n c b a s a' s' _ IH Hs]; [done| |].
  - exact (bsp_step_inv b a s b' a' s' (IH Hi) Hs).
  - exact (ap_step_inv b a s a' s' (IH Hi) Hs).
Qed.

(** The other processor is there or not from the start to the end. *)
Lemma smp_run_off n c c' : run n c c' -> c.1.2 = AOff <-> c'.1.2 = AOff.
Proof.
  induction 1 as [c|n c b a s [[b' a'] s'] _ IH Hs|n c b a s a' s' _ IH Hs]; [done| |]; cbn [fst snd] in *; rewrite IH.
  - assert (E : forall v, deliver_ipi v a = AOff <-> a = AOff).
    { intros v. unfold deliver_ipi. destruct a; repeat case_match; done. }
    destruct b; cbn [bsp_step] in Hs; unfold send in Hs; repeat case_match; simplify_eq; rewrite ?E; done.
  - destruct a; cbn [ap_step] in Hs; repeat case_match; simplify_eq; done.
Qed.

(** The boot processor's steps that are left. *)
Definition remaining b : Z :=
  match b with
  | BMap => blen + AP_POLLS + 8 | BEnable => blen + AP_POLLS + 7 | BCopy i => blen - i + AP_POLLS + 6
  | BClear => AP_POLLS + 5 | BEntry => AP_POLLS + 4 | BInit => AP_POLLS + 3 | BSipi => AP_POLLS + 2
  | BPoll spin => AP_POLLS - spin + 1 | BDone _ | BFault => 0
  end.

(** The counters stay within their loops. *)
Definition counted b : Prop := match b with BCopy i => i <= blen | BPoll spin => spin <= AP_POLLS | _ => True end.

Lemma bsp_step_shorter b a s b' a' s' :
  bstep b a s = Some (b', a', s') -> counted b -> counted b' /\ remaining b' + 1 <= remaining b.
Proof.
  assert (0 <= blen) by (unfold blob_len; lia).
  destruct b; cbn [bsp_step counted]; unfold send; intros Hs H0; repeat case_match; simplify_eq; breflect;
    cbn [remaining counted] in *; unfold AP_POLLS in *; lia.
Qed.

Lemma smp_run_bound n c c' : run n c c' -> counted c.1.1 ->
  counted c'.1.1 /\ Z.of_nat n + remaining c'.1.1 <= remaining c.1.1.
Proof.
  intros Hr H0. induction Hr as [c|n c b a s [[b' a'] s'] _ IH Hs|n c b a s a' s' _ IH Hs]; [by split; [|lia]| |by apply IH].
  destruct (IH H0) as [H1 H2]. cbn [fst] in *. destruct (bsp_step_shorter _ _ _ _ _ _ Hs H1). by split; [|lia].
Qed.

(** C19: the hand-over to the second core is sound under every interleaving.  No
    processor faults on an APIC register, the woken core executes the
    trampoline and then [ap_entry_c] and nothing else, and [hal_smp_boot_ap]
    answers 1 only when that core runs with its own descriptor tables loaded
    and its own APIC enabled, having left its number in the flag; without a
    second core it answers 0. *)
Theorem second_core_is_ready_when_reported n a0 s0 b a s :
  a0 = AOff \/ a0 = ASleep -> in_u32 (id_reg (s_ap s0)) -> run n (BMap, a0, s0) (b, a, s) ->
  b <> BFault /\ a <> ALost /\ a <> AFault /\
  (forall rc, b = BDone rc -> rc = 0 \/
     rc = 1 /\ a0 = ASleep /\
     exists id, a = ADemo id /\ 0 <= id < 256 /\ load 8 AP_BOOT_FLAG_ADDR (s_ram s) = id + 1 /\
       gdt_loaded s /\ idt_loaded s /\ apic_on (s_ap s) = true).
Proof.
  intros Ha Hi Hr. pose proof (smp_run_inv _ _ _ Hr (hand_start a0 s0 Ha Hi)) as [H1 _ _ _ _ H6 H7 H8 H9].
  pose proof (smp_run_off _ _ _ Hr) as Hoff. cbn [fst snd] in *. split; [done|].
  assert (Hw : a <> ALost /\ a <> AFault).
  { destruct H7 as [->|H7]; [done|]. destruct (stage b <=? 5); [by subst|]. destruct (stage b =? 6); [by subst|].
    by split; intros ->. }
  split; [apply Hw|]. split; [apply Hw|]. intros rc ->. destruct (H8 rc eq_refl) as [->|[-> [id ->]]]; [by left|].
  right. split; [done|]. split; [destruct Ha as [->|]; [discriminate (proj1 Hoff eq_refl)|done]|].
  destruct H7 as [?|(G & I & On & E)]; [done|]. exists id. pose proof (ap_id_range s H9) as Hid. rewrite <- E in Hid.
  split; [done|]. split; [lia|]. split; [by apply H6|]. by split_and!.
Qed.

(** C20: [hal_smp_boot_ap] always returns: whatever the other core does, it takes
    at most one step per byte of the trampoline, eight more and one per poll,
    it can always take its next step until it has returned, and its next poll
    sees a core that has announced itself. *)
Theorem hal_smp_boot_ap_returns n a0 s0 b a s :
  a0 = AOff \/ a0 = ASleep -> in_u32 (id_reg (s_ap s0)) -> run n (BMap, a0, s0) (b, a, s) ->
  Z.of_nat n <= blen + AP_POLLS + 8 /\
  ((exists rc, b = BDone rc) \/ exists c, bstep b a s = Some c) /\
  (forall id spin, a = ADemo id -> b = BPoll spin -> spin < AP_POLLS -> bstep b a s = Some (BDone 1, a, s)).
Proof.
  intros Ha Hi Hr. pose proof (smp_run_inv _ _ _ Hr (hand_start a0 s0 Ha Hi)) as [H1 _ _ _ _ H6 H7 H8 H9].
  destruct (smp_run_bound _ _ _ Hr I) as [Hn1 Hn2]. cbn [fst snd] in *. split.
  { assert (0 <= blen) by (unfold blob_len; lia).
    destruct b; cbn [remaining counted] in *; unfold AP_POLLS in *; lia. }
  split.
  - destruct b; cbn [bsp_step]; first [done | left; by eexists | right; by eexists].
  - intros id spin -> -> Hs. cbn [bsp_step]. rewrite (proj2 (Z.ltb_lt _ _)) by done. rewrite H6 by (cbn; lia).
    destruct H7 as [?|(_ & _ & _ & E)]; [done|]. pose proof (ap_id_range s H9). cbn [flag_of].
    rewrite (proj2 (Z.eqb_neq _ _)) by lia. done.
Qed.

Lemma schedule_run l c : exists n, run n c (run_schedule ap_trampoline_blob ap_entry_c l c).
Proof.
  assert (H : forall l n c1, run n c c1 -> exists n', run n' c (run_schedule ap_trampoline_blob ap_entry_c l c1)).
  { clear l. induction l as [|w l IH]; intros n [[b a] s] Hr; [by exists n|]. cbn [run_schedule fold_left]. unfold turn at 2.
    destruct w.
    - destruct (bstep b a s) as [c2|] eqn:E; cbn [default]; eapply IH; [by eapply run_bsp | done].
    - destruct (astep a s) as [[a' s']|] eqn:E; eapply IH; [by eapply run_ap | done]. }
  exact (H l O c (run_nil _ _ c)).
Qed.
End soundness.

(** ** A closed hand-over *)
Module SmpDemo.
#[local] Existing Instance demo_layout.
#[local] Existing Instance demo_klayout.

Definition lapic_reset (id : Z) : lapic := Lapic {[IA32_APIC_BASE_MSR := 0xFEE00000]} (id .<<. 24) 0xFF [].
Definition smp0 : smp := Smp ∅ pg_boot gdt_boot (IdtState ∅ (0xFFF, 0x23000) (0xFFF, 0x23000) (0, 0)) (lapic_reset 0) (lapic_reset 1).
Definition blob0 : list Z := [0xFA; 0xB8; 0x00; 0x96].
Definition entry0 : Z := 0x30000.
(** The boot processor up to the startup command, the other core up to its
    announcement, then one poll. *)
Definition schedule0 : list bool := repeat true 11 ++ repeat false 7 ++ [true].
Definition end0 : config := run_schedule blob0 entry0 schedule0 (BMap, ASleep, smp0).
Definition outcome0 (c : config) : option (Z * Z) := match c with (BDone rc, ADemo id, _) => Some (rc, id) | _ => None end.

Lemma end0_outcome : outcome0 end0 = Some (1, 1).
Proof. vm_compute. reflexivity. Qed.

Lemma end0_shape : exists s, end0 = (BDone 1, ADemo 1, s).
Proof.
  pose proof end0_outcome as H. revert H. generalize end0. intros [[b a] s] H. exists s.
  destruct b; try discriminate. destruct a; try discriminate. by injection H as -> ->.
Qed.

Lemma second_core_is_ready_when_reported_witness :
  exists n s, smp_run blob0 entry0 n (BMap, ASleep, smp0) (BDone 1, ADemo 1, s) /\
    load 8 AP_BOOT_FLAG_ADDR (s_ram s) = 2 /\ gdt_loaded s.
Proof.
  destruct (schedule_run blob0 entry0 schedule0 (BMap, ASleep, smp0)) as [n Hr].
  destruct end0_shape as [s Es]. change (run_schedule blob0 entry0 schedule0 (BMap, ASleep, smp0)) with end0 in Hr.
  rewrite Es in Hr. exists n, s. split; [exact Hr|].
  assert (Hb : Z.of_nat (length blob0) <= AP_BOOT_FLAG_ADDR - AP_TRAMPOLINE_ADDR) by (vm_compute; discriminate).
  pose proof (second_core_is_ready_when_reported blob0 entry0 Hb ltac:(split; done) n ASleep smp0 (BDone 1) (ADemo 1) s
    (or_intror eq_refl) ltac:(split; done) Hr) as (_ & _ & _ & H).
  destruct (H 1 eq_refl) as [H0|(_ & _ & id & E & _ & Hf & Hg & _)]; [discriminate|].
  injection E as <-. split; [exact Hf | exact Hg].
Defined.

Lemma hal_smp_boot_ap_returns_witness :
  exists n b a s, smp_run blob0 entry0 n (BMap, AOff, smp0) (b, a, s) /\ Z.of_nat n <= 4 + AP_POLLS + 8.
Proof.
  exists O, BMap, AOff, smp0. split; [apply run_nil|].
  assert (Hb : Z.of_nat (length blob0) <= AP_BOOT_FLAG_ADDR - AP_TRAMPOLINE_ADDR) by (vm_compute; discriminate).
  exact (proj1 (hal_smp_boot_ap_returns blob0 entry0 Hb ltac:(split; done) O AOff smp0 BMap AOff smp0
    (or_introl eq_refl) ltac:(split; done) (run_nil _ _ _))).
Defined.
End SmpDemo.

(** ** Two cores at the console

    Once the second core runs, both write to the console.  The steps of a
    character are those of [hal_console_putchar]: take the lock by a
    compare-and-swap, send the byte to COM1, draw, release; a core may also
    switch the pane, which takes no lock. *)

(** [hal_console_putchar] between taking and releasing the lock, after COM1. *)
Definition put_body (ch : Z) (c : console) : console :=
  match esc_state c with
  | ESC_NONE => if ch =? 0x1B then set_esc ESC_GOT_ESC (esc_params c) (esc_param_count c) (esc_cur_param c) c
                else plain_byte ch c
  | ESC_GOT_ESC => if ch =? 91 then set_esc ESC_IN_SEQ (esc_params c) 0 0 c
                   else set_esc ESC_NONE (esc_params c) (esc_param_count c) (esc_cur_param c) c
  | ESC_IN_SEQ => esc_byte ch c
  end.

Lemma putchar_steps ch c : console_lock c = 0 ->
  hal_console_putchar ch c = Some (hal_spin_unlock (put_body ch (send_serial ch (set_lock 1 c)))).
Proof.
  intros H. unfold hal_console_putchar, hal_spin_lock, put_body. rewrite H, Z.eqb_refl. f_equal.
  cbn [esc_state send_serial set_lock]. destruct (esc_state c); [by destruct (ch =? 0x1B) | done | done].
Qed.

(** [ap_demo_loop]: the text it writes, and its busy loop. *)
Definition AP_COUNT : Z := 30000000.
Definition count_to (n : nat) : Z := loop (fun _ counter => u64 (counter + 1)) 0 n 0.
Definition ap_demo_text (id counter : Z) : list Z :=
  bytes "[AP core "%string ++ dec_text id ++ (bytes "] alive, running independently of the BSP"%string ++ [10]) ++
  bytes "[AP core "%string ++ dec_text id ++ bytes "] counted to "%string ++ dec_text counter ++
  (bytes " while the BSP's actor demo ran"%string ++ [10]).

Definition ap_demo_loop (id : Z) (c : console) : option console :=
  c ← hal_console_write (bytes "[AP core "%string) c;
  c ← hal_console_write_dec64 id c;
  c ← hal_console_write (bytes "] alive, running independently of the BSP"%string ++ [10]) c;
  let counter := count_to (Z.to_nat AP_COUNT) in
  c ← hal_console_write (bytes "[AP core "%string) c;
  c ← hal_console_write_dec64 id c;
  c ← hal_console_write (bytes "] counted to "%string) c;
  c ← hal_console_write_dec64 counter c;
  hal_console_write (bytes " while the BSP's actor demo ran"%string ++ [10]) c.

Lemma putchars_bind l l' c : putchars (l ++ l') c = putchars l c ≫= putchars l'.
Proof. revert c. induction l as [|ch l IH]; intros c; [done|]. cbn [app putchars]. destruct (hal_console_putchar ch c); [apply IH|done]. Qed.

Lemma count_to_exact n : Z.of_nat n < 2 ^ 64 -> count_to n = Z.of_nat n.
Proof.
  intros Hn. unfold count_to. induction n as [|n IH]; [done|]. rewrite loop_S, IH by lia. unfold u64. rewrite Z.mod_small; lia.
Qed.

Lemma write_then l r (f : console -> option console) c :
  (forall c, f c = putchars r c) -> (putchars l c ≫= f) = putchars (l ++ r) c.
Proof. intros H. rewrite putchars_bind. by destruct (putchars l c); cbn. Qed.

(** What the second core prints, as one text. *)
Lemma ap_demo_loop_text id c : ap_demo_loop id c = putchars (ap_demo_text id AP_COUNT) c.
Proof.
  unfold ap_demo_loop, ap_demo_text, hal_console_write. rewrite count_to_exact by (unfold AP_COUNT; lia).
  replace (Z.of_nat (Z.to_nat AP_COUNT)) with AP_COUNT by (unfold AP_COUNT; lia).
  cbv zeta. repeat (rewrite ?dec64_text; apply write_then; intros ?). done.
Qed.

(** Where a core is inside a character, and what it has left to write. *)
Inductive phase := Idle | Locked (ch : Z) | Sent (ch : Z) | Drawn.
Record writer := Writer { todo : list Z; at_phase : phase }.
Inductive cop := OpPut (core : bool) (ch : Z) | OpWin (win : Z).
Record duo := Duo { d_con : console; d_writer : bool -> writer; d_log : list cop }.

Definition set_writer (i : bool) (t : writer) (f : bool -> writer) : bool -> writer :=
  fun j => if Bool.eqb j i then t else f j.

Inductive dstep : duo -> duo -> Prop :=
| d_acquire i c f l ch rest :
    f i = Writer (ch :: rest) Idle -> console_lock c = 0 ->
    dstep (Duo c f l) (Duo (set_lock 1 c) (set_writer i (Writer rest (Locked ch)) f) l)
| d_serial i c f l ch rest :
    f i = Writer rest (Locked ch) ->
    dstep (Duo c f l) (Duo (send_serial ch c) (set_writer i (Writer rest (Sent ch)) f) l)
| d_draw i c f l ch rest :
    f i = Writer rest (Sent ch) ->
    dstep (Duo c f l) (Duo (put_body ch c) (set_writer i (Writer rest Drawn) f) (l ++ [OpPut i ch]))
| d_release i c f l rest :
    f i = Writer rest Drawn ->
    dstep (Duo c f l) (Duo (hal_spin_unlock c) (set_writer i (Writer rest Idle) f) l)
| d_window c f l win :
    dstep (Duo c f l) (Duo (hal_console_set_window win c) f (l ++ [OpWin win])).

(** The same operations one after the other, each character whole. *)
Definition apply_op (c : console) (o : cop) : console :=
  match o with
  | OpPut _ ch => default c (hal_console_putchar ch c)
  | OpWin win => hal_console_set_window win c
  end.
Definition sequential (c : console) (l : list cop) : console := fold_left apply_op l c.

Definition chars_of (i : bool) (l : list cop) : list Z :=
  omap (fun o => match o with OpPut j ch => if Bool.eqb j i then Some ch else None | OpWin _ => None end) l.
Definition all_chars (l : list cop) : list Z := omap (fun o => match o with OpPut _ ch => Some (u8 ch) | OpWin _ => None end) l.

Definition holding (t : writer) : bool := match at_phase t with Idle => false | _ => true end.
(** What a core still owes, its current character included. *)
Definition owed (t : writer) : list Z :=
  match at_phase t with Locked ch | Sent ch => ch :: todo t | _ => todo t end.
(** The console while [t] holds the lock, over the finished operations [q]. *)
Definition during (t : writer) (q : console) : console :=
  match at_phase t with Sent ch => send_serial ch (set_lock 1 q) | Idle => q | _ => set_lock 1 q end.

Lemma plain_lock ch c : console_lock (plain_byte ch c) = console_lock c.
Proof. unfold plain_byte. repeat case_match; done. Qed.

Lemma esc_lock ch c : console_lock (esc_byte ch c) = console_lock c.
Proof. unfold esc_byte, apply_sgr. cbv zeta. repeat case_match; done. Qed.

Lemma body_lock ch c : console_lock (put_body ch c) = console_lock c.
Proof. unfold put_body. repeat case_match; try done; [apply plain_lock | apply esc_lock]. Qed.

Lemma plain_serial ch c : serial (plain_byte ch c) = serial c.
Proof. unfold plain_byte. repeat case_match; done. Qed.

Lemma esc_serial ch c : serial (esc_byte ch c) = serial c.
Proof. unfold esc_byte, apply_sgr. cbv zeta. repeat case_match; done. Qed.

Lemma body_serial ch c : serial (put_body ch c) = serial c.
Proof. unfold put_body. repeat case_match; try done; [apply plain_serial | apply esc_serial]. Qed.

Lemma relock c : console_lock c = 1 -> set_lock 1 (set_lock 0 c) = c.
Proof. by destruct c; cbn; intros ->. Qed.

Lemma unlock_idem c : console_lock c = 0 -> set_lock 0 (set_lock 1 c) = c.
Proof. by destruct c; cbn; intros ->. Qed.

Lemma sequential_snoc c l o : sequential c (l ++ [o]) = apply_op (sequential c l) o.
Proof. unfold sequential. by rewrite fold_left_app. Qed.

Lemma apply_lock o c : console_lock c = 0 -> console_lock (apply_op c o) = 0.
Proof.
  intros H. destruct o as [i ch|win]; cbn [apply_op]; [by rewrite putchar_steps|].
  unfold hal_console_set_window. by destruct (_ || _).
Qed.

Lemma sequential_serial c l : console_lock c = 0 ->
  console_lock (sequential c l) = 0 /\ serial (sequential c l) = serial c ++ all_chars l.
Proof.
  intros Hc. induction l as [|o l [IH1 IH2]] using rev_ind; [by rewrite app_nil_r|].
  rewrite sequential_snoc. split; [by apply apply_lock|]. unfold all_chars in *. rewrite omap_app, app_assoc, <- IH2.
  destruct o as [i ch|win]; cbn [apply_op omap list_omap].
  - rewrite putchar_steps by done. cbn [default].
    transitivity (serial (put_body ch (send_serial ch (set_lock 1 (sequential c l))))); [done|]. by rewrite body_serial.
  - unfold hal_console_set_window. destruct (_ || _); by rewrite app_nil_r.
Qed.

(** The pane switch commutes with the steps that do not look at the pane. *)
Lemma during_window t win q : during t (hal_console_set_window win q) = hal_console_set_window win (during t q).
Proof. unfold during, hal_console_set_window. destruct (_ || _), (at_phase t); done. Qed.

Section duo.
Context (c0 : console) (texts : bool -> list Z).
Context (Hc0 : console_lock c0 = 0).

Record duo_inv (d : duo) : Prop := DuoInv {
  du_con : exists i, holding (d_writer d (negb i)) = false /\ d_con d = during (d_writer d i) (sequential c0 (d_log d));
  du_fifo : forall i, texts i = chars_of i (d_log d) ++ owed (d_writer d i) }.

Lemma set_writer_eq i t f : set_writer i t f i = t.
Proof. unfold set_writer. by destruct i. Qed.
Lemma set_writer_ne i t f : set_writer i t f (negb i) = f (negb i).
Proof. unfold set_writer. by destruct i. Qed.

(** The core that is inside a character is the one the invariant names. *)
Lemma holder d i : duo_inv d -> holding (d_writer d i) = true ->
  holding (d_writer d (negb i)) = false /\ d_con d = during (d_writer d i) (sequential c0 (d_log d)).
Proof. intros [[j [Hj Hd]] _] Hi. destruct i, j; cbn in *; congruence || done. Qed.

(** A core's move that changes neither the log nor what it owes. *)
Lemma fifo_keep f i t l : (forall j, texts j = chars_of j l ++ owed (f j)) -> owed t = owed (f i) ->
  forall j, texts j = chars_of j l ++ owed (set_writer i t f j).
Proof.
  intros Hf Ho j. unfold set_writer. destruct (Bool.eqb_spec j i) as [->|]; [by rewrite Ho, <- Hf | apply Hf].
Qed.

Lemma dstep_inv d d' : duo_inv d -> dstep d d' -> duo_inv d'.
Proof.
  intros Hd Hs. pose proof Hd as [Hcon Hf]. destruct Hs as [i c f l ch rest E Hl|i c f l ch rest E|i c f l ch rest E|i c f l rest E|c f l win];
    cbn [d_con d_writer d_log] in *.
  - destruct (sequential_serial c0 l Hc0) as [Hq _].
    assert (Hid : forall j, holding (f j) = false).
    { intros j. destruct (holding (f j)) eqn:Ej; [|done]. destruct (holder _ j Hd Ej) as [_ Hc]. cbn in Hc. rewrite Hc in Hl.
      unfold during, holding in *. by destruct (at_phase (f j)). }
    split; cbn [d_con d_writer d_log].
    + exists i. rewrite set_writer_eq, set_writer_ne. split; [apply Hid|]. destruct Hcon as (j & _ & ->).
      specialize (Hid j). unfold during, holding in *. cbn [at_phase]. by destruct (at_phase (f j)).
    + apply fifo_keep; [done|]. by rewrite E.
  - destruct (holder _ i Hd) as [Hn Hc]; [by cbn; rewrite E|]. cbn [d_con d_writer d_log] in Hn, Hc. split; cbn [d_con d_writer d_log].
    + exists i. rewrite set_writer_eq, set_writer_ne. split; [done|]. rewrite Hc, E. done.
    + apply fifo_keep; [done|]. by rewrite E.
  - destruct (holder _ i Hd) as [Hn Hc]; [by cbn; rewrite E|]. cbn [d_con d_writer d_log] in Hn, Hc. destruct (sequential_serial c0 l Hc0) as [Hq _].
    split; cbn [d_con d_writer d_log].
    + exists i. rewrite set_writer_eq, set_writer_ne. split; [done|]. rewrite sequential_snoc. cbn [apply_op].
      rewrite putchar_steps by done. cbn [default during at_phase]. unfold hal_spin_unlock, id.
      rewrite relock by (by rewrite body_lock). by rewrite Hc, E.
    + intros j. unfold chars_of, set_writer. rewrite omap_app. cbn [omap list_omap].
      pose proof (Hf j) as Hj. destruct (Bool.eqb_spec j i) as [->|Hne].
      * rewrite Bool.eqb_reflx, Hj, E. cbn [owed at_phase todo]. by rewrite <- app_assoc.
      * replace (Bool.eqb i j) with false by (by destruct i, j). by rewrite app_nil_r.
  - destruct (holder _ i Hd) as [Hn Hc]; [by cbn; rewrite E|]. cbn [d_con d_writer d_log] in Hn, Hc. destruct (sequential_serial c0 l Hc0) as [Hq _].
    split; cbn [d_con d_writer d_log].
    + exists i. rewrite set_writer_eq, set_writer_ne. split; [done|]. rewrite Hc, E. cbn [during at_phase]. by apply unlock_idem.
    + apply fifo_keep; [done|]. by rewrite E.
  - split; cbn [d_con d_writer d_log].
    + destruct Hcon as (i & Hn & ->). exists i. split; [done|]. by rewrite sequential_snoc, <- during_window.
    + intros j. unfold chars_of. rewrite omap_app. cbn [omap list_omap]. rewrite app_nil_r. apply Hf.
Qed.

(** C21: two cores share the console without tearing a character.  At every
    moment at most one core is inside [hal_console_putchar]; whenever neither
    is, the console is what the characters and pane switches, taken whole and
    one after the other in the order they were drawn, make of it; each core's
    characters come out in its order, none lost or doubled; and COM1 has
    received exactly that sequence. *)
Theorem console_characters_are_atomic d :
  rtc dstep (Duo c0 (fun i => Writer (texts i) Idle) []) d ->
  (holding (d_writer d false) && holding (d_writer d true) = false) /\
  (forall i, texts i = chars_of i (d_log d) ++ owed (d_writer d i)) /\
  (holding (d_writer d false) = false -> holding (d_writer d true) = false ->
   d_con d = sequential c0 (d_log d) /\ serial (d_con d) = serial c0 ++ all_chars (d_log d)).
Proof.
  intros Hr. assert (Hi : duo_inv d).
  { assert (H0 : duo_inv (Duo c0 (fun i => Writer (texts i) Idle) [])) by (split; [by exists true | done]).
    revert H0. induction Hr as [d|d1 d2 d3 Hs _ IH]; [done|]. intros H1. apply IH. by eapply dstep_inv. }
  split; [|split; [apply Hi|]].
  - destruct (holding (d_writer d false)) eqn:E; [|done]. destruct (holder d false Hi E) as [H' _]. cbn in H'. by rewrite H'.
  - intros E0 E1. destruct Hi as [(i & _ & Hc) _].
    assert (E : d_con d = sequential c0 (d_log d)).
    { rewrite Hc. unfold during, holding in *. destruct i; by repeat case_match. }
    split; [exact E|]. rewrite E. by apply sequential_serial.
Qed.
End duo.

Module DuoDemo.
Definition texts0 (i : bool) : list Z := if i then [65] else [66].
Definition duo0 : duo := Duo console0 (fun i => Writer (texts0 i) Idle) [].

(** The second core prints "A" while the first switches the pane and waits. *)
Lemma console_characters_are_atomic_witness :
  exists d, rtc dstep duo0 d /\ d_log d = [OpWin 1; OpPut true 65] /\ serial (d_con d) = serial console0 ++ [65].
Proof.
  assert (Hr : exists d, rtc dstep duo0 d /\ d_log d = [OpWin 1; OpPut true 65] /\
    holding (d_writer d false) = false /\ holding (d_writer d true) = false).
  { eexists. split; [|split].
    - unfold duo0. eapply rtc_l; [by apply (d_acquire true _ _ _ 65 [])|]. eapply rtc_l; [by apply (d_serial true _ _ _ 65 [])|].
      eapply rtc_l; [apply (d_window _ _ _ 1)|]. eapply rtc_l; [by apply (d_draw true _ _ _ 65 [])|].
      eapply rtc_l; [by apply (d_release true _ _ _ [])|]. apply rtc_refl.
    - reflexivity.
    - by split. }
  destruct Hr as (d & Hr & Hl & H0 & H1). exists d. split; [exact Hr|]. split; [exact Hl|].
  destruct (console_characters_are_atomic console0 texts0 eq_refl d Hr) as (_ & _ & H).
  destruct (H H0 H1) as [_ Hs]. rewrite Hs, Hl. reflexivity.
Defined.
End DuoDemo.
