(* ===== verification/Boot.v ===== *)
(** * Boot: [kernel_main] of [core/main.c]

    The kernel's own entry point: it brings the components up in order, fills
    the actor table, seeds the object store, hands out the only capabilities
    that are not delegated later, and starts the scheduler. *)
From Stdlib Require Import String Ascii List.
From S2P Require Import Prelude Paging Memory Storage Gdt Actor Scheduler Isolation Ports Pic Keyboard Rtc Console Net E820 Access Place Loader Syscall Authority Interrupts Machine.

Definition MAILBOX_RECEIVER_SLOT : Z := 4.
Definition MAILBOX_SENDER_SLOT : Z := 5.
Definition INTRUDER_SLOT : Z := 6.
Definition COORDINATOR_SLOT : Z := 7.
Definition DOWNLOADER_SLOT : Z := 8.
Definition SCANNER_SLOT : Z := 9.
Definition READER_SLOT : Z := 10.
Definition NETWORK_PEER_SLOT : Z := 11.
Definition PROGRAM_LOADER_SLOT : Z := 12.
Definition NAMESPACE_DEMO_SLOT : Z := 13.
Definition SHELL_SLOT : Z := 14.
Definition PAYLOAD_OBJECT_ID : Z := 0.
Definition SUSPICIOUS_OBJECT_ID : Z := 1.
Definition HELLO_PROGRAM_OBJECT_ID : Z := 2.

(** What the linked image provides: the entry points of the actors, in the
    order they are spawned, and the bytes of the packed program. *)
Class image := Image { actor_entries : list Z; hello_blob : list Z; image_actors : length actor_entries = 15%nat }.

(** The machine with its two descriptor tables. *)
Record boot (B D N : Type) := Boot { b_world : world B D N; b_gdt : gdt_state; b_idt : idt_state }.
Arguments Boot {B D N} _ _ _.
Arguments b_world {B D N} _.
Arguments b_gdt {B D N} _.
Arguments b_idt {B D N} _.

Definition line (s : string) : list Z := bytes s ++ [10].

Section boot.
Context {L : layout} {KL : klayout} {KC : kcode} {IC : icode} {IM : image}.
Context {B D N : Type} `{!PortBus B} `{!BlockDevice D} `{!NetDevice N}.
Implicit Types (w : world B D N) (b : boot B D N) (k : kern).

(** [None] below is the console's lock never released, or a keyboard
    controller that never runs dry. *)
Definition print (s : list Z) w : option (world B D N) := c ← Console.hal_console_write s (w_con w); Some (set_con c w).
Definition print_dec (v : Z) w : option (world B D N) := c ← hal_console_write_dec64 v (w_con w); Some (set_con c w).

(** ** The network check *)

Definition hex_char (nibble : Z) : Z := default 0 (bytes "0123456789ABCDEF" !! Z.to_nat nibble).
Definition write_hex_byte (v : Z) w : option (world B D N) :=
  w ← print [hex_char ((v .>>. 4) .&. 0xF)] w; print [hex_char (v .&. 0xF)] w.

(** Six bytes, with a colon between them. *)
Fixpoint write_mac_from (n : nat) (i : Z) (mac : gmap Z Z) w : option (world B D N) :=
  match n with
  | O => Some w
  | S n =>
      w ← write_hex_byte (mac !!! i) w;
      w ← (if negb (i =? 5) then print [58] w else Some w);
      write_mac_from n (i + 1) mac w
  end.
Definition write_mac (mac : gmap Z Z) w : option (world B D N) := write_mac_from 6 0 mac w.

(** The 42 bytes of the request: Ethernet broadcast, then "who has 10.0.2.2". *)
Definition arp_request (mac : gmap Z Z) : list Z :=
  repeat 0xFF 6 ++ take_arr mac 0 6 ++ [0x08; 0x06] ++
  [0x00; 0x01; 0x08; 0x00; 6; 4; 0x00; 0x01] ++ take_arr mac 0 6 ++ [10; 0; 2; 15] ++ repeat 0 6 ++ [10; 0; 2; 2].

Definition set_nic_of (d : N) w : world B D N := set_net (set_nic d (w_net w)) w.

Definition net_arp_demo w : option (world B D N) :=
  let '(rc, n) := net_init (w_net w) in
  let w := set_net n w in
  if negb (rc =? 0) then
    print (line "Net: no virtio-net-pci device found (QEMU started without -device virtio-net-pci?).") w
  else
    let '(mac, d) := nd_get_mac ∅ (nic (w_net w)) in
    let w := set_nic_of d w in
    w ← print (bytes "Net: virtio-net online, MAC ") w;
    w ← write_mac mac w;
    w ← print [10] w;
    w ← print (line "Net: sending ARP request -- who has 10.0.2.2?") w;
    let '(sent, d) := nd_send (arp_request mac) (nic (w_net w)) in
    let w := set_nic_of d w in
    if negb (sent =? 0) then print (line "Net: send failed.") w
    else
      let '(n, reply, d) := nd_poll ∅ 64 20000000 (nic (w_net w)) in
      let w := set_nic_of d w in
      if n <? 0 then print (line "Net: a reply arrived but didn't fit the receive buffer.") w
      else if n =? 0 then print (line "Net: no ARP reply received (timed out).") w
      else if (42 <=? n) && (reply !!! 12 =? 0x08) && (reply !!! 13 =? 0x06) && (reply !!! 20 =? 0x00) && (reply !!! 21 =? 0x02)
      then
        w ← print (bytes "Net: ARP reply -- 10.0.2.2 is at ") w;
        w ← write_mac (of_list (take_arr reply 22 6)) w;
        print (line " -- a genuine round trip over real virtio hardware.") w
      else
        w ← print (bytes "Net: received a frame, but not the expected ARP reply (") w;
        w ← print_dec n w;
        print (line " bytes).") w.

(** ** The sequence *)

(** The network driver takes its rings and buffers from the kernel's allocator
    ([hal_net_init], VirtioNet.v); [dma] lists the page counts it asks for. *)
Definition claim_dma (dma : list Z) (m : mem_state) : mem_state := fold_left (fun m n => (alloc_dma_pages n m).2) dma m.
Definition claim_pages (dma : list Z) w : world B D N := set_kern (set_mem (claim_dma dma (mem (w_kern w))) (w_kern w)) w.

(** [memory_init] with the firmware's map, at most 32 regions of it. *)
Definition boot_memory (firmware : gmap Z Z) (m : mem_state) : mem_state :=
  let '(count, out) := hal_get_memory_map firmware 32 ∅ in memory_init (take_arr out 0 (Z.to_nat count)) m.

(** [ap] is the answer of [hal_smp_boot_ap] (Smp.v); of what it leaves behind,
    the rest of the kernel sees the APIC's mapping. *)
Definition boot_cpu_tables (ap : Z) b : option (boot B D N) :=
  let w := set_con (hal_console_init (w_con (b_world b))) (b_world b) in
  w ← print (line "VAJRA OS (C rewrite) - Milestone 18") w;
  w ← print (line "Console + IDT + exception handling online.") w;
  let '(g, t) := hal_interrupts_init (b_gdt b) (b_idt b) in
  let w := set_kern (set_tss (tss g) (w_kern w)) w in
  w ← print (line "IDT installed.") w;
  let w := set_kern (set_pg (hal_map_lapic_mmio (pg (w_kern w))) (w_kern w)) w in
  w ← print (if negb (ap =? 0) then line "SMP: AP core online." else line "SMP: no AP responded (single-CPU run?).") w;
  Some (Boot w g t).

Definition boot_devices (fuel : nat) (firmware : gmap Z Z) (dma : list Z) w : option (world B D N) :=
  let w := set_kern (set_mem (boot_memory firmware (mem (w_kern w))) (w_kern w)) w in
  w ← print (bytes "Memory manager online. Detected RAM: ") w;
  w ← print_dec (memory_get_total_bytes (mem (w_kern w)) / (1024 * 1024)) w;
  w ← print (line " MB") w;
  w ← net_arp_demo (claim_pages dma w);
  let w := set_bus (hal_timer_init 100 (hal_pic_remap (w_bus w))) w in
  w ← print (line "PIC remapped, timer at 100 Hz.") w;
  bus ← hal_keyboard_init fuel (w_bus w);
  print (line "Keyboard online (PS/2, IRQ1).") (set_bus bus w).

(** The results of the spawns are not looked at. *)
Definition spawn_all (entries : list Z) k : kern := fold_left (fun k e => (actor_spawn e k).2) entries k.

Definition boot_actors w : world B D N :=
  let w := set_sto (storage_init (w_sto w)) w in
  let k := scheduler_init (w_kern w) in
  set_kern (spawn_all actor_entries k) w.

(** A string literal as the store sees it. *)
Definition c_string (s : string) : Z -> Z := fun i => default 0 (bytes s !! Z.to_nat i).
Definition create_object (s : string) w : Z * world B D N :=
  let '(id, st) := storage_create_object (c_string s) (w_sto w) in (id, set_sto st w).

Definition boot_objects w : option (world B D N) :=
  let '(payload_id, w) := create_object "payload.bin" w in
  let '(suspicious_id, w) := create_object "suspicious.bin" w in
  w ← print (bytes "Storage online. Created objects 'payload.bin' (id ") w;
  w ← print_dec (u64 payload_id) w;
  w ← print (bytes ") and 'suspicious.bin' (id ") w;
  w ← print_dec (u64 suspicious_id) w;
  w ← print (line ").") w;
  let '(hello_id, w) := create_object "hello.bin" w in
  let hello_len := u32 (Z.of_nat (length hello_blob)) in
  let '(_, st) := storage_write hello_id (fun i => default 0 (hello_blob !! Z.to_nat i)) hello_len (w_sto w) in
  let w := set_sto st w in
  w ← print (bytes "Loader: seeded 'hello.bin' (id ") w;
  w ← print_dec (u64 hello_id) w;
  w ← print (bytes ", ") w;
  w ← print_dec hello_len w;
  print (line " bytes) as a loadable program.") w.

(** Every capability that is not delegated or created later: holder, right and
    target, in the order they are granted. *)
Definition boot_grants : list (Z * Z * Z) :=
  [(MAILBOX_SENDER_SLOT, CAP_SEND, MAILBOX_RECEIVER_SLOT);
   (COORDINATOR_SLOT, CAP_SPAWN, 0);
   (DOWNLOADER_SLOT, CAP_WRITE_OBJECT, PAYLOAD_OBJECT_ID);
   (DOWNLOADER_SLOT, CAP_WRITE_OBJECT, SUSPICIOUS_OBJECT_ID);
   (DOWNLOADER_SLOT, CAP_SEND, SCANNER_SLOT);
   (SCANNER_SLOT, CAP_READ_OBJECT, PAYLOAD_OBJECT_ID);
   (SCANNER_SLOT, CAP_READ_OBJECT, SUSPICIOUS_OBJECT_ID);
   (SCANNER_SLOT, CAP_PROMOTE_OBJECT, 0);
   (SCANNER_SLOT, CAP_SPAWN, 0);
   (SCANNER_SLOT, CAP_SEND, READER_SLOT);
   (SCANNER_SLOT, CAP_SEND, DOWNLOADER_SLOT);
   (READER_SLOT, CAP_READ_OBJECT, PAYLOAD_OBJECT_ID);
   (READER_SLOT, CAP_READ_OBJECT, SUSPICIOUS_OBJECT_ID);
   (NETWORK_PEER_SLOT, CAP_NET, 0);
   (PROGRAM_LOADER_SLOT, CAP_SPAWN, 0);
   (PROGRAM_LOADER_SLOT, CAP_READ_OBJECT, HELLO_PROGRAM_OBJECT_ID);
   (NAMESPACE_DEMO_SLOT, CAP_LIST_NAMES, 0);
   (NAMESPACE_DEMO_SLOT, CAP_CREATE_OBJECT, 0);
   (SHELL_SLOT, CAP_CONSOLE, 0);
   (SHELL_SLOT, CAP_SPAWN, 0);
   (SHELL_SLOT, CAP_LIST_NAMES, 0);
   (SHELL_SLOT, CAP_READ_OBJECT, HELLO_PROGRAM_OBJECT_ID)].

Definition grant_all (l : list (Z * Z * Z)) k : kern :=
  fold_left (fun k '(slot, op, target) => (actor_grant slot op target k).2) l k.

Definition boot_authority k : kern :=
  let k := grant_all boot_grants k in
  let k := (actor_set_spawn_quota SHELL_SLOT 6 k).2 in
  (actor_set_window SHELL_SLOT CONSOLE_WIN_SHELL k).2.

(** [hal_enable_interrupts(); scheduler_start();] and where the switch lands. *)
Definition boot_start w : outcome (world B D N) :=
  let '(returned, k) := scheduler_start (hal_enable_interrupts (w_kern w)) in
  if returned then Back 0 (set_kern k w) else land k w.

Definition kernel_main (fuel : nat) (firmware : gmap Z Z) (ap : Z) (dma : list Z) b : option (outcome (world B D N) * gdt_state * idt_state) :=
  b ← boot_cpu_tables ap b;
  w ← boot_devices fuel firmware dma (b_world b);
  w ← boot_objects (boot_actors w);
  let w := set_kern (boot_authority (w_kern w)) w in
  w ← print ([10] ++ bytes "Starting preemptive scheduler with 15 ring-3 actors..." ++ [10; 10]) w;
  Some (boot_start w, b_gdt b, b_idt b).
End boot.

(** ** The sequence always completes *)
Section completes.
Context {L : layout} {KL : klayout} {KC : kcode} {IC : icode} {IM : image}.
Context {B D N : Type} `{!PortBus B} `{!BlockDevice D} `{!BlockDeviceLaws D} `{!NetDevice N}.
Implicit Types (w : world B D N) (b : boot B D N) (k : kern).

Lemma print_ok s w : con_ok (w_con w) -> exists c, print s w = Some (set_con c w) /\ con_ok c.
Proof. intros H. destruct (write_ok s (w_con w) H) as (c & E & Hc & _). exists c. unfold print. by rewrite E. Qed.

Lemma print_dec_ok v w : con_ok (w_con w) -> exists c, print_dec v w = Some (set_con c w) /\ con_ok c.
Proof.
  intros H. destruct (write_ok (dec_text v) (w_con w) H) as (c & E & Hc & _). exists c. unfold print_dec.
  rewrite dec64_text. unfold Console.hal_console_write in E. by rewrite E.
Qed.

Ltac printed :=
  let c := fresh "c" in let Hc := fresh "Hc" in
  match goal with
  | |- context [print ?s ?w ≫= _] => destruct (print_ok s w ltac:(assumption)) as (c & -> & Hc)
  | |- context [print_dec ?v ?w ≫= _] => destruct (print_dec_ok v w ltac:(assumption)) as (c & -> & Hc)
  end; cbn [mbind option_bind].

(** Some console output, and maybe traffic on the network. *)
Definition chatted w (r : option (world B D N)) : Prop :=
  exists c n, r = Some (set_net n (set_con c w)) /\ con_ok c.

Lemma chatted_some w c n : con_ok c -> chatted w (Some (set_net n (set_con c w))).
Proof. intros H. by exists c, n. Qed.

Lemma chatted_self w : con_ok (w_con w) -> chatted w (Some w).
Proof. intros H. exists (w_con w), (w_net w). by destruct w. Qed.

Lemma chatted_bind w r (f : world B D N -> option (world B D N)) :
  chatted w r -> (forall c n, con_ok c -> chatted (set_net n (set_con c w)) (f (set_net n (set_con c w)))) -> chatted w (r ≫= f).
Proof.
  intros (c & n & -> & Hc) Hf. cbn [mbind option_bind]. destruct (Hf c n Hc) as (c' & n' & -> & Hc'). by exists c', n'.
Qed.

Lemma chatted_net w n r : chatted (set_net n w) r -> chatted w r.
Proof. intros (c & n' & -> & Hc). by exists c, n'. Qed.

Lemma print_chat s w : con_ok (w_con w) -> chatted w (print s w).
Proof. intros H. destruct (print_ok s w H) as (c & -> & Hc). exists c, (w_net w). by destruct w. Qed.

Lemma print_dec_chat v w : con_ok (w_con w) -> chatted w (print_dec v w).
Proof. intros H. destruct (print_dec_ok v w H) as (c & -> & Hc). exists c, (w_net w). by destruct w. Qed.

Ltac chat := repeat (apply chatted_bind; [first [by apply print_chat | by apply print_dec_chat]|intros ? ? ?]);
  first [by apply print_chat | by apply print_dec_chat | by apply chatted_self | idtac].

Lemma write_mac_chat n i mac w : con_ok (w_con w) -> chatted w (write_mac_from n i mac w).
Proof.
  revert i w. induction n as [|n IH]; intros i w Hw; cbn [write_mac_from]; [by apply chatted_self|].
  apply chatted_bind; [unfold write_hex_byte; chat|]. intros c1 n1 H1.
  apply chatted_bind; [destruct (negb _); chat|]. intros c2 n2 H2. by apply IH.
Qed.

Lemma arp_chat w : con_ok (w_con w) -> chatted w (net_arp_demo w).
Proof.
  intros Hw. unfold net_arp_demo, set_nic_of. destruct (net_init (w_net w)) as [rc n]. cbv zeta.
  destruct (negb _); [apply (chatted_net w n); by chat|].
  destruct (nd_get_mac _ _) as [mac d]. set (n1 := set_nic d _). apply (chatted_net w n). apply (chatted_net _ n1).
  apply chatted_bind; [chat|]. intros c1 m1 H1. apply chatted_bind; [by apply write_mac_chat|]. intros c2 m2 H2.
  do 2 (apply chatted_bind; [chat|]; intros ? ? ?).
  destruct (nd_send _ _) as [sent d2]. eapply chatted_net. destruct (negb _); [by chat|].
  destruct (nd_poll _ _ _ _) as [[len reply] d3]. eapply chatted_net.
  destruct (len <? 0); [by chat|]. destruct (len =? 0); [by chat|]. destruct (_ && _ && _ && _ && _).
  - apply chatted_bind; [chat|]. intros ? ? ?. apply chatted_bind; [by apply write_mac_chat|]. intros ? ? ?. by chat.
  - by chat.
Qed.

(** Up to the keyboard: only the allocator, the console, the network and the
    ports have changed. *)
Lemma boot_devices_ok fuel firmware dma w bus :
  con_ok (w_con w) -> hal_keyboard_init fuel (hal_timer_init 100 (hal_pic_remap (w_bus w))) = Some bus ->
  exists w', boot_devices fuel firmware dma w = Some w' /\ con_ok (w_con w') /\
    w_kern w' = set_mem (claim_dma dma (boot_memory firmware (mem (w_kern w)))) (w_kern w) /\ w_sto w' = w_sto w /\ w_kbd w' = w_kbd w.
Proof.
  intros Hw Hk. unfold boot_devices. cbv zeta. set (w0 := set_kern _ w). change (w_con w) with (w_con w0) in Hw.
  assert (E0 : w_kern w0 = set_mem (boot_memory firmware (mem (w_kern w))) (w_kern w) /\ w_sto w0 = w_sto w /\
    w_kbd w0 = w_kbd w /\ w_bus w0 = w_bus w) by done.
  destruct E0 as (E & <- & <- & Eb). rewrite <- Eb in Hk.
  assert (E' : set_mem (claim_dma dma (boot_memory firmware (mem (w_kern w)))) (w_kern w) =
    set_mem (claim_dma dma (mem (w_kern w0))) (w_kern w0)) by by rewrite E.
  rewrite E'. clear E E' Eb. clearbody w0. clear w. do 3 printed.
  match goal with |- context [net_arp_demo ?w] => destruct (arp_chat w ltac:(assumption)) as (c4 & n4 & -> & H4) end. cbn [mbind option_bind].
  match goal with |- context [print _ (set_bus ?b0 ?w4)] => set (wb := set_bus b0 w4) end.
  printed. match goal with |- context [w_bus (set_con ?c wb)] =>
    change (w_bus (set_con c wb)) with (hal_timer_init 100 (hal_pic_remap (w_bus w0))) end. rewrite Hk. cbn [mbind option_bind].
  match goal with |- context [print ?s ?w] => destruct (print_ok s w ltac:(assumption)) as (c6 & -> & H6) end.
  by eexists.
Qed.

Lemma create_object_ok s w id w' : sto_inv (w_sto w) -> (forall i, in_u8 (c_string s i)) -> create_object s w = (id, w') ->
  sto_inv (w_sto w') /\ w_kern w' = w_kern w /\ w_con w' = w_con w /\ w_kbd w' = w_kbd w.
Proof.
  intros Hi Hs. unfold create_object. destruct (storage_create_object _ _) as [i st] eqn:E. intros [= <- <-].
  split; [|done]. exact (sto_step_inv_bytes (OpCreateObject (c_string s)) _ i st Hi Hs E).
Qed.

Lemma bytes_u8 s : Forall in_u8 (bytes s).
Proof. induction s as [|ch s IH]; [constructor|]. constructor; [|exact IH]. pose proof (nat_ascii_bounded ch). unfold in_u8. lia. Qed.

Lemma c_string_u8 s i : in_u8 (c_string s i).
Proof.
  unfold c_string. destruct (bytes s !! Z.to_nat i) eqn:E; [|done]. cbn.
  pose proof (bytes_u8 s) as H. rewrite Forall_lookup in H. exact (H _ _ E).
Qed.

Lemma boot_objects_ok w : sto_inv (w_sto w) -> con_ok (w_con w) ->
  exists w', boot_objects w = Some w' /\ con_ok (w_con w') /\ sto_inv (w_sto w') /\ w_kern w' = w_kern w /\ w_kbd w' = w_kbd w.
Proof.
  intros Hi Hc. unfold boot_objects.
  destruct (create_object "payload.bin" w) as [i1 w1] eqn:E1.
  destruct (create_object_ok _ _ _ _ Hi (c_string_u8 _) E1) as (S1 & K1 & C1 & B1).
  destruct (create_object "suspicious.bin" w1) as [i2 w2] eqn:E2.
  destruct (create_object_ok _ _ _ _ S1 (c_string_u8 _) E2) as (S2 & K2 & C2 & B2).
  rewrite <- C1, <- C2 in Hc. do 5 printed.
  match goal with |- context [create_object "hello.bin" ?w] => set (w3 := w) end.
  destruct (create_object "hello.bin" w3) as [i3 w4] eqn:E3. cbv beta iota.
  destruct (create_object_ok _ w3 _ _ S2 (c_string_u8 _) E3) as (S4 & K4 & C4 & B4). cbv zeta.
  match goal with |- context [storage_write i3 ?f ?n (w_sto w4)] => set (data := f); set (len := n) end.
  destruct (storage_write i3 data len (w_sto w4)) as [rc st] eqn:Ew. cbv beta iota.
  pose proof (sto_step_inv_bytes (OpWrite i3 data len) _ rc st S4 (u32_range _) Ew) as S5.
  assert (C5 : con_ok (w_con (set_sto st w4))) by (change (con_ok (w_con w4)); by rewrite C4). do 4 printed.
  match goal with |- context [print ?s ?w] => destruct (print_ok s w ltac:(assumption)) as (cl & -> & Hlast) end.
  eexists. split; [reflexivity|]. split; [exact Hlast|]. split; [exact S5|].
  change (w_kern w4 = w_kern w /\ w_kbd w4 = w_kbd w). rewrite K4, B4. change (w_kern w2 = w_kern w /\ w_kbd w2 = w_kbd w).
  split; congruence.
Qed.
End completes.

(** ** The allocator at boot *)
Section memory.
Context {L : layout} {LOK : layout_ok L}.

Lemma boot_memory_inv (firmware : gmap Z Z) m :
  (forall x, in_u8 (firmware !!! x)) -> free_list_count m = 0 -> mem_inv (boot_memory firmware m) ∅.
Proof.
  intros Hb Hf. unfold boot_memory. pose proof (memory_map_spec firmware 32 ∅ Hb) as H. cbv zeta in H.
  destruct (hal_get_memory_map firmware 32 ∅) as [n out]. destruct H as (_ & -> & _).
  apply memory_init_ok; [|exact Hf]. apply usable_u64, Hb.
Qed.

Lemma claim_dma_inv dma m live : Forall (fun n => n <= 2 ^ 31) dma -> mem_inv m live -> exists live', mem_inv (claim_dma dma m) live'.
Proof.
  intros Hd. revert m live. induction Hd as [|n dma Hn _ IH]; intros m live Hm; [by exists live|].
  unfold claim_dma. cbn [fold_left]. unfold alloc_dma_pages. destruct (find_and_claim_contig 0x200000 n m) as [a m'] eqn:E.
  destruct (find_and_claim_contig_spec m live 0x200000 n a m' Hm ltac:(unfold MEM_BASE, MEM_CAP; lia) eq_refl Hn E)
    as [(_ & ->)|(_ & _ & _ & Hm')]; by eapply IH.
Qed.
End memory.

(** ** Until the first switch *)
Section starting.
Context {L : layout} {LOK : layout_ok L} {KL : klayout} {KC : kcode}.
Context (Hcode : actor_trampoline_addr <> schedule_next_ret).
Implicit Types (k : kern).

(** The boot context runs, on a stack of its own, and no actor has run yet:
    whatever is suspended is a fabricated frame. *)
Record booting k : Prop := Booting {
  bt_inv : exists live, kinv live k;
  bt_apart : isolated k;
  bt_cur : current_actor k = -1;
  bt_runs : halted k = false;
  bt_stack : off_stacks (c_rsp (kcpu k));
  bt_fresh : forall i, frames k !!! i = FTrampoline }.

(** What the steps of the boot leave alone. *)
Lemma booting_step k k' : booting k -> (exists live, kinv live k') -> isolated k' ->
  current_actor k' = current_actor k -> halted k' = halted k -> kcpu k' = kcpu k ->
  (forall i, frames k' !!! i = frames k !!! i \/ frames k' !!! i = FTrampoline) -> booting k'.
Proof.
  intros [_ _ H1 H2 H3 H4] Hi Hx E1 E2 E3 E4. split; rewrite ?E1, ?E2, ?E3; try done.
  intros i. destruct (E4 i) as [->| ->]; auto.
Qed.

Lemma spawn_boot_frame e k :
  kcpu (actor_spawn e k).2 = kcpu k /\
  forall i, frames (actor_spawn e k).2 !!! i = frames k !!! i \/ frames (actor_spawn e k).2 !!! i = FTrampoline.
Proof.
  unfold actor_spawn. destruct (scan _ _ _) as [n|]; [|auto]. destruct (alloc_page _) as [a m].
  destruct (a =? 0); [cbn; auto|]. destruct (hal_address_space_create _ _ _ _) as [c p].
  destruct (c =? 0); [cbn; auto|]. destruct (fake_frame _ _) as [ks sp]. split; [done|]. intros i. cbn.
  rewrite aget_insert. destruct (_ =? _); auto.
Qed.

Lemma booting_spawn e k : booting k -> booting (actor_spawn e k).2.
Proof.
  intros Hb. destruct (bt_inv _ Hb) as [live Hi]. destruct (spawn_boot_frame e k) as [E1 E2].
  pose proof (isolated_spawn Hcode live e k Hi (bt_apart _ Hb)) as Hx.
  destruct (actor_spawn e k) as [r k'] eqn:E. cbn [snd] in *. destruct (spawn_slots _ _ _ _ E) as (H1 & _ & H2 & _).
  destruct (spawn_inv Hcode _ _ _ _ _ Hi E) as (live' & Hi' & _). by eapply booting_step; [exact Hb | exists live' | exact Hx | ..].
Qed.

Lemma booting_spawn_all es k : booting k -> booting (spawn_all es k).
Proof. unfold spawn_all. revert k. induction es as [|e es IH]; intros k Hb; [done|]. by apply IH, booting_spawn. Qed.

Lemma booting_grant s o t k : booting k -> booting (actor_grant s o t k).2.
Proof.
  intros Hb. destruct (bt_inv _ Hb) as [live Hi]. pose proof (grant_inv live s o t k Hi) as Hi'.
  pose proof (isolated_keeps k _ (keeps_coded (EvGrant s o t) k I) (bt_apart _ Hb)) as Hx.
  apply (booting_step k); try done; [by exists live|..]; unfold actor_grant; destruct (bad_slot s); auto;
    unfold actor_add_cap; destruct (scan _ _ _); auto.
Qed.

Lemma booting_upd j f k : 0 <= j < MAX_ACTORS -> same_sched (act k j) (f (act k j)) -> booting k -> booting (upd j f k).
Proof.
  intros Hj Hs Hb. destruct (bt_inv _ Hb) as [live Hi]. apply (booting_step k); try done; [| |by auto].
  - exists live. by apply kinv_same.
  - apply (isolated_keeps k); [|apply Hb]. destruct Hs as (_ & _ & E1 & E2 & _). apply keeps_upd; congruence.
Qed.

Lemma booting_grants l k : booting k -> booting (grant_all l k).
Proof. unfold grant_all. revert k. induction l as [|[[s o] t] l IH]; intros k Hb; [done|]. by apply IH, booting_grant. Qed.

Lemma booting_quota s q k : booting k -> booting (actor_set_spawn_quota s q k).2.
Proof.
  intros Hb. unfold actor_set_spawn_quota. destruct (bad_slot s) eqn:E; [done|]. apply bad_slot_false in E.
  by apply booting_upd.
Qed.

Lemma booting_window s v k : booting k -> booting (actor_set_window s v k).2.
Proof.
  intros Hb. unfold actor_set_window. destruct (bad_slot s) eqn:E; [done|]. apply bad_slot_false in E.
  by apply booting_upd.
Qed.

Lemma booting_authority k : booting k -> booting (boot_authority k).
Proof. intros Hb. apply booting_window, booting_quota, booting_grants, Hb. Qed.

(** The scheduler never returns into the boot context. *)
Lemma start_leaves k k' : booting k -> schedule_next SaveScheduler k <> (true, k').
Proof.
  intros Hb. unfold schedule_next. cbv zeta.
  pose proof (sp_cur _ _ (place_reap (hal_disable_interrupts k))) as E.
  generalize dependent (reap_dead_actors (hal_disable_interrupts k)). intros k1 E.
  change (current_actor (hal_disable_interrupts k)) with (current_actor k) in E. rewrite (bt_cur _ Hb) in E.
  unfold switch_to_next. destruct (pick_next k1) as [n|] eqn:Ep; [|by intros [=]].
  apply pick_next_spec in Ep; [|rewrite E; done]. destruct (Z.eqb_spec n (current_actor k1)); [lia | by intros [=]].
Qed.

Definition first_landing (l : landing) : Prop := match l with LUser | LStopped => True | _ => False end.

Lemma landing_fresh live k k' : scheduled live k false k' -> (forall i, frames k' !!! i = FTrampoline) ->
  first_landing (resume k').1.
Proof.
  intros [Hc [[_ Hh]|[[? _]|(_ & Hh & H1 & Hl & _)]]] Hf; [| done |].
  { assert (E : resume k' = (LStopped, k')) by (unfold resume; by rewrite Hh). by rewrite E. }
  destruct (resume k') as [l k2] eqn:Er.
  destruct (resume_spec Hcode live k' l k2 (conj Hc H1) Hl Hh Er) as (_ & _ & _ & _ & _ & H).
  rewrite Hf in H. by subst l.
Qed.

#[local] Strategy 100 [schedule_next resume].

(** The first switch: the machine stops, there being no actor at all, or an
    actor is about to execute its first instruction. *)
Lemma start_switches k : booting k ->
  exists k' live, schedule_next SaveScheduler k = (false, k') /\ scheduled live k false k' /\ first_landing (resume k').1.
Proof.
  intros Hb. pose proof (schedule_frames SaveScheduler k) as Hf.
  destruct (bt_inv _ Hb) as [live Hi]. destruct (schedule_next SaveScheduler k) as [b k'] eqn:E. cbn [snd] in Hf.
  destruct b; [by destruct (start_leaves k k' Hb E)|].
  assert (Hn : none_running k).
  { intros i Hi' Hrun. apply (proj2 Hi) in Hrun; [|done]. pose proof (bt_cur _ Hb). lia. }
  assert (Hc : caller_ok SaveScheduler k) by exact (conj (bt_cur _ Hb) (bt_stack _ Hb)).
  destruct (schedule_spec Hcode SaveScheduler live k false k' (proj1 Hi) Hn Hc (bt_runs _ Hb) E) as (live' & Hs).
  exists k', live'. split; [done|]. split; [exact Hs|].
  apply (landing_fresh live' k k' Hs). intros i. rewrite Hf. apply (bt_fresh _ Hb).
Qed.
End starting.

(** ** The sequence hands over a sound machine *)
Section hands_over.
Context {L : layout} {LOK : layout_ok L} {KL : klayout} {KC : kcode} {IC : icode} {IM : image}.
Context {B D N : Type} `{!PortBus B} `{!BlockDevice D} `{!BlockDeviceLaws D} `{!NetDevice N}.
Context (Hcode : actor_trampoline_addr <> schedule_next_ret).
Implicit Types (w : world B D N) (b : boot B D N) (k : kern).

(** What the image and [boot.asm] leave behind: zeroed statics, the boot page
    tables, a stack that is none of the actors'. *)
Record power_on b : Prop := PowerOn {
  po_free : free_list_count (mem (w_kern (b_world b))) = 0;
  po_pd : boot_pd (pg (w_kern (b_world b))) = boot_pd_init;
  po_runs : halted (w_kern (b_world b)) = false;
  po_stack : off_stacks (c_rsp (kcpu (w_kern (b_world b))));
  po_fresh : forall i, frames (w_kern (b_world b)) !!! i = FTrampoline;
  po_lock : console_lock (w_con (b_world b)) = 0;
  po_escape : 0 <= esc_param_count (w_con (b_world b)) <= 4;
  po_log : pane 0 1 2 78 13 (w_con (b_world b));
  po_shell : pane 1 1 18 78 6 (w_con (b_world b));
  po_kbd : kbd_ok (w_kbd (b_world b));
  po_names : forall id j, in_u8 (chars (obj (w_sto (b_world b)) id) j);
  po_disk : directory_valid (disk (w_sto (b_world b))) }.

Lemma init_frames k : frames (scheduler_init k) = frames k.
Proof. unfold scheduler_init. cbn. by apply (loop_ind (fun _ k' => frames k' = frames k)). Qed.

Lemma init_booting live k : mem_inv (mem k) live -> boot_pd (pg k) = boot_pd_init -> halted k = false ->
  off_stacks (c_rsp (kcpu k)) -> (forall i, frames k !!! i = FTrampoline) -> booting (scheduler_init k).
Proof.
  intros Hm Hp Hh Hs Hf. destruct (scheduler_init_good live k Hm Hp) as (l & Hc & Hr).
  destruct (upd_loop_frame init_actor (Z.to_nat MAX_ACTORS) 0 k) as (_ & _ & Ec & Eh).
  assert (E1 : halted (scheduler_init k) = halted k) by exact Eh.
  assert (E2 : kcpu (scheduler_init k) = kcpu k) by exact Ec.
  split; [exists l; split; [done | apply Hr; congruence] | apply isolated_init | done | congruence | by rewrite E2 | by intros i; rewrite init_frames].
Qed.

(** From the console to the last [storage_write]. *)
Lemma boot_cpu_tables_ok ap b : power_on b ->
  exists b', boot_cpu_tables ap b = Some b' /\ con_ok (w_con (b_world b')) /\
    w_sto (b_world b') = w_sto (b_world b) /\ w_kbd (b_world b') = w_kbd (b_world b) /\ w_bus (b_world b') = w_bus (b_world b) /\
    w_kern (b_world b') = set_pg (hal_map_lapic_mmio (pg (w_kern (b_world b))))
      (set_tss (tss (hal_gdt_init (b_gdt b))) (w_kern (b_world b))) /\
    (b_gdt b', b_idt b') = hal_interrupts_init (b_gdt b) (b_idt b).
Proof.
  intros [_ _ _ _ _ Hl He Hlog Hsh _ _ _]. unfold boot_cpu_tables. cbv zeta. set (w0 := set_con _ _).
  assert (H0 : con_ok (w_con w0)) by by apply init_ok.
  destruct (print_ok (line "VAJRA OS (C rewrite) - Milestone 18") w0 H0) as (c1 & -> & H1). cbn [mbind option_bind].
  set (w1 := set_con c1 w0). change (con_ok (w_con w1)) in H1.
  destruct (print_ok (line "Console + IDT + exception handling online.") w1 H1) as (c2 & -> & H2). cbn [mbind option_bind].
  set (w2 := set_con c2 w1). change (con_ok (w_con w2)) in H2.
  assert (Eg : (hal_interrupts_init (b_gdt b) (b_idt b)).1 = hal_gdt_init (b_gdt b)) by done.
  destruct (hal_interrupts_init _ _) as [g t]. cbn [fst] in Eg. subst g.
  match goal with |- context [print ?s ?w] => destruct (print_ok s w H2) as (c3 & -> & H3) end. cbn [mbind option_bind].
  match goal with |- context [print ?s ?w] => destruct (print_ok s w H3) as (c4 & -> & H4) end. cbn [mbind option_bind].
  by eexists.
Qed.

Lemma boot_actors_ok live w : mem_inv (mem (w_kern w)) live -> boot_pd (pg (w_kern w)) = boot_pd_init ->
  halted (w_kern w) = false -> off_stacks (c_rsp (kcpu (w_kern w))) -> (forall i, frames (w_kern w) !!! i = FTrampoline) ->
  booting (w_kern (boot_actors w)).
Proof. intros. apply booting_spawn_all; [done|]. by eapply init_booting. Qed.

(** The end of the boot, on the machine it starts. *)
Lemma boot_start_ok w : booting (w_kern w) -> sto_inv (w_sto w) -> kbd_ok (w_kbd w) -> con_ok (w_con w) ->
  exists w', final (boot_start w) = Some w' /\ machine_ok w' /\ settled (w_kern w') /\
    forall i, caps (act (w_kern w') i) = caps (act (w_kern w) i).
Proof.
  intros Hb Hs Hk Hc. unfold boot_start, scheduler_start.
  assert (Hb' : booting (hal_enable_interrupts (w_kern w))).
  { destruct (bt_inv _ Hb) as [live Hi]. apply (booting_step (w_kern w)); try done; [| |by auto]; [exists live; by apply kinv_irq | apply isolated_irq, Hb]. }
  destruct (start_switches Hcode _ Hb') as (k' & live & E & Hsch & Hl). rewrite E.
  pose proof (switch_settled live _ k' Hsch) as Hset.
  pose proof (resume_kept caps (fun _ _ => eq_refl) (fun _ _ => eq_refl) (fun _ _ => eq_refl) (fun _ _ _ _ => eq_refl) k') as Hcaps.
  pose proof (schedule_kept caps (fun _ _ => eq_refl) (fun _ _ => eq_refl) (fun _ _ => eq_refl) SaveScheduler
                (hal_enable_interrupts (w_kern w))) as Hcaps2. rewrite E in Hcaps2. cbn [snd] in Hcaps2.
  pose proof (keeps_schedule SaveScheduler (hal_enable_interrupts (w_kern w))) as Hk1. rewrite E in Hk1. cbn [snd] in Hk1.
  pose proof (isolated_keeps _ _ (keeps_settle live _ k' Hsch) (isolated_keeps _ _ Hk1 (isolated_irq true _ (bt_apart _ Hb)))) as Hx.
  assert (Hg : kgood (resume k').2).
  { destruct (settle (false, k')) as [r k2] eqn:Es. pose proof (settle_good Hcode live _ false k' r k2 Hsch Es) as [G _].
    unfold settle in Es. destruct (resume k') as [l k3]. injection Es as _ <-. exact G. }
  unfold land. destruct (resume k') as [l k2]. cbn [fst snd] in *. exists (set_kern k2 w).
  assert (Ef : final (Switched l (set_kern k2 w)) = Some (set_kern k2 w)) by done.
  destruct l; try done; (split; [exact Ef|]; split; [by split; [split|..]|]; split; [exact Hset|];
    intros i; change (w_kern (set_kern k2 w)) with k2; by rewrite Hcaps, Hcaps2).
Qed.
End hands_over.

(** ** The authority handed out *)
Section authority.
Context {L : layout} {KL : klayout} {KC : kcode}.
Implicit Types (k : kern).

(** The capability tables, as the lists they are filled with. *)
Definition tables k (c : Z -> list capability) : Prop :=
  forall s, 0 <= s < MAX_ACTORS -> forall i, 0 <= i < MAX_CAPS_PER_ACTOR ->
    caps (act k s) !!! i = default (Capability 0 0) (c s !! Z.to_nat i).

Definition given (s : Z) (l : list (Z * Z * Z)) : list capability :=
  omap (fun '(slot, op, target) => if slot =? s then Some (Capability op target) else None) l.

Lemma scan_first p lo n i :
  lo <= i < lo + Z.of_nat n -> p i = true -> (forall j, lo <= j < i -> p j = false) -> scan p lo n = Some i.
Proof.
  intros Hi Hp Hmin. destruct (scan_complete p lo n i Hi Hp) as (j & E & Hj).
  destruct (scan_Some _ _ _ _ E) as (Hj1 & Hp1 & _). destruct (Z.eq_dec j i) as [->|]; [done|].
  by rewrite Hmin in Hp1 by lia.
Qed.

Lemma init_tables k : tables (scheduler_init k) (fun _ => []).
Proof.
  intros s Hs i Hi. unfold scheduler_init. autorewrite with kact. rewrite upd_loop.
  unfold MAX_ACTORS in *. zcmp. cbn [andb caps init_actor]. by rewrite fill_in, lookup_nil by (unfold MAX_CAPS_PER_ACTOR in *; lia).
Qed.

Lemma spawn_tables e k : tables k (fun _ => []) -> tables (actor_spawn e k).2 (fun _ => []).
Proof.
  intros Ht. destruct (actor_spawn e k) as [r k'] eqn:E. cbn [snd].
  destruct (spawn_slots _ _ _ _ E) as (_ & _ & _ & [(_ & Ha)|(Hr & _ & Ho & sp & cr & m & Hf)]).
  - intros s Hs i Hi. unfold act. rewrite Ha. by apply Ht.
  - intros s Hs i Hi. destruct (Z.eq_dec s r) as [->|Hne]; [|rewrite (Ho s) by done; by apply Ht].
    rewrite Hf. cbn [caps fresh_actor]. by rewrite fill_in, lookup_nil by (unfold MAX_CAPS_PER_ACTOR in *; lia).
Qed.

Lemma spawn_all_tables es k : tables k (fun _ => []) -> tables (spawn_all es k) (fun _ => []).
Proof. unfold spawn_all. revert k. induction es as [|e es IH]; intros k Hb; [done|]. by apply IH, spawn_tables. Qed.

Lemma upd_tables j f k c : (forall a, caps (f a) = caps a) -> tables k c -> tables (upd j f k) c.
Proof. intros Hf Ht s Hs i Hi. rewrite (upd_kept caps) by apply Hf. by apply Ht. Qed.

(** One grant goes to the end of its holder's list. *)
Lemma grant_tables d o t k c :
  tables k c -> 0 <= d < MAX_ACTORS -> Forall (fun x => c_op x <> 0) (c d) ->
  Z.of_nat (length (c d)) < MAX_CAPS_PER_ACTOR ->
  tables (actor_grant d o t k).2 (fun s => if d =? s then c s ++ [Capability o t] else c s).
Proof.
  intros Ht Hd Hops Hlen. unfold actor_grant. rewrite (proj2 (bad_slot_false _) Hd).
  unfold actor_add_cap. remember (Z.of_nat (length (c d))) as n eqn:En.
  assert (E : scan (fun i => c_op (caps (act k d) !!! i) =? 0) 0 (Z.to_nat MAX_CAPS_PER_ACTOR) = Some n).
  { assert (Hmax : MAX_CAPS_PER_ACTOR = 20) by done. apply scan_first; [lia|..].
    - rewrite Ht by lia. by rewrite lookup_ge_None_2 by lia.
    - intros j Hj. rewrite Ht by lia. destruct (lookup_lt_is_Some_2 (c d) (Z.to_nat j)) as [x Hx]; [lia|].
      rewrite Hx. cbn. apply Z.eqb_neq. rewrite Forall_lookup in Hops. by eapply Hops. }
  rewrite E. cbn [snd]. intros s Hs i Hi. rewrite act_upd. destruct (Z.eqb_spec d s) as [<-|Hne]; [|by apply Ht].
  cbn [caps set_caps]. rewrite aget_insert. destruct (Z.eqb_spec n i) as [<-|Hni].
  - rewrite En, Nat2Z.id, lookup_app_r, Nat.sub_diag by lia. done.
  - rewrite Ht by done. destruct (Z.lt_ge_cases i n) as [Hlt|Hge].
    + by rewrite lookup_app_l by lia.
    + rewrite (lookup_ge_None_2 (c d)) by lia. rewrite lookup_ge_None_2; [done|]. rewrite length_app. cbn. lia.
Qed.

Definition grant_ok (g : Z * Z * Z) : Prop := 0 <= g.1.1 < MAX_ACTORS /\ g.1.2 <> 0.

Lemma given_ops s l : Forall grant_ok l -> Forall (fun x => c_op x <> 0) (given s l).
Proof.
  intros Hl. unfold given. apply Forall_forall. intros x Hx%list_elem_of_In.
  apply list_elem_of_omap in Hx as ([[d o] t] & Hin & E). rewrite Forall_forall in Hl.
  apply list_elem_of_In in Hin. destruct (Hl _ Hin) as [_ Ho]. destruct (d =? s); [|done]. by injection E as <-.
Qed.

Lemma given_snoc s l d o t : given s (l ++ [(d, o, t)]) = if d =? s then given s l ++ [Capability o t] else given s l.
Proof. unfold given. rewrite omap_app. cbn. destruct (d =? s); [done | by rewrite app_nil_r]. Qed.

Lemma grants_tables before l k :
  Forall grant_ok (before ++ l) ->
  (forall s, Z.of_nat (length (given s (before ++ l))) <= MAX_CAPS_PER_ACTOR) ->
  tables k (fun s => given s before) -> tables (grant_all l k) (fun s => given s (before ++ l)).
Proof.
  revert before k. induction l as [|[[d o] t] l IH]; intros before k Hok Hlen Ht; [by rewrite app_nil_r|].
  rewrite cons_middle, (app_assoc before) in Hok, Hlen |- *. apply IH; [done..|].
  pose proof Hok as Hok'. rewrite <- app_assoc, Forall_app in Hok'. destruct Hok' as [Hb Hg].
  apply Forall_app in Hg as [Hg _]. apply Forall_singleton in Hg as [Hd Ho]. cbn [fst snd] in Hd, Ho.
  specialize (Hlen d). unfold given in Hlen at 1. rewrite omap_app, length_app in Hlen.
  change (omap _ (before ++ [(d, o, t)])) with (given d (before ++ [(d, o, t)])) in Hlen.
  rewrite given_snoc, Z.eqb_refl, length_app in Hlen. cbn [length] in Hlen.
  pose proof (grant_tables d o t k _ Ht Hd (given_ops d before Hb) ltac:(lia)) as H. cbv beta in H.
  intros s Hs i Hi. rewrite given_snoc. exact (H s Hs i Hi).
Qed.

Lemma tables_hold k c s op target : tables k c -> 0 <= s < MAX_ACTORS -> op <> 0 ->
  Z.of_nat (length (c s)) <= MAX_CAPS_PER_ACTOR -> (holds k s op target <-> Capability op target ∈ c s).
Proof.
  intros Ht Hs Ho Hlen. unfold holds, in_table. split.
  - intros (i & Hi & E). rewrite Ht in E by done. destruct (c s !! Z.to_nat i) as [x|] eqn:Ex; cbn in E.
    + subst x. apply list_elem_of_lookup. by eexists.
    + injection E as <- _. done.
  - intros (n & Hn)%list_elem_of_lookup. pose proof (lookup_lt_Some _ _ _ Hn) as Hl. exists (Z.of_nat n). split; [lia|].
    rewrite Ht by (done || lia). by rewrite Nat2Z.id, Hn.
Qed.

Lemma given_in s l op target : Capability op target ∈ given s l <-> (s, op, target) ∈ l.
Proof.
  unfold given. rewrite list_elem_of_omap. split.
  - intros ([[d o] t] & Hin & E). destruct (Z.eqb_spec d s) as [->|]; [|done]. by injection E as <- <-.
  - intros Hin. exists (s, op, target). by rewrite Z.eqb_refl.
Qed.

Lemma boot_grants_fit : Forall grant_ok boot_grants /\
  forall s, Z.of_nat (length (given s boot_grants)) <= MAX_CAPS_PER_ACTOR.
Proof.
  split.
  { unfold boot_grants. repeat (apply List.Forall_cons; [by repeat split|]). by apply Forall_nil. }
  intros s.
  assert (H : forall l, (length (given s l) <= length l)%nat).
  { intros l. unfold given. induction l as [|[[d o] t] l IH]; cbn; [done|]. destruct (d =? s); cbn; lia. }
  destruct (Z.eq_dec s SHELL_SLOT) as [->|Hne]; [by vm_compute|].
  rewrite <- (take_drop 18 boot_grants). unfold given at 1. rewrite omap_app, length_app.
  assert (E : given s (drop 18 boot_grants) = []).
  { cbn [drop boot_grants given omap list_omap]. by rewrite (proj2 (Z.eqb_neq SHELL_SLOT s) ltac:(congruence)). }
  unfold given at 1 in E. rewrite E. specialize (H (take 18 boot_grants)). unfold given in H at 1.
  change (length (take 18 boot_grants)) with 18%nat in H. unfold MAX_CAPS_PER_ACTOR. cbn [length]. lia.
Qed.
End authority.

(** ** Which actor is in which slot *)
Section slots.
Context {L : layout} {KL : klayout} {KC : kcode}.
Implicit Types (k : kern).

(** The table's first slots are live, with these entry points; the rest are dead. *)
Definition packed k (es : list Z) : Prop :=
  (Z.of_nat (length es) <= MAX_ACTORS) /\
  forall i, 0 <= i < MAX_ACTORS ->
    match es !! Z.to_nat i with
    | Some e => state (act k i) = ACTOR_READY /\ entry (act k i) = e
    | None => state (act k i) = ACTOR_DEAD
    end.

Lemma init_packed k : packed (scheduler_init k) [].
Proof.
  split; [done|]. intros i Hi. rewrite lookup_nil. unfold scheduler_init. autorewrite with kact. rewrite upd_loop.
  unfold MAX_ACTORS in *. by zcmp.
Qed.

Lemma spawn_packed e k es : packed k es ->
  packed (actor_spawn e k).2 es /\ (actor_spawn e k).1 = -1 \/
  packed (actor_spawn e k).2 (es ++ [e]) /\ (actor_spawn e k).1 = Z.of_nat (length es).
Proof.
  intros [Hlen Hp]. destruct (actor_spawn e k) as [r k'] eqn:E. cbn [fst snd].
  destruct (spawn_slots _ _ _ _ E) as (_ & _ & _ & [(-> & Ha)|(Hr & Hd & Ho & sp & cr & m & Hf)]).
  - left. split; [|done]. split; [done|]. intros i Hi. unfold act. rewrite Ha. by apply Hp.
  - right. assert (Hrl : r = Z.of_nat (length es)).
    { unfold actor_spawn in E. destruct (scan _ 0 _) as [n|] eqn:Es; [|injection E as <- _; lia].
      apply scan_Some in Es as (Hn & Hdead & Hmin). apply is_dead_true in Hdead.
      assert (Hrn : r = n).
      { destruct (alloc_page _) as [a m']. destruct (a =? 0); [injection E as <- _; lia|].
        destruct (hal_address_space_create _ _ _ _) as [c p]. destruct (c =? 0); [injection E as <- _; lia|].
        destruct (fake_frame _ _). by injection E as <- _. }
      subst n. assert (Hge : Z.of_nat (length es) <= r).
      { destruct (Z.le_gt_cases (Z.of_nat (length es)) r) as [|Hlt]; [done|]. specialize (Hp r Hr).
        destruct (lookup_lt_is_Some_2 es (Z.to_nat r)) as [x Hx]; [lia|]. rewrite Hx in Hp. destruct Hp. congruence. }
      destruct (Z.eq_dec r (Z.of_nat (length es))) as [|Hne]; [done|].
      specialize (Hmin (Z.of_nat (length es)) ltac:(lia)). specialize (Hp (Z.of_nat (length es)) ltac:(lia)).
      rewrite lookup_ge_None_2 in Hp by lia. apply is_dead_true in Hp. congruence. }
    split; [|done]. split; [rewrite length_app; cbn; lia|]. intros i Hi. destruct (Z.eq_dec i r) as [->|Hne].
    + subst r. rewrite Nat2Z.id, lookup_app_r, Nat.sub_diag by lia. cbn. by rewrite Hf.
    + rewrite Ho by done. specialize (Hp i Hi). destruct (Z.lt_ge_cases i r) as [Hlt|Hge].
      * by rewrite lookup_app_l by lia.
      * rewrite (lookup_ge_None_2 es) in Hp by lia. rewrite lookup_ge_None_2; [done|]. rewrite length_app. cbn. lia.
Qed.

Lemma spawn_all_packed es k before : packed k before ->
  exists up, packed (spawn_all es k) (before ++ up) /\ up `sublist_of` es.
Proof.
  unfold spawn_all. revert k before. induction es as [|e es IH]; intros k before Hp.
  - exists []. by rewrite app_nil_r.
  - cbn [fold_left]. destruct (spawn_packed e k before Hp) as [[H _]|[H _]]; destruct (IH _ _ H) as (up & Hu & Hs).
    + exists up. split; [done | by apply sublist_cons].
    + exists (e :: up). split; [|by apply sublist_skip]. by rewrite <- app_assoc in Hu.
Qed.
End slots.

Lemma sublist_full {A} (l1 l2 : list A) : l1 `sublist_of` l2 -> (length l2 <= length l1)%nat -> l1 = l2.
Proof.
  induction 1 as [|x l1 l2 Hs IH|x l1 l2 Hs IH]; intros Hl; [done| |].
  - f_equal. apply IH. cbn in Hl. lia.
  - pose proof (sublist_length _ _ Hs). cbn in Hl. lia.
Qed.

(** ** Theorems *)
Section properties.
Context {L : layout} {LOK : layout_ok L} {KL : klayout} {KC : kcode} {IC : icode} {IM : image}.
Context {B D N : Type} `{!PortBus B} `{!BlockDevice D} `{!BlockDeviceLaws D} `{!NetDevice N}.
Implicit Types (w : world B D N) (b : boot B D N) (k : kern).

Definition drained (fuel : nat) b (bus : B) : Prop :=
  hal_keyboard_init fuel (hal_timer_init 100 (hal_pic_remap (w_bus (b_world b)))) = Some bus.

Lemma kernel_main_ok fuel (firmware : gmap Z Z) ap dma b bus :
  actor_trampoline_addr <> schedule_next_ret -> power_on b -> (forall x, in_u8 (firmware !!! x)) ->
  Forall (fun n => n <= 2 ^ 31) dma -> drained fuel b bus ->
  exists w1 o w' g t, kernel_main fuel firmware ap dma b = Some (o, g, t) /\ final o = Some w' /\
    machine_ok w' /\ settled (w_kern w') /\ (g, t) = hal_interrupts_init (b_gdt b) (b_idt b) /\
    (forall i, caps (act (w_kern w') i) = caps (act (boot_authority (w_kern (boot_actors w1))) i)) /\
    exists w3 w5, w_sto w1 = w_sto (b_world b) /\ boot_objects (boot_actors w1) = Some w3 /\ o = boot_start w5 /\
      w_sto w5 = w_sto w3 /\ w_kern w5 = boot_authority (w_kern (boot_actors w1)) /\ booting (w_kern w5).
Proof.
  intros Hcode Hb Hf Hd Hdr. unfold kernel_main.
  destruct (boot_cpu_tables_ok ap b Hb) as (b1 & -> & C1 & S1 & B1 & U1 & K1 & G1). cbn [mbind option_bind].
  unfold drained in Hdr. rewrite <- U1 in Hdr.
  destruct (boot_devices_ok fuel firmware dma (b_world b1) bus C1 Hdr) as (w2 & -> & C2 & K2 & S2 & B2). cbn [mbind option_bind].
  rewrite S1 in S2. rewrite B1 in B2. rewrite K1 in K2.
  destruct Hb as [P1 P2 P3 P4 P5 _ _ _ _ P6 P7 P8].
  set (m0 := mem (w_kern (b_world b))) in *.
  destruct (claim_dma_inv dma _ _ Hd (boot_memory_inv firmware m0 Hf P1)) as [live Hm].
  assert (Hbt : booting (w_kern (boot_actors w2))) by (apply (boot_actors_ok Hcode live); by rewrite K2).
  assert (Hs2 : sto_inv (w_sto (boot_actors w2))).
  { change (sto_inv (storage_init (w_sto w2))). rewrite S2. by apply storage_init_inv. }
  destruct (boot_objects_ok (boot_actors w2) Hs2 C2) as (w3 & E3 & C3 & S3 & K3 & B3). rewrite E3. cbn [mbind option_bind].
  change (w_kbd (boot_actors w2)) with (w_kbd w2) in B3. rewrite B2 in B3.
  set (w4 := set_kern _ w3).
  destruct (print_ok ([10] ++ bytes "Starting preemptive scheduler with 15 ring-3 actors..." ++ [10; 10]) w4 C3) as (c5 & -> & C5).
  cbn [mbind option_bind]. set (w5 := set_con c5 w4).
  assert (K5 : w_kern w5 = boot_authority (w_kern (boot_actors w2))) by (change (w_kern w5) with (boot_authority (w_kern w3)); by rewrite K3).
  destruct (boot_start_ok Hcode w5) as (w' & Ef & Hok & Hset & Hcaps); [rewrite K5; by apply booting_authority | done | | done|].
  { change (kbd_ok (w_kbd w3)). by rewrite B3. }
  exists w2, (boot_start w5), w', (b_gdt b1), (b_idt b1). rewrite K5 in Hcaps. split; [reflexivity|].
  split; [exact Ef|]. split; [exact Hok|]. split; [exact Hset|]. split; [exact G1|]. split; [exact Hcaps|].
  exists w3, w5. split; [exact S2|]. split; [exact E3|]. do 2 (split; [reflexivity|]). split; [exact K5|].
  rewrite K5. by apply booting_authority.
Qed.

(** C2: booting hands over a sound machine.  Whatever memory map the firmware
    reports and whichever devices answer, on a disk whose directory, if it has
    one, is well formed, and with a keyboard controller whose output buffer runs
    dry, [kernel_main] reaches the scheduler; the machine it starts satisfies
    the invariant of every component, and so does every state the machine
    reaches from there, by any system calls, interrupts, faults and hardware
    activity; the machine stops on a kernel fault, or leaves this model by a
    store over the kernel's image, only as the definition of [reaches_well]
    says. *)
Theorem boot_hands_over_a_sound_machine fuel (firmware : gmap Z Z) ap dma b bus :
  actor_trampoline_addr <> schedule_next_ret -> power_on b -> (forall x, in_u8 (firmware !!! x)) ->
  Forall (fun n => n <= 2 ^ 31) dma -> drained fuel b bus ->
  exists o w' g t, kernel_main fuel firmware ap dma b = Some (o, g, t) /\ final o = Some w' /\
    forall s, rtc mstep (Runs w') s -> reaches_well w' s.
Proof.
  intros Hcode Hb Hf Hd Hdr.
  destruct (kernel_main_ok fuel firmware ap dma b bus Hcode Hb Hf Hd Hdr) as (w1 & o & w' & g & t & E & Ef & Hok & Hset & _).
  exists o, w', g, t. split; [exact E|]. split; [exact Ef|]. intros s Hrun. clear E Ef.
  by apply (reached_well Hcode).
Qed.

(** C9: isolation.  In every state the machine reaches after [kernel_main] has
    handed over, whatever actors were spawned and programs were loaded into
    frames the allocator claimed: two live actors, each through the address
    space its CR3 names, share no byte ring 3 can reach outside [.user_text]. *)
Theorem actor_memory_isolated fuel (firmware : gmap Z Z) ap dma b bus o g t w' w2 i j va vb ti tj :
  actor_trampoline_addr <> schedule_next_ret -> power_on b -> (forall x, in_u8 (firmware !!! x)) ->
  Forall (fun n => n <= 2 ^ 31) dma -> drained fuel b bus ->
  kernel_main fuel firmware ap dma b = Some (o, g, t) -> final o = Some w' -> rtc mstep (Runs w') (Runs w2) ->
  lives (w_kern w2) i -> lives (w_kern w2) j -> i <> j ->
  0 <= va < 2 ^ 48 -> 0 <= vb < 2 ^ 48 ->
  walk (pg (w_kern w2)) (a_cr3 (act (w_kern w2) i)) va = Some ti -> t_user ti = true ->
  walk (pg (w_kern w2)) (a_cr3 (act (w_kern w2) j)) vb = Some tj -> t_user tj = true ->
  t_pa ti = t_pa tj -> user_text_start <= t_pa ti < user_text_end.
Proof.
  intros Hcode Hb Hf Hd Hdr E Ef Hrun.
  destruct (kernel_main_ok fuel firmware ap dma b bus Hcode Hb Hf Hd Hdr) as (w1 & o' & w3 & g' & t' & E' & Ef' & Hok & Hset & _).
  rewrite E in E'. injection E' as <- <- <-. rewrite Ef in Ef'. injection Ef' as <-.
  destruct (reached_well Hcode w' (Runs w2) (MachineInv w' Hok Hset) Hrun) as [Hok2 _].
  exact (live_actors_apart (w_kern w2) i j va vb ti tj (ok_kern _ Hok2)).
Qed.

(** C8: least privilege at boot.  When the first actor is about to run, the
    capability tables hold exactly the grants written in [kernel_main], for
    every slot of the table and whatever the spawns and the disk did: nobody
    holds anything that is not in that list, and nobody misses an entry of it. *)
Theorem boot_least_privilege fuel (firmware : gmap Z Z) ap dma b bus o g t w' slot op target :
  actor_trampoline_addr <> schedule_next_ret -> power_on b -> (forall x, in_u8 (firmware !!! x)) ->
  Forall (fun n => n <= 2 ^ 31) dma -> drained fuel b bus ->
  kernel_main fuel firmware ap dma b = Some (o, g, t) -> final o = Some w' ->
  0 <= slot < MAX_ACTORS -> op <> 0 ->
  (holds (w_kern w') slot op target <-> (slot, op, target) ∈ boot_grants).
Proof.
  intros Hcode Hb Hf Hd Hdr E Ef Hs Ho.
  destruct (kernel_main_ok fuel firmware ap dma b bus Hcode Hb Hf Hd Hdr) as (w1 & o' & w2 & g' & t' & E' & Ef' & _ & _ & _ & Hcaps & _).
  rewrite E in E'. injection E' as <- <- <-. rewrite Ef in Ef'. injection Ef' as <-.
  unfold holds. rewrite Hcaps. destruct boot_grants_fit as [Hok Hfit].
  rewrite <- given_in. apply (tables_hold _ (fun s => given s boot_grants)); [|done..|apply Hfit].
  unfold boot_authority, actor_set_window, actor_set_spawn_quota. do 2 (apply upd_tables; [done|]).
  apply (grants_tables []); [done..|]. apply spawn_all_tables, init_tables.
Qed.

Lemma actors_in_order w :
  exists up, up `sublist_of` actor_entries /\ packed (w_kern (boot_actors w)) up /\
    (state (act (w_kern (boot_actors w)) SHELL_SLOT) <> ACTOR_DEAD -> up = actor_entries).
Proof.
  destruct (spawn_all_packed actor_entries (scheduler_init (w_kern w)) [] (init_packed _)) as (up & Hp & Hs).
  change ([] ++ up) with up in Hp. exists up. split; [done|]. split; [exact Hp|]. intros Hlive.
  destruct Hp as [_ Hp]. specialize (Hp SHELL_SLOT ltac:(done)).
  destruct (up !! Z.to_nat SHELL_SLOT) as [e|] eqn:E; [|by destruct Hlive]. clear Hp Hlive.
  apply lookup_lt_Some in E. change (Z.to_nat SHELL_SLOT) with 14%nat in E.
  pose proof (sublist_length _ _ Hs) as Hl. rewrite image_actors in Hl.
  apply sublist_full; [done|]. rewrite image_actors. lia.
Qed.
(** the actors are packed into the table in the order [kernel_main] spawns
    them, one slot per spawn that succeeded and no gap; so when slot 14 is live
    all fifteen are, every actor in the slot its #define promises.  (When a
    spawn fails, the actors after it move down one slot.) *)
Theorem boot_actors_land_in_order w :
  exists up, up `sublist_of` actor_entries /\ packed (w_kern (boot_actors w)) up /\
    (state (act (w_kern (boot_actors w)) SHELL_SLOT) <> ACTOR_DEAD -> up = actor_entries).
Proof. apply actors_in_order. Qed.
End properties.

(** ** A closed boot *)
Module BootDemo.
Import RamDisk Demo SyscallDemo.

#[local] Instance demo_icode : icode := ICode (fun v => 0x24000 + v mod 256 * 32) 0x23000.
#[local] Instance demo_image : image := Image (map (fun i => 0x2B000 + 0x400 * i) (seqZ 0 15)) [0x68; 0x69] eq_refl.

(** At power on: two stale bytes in the keyboard controller, a zeroed disk, a
    network card on an empty wire. *)
Definition kern_off : kern := Kern ∅ 0 0 false mem_boot pg_boot (Tss 0 ∅ 0) ∅ boot_cpu ∅ [] false.
Definition machine_off : boot (list Z) ram_disk box :=
  Boot (World kern_off [0xFA; 0x1E] fresh ∅ (Net ∅ 0 0 station) kbd0 console_raw ∅) gdt_boot
       (IdtState ∅ (0, 0) (0, 0) (0, 0)).

Lemma machine_off_ok : power_on machine_off.
Proof.
  split; try done.
  - left. cbn. lia.
  - by exists 0, 0.
  - by exists 0, 0.
Qed.

Lemma machine_off_drains : drained 3 machine_off [].
Proof. reflexivity. Qed.

Lemma boot_hands_over_a_sound_machine_witness :
  exists o w' g t, kernel_main 3 firmware_table 0 [1; 1; 1] machine_off = Some (o, g, t) /\ final o = Some w' /\
    forall s, rtc mstep (Runs w') s -> reaches_well w' s.
Proof.
  apply (boot_hands_over_a_sound_machine 3 firmware_table 0 [1; 1; 1] machine_off []);
    [exact demo_codes | exact machine_off_ok | exact firmware_u8 | by repeat constructor | exact machine_off_drains].
Defined.

Lemma shell_console : (SHELL_SLOT, CAP_CONSOLE, 0) ∈ boot_grants.
Proof. by apply (bool_decide_unpack _). Qed.
Lemma intruder_console : (INTRUDER_SLOT, CAP_CONSOLE, 0) ∉ boot_grants.
Proof. by apply (bool_decide_eq_false _). Qed.

(** The shell may read the console's keyboard; the intruder may not. *)
Lemma boot_least_privilege_witness :
  exists o w' g t, kernel_main 3 firmware_table 0 [1; 1; 1] machine_off = Some (o, g, t) /\ final o = Some w' /\
    holds (w_kern w') SHELL_SLOT CAP_CONSOLE 0 /\ ~ holds (w_kern w') INTRUDER_SLOT CAP_CONSOLE 0.
Proof.
  assert (Hd : Forall (fun n => n <= 2 ^ 31) [1; 1; 1]) by by repeat constructor.
  destruct (kernel_main_ok 3 firmware_table 0 [1; 1; 1] machine_off [] demo_codes machine_off_ok firmware_u8 Hd machine_off_drains)
    as (_ & o & w' & g & t & E & Ef & _). exists o, w', g, t. split; [exact E|]. split; [exact Ef|].
  pose proof (fun slot => boot_least_privilege 3 firmware_table 0 [1; 1; 1] machine_off [] o g t w' slot CAP_CONSOLE 0
    demo_codes machine_off_ok firmware_u8 Hd machine_off_drains E Ef) as H.
  split.
  - apply (H SHELL_SLOT); [unfold SHELL_SLOT, MAX_ACTORS; lia | unfold CAP_CONSOLE; lia | exact shell_console].
  - intros Hh. apply intruder_console. revert Hh. apply (H INTRUDER_SLOT); [unfold INTRUDER_SLOT, MAX_ACTORS; lia | unfold CAP_CONSOLE; lia].
Defined.
(** Receiver and Sender both reach [.user_text], and nothing else in common. *)
Definition both_reach (va : Z) (k : kern) : Prop :=
  match walk (pg k) (a_cr3 (act k MAILBOX_RECEIVER_SLOT)) va, walk (pg k) (a_cr3 (act k MAILBOX_SENDER_SLOT)) va with
  | Some ti, Some tj =>
      is_dead (act k MAILBOX_RECEIVER_SLOT) = false /\ is_dead (act k MAILBOX_SENDER_SLOT) = false /\
      t_user ti = true /\ t_user tj = true /\ t_pa ti = t_pa tj
  | _, _ => False
  end.

Lemma demo_both_reach : match kernel_main 3 firmware_table 0 [1; 1; 1] machine_off with
  | Some (o, _, _) => match final o with Some w => both_reach user_text_start (w_kern w) | None => False end
  | None => False
  end.
Proof. vm_compute. split_and!; reflexivity. Qed.

Lemma actor_memory_isolated_witness :
  exists o w' g t ti, kernel_main 3 firmware_table 0 [1; 1; 1] machine_off = Some (o, g, t) /\ final o = Some w' /\
    walk (pg (w_kern w')) (a_cr3 (act (w_kern w') MAILBOX_RECEIVER_SLOT)) user_text_start = Some ti /\
    user_text_start <= t_pa ti < user_text_end.
Proof.
  assert (Hd : Forall (fun n => n <= 2 ^ 31) [1; 1; 1]) by by repeat constructor.
  pose proof demo_both_reach as Hr. destruct (kernel_main 3 firmware_table 0 [1; 1; 1] machine_off) as [[[o g] t]|] eqn:E; [|destruct Hr].
  destruct (final o) as [w'|] eqn:Ef; [|destruct Hr]. unfold both_reach in Hr.
  destruct (walk _ (a_cr3 (act _ MAILBOX_RECEIVER_SLOT)) _) as [ti|] eqn:Wi; [|destruct Hr].
  destruct (walk _ (a_cr3 (act _ MAILBOX_SENDER_SLOT)) _) as [tj|] eqn:Wj; [|destruct Hr].
  destruct Hr as (H1 & H2 & H3 & H4 & H5). exists o, w', g, t, ti. split; [reflexivity|]. split; [exact Ef|]. split; [exact Wi|].
  assert (Hu : 0 <= user_text_start < 2 ^ 48) by (cbn; lia).
  assert (Hli : lives (w_kern w') MAILBOX_RECEIVER_SLOT).
  { split; [unfold MAILBOX_RECEIVER_SLOT, MAX_ACTORS; lia | exact (proj1 (is_dead_false _) H1)]. }
  assert (Hlj : lives (w_kern w') MAILBOX_SENDER_SLOT).
  { split; [unfold MAILBOX_SENDER_SLOT, MAX_ACTORS; lia | exact (proj1 (is_dead_false _) H2)]. }
  assert (Hij : MAILBOX_RECEIVER_SLOT <> MAILBOX_SENDER_SLOT) by discriminate.
  exact (actor_memory_isolated 3 firmware_table 0 [1; 1; 1] machine_off [] o g t w' w' MAILBOX_RECEIVER_SLOT MAILBOX_SENDER_SLOT
    user_text_start user_text_start ti tj demo_codes machine_off_ok firmware_u8 Hd machine_off_drains E Ef (rtc_refl _ _)
    Hli Hlj Hij Hu Hu Wi H3 Wj H4 H5).
Defined.
End BootDemo.
