(* ===== verification/User.v ===== *)
(** * User: the ring-3 side of the system-call boundary

    The wrappers of [core/main.c] around [hal_syscall]
    ([hal/x86_64/syscall_invoke.c]) and the formatting helpers an actor runs
    before it crosses the boundary.  A program is an interaction tree over one
    event, the trap: its answer is what the kernel leaves in RAX and in the
    buffer the program pointed it at.  [userland/] has its own copies of
    [user_write] and [user_exit], for loaded programs. *)
From Stdlib Require Import String Ascii List.
From ITree Require Import Core.ITreeDefinition.
From S2P Require Import Prelude Paging Memory Storage Actor Rtc Console Net Syscall.

(** The functions whose address an actor passes to [user_spawn]. *)
Inductive user_fn := ActorWorker | ActorInspector | ActorPipeSink | ActorPipeSource | ActorSlowCounter.
#[export] Instance user_fn_eq_dec : EqDecision user_fn.
Proof. solve_decision. Defined.

(** An argument register: a number, a function, or a pointer to memory the
    kernel reads from or writes to. *)
Inductive uarg := Val (v : Z) | Fn (f : user_fn) | In (mem : list Z) | Out (size : Z).

Variant userE : Type -> Type := HalSyscall (num : Z) (a1 a2 a3 : uarg) : userE (Z * list Z).
Abbreviation proc := (itree userE).
#[export] Instance proc_bind : MBind proc := fun _ _ f t => ITree.bind t f.
#[export] Instance proc_ret : MRet proc := fun _ x => Ret x.

Definition hal_syscall_with (num : Z) (a1 a2 a3 : uarg) : proc (Z * list Z) := ITree.trigger (HalSyscall num a1 a2 a3).
Definition hal_syscall (num : Z) (a1 a2 a3 : uarg) : proc Z := r ← hal_syscall_with num a1 a2 a3; mret r.1.

(** String literals, with their NUL. *)
Definition text (s : string) : list Z := bytes s ++ [0].
Definition text_nl (s : string) : list Z := bytes s ++ [10; 0].

(** [for (int i = lo; i < lo + n; i++) body(i);] *)
Fixpoint each (n : nat) (i : Z) (body : Z -> proc unit) : proc unit :=
  match n with O => mret tt | S n => _ ← body i; each n (i + 1) body end.

(** ** The wrappers *)

Definition user_write (str : list Z) : proc unit := _ ← hal_syscall SYS_WRITE (In str) (Val 0) (Val 0); mret tt.

(** [buf[--i] = '0' + value % 10; value /= 10;], most significant digit last
    written; twenty digits hold any 64-bit value. *)
Fixpoint user_digits (fuel : nat) (value i : Z) (buf : gmap Z Z) : Z * gmap Z Z :=
  match fuel with
  | O => (i, buf)
  | S fuel => if 0 <? value then user_digits fuel (value / 10) (i - 1) (<[i - 1 := 48 + value mod 10]> buf) else (i, buf)
  end.
Definition dec_buffer (value : Z) (buf : gmap Z Z) : list Z :=
  let buf := <[20 := 0]> buf in
  let '(i, buf) := if value =? 0 then (19, <[19 := 48]> buf) else user_digits 20 value 20 buf in
  take_arr buf i (Z.to_nat (21 - i)).
Definition user_write_dec64 (value : Z) : proc unit := user_write (dec_buffer value ∅).

Definition hex_nibble (n : Z) : Z := if n <? 10 then 48 + n else 65 + (n - 10).

Fixpoint mac_chars (n : nat) (b i : Z) (mac buf : gmap Z Z) : Z * gmap Z Z :=
  match n with
  | O => (i, buf)
  | S n =>
      let buf := <[i := hex_nibble ((mac !!! b .>>. 4) .&. 0xF)]> buf in
      let buf := <[i + 1 := hex_nibble (mac !!! b .&. 0xF)]> buf in
      if negb (b =? 5) then mac_chars n (b + 1) (i + 3) mac (<[i + 2 := 58]> buf) else mac_chars n (b + 1) (i + 2) mac buf
  end.
Definition mac_buffer (mac buf : gmap Z Z) : list Z :=
  let '(i, buf) := mac_chars 6 0 0 mac buf in take_arr (<[i := 0]> buf) 0 18.
Definition user_write_mac (mac : gmap Z Z) : proc unit := user_write (mac_buffer mac ∅).

Definition user_yield : proc unit := _ ← hal_syscall SYS_YIELD (Val 0) (Val 0) (Val 0); mret tt.
Definition user_exit : proc unit := _ ← hal_syscall SYS_EXIT (Val 0) (Val 0) (Val 0); mret tt.

(** [(int)hal_syscall(...)] *)
Definition int_syscall (num : Z) (a1 a2 a3 : uarg) : proc Z := r ← hal_syscall num a1 a2 a3; mret (int32 r).
Definition int_arg (v : Z) : uarg := Val (u64 v).

Definition user_send (dest type data : Z) : proc Z := int_syscall SYS_SEND (int_arg dest) (Val type) (Val data).

(** The fields of a structure the kernel filled in. *)
Definition word_at (size : nat) (off : Z) (mem : list Z) : Z := le_load (fun j => nth (Z.to_nat (off + j)) mem 0) size.
Definition message_of (mem : list Z) : message := Message (word_at 8 0 mem) (word_at 8 8 mem) (word_at 8 16 mem).
Definition user_receive : proc message :=
  r ← hal_syscall_with SYS_RECEIVE (Out 24) (Val 0) (Val 0); mret (message_of r.2).

Definition user_grant (dest op target : Z) : proc Z := int_syscall SYS_GRANT (int_arg dest) (int_arg op) (int_arg target).
Definition user_spawn (entry : user_fn) : proc Z := int_syscall SYS_SPAWN (Fn entry) (Val 0) (Val 0).
Definition user_spawn_program (object_id : Z) : proc Z := int_syscall SYS_SPAWN_PROGRAM (int_arg object_id) (Val 0) (Val 0).
Definition user_terminate (target : Z) : proc Z := int_syscall SYS_TERMINATE (int_arg target) (Val 0) (Val 0).

Definition user_object_read (id len : Z) : proc (Z * list Z) :=
  r ← hal_syscall_with SYS_OBJECT_READ (int_arg id) (Out len) (Val len); mret (int32 r.1, r.2).
Definition user_object_write (id : Z) (buf : list Z) (len : Z) : proc Z :=
  int_syscall SYS_OBJECT_WRITE (int_arg id) (In buf) (Val len).
Definition user_object_promote (id : Z) : proc Z := int_syscall SYS_OBJECT_PROMOTE (int_arg id) (Val 0) (Val 0).
Definition user_object_reject (id : Z) : proc Z := int_syscall SYS_OBJECT_REJECT (int_arg id) (Val 0) (Val 0).

Definition pack_mac (mac : gmap Z Z) : Z := loop (fun i packed => packed .|. (mac !!! i .<<. (8 * i))) 0 6 0.
Definition user_net_send (type data : Z) : proc Z := int_syscall SYS_NET_SEND (Val type) (Val data) (Val 0).
Definition user_net_send_to (mac : gmap Z Z) (type data : Z) : proc Z :=
  int_syscall SYS_NET_SEND_TO (Val type) (Val data) (Val (pack_mac mac)).
Definition user_net_send_reliable_to (mac : gmap Z Z) (type data : Z) : proc Z :=
  int_syscall SYS_NET_SEND_RELIABLE (Val type) (Val data) (Val (pack_mac mac)).

Record net_message := NetMessage { n_type : Z; n_data : Z; n_sender_actor : Z; n_sender_mac : gmap Z Z }.
Definition net_message_of (mem : list Z) : net_message :=
  NetMessage (word_at 8 0 mem) (word_at 8 8 mem) (word_at 8 16 mem) (of_list (take 6 (drop 24 mem))).
Definition user_net_receive (max_spins : Z) : proc (Z * net_message) :=
  r ← hal_syscall_with SYS_NET_RECEIVE (Out 32) (Val max_spins) (Val 0); mret (int32 r.1, net_message_of r.2).

Definition user_lookup_name (name : list Z) : proc Z := int_syscall SYS_LOOKUP_NAME (In name) (Val 0) (Val 0).

Record object_info := ObjectInfo { o_id : Z; o_trust : Z; o_size : Z; o_name : list Z }.
Definition object_info_of (mem : list Z) : object_info :=
  ObjectInfo (int32 (word_at 4 0 mem)) (int32 (word_at 4 4 mem)) (word_at 4 8 mem) (take 16 (drop 12 mem)).
Definition user_list_objects (index : Z) : proc (Z * object_info) :=
  r ← hal_syscall_with SYS_LIST_OBJECTS (int_arg index) (Out 28) (Val 0); mret (int32 r.1, object_info_of r.2).

Definition user_create_name (name : list Z) : proc Z := int_syscall SYS_CREATE_NAME (In name) (Val 0) (Val 0).
Definition user_rename_object (id : Z) (new_name : list Z) : proc Z :=
  int_syscall SYS_RENAME_OBJECT (int_arg id) (In new_name) (Val 0).
Definition user_delete_name (id : Z) : proc Z := int_syscall SYS_DELETE_NAME (int_arg id) (Val 0) (Val 0).
Definition user_key_read : proc Z := int_syscall SYS_KEY_READ (Val 0) (Val 0) (Val 0).

Definition rtc_of (mem : list Z) : rtc_time :=
  let byte i := nth i mem 0 in RtcTime (byte 0%nat) (byte 1%nat) (byte 2%nat) (byte 3%nat) (byte 4%nat) (word_at 2 6 mem).
Definition user_rtc_read : proc rtc_time :=
  r ← hal_syscall_with SYS_RTC_READ (Out 8) (Val 0) (Val 0); mret (rtc_of r.2).

Definition user_write_trust (trust : Z) : proc unit :=
  if trust =? OBJ_UNTRUSTED then user_write (text "UNTRUSTED")
  else if trust =? OBJ_QUARANTINED then user_write (text "QUARANTINED")
  else if trust =? OBJ_ANALYZED then user_write (text "ANALYZED")
  else if trust =? OBJ_TRUSTED then user_write (text "TRUSTED")
  else if trust =? OBJ_REJECTED then user_write (text "REJECTED")
  else mret tt.

(** [userland/hello.c] *)
Definition hello_start : proc unit :=
  _ ← user_write (text_nl "Hello from a genuinely loaded program -- Phase 16's loader works."); user_exit.

(** ** Numbers *)

Lemma take_arr_app {A} `{!Inhabited A} (m : gmap Z A) lo (n k : nat) :
  take_arr m lo (n + k) = take_arr m lo n ++ take_arr m (lo + Z.of_nat n) k.
Proof.
  unfold take_arr. rewrite Nat2Z.inj_add, seqZ_app by lia. rewrite map_app. f_equal.
  rewrite (Z.add_comm 0), <- fmap_add_seqZ.
  etransitivity; [apply map_map|]. apply map_ext. intros j. f_equal. lia.
Qed.

Lemma take_arr_ext {A} `{!Inhabited A} (m m' : gmap Z A) lo n :
  (forall i, lo <= i < lo + Z.of_nat n -> m !!! i = m' !!! i) -> take_arr m lo n = take_arr m' lo n.
Proof. intros H. unfold take_arr. apply map_ext_in. intros i Hi%list_elem_of_In%elem_of_seqZ. apply H. lia. Qed.

Lemma take_arr_one {A} `{!Inhabited A} (m : gmap Z A) lo : take_arr m lo 1 = [m !!! lo].
Proof. unfold take_arr. change (seqZ 0 (Z.of_nat 1)) with [0]. cbn [map]. by rewrite Z.add_0_r. Qed.

(** The digits end up where the buffer's NUL begins. *)
Lemma user_digits_spec fuel v i buf :
  let n := length (digits_le fuel v) in
  let '(j, b) := user_digits fuel v i buf in
  j = i - Z.of_nat n /\ take_arr b j n = rev (digits_le fuel v) /\ (forall x, i <= x -> b !!! x = buf !!! x).
Proof.
  revert v i buf. induction fuel as [|fuel IH]; intros v i buf; cbv zeta; cbn [user_digits digits_le].
  { split_and!; [cbn; lia | done | done]. }
  destruct (0 <? v); [|split_and!; [cbn; lia | done | done]].
  specialize (IH (v / 10) (i - 1) (<[i - 1 := 48 + v mod 10]> buf)). cbv zeta in IH.
  destruct (user_digits fuel _ _ _) as [j b]. destruct IH as (-> & Ht & Hb). cbn [length rev]. split_and!; [lia | | ].
  - rewrite <- Nat.add_1_r, take_arr_app, Ht. f_equal. rewrite Z.sub_add, take_arr_one, Hb by lia. by rewrite aget_eq.
  - intros x Hx. rewrite Hb by lia. apply aget_ne. lia.
Qed.

Lemma digits_short fuel v : (length (digits_le fuel v) <= fuel)%nat.
Proof. revert v. induction fuel as [|n IH]; intros v; cbn; [done|]. destruct (0 <? v); cbn; [specialize (IH (v / 10))|]; lia. Qed.

(** C39: numbers are printed the same on both sides of the boundary: the string
    [user_write_dec64] builds in its 21 bytes is the text the kernel's own
    [hal_console_write_dec64] prints, NUL-terminated, whatever the stack held. *)
Theorem user_decimal_is_kernel_decimal v buf : dec_buffer v buf = dec_text v ++ [0].
Proof.
  unfold dec_buffer, dec_text. destruct (v =? 0).
  - change (Z.to_nat (21 - 19)) with (1 + 1)%nat. rewrite take_arr_app, !take_arr_one. by autorewrite with vajra.
  - pose proof (user_digits_spec 20 v 20 (<[20 := 0]> buf)) as H. cbv zeta in H.
    destruct (user_digits _ _ _ _) as [j b]. destruct H as (-> & Ht & Hb). pose proof (digits_short 20 v).
    replace (Z.to_nat (21 - _)) with (length (digits_le 20 v) + 1)%nat by lia.
    rewrite take_arr_app, Ht, dec_chars_digits, Z.sub_add, take_arr_one, Hb by lia. by rewrite aget_eq.
Qed.

(** ** Structures *)

Lemma word_at_field (n : nat) v (pre post : list Z) : 0 <= v < 2 ^ (8 * Z.of_nat n) ->
  word_at n (Z.of_nat (length pre)) (pre ++ field n v ++ post) = v.
Proof.
  intros Hv. unfold word_at. rewrite (le_load_ext _ (byte_of v)).
  - rewrite le_load_byte_of. by apply Z.mod_small.
  - intros i Hi. rewrite app_nth2 by lia. rewrite app_nth1 by (unfold field; rewrite length_map, length_seqZ; lia).
    unfold field. replace (Z.to_nat _ - _)%nat with (Z.to_nat i) by lia. apply nth_lookup_Some.
    apply list_lookup_fmap_Some. exists i. split; [done|]. rewrite lookup_seqZ_lt by lia. f_equal. lia.
Qed.

Lemma word_at_next (n : nat) v off (pre post : list Z) : 0 <= v < 2 ^ (8 * Z.of_nat n) -> off = Z.of_nat (length pre) ->
  word_at n off (pre ++ field n v ++ post) = v.
Proof. intros Hv ->. by apply word_at_field. Qed.

Definition message_u64 (m : message) : Prop := in_u64 (m_type m) /\ in_u64 (m_sender m) /\ in_u64 (m_data m).

Lemma message_back m : message_u64 m -> message_of (message_bytes m) = m.
Proof.
  intros (H1 & H2 & H3). destruct m as [ty se da]. unfold message_of, message_bytes. cbn [m_type m_sender m_data] in *. f_equal.
  - exact (word_at_field 8 ty [] (field 8 se ++ field 8 da) H1).
  - by apply (word_at_next 8 se 8 (field 8 ty) (field 8 da)); [|rewrite field_length].
  - rewrite <- (app_nil_r (field 8 da)), (app_assoc (field 8 ty)).
    by apply (word_at_next 8 da 16 (field 8 ty ++ field 8 se) []); [|rewrite length_app, !field_length].
Qed.

Lemma net_message_back o : in_u64 (rx_type o) -> in_u64 (rx_data o) -> in_u64 (rx_sender_actor o) ->
  let n := net_message_of (net_message_bytes o) in
  n_type n = rx_type o /\ n_data n = rx_data o /\ n_sender_actor n = rx_sender_actor o /\
  n_sender_mac n = of_list (take_arr (rx_sender_mac o) 0 6).
Proof.
  intros H1 H2 H3. unfold net_message_of, net_message_bytes. cbn [n_type n_data n_sender_actor n_sender_mac].
  set (mac := take_arr _ 0 6). split_and!.
  - exact (word_at_field 8 (rx_type o) [] (field 8 (rx_data o) ++ field 8 (rx_sender_actor o) ++ mac) H1).
  - by apply (word_at_next 8 (rx_data o) 8 (field 8 (rx_type o)) (field 8 (rx_sender_actor o) ++ mac)); [|rewrite field_length].
  - rewrite (app_assoc (field 8 (rx_type o))).
    by apply (word_at_next 8 (rx_sender_actor o) 16 (field 8 (rx_type o) ++ field 8 (rx_data o)) mac);
      [|rewrite length_app, !field_length].
  - f_equal.
Qed.

(** what crosses the boundary by value arrives unchanged: a message the
    kernel fills in is read back field by field by the actor, and the MAC an
    actor packs into a register is the one the kernel unpacks. *)
Theorem boundary_roundtrip m (mac : gmap Z Z) :
  message_u64 m -> (forall i, 0 <= i < 6 -> in_u8 (mac !!! i)) ->
  message_of (message_bytes m) = m /\ in_u64 (pack_mac mac) /\
  forall i, 0 <= i < 6 -> mac_of (pack_mac mac) !!! i = mac !!! i.
Proof.
  intros Hm Hmac. split; [by apply message_back|].
  assert (E : pack_mac mac = le_load (fun i => mac !!! i) 6) by done. split.
  - rewrite E. pose proof (le_load_range (fun i => mac !!! i) 6 Hmac). unfold in_u64. lia.
  - intros i Hi. unfold mac_of. rewrite fill_in by lia. rewrite E, Z.sub_0_r. by apply byte_of_le_load.
Qed.

Lemma boundary_roundtrip_witness :
  message_of (message_bytes (Message 42 5 1234)) = Message 42 5 1234 /\
  mac_of (pack_mac (of_list [0x52; 0x54; 0x00; 0x12; 0x34; 0x56])) !!! 5 = 0x56.
Proof.
  destruct (boundary_roundtrip (Message 42 5 1234) (of_list [0x52; 0x54; 0x00; 0x12; 0x34; 0x56])) as (H1 & _ & H2).
  - unfold message_u64, in_u64. cbn. lia.
  - intros i Hi. assert (Hc : i = 0 \/ i = 1 \/ i = 2 \/ i = 3 \/ i = 4 \/ i = 5) by lia.
    unfold in_u8. destruct Hc as [->|[->|[->|[->|[->| ->]]]]]; vm_compute; split; congruence.
  - split; [exact H1|]. by apply H2.
Defined.

(** ** Programs against an environment *)

(** The bytes the kernel reads through a pointer to a string. *)
Definition before_nul (l : list Z) : list Z :=
  fold_right (fun ch rest => if ch =? 0 then [] else ch :: rest) [] l.

Lemma observe_bind {R R'} (t : proc R) (k : R -> proc R') :
  observe (ITree.bind t k) = observe match observe t with
    | RetF r => k r
    | TauF u => Tau (ITree.bind u k)
    | VisF e ke => Vis e (fun x => ITree.bind (ke x) k)
    end.
Proof. reflexivity. Qed.

Section runs.
Context {S : Type} (env : Z -> uarg -> uarg -> uarg -> S -> (Z * list Z) * S).

(** [t] comes back with [r], in finitely many calls answered by [env]. *)
Inductive runs {R} : proc R -> S -> R -> S -> Prop :=
| runs_ret t r s : observe t = RetF r -> runs t s r s
| runs_tau t u s r s' : observe t = TauF u -> runs u s r s' -> runs t s r s'
| runs_call t num a1 a2 a3 k s x s1 r s' :
    observe t = VisF (HalSyscall num a1 a2 a3) k -> env num a1 a2 a3 s = (x, s1) -> runs (k x) s1 r s' -> runs t s r s'.

Lemma runs_observe {R} (t t' : proc R) s r s' : observe t = observe t' -> runs t s r s' -> runs t' s r s'.
Proof.
  intros E H. destruct H; rewrite E in *; [by apply runs_ret | by eapply runs_tau | by eapply runs_call].
Qed.

Lemma runs_mret {R} (r : R) s : runs (mret r) s r s.
Proof. by apply runs_ret. Qed.

Lemma runs_bind {R R'} (t : proc R) (k : R -> proc R') s r s1 r' s2 :
  runs t s r s1 -> runs (k r) s1 r' s2 -> runs (t ≫= k) s r' s2.
Proof.
  induction 1 as [t r s E|t u s r s1 E _ IH|t num a1 a2 a3 kt s x s1 r s' E Ee _ IH]; intros Hk;
    pose proof (observe_bind t k) as Eb; rewrite E in Eb.
  - by eapply runs_observe; [symmetry; exact Eb|].
  - eapply runs_tau; [exact Eb | by apply IH].
  - eapply runs_call; [exact Eb | exact Ee | by apply IH].
Qed.

Lemma runs_call_with num a1 a2 a3 s x s' : env num a1 a2 a3 s = (x, s') -> runs (hal_syscall_with num a1 a2 a3) s x s'.
Proof. intros E. eapply runs_call; [reflexivity | exact E | by apply runs_ret]. Qed.

Lemma runs_syscall num a1 a2 a3 s x mem s' : env num a1 a2 a3 s = ((x, mem), s') -> runs (hal_syscall num a1 a2 a3) s x s'.
Proof. intros E. eapply runs_bind; [by apply runs_call_with | apply runs_mret]. Qed.

Lemma runs_again {R I} (f : I -> proc (I + R)) i j s s1 r s2 :
  runs (f i) s (inl j) s1 -> runs (ITree.iter f j) s1 r s2 -> runs (ITree.iter f i) s r s2.
Proof.
  intros H1 H2. apply (runs_observe (f i ≫= fun lr => match lr with inl l => Tau (ITree.iter f l) | inr r => Ret r end));
    [reflexivity|]. eapply runs_bind; [exact H1|]. by eapply runs_tau.
Qed.

Lemma runs_break {R I} (f : I -> proc (I + R)) i r s s1 :
  runs (f i) s (inr r) s1 -> runs (ITree.iter f i) s r s1.
Proof.
  intros H1. apply (runs_observe (f i ≫= fun lr => match lr with inl l => Tau (ITree.iter f l) | inr r => Ret r end));
    [reflexivity|]. eapply runs_bind; [exact H1|]. by apply runs_ret.
Qed.
End runs.
