(* ===== verification/Demos.v ===== *)
(** * Demos: the actors of [core/main.c]

    Every ring-3 function [kernel_main] or another actor spawns, except the
    shell, as a program over the system-call boundary of User.v.  Slot numbers
    and object identifiers are the constants of Boot.v. *)
From Stdlib Require Import String Ascii List.
From ITree Require Import Core.ITreeDefinition.
From S2P Require Import Prelude Storage Actor Console Net Syscall Boot User.

Definition TASK_SQUARE : Z := 1.
Definition TASK_RESULT : Z := 2.
Definition MSG_DOWNLOAD_DONE : Z := 1.
Definition MSG_SCAN_DONE : Z := 2.
Definition TASK_INSPECT : Z := 3.
Definition MSG_CHECK_PASS : Z := 4.
Definition MSG_CHECK_FAIL : Z := 5.
Definition MSG_NET_HELLO : Z := 1.
Definition MSG_NET_HELLO_ACK : Z := 2.
Definition MSG_NET_PING : Z := 3.
Definition MSG_PIPE_INIT : Z := 20.
Definition MSG_PIPE_DATA : Z := 21.
Definition MSG_PLEASE_STOP : Z := 22.

(** ** Scheduling demos *)

Definition ticker (label : string) : proc unit :=
  _ ← each 3 0 (fun i => _ ← user_write (text label); _ ← user_write_dec64 (u64 i); _ ← user_write [10; 0]; user_yield);
  user_exit.
Definition actor_one : proc unit := ticker "[Actor 1] tick ".
Definition actor_two : proc unit := ticker "[Actor 2] tick ".
Definition actor_three : proc unit := ticker "[Actor 3] tick ".

(** The two million increments of a local counter between the writes are not
    visible outside the actor. *)
Definition actor_greedy : proc unit :=
  _ ← user_write (text_nl "[Greedy] starting (never calls user_yield)");
  _ ← each 5 0 (fun spin =>
    _ ← user_write (text "[Greedy] spin "); _ ← user_write_dec64 (u64 spin);
    user_write (text_nl " done (still never yielded)"));
  _ ← user_write (text_nl "[Greedy] exiting"); user_exit.

(** ** Messages and capabilities *)

Definition actor_mailbox_receiver : proc unit :=
  _ ← each 2 0 (fun _ =>
    _ ← user_write (text_nl "[Receiver] waiting for a message...");
    msg ← user_receive;
    _ ← user_write (text "[Receiver] got a message: type="); _ ← user_write_dec64 (m_type msg);
    _ ← user_write (text " sender="); _ ← user_write_dec64 (m_sender msg);
    _ ← user_write (text " data="); _ ← user_write_dec64 (m_data msg);
    user_write [10; 0]);
  user_exit.

Definition actor_mailbox_sender : proc unit :=
  _ ← user_write (text_nl "[Sender] ticking a few times before sending...");
  _ ← each 3 0 (fun _ => user_yield);
  _ ← user_write (text_nl "[Sender] sending to Receiver (using its granted capability)");
  rc ← user_send MAILBOX_RECEIVER_SLOT 42 1234;
  _ ← (if negb (rc =? 0) then user_write (text_nl "[Sender] send failed!") else mret tt);
  _ ← user_write (text_nl "[Sender] delegating its send capability to Intruder");
  rc ← user_grant INTRUDER_SLOT CAP_SEND MAILBOX_RECEIVER_SLOT;
  _ ← (if negb (rc =? 0) then user_write (text_nl "[Sender] delegation failed!") else mret tt);
  _ ← user_write (text_nl "[Sender] exiting"); user_exit.

Definition actor_intruder : proc unit :=
  _ ← user_write (text_nl "[Intruder] attempt 1: sending to Receiver with no capability...");
  rc ← user_send MAILBOX_RECEIVER_SLOT 7 111;
  _ ← user_write (if rc =? 0 then text_nl "[Intruder] SECURITY FAILURE: send succeeded with no capability!"
                  else text_nl "[Intruder] denied, as expected (no capability held)");
  _ ← each 5 0 (fun _ => user_yield);
  _ ← user_write (text_nl "[Intruder] attempt 2: sending to Receiver after Sender delegated...");
  rc ← user_send MAILBOX_RECEIVER_SLOT 7 222;
  _ ← user_write (if rc =? 0 then text_nl "[Intruder] send succeeded (capability correctly delegated)"
                  else text_nl "[Intruder] still denied (delegation did not work)");
  _ ← user_write (text_nl "[Intruder] attempt: spawning an actor with no CAP_SPAWN...");
  spawned ← user_spawn ActorWorker;
  _ ← user_write (if 0 <=? spawned then text_nl "[Intruder] SECURITY FAILURE: spawn succeeded with no CAP_SPAWN!"
                  else text_nl "[Intruder] spawn denied, as expected (no CAP_SPAWN held)");
  _ ← user_write (text_nl "[Intruder] attempt: terminating Receiver with no CAP_TERMINATE...");
  rc ← user_terminate MAILBOX_RECEIVER_SLOT;
  _ ← user_write (if rc =? 0 then text_nl "[Intruder] SECURITY FAILURE: terminate succeeded with no capability!"
                  else text_nl "[Intruder] terminate denied, as expected (no CAP_TERMINATE held)");
  _ ← user_write (text_nl "[Intruder] attempt: reading the payload object with no capability...");
  '(orc, _) ← user_object_read PAYLOAD_OBJECT_ID 8;
  _ ← user_write (if 0 <=? orc then text_nl "[Intruder] SECURITY FAILURE: object read succeeded with no capability!"
                  else text_nl "[Intruder] object read denied, as expected");
  _ ← user_write (text_nl "[Intruder] attempt: overwriting the payload object with no capability...");
  orc ← user_object_write PAYLOAD_OBJECT_ID (text "hacked") 6;
  _ ← user_write (if 0 <=? orc then text_nl "[Intruder] SECURITY FAILURE: object write succeeded with no capability!"
                  else text_nl "[Intruder] object write denied, as expected");
  _ ← user_write (text_nl "[Intruder] attempt: promoting the payload object with no capability...");
  orc ← user_object_promote PAYLOAD_OBJECT_ID;
  _ ← user_write (if 0 <=? orc then text_nl "[Intruder] SECURITY FAILURE: object promote succeeded with no capability!"
                  else text_nl "[Intruder] object promote denied, as expected");
  user_exit.

(** ** Ghost actors *)

Definition actor_worker : proc unit :=
  _ ← user_write (text_nl "[Worker] waiting for a task...");
  task ← user_receive;
  let result := u64 (m_data task * m_data task) in
  _ ← user_write (text "[Worker] squaring "); _ ← user_write_dec64 (m_data task);
  _ ← user_write (text " -> "); _ ← user_write_dec64 result;
  _ ← user_write (text_nl ", replying to spawner");
  _ ← user_send (int32 (m_sender task)) TASK_RESULT result;
  _ ← user_write (text_nl "[Worker] done, exiting"); user_exit.

(** A [user_exit] that came back would fall through, as in the source. *)
Definition spawn_or_exit (fn : user_fn) : proc Z :=
  w ← user_spawn fn;
  _ ← (if w <? 0 then _ ← user_write (text_nl "[Coordinator] spawn failed!"); user_exit else mret tt);
  mret w.

Definition actor_coordinator : proc unit :=
  _ ← user_write (text_nl "[Coordinator] spawning Worker 1...");
  w1 ← spawn_or_exit ActorWorker;
  _ ← user_write (text_nl "[Coordinator] sending Worker 1 a task");
  _ ← user_send w1 TASK_SQUARE 7;
  result ← user_receive;
  _ ← user_write (text "[Coordinator] Worker 1 replied: "); _ ← user_write_dec64 (m_data result);
  _ ← user_write (text_nl " (7 squared; it will now exit on its own)");
  _ ← user_write (text_nl "[Coordinator] spawning Worker 2...");
  w2 ← spawn_or_exit ActorWorker;
  _ ← user_write (text_nl "[Coordinator] sending Worker 2 a task, then terminating it directly");
  _ ← user_send w2 TASK_SQUARE 9;
  _ ← user_yield; _ ← user_yield;
  rc ← user_terminate w2;
  _ ← user_write (if rc =? 0 then text_nl "[Coordinator] Worker 2 terminated" else text_nl "[Coordinator] terminate failed!");
  _ ← user_write (text_nl "[Coordinator] attempting a 3rd spawn (quota is 2 per actor)...");
  w3 ← user_spawn ActorWorker;
  _ ← user_write (if 0 <=? w3 then text_nl "[Coordinator] SECURITY FAILURE: 3rd spawn succeeded!"
                  else text_nl "[Coordinator] denied, as expected (spawn quota exceeded)");
  _ ← user_write (text_nl "[Coordinator] exiting"); user_exit.

(** ** The storage pipeline *)

Definition actor_downloader : proc unit :=
  _ ← user_write (text_nl "[Downloader] writing payload object (marks it OBJ_UNTRUSTED)");
  _ ← user_object_write PAYLOAD_OBJECT_ID (text "hello from disk!") 17;
  _ ← user_send SCANNER_SLOT MSG_DOWNLOAD_DONE PAYLOAD_OBJECT_ID;
  _ ← user_receive;
  _ ← user_write (text_nl "[Downloader] writing suspicious object (marks it OBJ_UNTRUSTED)");
  _ ← user_object_write SUSPICIOUS_OBJECT_ID (text "BADSTUFF payload") 16;
  _ ← user_send SCANNER_SLOT MSG_DOWNLOAD_DONE SUSPICIOUS_OBJECT_ID;
  user_exit.

(** [for (i = 0; buf[i] && buf[i + 1] && buf[i + 2]; i++)], on the 32 bytes. *)
Fixpoint has_marker (buf : list Z) : bool :=
  match buf with
  | a :: rest =>
      match rest with
      | b :: c :: _ =>
          if negb (a =? 0) && negb (b =? 0) && negb (c =? 0)
          then if (a =? 66) && (b =? 65) && (c =? 68) then true else has_marker rest
          else false
      | _ => false
      end
  | [] => false
  end.

(** [buf[n] = 0;], after a read of at most [length buf] bytes; the buffer has
    one byte more. *)
Definition put_nul (n : Z) (buf : list Z) : list Z := <[Z.to_nat n := 0]> (buf ++ [0]).

Definition actor_inspector : proc unit :=
  task ← user_receive;
  let id := int32 (m_data task) in
  '(n, buf) ← user_object_read id 31;
  let n := if n <? 0 then 0 else n in
  let buf := put_nul n buf in
  _ ← user_write (text "[Inspector] examining object "); _ ← user_write_dec64 (u64 id);
  _ ← user_write (bytes ": " ++ [34; 0]); _ ← user_write buf; _ ← user_write [34; 10; 0];
  _ ← user_send (int32 (m_sender task)) (if has_marker buf then MSG_CHECK_FAIL else MSG_CHECK_PASS) (u64 id);
  user_exit.

Definition actor_scan_object (id : Z) : proc unit :=
  _ ← user_write (text "[Scanner] spawning a sandboxed inspector for object "); _ ← user_write_dec64 (u64 id);
  _ ← user_write [10; 0];
  w ← user_spawn ActorInspector;
  if w <? 0 then user_write (text_nl "[Scanner] spawn failed!")
  else
    _ ← user_grant w CAP_READ_OBJECT id;
    _ ← user_send w TASK_INSPECT (u64 id);
    verdict ← user_receive;
    _ ← (if m_type verdict =? MSG_CHECK_FAIL then
           _ ← user_write (text "[Scanner] object "); _ ← user_write_dec64 (u64 id);
           _ ← user_write (text_nl " FAILED inspection -- rejecting");
           _ ← user_object_reject id; mret tt
         else
           _ ← user_write (text "[Scanner] object "); _ ← user_write_dec64 (u64 id);
           _ ← user_write (text_nl " passed inspection -- promoting");
           each 3 0 (fun _ =>
             trust ← user_object_promote id;
             _ ← user_write (text "[Scanner] promoted to "); _ ← user_write_trust trust; user_write [10; 0]));
    _ ← user_send READER_SLOT MSG_SCAN_DONE (u64 id);
    _ ← user_send DOWNLOADER_SLOT MSG_SCAN_DONE (u64 id); mret tt.

Definition actor_scanner : proc unit :=
  _ ← each 2 0 (fun _ => m ← user_receive; actor_scan_object (int32 (m_data m)));
  user_exit.

Definition actor_reader : proc unit :=
  _ ← each 2 0 (fun _ =>
    m ← user_receive;
    let id := int32 (m_data m) in
    '(n, buf) ← user_object_read id 31;
    _ ← user_write (text "[Reader] object "); _ ← user_write_dec64 (u64 id);
    if n <? 0 then user_write (text_nl ": read refused (rejected -- capability alone wasn't enough)")
    else _ ← user_write (bytes ": trusted content " ++ [34; 0]); _ ← user_write (put_nul n buf); user_write [34; 10; 0]);
  user_exit.

(** ** The network *)

(** The listening loop: up to sixty polls, a broadcast before every fourth. *)
Fixpoint net_listen (fuel : nat) (attempt : Z) (peer_mac : gmap Z Z) : proc (bool * gmap Z Z) :=
  match fuel with
  | O => mret (false, peer_mac)
  | S fuel =>
      _ ← (if (0 <? attempt) && (attempt mod 4 =? 0) then _ ← user_net_send MSG_NET_HELLO 0xC0FFEE; mret tt else mret tt);
      '(got, msg) ← user_net_receive 50000000;
      if negb (got =? 1) then net_listen fuel (attempt + 1) peer_mac
      else if n_type msg =? MSG_NET_HELLO then
        _ ← user_write (text "[Net] heard a HELLO from actor "); _ ← user_write_dec64 (n_sender_actor msg);
        _ ← user_write (text " on device "); _ ← user_write_mac (n_sender_mac msg);
        _ ← user_write (text_nl " -- replying directly (addressed, not broadcast)");
        _ ← user_net_send_to (n_sender_mac msg) MSG_NET_HELLO_ACK 0xBEEF;
        net_listen fuel (attempt + 1) peer_mac
      else if n_type msg =? MSG_NET_HELLO_ACK then
        _ ← user_write (text "[Net] heard a HELLO_ACK from actor "); _ ← user_write_dec64 (n_sender_actor msg);
        _ ← user_write (text " on device "); _ ← user_write_mac (n_sender_mac msg);
        _ ← user_write (text_nl " -- genuine cross-device actor communication confirmed");
        mret (true, loop (fun i peer => <[i := n_sender_mac msg !!! i]> peer) 0 6 peer_mac)
      else net_listen fuel (attempt + 1) peer_mac
  end.

Definition actor_network_peer : proc unit :=
  rc ← user_net_send MSG_NET_HELLO 0xC0FFEE;
  _ ← (if negb (rc =? 0) then
         _ ← user_write (text_nl "[Net] no network capability or no device -- nothing to do"); user_exit
       else mret tt);
  _ ← user_write (text_nl "[Net] broadcast HELLO, listening for a peer...");
  '(heard_ack, peer_mac) ← net_listen 60 0 ∅;
  _ ← (if (heard_ack : bool) then
         _ ← user_write (text_nl "[Net] sending one PING with a delivery guarantee...");
         delivered ← user_net_send_reliable_to peer_mac MSG_NET_PING 0xDEAD;
         user_write (if delivered =? 0 then text_nl "[Net] PING genuinely acked by the peer -- reliable delivery confirmed"
                     else text_nl "[Net] PING never acked within budget")
       else user_write (text_nl "[Net] no peer heard from within the listening window (single-instance run?)"));
  _ ← each 40 0 (fun _ => _ ← user_net_receive 50000000; mret tt);
  user_exit.

(** ** The loader and the namespace *)

Definition actor_program_loader : proc unit :=
  _ ← user_write (text "[Loader] spawning the loaded 'hello' program from storage object ");
  _ ← user_write_dec64 HELLO_PROGRAM_OBJECT_ID; _ ← user_write (text_nl "...");
  slot ← user_spawn_program HELLO_PROGRAM_OBJECT_ID;
  _ ← (if slot <? 0 then user_write (text_nl "[Loader] failed to load and spawn the program")
       else _ ← user_write (text "[Loader] loaded program is now running as actor "); _ ← user_write_dec64 (u64 slot);
            user_write [10; 0]);
  user_exit.

(** [for (int i = 0; ; i++)] until the kernel answers other than 1; the shell's
    [ls] is the same loop. *)
Definition list_names : proc unit :=
  ITree.iter (fun i =>
    '(rc, info) ← user_list_objects i;
    if negb (rc =? 1) then mret (inr tt)
    else
      _ ← user_write (text "  ["); _ ← user_write_dec64 (u64 (o_id info));
      _ ← user_write (text "] "); _ ← user_write (o_name info);
      _ ← user_write (text " ("); _ ← user_write_trust (o_trust info); _ ← user_write (text_nl ")");
      mret (inl (i + 1))) 0.

Definition actor_namer : proc unit :=
  found ← user_lookup_name (text "payload.bin");
  _ ← user_write (text "[Namer] lookup 'payload.bin' -> id "); _ ← user_write_dec64 (u64 found); _ ← user_write [10; 0];
  _ ← user_write (text_nl "[Namer] listing the namespace:"); _ ← list_names;
  _ ← user_write (text_nl "[Namer] creating 'notes.txt'...");
  id ← user_create_name (text "notes.txt");
  _ ← (if id <? 0 then _ ← user_write (text_nl "[Namer] create failed!"); user_exit else mret tt);
  _ ← user_write (text "[Namer] created id "); _ ← user_write_dec64 (u64 id); _ ← user_write [10; 0];
  _ ← user_write (text_nl "[Namer] renaming it to 'todo.txt'...");
  rc ← user_rename_object id (text "todo.txt");
  _ ← user_write (if rc =? 0 then text_nl "[Namer] renamed" else text_nl "[Namer] rename failed!");
  _ ← user_write (text_nl "[Namer] deleting it...");
  rc ← user_delete_name id;
  _ ← user_write (if rc =? 0 then text_nl "[Namer] deleted" else text_nl "[Namer] delete failed!");
  gone ← user_lookup_name (text "todo.txt");
  _ ← user_write (if gone <? 0 then text_nl "[Namer] confirmed: 'todo.txt' is gone (lookup returned -1)"
                  else text_nl "[Namer] SECURITY FAILURE: deleted name still resolves!");
  user_exit.

(** ** What the shell spawns *)

(** [sum += (int)m.data], on 32 bits. *)
Fixpoint sum_five (n : nat) (sum : Z) : proc Z :=
  match n with
  | O => mret sum
  | S n => m ← user_receive; sum_five n (int32 (sum + int32 (m_data m)))
  end.
Definition actor_pipe_sink : proc unit :=
  sum ← sum_five 5 0;
  _ ← user_write (text "[Pipe] sink received 5 values, sum = "); _ ← user_write_dec64 (u64 sum);
  _ ← user_write [10; 0]; user_exit.

Definition actor_pipe_source : proc unit :=
  init ← user_receive;
  let sink := int32 (m_data init) in
  _ ← each 5 1 (fun i => _ ← user_send sink MSG_PIPE_DATA (u64 i); mret tt);
  _ ← user_write (text_nl "[Pipe] source sent 5 values to sink"); user_exit.

Definition actor_slow_counter : proc unit :=
  _ ← each 10 0 (fun i =>
    _ ← user_write (text "[Count] "); _ ← user_write_dec64 (u64 i); _ ← user_write [10; 0];
    each 3 0 (fun _ => user_yield));
  _ ← user_write (text_nl "[Count] done"); user_exit.

Definition program_of (f : user_fn) : proc unit :=
  match f with
  | ActorWorker => actor_worker
  | ActorInspector => actor_inspector
  | ActorPipeSink => actor_pipe_sink
  | ActorPipeSource => actor_pipe_source
  | ActorSlowCounter => actor_slow_counter
  end.

(** ** The inspector's analysis *)

Lemma before_nul_cons c l : before_nul (c :: l) = if c =? 0 then [] else c :: before_nul l.
Proof. reflexivity. Qed.

Lemma no_marker_short l pre post : (length l < 3)%nat -> l <> pre ++ [66; 65; 68] ++ post.
Proof. intros Hl ->. rewrite !length_app in Hl. cbn in Hl. lia. Qed.

Lemma marker_later c l : (exists pre post, l = pre ++ [66; 65; 68] ++ post) ->
  exists pre post, c :: l = pre ++ [66; 65; 68] ++ post.
Proof. intros (pre & post & ->). by exists (c :: pre), post. Qed.

(** The inspector's loop finds the marker exactly when it occurs before the
    first NUL: what follows a NUL is not looked at. *)
Lemma has_marker_spec l : has_marker l = true <-> exists pre post, before_nul l = pre ++ [66; 65; 68] ++ post.
Proof.
  induction l as [|a l IH].
  { split; [done|]. intros (pre & post & H). by apply (no_marker_short [] pre post) in H; [|cbn; lia]. }
  assert (Hshort : (length (before_nul (a :: l)) < 3)%nat ->
    false = true <-> exists pre post, before_nul (a :: l) = pre ++ [66; 65; 68] ++ post).
  { intros Hs. split; [done|]. intros (pre & post & H). by apply no_marker_short in H. }
  cbn [has_marker]. destruct l as [|b [|c l]].
  - apply Hshort. rewrite before_nul_cons. destruct (a =? 0); cbn; lia.
  - apply Hshort. rewrite !before_nul_cons. destruct (a =? 0), (b =? 0); cbn; lia.
  - destruct (Z.eqb_spec a 0) as [->|Ha]; [apply Hshort; cbn; lia|].
    destruct (Z.eqb_spec b 0) as [->|Hb]; [apply Hshort; rewrite before_nul_cons, (proj2 (Z.eqb_neq a 0) Ha); cbn; lia|].
    destruct (Z.eqb_spec c 0) as [->|Hc]; cbn [negb andb].
    { apply Hshort. rewrite !before_nul_cons, (proj2 (Z.eqb_neq a 0) Ha), (proj2 (Z.eqb_neq b 0) Hb). cbn. lia. }
    assert (E : before_nul (a :: b :: c :: l) = a :: before_nul (b :: c :: l)) by (rewrite before_nul_cons; by rewrite (proj2 (Z.eqb_neq a 0) Ha)).
    assert (E2 : before_nul (b :: c :: l) = b :: c :: before_nul l).
    { by rewrite !before_nul_cons, (proj2 (Z.eqb_neq b 0) Hb), (proj2 (Z.eqb_neq c 0) Hc). }
    rewrite E. destruct ((a =? 66) && (b =? 65) && (c =? 68)) eqn:Em.
    + split; [|done]. intros _. breflect. subst. rewrite E2. by exists [], (before_nul l).
    + rewrite IH. split; [apply marker_later|]. intros (pre & post & H). destruct pre as [|x pre].
      * rewrite E2 in H. injection H as -> -> -> _. done.
      * injection H as _ H. by exists pre, post.
Qed.
