(* ===== verification/Shell.v ===== *)
(** * Shell: the interactive actor of [core/main.c]

    Line editing over [SYS_KEY_READ], the split into command and argument, and
    the built-ins. *)
From Stdlib Require Import String Ascii List.
From ITree Require Import Core.ITreeDefinition.
From S2P Require Import Prelude Storage Actor Rtc Console Net Syscall Boot User Demos.

Definition SHELL_LINE_MAX : Z := 64.
Definition SHELL_MAX_JOBS : Z := 8.

(** ** Text *)

Definition shell_cmd_is (cmd : gmap Z Z) (c0 c1 c2 c3 c4 c5 : Z) : bool :=
  if negb (cmd !!! 0 =? c0) then false else if c0 =? 0 then true
  else if negb (cmd !!! 1 =? c1) then false else if c1 =? 0 then true
  else if negb (cmd !!! 2 =? c2) then false else if c2 =? 0 then true
  else if negb (cmd !!! 3 =? c3) then false else if c3 =? 0 then true
  else if negb (cmd !!! 4 =? c4) then false else if c4 =? 0 then true
  else if negb (cmd !!! 5 =? c5) then false else if c5 =? 0 then true
  else cmd !!! 6 =? 0.

Definition is_digit (ch : Z) : bool := (48 <=? ch) && (ch <=? 57).

(** [v = v * 10 + (s[i] - '0')], an [int]; [fuel] is the size of the array. *)
Fixpoint parse_int_from (fuel : nat) (i v : Z) (s : gmap Z Z) : Z :=
  match fuel with
  | O => v
  | S fuel => if is_digit (s !!! i) then parse_int_from fuel (i + 1) (int32 (v * 10 + (s !!! i - 48))) s else v
  end.
Definition shell_parse_int (s : gmap Z Z) : Z := parse_int_from 64 0 0 s.

(** [while (line[i] == ' ') i++;] *)
Fixpoint skip_spaces (fuel : nat) (i : Z) (line : gmap Z Z) : Z :=
  match fuel with
  | O => i
  | S fuel => if line !!! i =? 32 then skip_spaces fuel (i + 1) line else i
  end.

(** [while (line[i] && ... && j < SHELL_LINE_MAX - 1) out[j++] = line[i++];],
    then [out[j] = 0]; a word also stops at a space. *)
Fixpoint copy_while (fuel : nat) (word : bool) (i j : Z) (line out : gmap Z Z) : Z * gmap Z Z :=
  match fuel with
  | O => (i, <[j := 0]> out)
  | S fuel =>
      if negb (line !!! i =? 0) && negb (word && (line !!! i =? 32)) && (j <? SHELL_LINE_MAX - 1)
      then copy_while fuel word (i + 1) (j + 1) line (<[j := line !!! i]> out)
      else (i, <[j := 0]> out)
  end.

Definition shell_split (line cmd arg : gmap Z Z) : gmap Z Z * gmap Z Z :=
  let i := skip_spaces 64 0 line in
  let '(i, cmd) := copy_while 64 true i 0 line cmd in
  let i := skip_spaces 64 i line in
  let '(_, arg) := copy_while 64 false i 0 line arg in
  (cmd, arg).

(** ** Reading a line *)

(** One turn of [for (;;)]: the next state of the line, or its length. *)
Definition read_key (s : Z * gmap Z Z) : proc ((Z * gmap Z Z) + (Z * gmap Z Z)) :=
  let '(len, buf) := s in
  c ← user_key_read;
  if c <? 0 then _ ← user_yield; mret (inl (len, buf))
  else if (c =? 10) || (c =? 13) then _ ← user_write [10; 0]; mret (inr (len, <[len := 0]> buf))
  else if (c =? 8) || (c =? 127) then
    (if 0 <? len then _ ← user_write [8; 32; 8; 0]; mret (inl (len - 1, buf)) else mret (inl (len, buf)))
  else if (len <? SHELL_LINE_MAX - 1) && (32 <=? c) && (c <? 127) then
    _ ← user_write [c; 0]; mret (inl (len + 1, <[len := c]> buf))
  else mret (inl (len, buf)).

Definition shell_read_line (buf : gmap Z Z) : proc (Z * gmap Z Z) := ITree.iter read_key (0, buf).

(** ** Built-ins *)

Definition c_text (buf : gmap Z Z) : list Z := take_arr buf 0 64.

Definition jobs := list Z.
Definition add_jobs (room : Z) (new : list Z) (job_slots : jobs) : jobs :=
  if Z.of_nat (length job_slots) <? room then job_slots ++ new else job_slots.

Definition started (verb after : list Z) (slot : Z) (job_slots : jobs) : proc jobs :=
  _ ← user_write (verb ++ [0]); _ ← user_write_dec64 (u64 slot); _ ← user_write (after ++ [10; 0]);
  mret (add_jobs SHELL_MAX_JOBS [slot] job_slots).

Definition shell_date : proc unit :=
  t ← user_rtc_read;
  _ ← user_write_dec64 (year t); _ ← user_write (text "-"); _ ← user_write_dec64 (month t);
  _ ← user_write (text "-"); _ ← user_write_dec64 (day t); _ ← user_write (text " ");
  _ ← user_write_dec64 (hours t); _ ← user_write (text ":"); _ ← user_write_dec64 (minutes t);
  _ ← user_write (text ":"); _ ← user_write_dec64 (seconds t);
  user_write (text_nl " (UTC, from the CMOS RTC)").

Definition shell_run (arg : gmap Z Z) (job_slots : jobs) : proc jobs :=
  id ← user_lookup_name (c_text arg);
  if id <? 0 then _ ← user_write (text_nl "run: no such object"); mret job_slots
  else
    slot ← user_spawn_program id;
    if slot <? 0 then
      _ ← user_write (text_nl "run: failed (not a valid program, or not authorized to read it)"); mret job_slots
    else started (bytes "run: started as actor ") [] slot job_slots.

Definition shell_count (job_slots : jobs) : proc jobs :=
  slot ← user_spawn ActorSlowCounter;
  if slot <? 0 then _ ← user_write (text_nl "count: spawn failed (quota exceeded?)"); mret job_slots
  else started (bytes "count: started as actor ") (bytes " (background)") slot job_slots.

Definition shell_pipe (job_slots : jobs) : proc jobs :=
  sink ← user_spawn ActorPipeSink;
  source ← (if 0 <=? sink then user_spawn ActorPipeSource else mret (-1));
  if (sink <? 0) || (source <? 0) then _ ← user_write (text_nl "pipe: spawn failed (quota exceeded?)"); mret job_slots
  else
    _ ← user_grant source CAP_SEND sink;
    _ ← user_send source MSG_PIPE_INIT (u64 sink);
    _ ← user_write (text "pipe: wired actor "); _ ← user_write_dec64 (u64 source);
    _ ← user_write (text " -> actor "); _ ← user_write_dec64 (u64 sink); _ ← user_write [10; 0];
    mret (add_jobs (SHELL_MAX_JOBS - 1) [sink; source] job_slots).

Definition shell_jobs (job_slots : jobs) : proc unit :=
  if Z.of_nat (length job_slots) =? 0 then user_write (text_nl "(no jobs spawned this session)")
  else each (length job_slots) 0 (fun i =>
    _ ← user_write (text "  actor "); _ ← user_write_dec64 (u64 (nth (Z.to_nat i) job_slots 0)); user_write [10; 0]).

Definition shell_stop (arg : gmap Z Z) : proc unit :=
  rc ← user_send (shell_parse_int arg) MSG_PLEASE_STOP 0;
  user_write (if rc =? 0 then text_nl "stop: graceful-stop message sent (target may or may not act on it)"
              else text_nl "stop: could not send (no CAP_SEND for that slot, or it's dead)").

Definition shell_kill (arg : gmap Z Z) : proc unit :=
  rc ← user_terminate (shell_parse_int arg);
  user_write (if rc =? 0 then text_nl "kill: terminated" else text_nl "kill: failed (no CAP_TERMINATE, or already dead)").

(** The chain of [else if]; characters as numbers, as in the calls. *)
Definition shell_command (cmd arg : gmap Z Z) (job_slots : jobs) : proc jobs :=
  let keep (p : proc unit) : proc jobs := _ ← p; mret job_slots in
  if cmd !!! 0 =? 0 then mret job_slots
  else if shell_cmd_is cmd 104 101 108 112 0 0 then
    keep (_ ← user_write (text_nl "Commands: help ls run <name> echo <text> date clear");
          user_write (text_nl "          count pipe jobs stop <slot> kill <slot> exit"))
  else if shell_cmd_is cmd 99 108 101 97 114 0 then
    keep (user_write ([27] ++ bytes "[2J" ++ [27] ++ bytes "[1;1H" ++ [0]))
  else if shell_cmd_is cmd 101 99 104 111 0 0 then keep (_ ← user_write (c_text arg); user_write [10; 0])
  else if shell_cmd_is cmd 100 97 116 101 0 0 then keep shell_date
  else if shell_cmd_is cmd 108 115 0 0 0 0 then keep list_names
  else if shell_cmd_is cmd 114 117 110 0 0 0 then shell_run arg job_slots
  else if shell_cmd_is cmd 99 111 117 110 116 0 then shell_count job_slots
  else if shell_cmd_is cmd 112 105 112 101 0 0 then shell_pipe job_slots
  else if shell_cmd_is cmd 106 111 98 115 0 0 then keep (shell_jobs job_slots)
  else if shell_cmd_is cmd 115 116 111 112 0 0 then keep (shell_stop arg)
  else if shell_cmd_is cmd 107 105 108 108 0 0 then keep (shell_kill arg)
  else if shell_cmd_is cmd 101 120 105 116 0 0 then keep (_ ← user_write (text_nl "Shell exiting."); user_exit)
  else keep (user_write (text_nl "unknown command (try 'help')")).

(** The session: the three buffers and the jobs, carried from turn to turn. *)
Record session := Session { s_line : gmap Z Z; s_cmd : gmap Z Z; s_arg : gmap Z Z; s_jobs : jobs }.

Definition shell_turn (s : session) : proc (session + unit) :=
  _ ← user_write ([27] ++ bytes "[36mvajra> " ++ [27] ++ bytes "[0m" ++ [0]);
  '(_, line) ← shell_read_line (s_line s);
  let '(cmd, arg) := shell_split line (s_cmd s) (s_arg s) in
  job_slots ← shell_command cmd arg (s_jobs s);
  mret (inl (Session line cmd arg job_slots)).

Definition actor_shell (junk : session) : proc unit :=
  _ ← user_write ([27] ++ bytes "[36m" ++ [0]);
  _ ← user_write (text_nl "Vajra shell -- type 'help' for commands.");
  _ ← user_write ([27] ++ bytes "[0m" ++ [0]);
  ITree.iter shell_turn (Session (s_line junk) (s_cmd junk) (s_arg junk) []).

(** ** Strings in arrays *)

(** At index [i] of [buf] stands the string [l], with its NUL. *)
Definition cstr_at (buf : gmap Z Z) (i : Z) (l : list Z) : Prop :=
  (forall j, (j < length l)%nat -> buf !!! (i + Z.of_nat j) = nth j l 0) /\ buf !!! (i + Z.of_nat (length l)) = 0 /\
  Forall (fun ch => ch <> 0) l.

Lemma cstr_nil buf i : cstr_at buf i [] <-> buf !!! i = 0.
Proof. unfold cstr_at. cbn [length]. rewrite Z.add_0_r. split; [by intros (_ & H & _)|]. intros H. split_and!; [intros; lia | done | constructor]. Qed.

Lemma cstr_cons buf i c l : cstr_at buf i (c :: l) <-> buf !!! i = c /\ c <> 0 /\ cstr_at buf (i + 1) l.
Proof.
  unfold cstr_at. cbn [length]. rewrite List.Forall_cons_iff. replace (i + 1 + Z.of_nat (length l)) with (i + Z.of_nat (S (length l))) by lia.
  split.
  - intros (H1 & H2 & H3 & H4). split_and!; try done; [specialize (H1 0%nat ltac:(lia)); by rewrite Z.add_0_r in H1|].
    intros j Hj. specialize (H1 (S j) ltac:(lia)). cbn [nth] in H1. rewrite <- H1. f_equal. lia.
  - intros (H1 & H2 & H3 & H4 & H5). split_and!; try done. intros [|j] Hj; [by rewrite Z.add_0_r|].
    cbn [nth]. rewrite <- H3 by lia. f_equal. lia.
Qed.

Lemma cstr_head buf i l : cstr_at buf i l -> buf !!! i = hd 0 l.
Proof. destruct l; [by intros H%cstr_nil|]. by intros (H & _)%cstr_cons. Qed.

(** ** The words of a line *)

Fixpoint trim (l : list Z) : list Z := match l with c :: rest => if c =? 32 then trim rest else l | [] => [] end.
Fixpoint first_word (l : list Z) : list Z * list Z :=
  match l with
  | c :: rest => if c =? 32 then ([], l) else let '(w, r) := first_word rest in (c :: w, r)
  | [] => ([], [])
  end.
Definition split_line (l : list Z) : list Z * list Z := let '(w, r) := first_word (trim l) in (w, trim r).

Lemma trim_short l : (length (trim l) <= length l)%nat.
Proof. induction l as [|c l IH]; cbn; [done|]. destruct (c =? 32); cbn; lia. Qed.

Lemma first_word_app l : (first_word l).1 ++ (first_word l).2 = l.
Proof. induction l as [|c l IH]; cbn; [done|]. destruct (c =? 32); [done|]. destruct (first_word l). cbn in *. by rewrite IH. Qed.

Lemma skip_spaces_spec fuel i buf l : cstr_at buf i l -> (length l <= fuel)%nat ->
  exists i', skip_spaces fuel i buf = i' /\ cstr_at buf i' (trim l).
Proof.
  revert i l. induction fuel as [|fuel IH]; intros i l Hl Hf; cbn [skip_spaces].
  { destruct l; [|cbn in Hf; lia]. by exists i. }
  rewrite (cstr_head _ _ _ Hl). destruct l as [|c l]; cbn [hd trim]; [by exists i|].
  destruct (c =? 32); [|by exists i]. apply cstr_cons in Hl as (_ & _ & Hl). apply IH; [done|]. cbn in Hf. lia.
Qed.

(** What [copy_while] takes: the word, or everything. *)
Definition taken (word : bool) (l : list Z) : list Z := if word then (first_word l).1 else l.

Lemma copy_while_spec fuel word i j line out l :
  cstr_at line i l -> (length l < fuel)%nat -> 0 <= j -> j + Z.of_nat (length l) <= SHELL_LINE_MAX - 1 ->
  let '(i', out') := copy_while fuel word i j line out in
  i' = i + Z.of_nat (length (taken word l)) /\ cstr_at out' j (taken word l) /\ (forall x, x < j -> out' !!! x = out !!! x).
Proof.
  revert i j out l. induction fuel as [|fuel IH]; intros i j out l Hl Hf Hj Hm; [lia|]. cbn [copy_while].
  rewrite (cstr_head _ _ _ Hl). assert (Hend : cstr_at (<[j := 0]> out) j [] /\ forall x, x < j -> <[j := 0]> out !!! x = out !!! x).
  { split; [apply cstr_nil, aget_eq | intros; apply aget_ne; lia]. }
  destruct l as [|c l]; cbn [hd].
  - cbn [Z.eqb negb andb]. assert (E : taken word [] = []) by by destruct word. rewrite E. split_and!; [cbn; lia | apply Hend..].
  - pose proof Hl as (Hc & Hc0 & Hl')%cstr_cons. rewrite (proj2 (Z.eqb_neq _ _) Hc0). cbn [negb andb]. cbn [length] in *.
    destruct (word && (c =? 32)) eqn:Ew; cbn [negb andb].
    + apply andb_prop in Ew as [-> Ew]. assert (E : taken true (c :: l) = []) by (cbn; by rewrite Ew). rewrite E.
      split_and!; [cbn; lia | apply Hend..].
    + destruct (Z.ltb_spec j (SHELL_LINE_MAX - 1)); [|lia].
      specialize (IH (i + 1) (j + 1) (<[j := c]> out) l Hl' ltac:(lia) ltac:(lia) ltac:(lia)).
      destruct (copy_while _ _ _ _ _ _) as [i' out']. destruct IH as (-> & H1 & H2).
      assert (E : taken word (c :: l) = c :: taken word l).
      { destruct word; [|done]. cbn [andb] in Ew. unfold taken. cbn [first_word]. rewrite Ew. by destruct (first_word l). }
      rewrite E. cbn [length]. split_and!; [lia | apply cstr_cons; split_and!; [|done|exact H1] |].
      * rewrite H2 by lia. apply aget_eq.
      * intros x Hx. rewrite H2 by lia. apply aget_ne. lia.
Qed.

Lemma cstr_drop buf i l (pre post : list Z) : l = pre ++ post -> cstr_at buf i l -> cstr_at buf (i + Z.of_nat (length pre)) post.
Proof.
  revert i l. induction pre as [|c pre IH]; intros i l -> H; [by rewrite Z.add_0_r|].
  apply cstr_cons in H as (_ & _ & H). replace (i + Z.of_nat (length (c :: pre))) with (i + 1 + Z.of_nat (length pre)) by (cbn [length]; lia).
  by eapply IH.
Qed.

Lemma shell_split_spec line cmd arg l : cstr_at line 0 l -> (length l <= 63)%nat ->
  let '(cmd', arg') := shell_split line cmd arg in
  cstr_at cmd' 0 (split_line l).1 /\ cstr_at arg' 0 (split_line l).2.
Proof.
  intros Hl Hn. unfold shell_split, split_line. pose proof (trim_short l) as Ht.
  destruct (skip_spaces_spec 64 0 line l Hl ltac:(lia)) as (i1 & -> & H1).
  pose proof (first_word_app (trim l)) as Ha. destruct (first_word (trim l)) as [w r] eqn:Ew. cbn [fst snd] in Ha.
  assert (Hlen : (length w + length r = length (trim l))%nat) by by rewrite <- Ha, length_app.
  pose proof (copy_while_spec 64 true i1 0 line cmd (trim l) H1 ltac:(lia) ltac:(lia) ltac:(unfold SHELL_LINE_MAX; lia)) as H2.
  destruct (copy_while 64 true i1 0 line cmd) as [i2 cmd']. unfold taken in H2. rewrite Ew in H2. cbn [fst] in H2.
  destruct H2 as (-> & Hcmd & _).
  pose proof (cstr_drop line i1 (trim l) w r (eq_sym Ha) H1) as H3. pose proof (trim_short r) as Htr.
  destruct (skip_spaces_spec 64 _ line r H3 ltac:(lia)) as (i3 & -> & H4).
  pose proof (copy_while_spec 64 false i3 0 line arg (trim r) H4 ltac:(lia) ltac:(lia) ltac:(unfold SHELL_LINE_MAX; lia)) as H5.
  destruct (copy_while 64 false i3 0 line arg) as [i4 arg']. cbn [fst snd]. split; [done | apply H5].
Qed.

(** ** Recognising a command *)

Fixpoint is_from (cmd : gmap Z Z) (i : Z) (cs : list Z) : bool :=
  match cs with
  | [] => cmd !!! i =? 0
  | c :: cs => if negb (cmd !!! i =? c) then false else if c =? 0 then true else is_from cmd (i + 1) cs
  end.

Lemma is_from_spec cmd i cs w : cstr_at cmd i w -> is_from cmd i cs = bool_decide (w = before_nul cs).
Proof.
  revert i w. induction cs as [|c cs IH]; intros i w Hw; cbn [is_from before_nul fold_right]; rewrite (cstr_head _ _ _ Hw).
  - destruct w as [|x w]; [done|]. apply cstr_cons in Hw as (_ & Hx & _). cbn. rewrite (proj2 (Z.eqb_neq _ _) Hx).
    symmetry. by apply bool_decide_eq_false.
  - fold (before_nul cs). destruct (Z.eqb_spec c 0) as [->|Hc].
    + destruct w as [|x w]; [done|]. apply cstr_cons in Hw as (_ & Hx & _). cbn [hd]. rewrite (proj2 (Z.eqb_neq _ _) Hx).
      symmetry. by apply bool_decide_eq_false.
    + destruct w as [|x w]; cbn [hd].
      * rewrite (proj2 (Z.eqb_neq 0 c)) by congruence. symmetry. by apply bool_decide_eq_false.
      * apply cstr_cons in Hw as (_ & _ & Hw). destruct (Z.eqb_spec x c) as [->|Hne]; cbn [negb].
        -- rewrite (IH _ w Hw). apply bool_decide_ext. split; congruence.
        -- symmetry. apply bool_decide_eq_false. congruence.
Qed.

Lemma shell_cmd_is_spec cmd w c0 c1 c2 c3 c4 c5 : cstr_at cmd 0 w ->
  shell_cmd_is cmd c0 c1 c2 c3 c4 c5 = bool_decide (w = before_nul [c0; c1; c2; c3; c4; c5]).
Proof. intros Hw. rewrite <- (is_from_spec cmd 0) by done. reflexivity. Qed.

(** ** Numbers *)

Fixpoint leading_int (l : list Z) (v : Z) : Z :=
  match l with c :: l => if is_digit c then leading_int l (int32 (v * 10 + (c - 48))) else v | [] => v end.

Lemma parse_int_spec fuel i v s l : cstr_at s i l -> (length l < fuel)%nat -> parse_int_from fuel i v s = leading_int l v.
Proof.
  revert i v l. induction fuel as [|fuel IH]; intros i v l Hl Hf; [lia|]. cbn [parse_int_from]. rewrite (cstr_head _ _ _ Hl).
  destruct l as [|c l]; cbn [hd leading_int]; [done|]. cbn [length] in Hf. apply cstr_cons in Hl as (_ & _ & Hl).
  destruct (is_digit c); [|done]. apply IH; [done | lia].
Qed.

Lemma leading_digits l v : Forall (fun ch => 48 <= ch <= 57) l -> 0 <= v ->
  fold_left (fun a ch => 10 * a + (ch - 48)) l v < 2 ^ 31 ->
  leading_int l v = fold_left (fun a ch => 10 * a + (ch - 48)) l v.
Proof.
  revert v. induction l as [|c l IH]; intros v Hd Hv Hlt; [done|]. apply List.Forall_cons_iff in Hd as [Hc Hd]. cbn [leading_int fold_left] in *.
  assert (Hge : forall l a, Forall (fun ch => 48 <= ch <= 57) l -> 0 <= a -> a <= fold_left (fun a ch => 10 * a + (ch - 48)) l a).
  { clear. induction l as [|c l IH]; intros a Hl Ha; cbn; [lia|]. apply List.Forall_cons_iff in Hl as [Hc Hl].
    specialize (IH (10 * a + (c - 48)) Hl ltac:(lia)). lia. }
  specialize (Hge l (10 * v + (c - 48)) Hd ltac:(lia)).
  assert (Ei : is_digit c = true) by (unfold is_digit; destruct (Z.leb_spec 48 c), (Z.leb_spec c 57); done || lia).
  rewrite Ei, int32_small by (unfold in_int32; lia). replace (v * 10) with (10 * v) by lia. apply IH; [done | lia | done].
Qed.

Lemma dec_text_digits n : Forall (fun ch => 48 <= ch <= 57) (dec_text n).
Proof.
  unfold dec_text. destruct (n =? 0); [by repeat constructor|]. rewrite dec_chars_digits.
  apply Forall_forall. intros ch Hch. apply (digits_range 20 n). by apply in_rev.
Qed.

(** A slot number as the shell prints it, typed back. *)
Lemma printed_number n : 0 <= n < 2 ^ 31 -> leading_int (dec_text n) 0 = n.
Proof.
  intros Hn. pose proof (dec_text_digits n) as Hd. unfold dec_text in *. destruct (Z.eqb_spec n 0) as [->|Hne]; [done|].
  rewrite dec_chars_digits in *.
  assert (Hp : parse_dec (rev (digits_le 20 n)) = n) by (apply parse_digits; change (10 ^ Z.of_nat 20) with 100000000000000000000; lia).
  unfold parse_dec in Hp. rewrite leading_digits; [done | done | lia | rewrite Hp; lia].
Qed.

(** ** What a line means *)

Inductive command :=
| CEmpty | CHelp | CClear | CEcho | CDate | CLs | CRun | CCount | CPipe | CJobs | CStop (slot : Z) | CKill (slot : Z)
| CExit | CUnknown.

Definition parse_line (l : list Z) : command :=
  let '(w, a) := split_line l in
  if bool_decide (w = []) then CEmpty
  else if bool_decide (w = bytes "help") then CHelp
  else if bool_decide (w = bytes "clear") then CClear
  else if bool_decide (w = bytes "echo") then CEcho
  else if bool_decide (w = bytes "date") then CDate
  else if bool_decide (w = bytes "ls") then CLs
  else if bool_decide (w = bytes "run") then CRun
  else if bool_decide (w = bytes "count") then CCount
  else if bool_decide (w = bytes "pipe") then CPipe
  else if bool_decide (w = bytes "jobs") then CJobs
  else if bool_decide (w = bytes "stop") then CStop (leading_int a 0)
  else if bool_decide (w = bytes "kill") then CKill (leading_int a 0)
  else if bool_decide (w = bytes "exit") then CExit
  else CUnknown.

(** What each command does; [arg] is the buffer with the rest of the line. *)
Definition perform (c : command) (arg : gmap Z Z) (job_slots : jobs) : proc jobs :=
  let keep (p : proc unit) : proc jobs := _ ← p; mret job_slots in
  match c with
  | CEmpty => mret job_slots
  | CHelp => keep (_ ← user_write (text_nl "Commands: help ls run <name> echo <text> date clear");
                   user_write (text_nl "          count pipe jobs stop <slot> kill <slot> exit"))
  | CClear => keep (user_write ([27] ++ bytes "[2J" ++ [27] ++ bytes "[1;1H" ++ [0]))
  | CEcho => keep (_ ← user_write (c_text arg); user_write [10; 0])
  | CDate => keep shell_date
  | CLs => keep list_names
  | CRun => shell_run arg job_slots
  | CCount => shell_count job_slots
  | CPipe => shell_pipe job_slots
  | CJobs => keep (shell_jobs job_slots)
  | CStop slot =>
      keep (rc ← user_send slot MSG_PLEASE_STOP 0;
            user_write (if rc =? 0 then text_nl "stop: graceful-stop message sent (target may or may not act on it)"
                        else text_nl "stop: could not send (no CAP_SEND for that slot, or it's dead)"))
  | CKill slot =>
      keep (rc ← user_terminate slot;
            user_write (if rc =? 0 then text_nl "kill: terminated" else text_nl "kill: failed (no CAP_TERMINATE, or already dead)"))
  | CExit => keep (_ ← user_write (text_nl "Shell exiting."); user_exit)
  | CUnknown => keep (user_write (text_nl "unknown command (try 'help')"))
  end.

Lemma split_line_short l : (length (split_line l).2 <= length l)%nat.
Proof.
  unfold split_line. pose proof (first_word_app (trim l)) as Ha. pose proof (trim_short l) as Ht.
  destruct (first_word (trim l)) as [w r]. cbn [fst snd] in *. pose proof (trim_short r). rewrite <- Ha, length_app in Ht. lia.
Qed.

Lemma dispatch cmd arg job_slots l : cstr_at cmd 0 (split_line l).1 -> cstr_at arg 0 (split_line l).2 -> (length l <= 63)%nat ->
  shell_command cmd arg job_slots = perform (parse_line l) arg job_slots.
Proof.
  intros Hc Ha Hl. pose proof (split_line_short l) as Hs. unfold shell_command, parse_line, shell_stop, shell_kill, shell_parse_int.
  destruct (split_line l) as [w a]. cbn [fst snd] in *.
  rewrite (parse_int_spec 64 0 0 arg a Ha) by lia.
  assert (E0 : (cmd !!! 0 =? 0) = bool_decide (w = [])) by (etransitivity; [exact (is_from_spec cmd 0 [] w Hc) | by apply bool_decide_ext]).
  rewrite E0, !(shell_cmd_is_spec _ w) by done.
  change (before_nul [104; 101; 108; 112; 0; 0]) with (bytes "help"). change (before_nul [99; 108; 101; 97; 114; 0]) with (bytes "clear").
  change (before_nul [101; 99; 104; 111; 0; 0]) with (bytes "echo"). change (before_nul [100; 97; 116; 101; 0; 0]) with (bytes "date").
  change (before_nul [108; 115; 0; 0; 0; 0]) with (bytes "ls"). change (before_nul [114; 117; 110; 0; 0; 0]) with (bytes "run").
  change (before_nul [99; 111; 117; 110; 116; 0]) with (bytes "count"). change (before_nul [112; 105; 112; 101; 0; 0]) with (bytes "pipe").
  change (before_nul [106; 111; 98; 115; 0; 0]) with (bytes "jobs"). change (before_nul [115; 116; 111; 112; 0; 0]) with (bytes "stop").
  change (before_nul [107; 105; 108; 108; 0; 0]) with (bytes "kill"). change (before_nul [101; 120; 105; 116; 0; 0]) with (bytes "exit").
  clear. repeat match goal with |- (if bool_decide ?P then _ else _) = _ => destruct (bool_decide P); [reflexivity|] end. reflexivity.
Qed.

(** ** The keyboard and the screen *)

(** Keys not yet read ([-1] for a poll that finds none), and what was printed. *)
Record tty := Tty { pending : list Z; shown : list Z }.
Definition tty_env (num : Z) (a1 a2 a3 : uarg) (s : tty) : (Z * list Z) * tty :=
  if num =? SYS_KEY_READ then
    match pending s with [] => ((u64 (-1), []), s) | c :: rest => ((u64 c, []), Tty rest (shown s)) end
  else match a1 with
       | In str => if num =? SYS_WRITE then ((0, []), Tty (pending s) (shown s ++ before_nul str)) else ((0, []), s)
       | _ => ((0, []), s)
       end.

Definition erase_key (c : Z) : bool := (c =? 8) || (c =? 127).
Definition enter_key (c : Z) : bool := (c =? 10) || (c =? 13).
Definition accepts (l : list Z) (c : Z) : bool := (Z.of_nat (length l) <? SHELL_LINE_MAX - 1) && (32 <=? c) && (c <? 127).

(** The line after a key, and the echo of the key. *)
Definition edit_key (l : list Z) (c : Z) : list Z :=
  if erase_key c then removelast l else if accepts l c then l ++ [c] else l.
Definition echo_key (l : list Z) (c : Z) : list Z :=
  if erase_key c then (if bool_decide (l = []) then [] else [8; 32; 8]) else if accepts l c then [c] else [].
Fixpoint edit (l : list Z) (ks : list Z) : list Z := match ks with [] => l | c :: ks => edit (edit_key l c) ks end.
Fixpoint echo (l : list Z) (ks : list Z) : list Z :=
  match ks with [] => [] | c :: ks => echo_key l c ++ echo (edit_key l c) ks end.

(** A line of the screen: the cells before the cursor and the cells from it on;
    byte 8 moves left, anything else overwrites the cell under the cursor. *)
Definition show_byte (d : list Z * list Z) (c : Z) : list Z * list Z :=
  let '(before, after) := d in
  if c =? 8 then (removelast before, match before with [] => after | _ => List.last before 32 :: after end)
  else (before ++ [c], tl after).

(** The array holds the characters typed so far. *)
Definition typed (buf : gmap Z Z) (l : list Z) : Prop :=
  (forall j, (j < length l)%nat -> buf !!! Z.of_nat j = nth j l 0) /\ Forall (fun ch => 32 <= ch < 127) l /\ (length l <= 63)%nat.

Lemma edit_typed buf l c : typed buf l ->
  typed (if accepts l c then <[Z.of_nat (length l) := c]> buf else buf) (if accepts l c then l ++ [c] else l).
Proof.
  intros (H1 & H2 & H3). destruct (accepts l c) eqn:E; [|done]. unfold accepts, SHELL_LINE_MAX in E. breflect. split_and!.
  - intros j Hj. rewrite length_app in Hj. cbn in Hj. destruct (decide (j = length l)) as [->|].
    + rewrite aget_eq, app_nth2, Nat.sub_diag by lia. done.
    + rewrite aget_ne, app_nth1 by lia. apply H1. lia.
  - apply Forall_app. split; [done|]. apply Forall_singleton. lia.
  - rewrite length_app. cbn. lia.
Qed.

Lemma removelast_snoc {A} (l : list A) x : removelast (l ++ [x]) = l.
Proof. rewrite removelast_app by done. cbn. apply app_nil_r. Qed.

Lemma erase_typed buf l : typed buf l -> typed buf (removelast l).
Proof.
  intros (H1 & H2 & H3). induction l as [|x l _] using rev_ind; [done|]. rewrite removelast_snoc.
  rewrite length_app in *. cbn in *. apply Forall_app in H2 as [H2 _]. split_and!; [|done|lia].
  intros j Hj. rewrite H1 by lia. by rewrite app_nth1.
Qed.

Lemma runs_key c ks out : in_int32 c -> runs tty_env user_key_read (Tty (c :: ks) out) c (Tty ks out).
Proof.
  intros Hc. unfold user_key_read, int_syscall. eapply runs_bind.
  - apply (runs_syscall _ _ _ _ _ _ (u64 c) [] (Tty ks out)). reflexivity.
  - rewrite int32_u64, int32_small by done. apply runs_mret.
Qed.

Lemma runs_write str ks out : runs tty_env (user_write str) (Tty ks out) tt (Tty ks (out ++ before_nul str)).
Proof. unfold user_write. eapply runs_bind; [|apply runs_mret]. by eapply (runs_syscall _ _ _ _ _ _ 0 []). Qed.

Lemma runs_yield ks out : runs tty_env user_yield (Tty ks out) tt (Tty ks out).
Proof. unfold user_yield. eapply runs_bind; [|apply runs_mret]. by eapply (runs_syscall _ _ _ _ _ _ 0 []). Qed.

(** One key that does not end the line. *)
Lemma key_turn c ks out l buf : in_int32 c -> enter_key c = false -> typed buf l ->
  exists buf', typed buf' (edit_key l c) /\
  runs tty_env (read_key (Z.of_nat (length l), buf)) (Tty (c :: ks) out)
       (inl (Z.of_nat (length (edit_key l c)), buf')) (Tty ks (out ++ echo_key l c)).
Proof.
  intros Hc He Ht. unfold enter_key in He. pose proof (edit_typed buf l c Ht) as Hacc. pose proof (erase_typed buf l Ht) as Her.
  exists (if erase_key c then buf else if accepts l c then <[Z.of_nat (length l) := c]> buf else buf). unfold edit_key, echo_key.
  split; [destruct (erase_key c); [done | exact Hacc]|]. unfold read_key. eapply runs_bind; [by apply runs_key|].
  rewrite He. destruct (Z.ltb_spec c 0) as [Hneg|Hpos].
  - assert (E1 : erase_key c = false) by (unfold erase_key; breflect; destruct (Z.eqb_spec c 8), (Z.eqb_spec c 127); done || lia).
    assert (E2 : accepts l c = false).
    { unfold accepts. rewrite (proj2 (Z.leb_gt 32 c)) by lia. by rewrite andb_false_r. }
    rewrite E1, E2, app_nil_r. eapply runs_bind; [apply runs_yield | apply runs_mret].
  - fold (erase_key c). destruct (erase_key c).
    + destruct l as [|x l] using rev_ind; [rewrite app_nil_r; apply runs_mret|]. clear IHl.
      rewrite removelast_snoc, length_app. cbn [length]. destruct (Z.ltb_spec 0 (Z.of_nat (length l + 1))); [|lia].
      rewrite (bool_decide_eq_false_2 (l ++ [x] = [])) by (by destruct l).
      replace (Z.of_nat (length l + 1) - 1) with (Z.of_nat (length l)) by lia.
      eapply runs_bind; [exact (runs_write [8; 32; 8; 0] ks out) | apply runs_mret].
    + fold (accepts l c). destruct (accepts l c) eqn:Ea; [|rewrite app_nil_r; apply runs_mret].
      rewrite length_app, Nat2Z.inj_add. eapply runs_bind; [|apply runs_mret].
      pose proof (runs_write [c; 0] ks out) as Hw. cbn [before_nul fold_right] in Hw.
      unfold accepts in Ea. breflect. rewrite (proj2 (Z.eqb_neq c 0)) in Hw by lia. exact Hw.
Qed.

Lemma typed_cstr buf l : typed buf l -> cstr_at (<[Z.of_nat (length l) := 0]> buf) 0 l.
Proof.
  intros (H1 & H2 & H3). split_and!.
  - intros j Hj. rewrite Z.add_0_l, aget_ne by lia. by apply H1.
  - by rewrite Z.add_0_l, aget_eq.
  - eapply List.Forall_impl; [|exact H2]. intros x Hx. cbn in Hx. lia.
Qed.

Lemma read_line_spec e ks rest out l buf :
  Forall (fun c => in_int32 c /\ enter_key c = false) ks -> enter_key e = true -> typed buf l ->
  exists buf', cstr_at buf' 0 (edit l ks) /\ typed buf' (edit l ks) /\
    runs tty_env (ITree.iter read_key (Z.of_nat (length l), buf)) (Tty (ks ++ e :: rest) out)
         (Z.of_nat (length (edit l ks)), buf') (Tty rest (out ++ echo l ks ++ [10])).
Proof.
  intros Hks He. revert l buf out. induction Hks as [|c ks [Hc Hn] _ IH]; intros l buf out Ht.
  - exists (<[Z.of_nat (length l) := 0]> buf). cbn [edit echo app]. split; [by apply typed_cstr|]. split.
    { destruct Ht as (H1 & H2 & H3). split_and!; try done. intros j Hj. rewrite aget_ne by lia. by apply H1. }
    apply runs_break. unfold read_key. eapply runs_bind.
    + apply runs_key. unfold enter_key in He. unfold in_int32. destruct (Z.eqb_spec e 10); [lia|]. destruct (Z.eqb_spec e 13); [lia | done].
    + assert (Hp : (e <? 0) = false) by (unfold enter_key in He; destruct (Z.eqb_spec e 10), (Z.eqb_spec e 13), (Z.ltb_spec e 0); done || lia).
      rewrite Hp. unfold enter_key in He. rewrite He. eapply runs_bind; [exact (runs_write [10; 0] rest out) | apply runs_mret].
  - destruct (key_turn c (ks ++ e :: rest) out l buf Hc Hn Ht) as (buf1 & H1 & R1).
    destruct (IH (edit_key l c) buf1 (out ++ echo_key l c) H1) as (buf2 & H2 & H3 & R2). exists buf2. split; [exact H2|].
    split; [exact H3|]. eapply runs_again; [exact R1|]. cbn [echo]. rewrite <- !app_assoc in R2. rewrite <- app_assoc. exact R2.
Qed.

(** The cells before the cursor are the line, the cells from it on are blank. *)
Definition shows (d : list Z * list Z) (l : list Z) : Prop := d.1 = l /\ Forall (fun ch => ch = 32) d.2.

Lemma show_left pre post c : c <> 8 -> show_byte (pre, post) c = (pre ++ [c], tl post).
Proof. intros Hc. unfold show_byte. by rewrite (proj2 (Z.eqb_neq c 8) Hc). Qed.

Lemma show_erase pre x post : show_byte (pre ++ [x], post) 8 = (pre, x :: post).
Proof. unfold show_byte. cbn [Z.eqb]. rewrite removelast_snoc, List.last_last. by destruct pre. Qed.

Lemma echo_key_shows d l c : shows d l -> shows (fold_left show_byte (echo_key l c) d) (edit_key l c).
Proof.
  intros [Hl Hb]. destruct d as [pre post]. cbn [fst snd] in *. subst pre. unfold echo_key, edit_key.
  destruct (erase_key c).
  - destruct l as [|x l] using rev_ind; [rewrite bool_decide_eq_true_2 by done; by split|]. clear IHl.
    rewrite (bool_decide_eq_false_2 (l ++ [x] = [])) by (by destruct l). rewrite removelast_snoc. cbn [fold_left].
    rewrite show_erase, show_left, show_erase by lia. split; [done|]. by constructor.
  - destruct (accepts l c) eqn:Ea; [|done]. unfold accepts in Ea. breflect. cbn [fold_left]. rewrite show_left by lia.
    split; [done|]. destruct post; [done|]. exact (List.Forall_inv_tail Hb).
Qed.

Lemma echo_shows d l ks : shows d l -> shows (fold_left show_byte (echo l ks) d) (edit l ks).
Proof.
  revert d l. induction ks as [|c ks IH]; intros d l Hd; [done|]. cbn [echo edit]. rewrite fold_left_app. by apply IH, echo_key_shows.
Qed.

(** ** Theorems *)

(** C18: the shell executes what the screen shows.  Whatever is typed before
    Enter (keys, erasures, polls that find nothing), the line is read in finitely
    many calls; it is the result of the edits, at most 63 characters; the echo
    leaves exactly it on the screen, before the cursor, with nothing after it;
    and the split and the chain of comparisons run the built-in that line names,
    with its number. *)
Theorem shell_obeys_the_line ks e rest out buf cmd arg job_slots :
  Forall (fun c => in_int32 c /\ enter_key c = false) ks -> enter_key e = true ->
  let l := edit [] ks in
  exists line, runs tty_env (shell_read_line buf) (Tty (ks ++ e :: rest) out) (Z.of_nat (length l), line)
                    (Tty rest (out ++ echo [] ks ++ [10])) /\
    (length l <= 63)%nat /\ shows (fold_left show_byte (echo [] ks) ([], [])) l /\
    let '(cmd, arg) := shell_split line cmd arg in
    cstr_at arg 0 (split_line l).2 /\ shell_command cmd arg job_slots = perform (parse_line l) arg job_slots.
Proof.
  intros Hks He l. assert (Ht : typed buf []) by (split_and!; [intros j Hj; cbn in Hj; lia | constructor | cbn; lia]).
  destruct (read_line_spec e ks rest out [] buf Hks He Ht) as (line & H1 & (_ & _ & H2) & R). exists line.
  split; [exact R|]. split; [exact H2|]. split; [by apply echo_shows; split|].
  pose proof (shell_split_spec line cmd arg l H1 H2) as Hs. destruct (shell_split line cmd arg) as [cmd' arg'].
  destruct Hs as [S1 S2]. split; [exact S2|]. by apply dispatch.
Qed.

(** "kil", a slip erased, "l 9", Enter. *)
Lemma shell_obeys_the_line_witness :
  edit [] [107; 105; 108; 120; 8; -1; 108; 32; 57] = bytes "kill 9" /\ parse_line (bytes "kill 9") = CKill 9 /\
  exists line, runs tty_env (shell_read_line ∅) (Tty ([107; 105; 108; 120; 8; -1; 108; 32; 57] ++ [10]) []) (6, line)
                    (Tty [] ([107; 105; 108; 120; 8; 32; 8; 108; 32; 57] ++ [10])).
Proof.
  split; [reflexivity|]. split; [reflexivity|].
  pose proof (shell_obeys_the_line [107; 105; 108; 120; 8; -1; 108; 32; 57] 10 [] [] ∅ ∅ ∅ []) as H. cbv zeta in H.
  destruct H as (line & R & _); [|reflexivity|].
  - repeat (apply List.Forall_cons; [split; [unfold in_int32; lia | reflexivity]|]). constructor.
  - exists line. exact R.
Defined.

(** The number the shell prints for a job is the number that stops it. *)
Lemma kill_names_the_slot n : 0 <= n < 2 ^ 31 -> parse_line (bytes "kill " ++ dec_text n) = CKill n.
Proof.
  intros Hn. pose proof (printed_number n Hn) as Hp. unfold parse_line.
  assert (E : split_line (bytes "kill " ++ dec_text n) = (bytes "kill", trim (dec_text n))) by reflexivity.
  rewrite E. cbn [bool_decide].
  assert (Et : trim (dec_text n) = dec_text n).
  { pose proof (dec_text_digits n) as Hd. destruct (dec_text n) as [|c l]; [done|]. apply List.Forall_inv in Hd. cbn [trim].
    destruct (Z.eqb_spec c 32); [lia | done]. }
  rewrite Et. cbn. by rewrite Hp.
Qed.

(** Past 2^31 the [int] overflows, which C leaves undefined; with the model's
    wrap-around another slot is named. *)
Lemma overflow_names_another_slot : parse_line (bytes "kill 4294967304") = CKill 8.
Proof. reflexivity. Qed.

(** An argument without digits names slot 0. *)
Lemma no_number_is_slot_zero : parse_line (bytes "kill shell") = CKill 0.
Proof. reflexivity. Qed.
