(* ===== verification/System.v ===== *)
(** * System: what the kernel promises its actors

    The abstract machine the actors of Demos.v and Shell.v run on: live slots,
    mailboxes as queues, capability tables as lists, labelled objects.  A step
    is one system call of one actor, and any actor that can run may be the next
    to take one, so a property of every run holds however the timer preempts.
    Simulation.v shows that the handler of Syscall.v implements [serve]. *)
From Stdlib Require Import String Ascii List.
From ITree Require Import Core.ITreeDefinition.
From S2P Require Import Prelude Paging Storage Actor Console Net Syscall Boot User Demos.

(** ** State *)

#[export] Instance message_eq_dec : EqDecision message.
Proof. solve_decision. Defined.

(** A live actor: the function it was spawned with, if another actor spawned
    it, the answers it has been given, latest first, and the rest of its
    program, which the first two determine. *)
Record process := Process { p_from : option user_fn; p_heard : list (Z * list Z); p_rest : proc unit }.

(** [procs] are the live actors whose programs are followed, [others] the live
    slots whose programs are not.  [caps_of] lists every capability table in the
    order its entries were made; [budget] is the quota less the spawns made,
    where it differs from the default; [labelled] gives an object's trust and
    contents. *)
Record system := System {
  procs : gmap Z process;
  others : list Z;
  mail : gmap Z (list message);
  caps_of : gmap Z (list capability);
  budget : gmap Z Z;
  labelled : gmap Z (Z * list Z);
  printed : gmap Z (list Z) }.

Definition set_alive p o s := System p o (mail s) (caps_of s) (budget s) (labelled s) (printed s).
Definition set_procs v s := set_alive v (others s) s.
Definition set_mail v s := System (procs s) (others s) v (caps_of s) (budget s) (labelled s) (printed s).
Definition set_caps_of v s := System (procs s) (others s) (mail s) v (budget s) (labelled s) (printed s).
Definition set_budget v s := System (procs s) (others s) (mail s) (caps_of s) v (labelled s) (printed s).
Definition set_labelled v s := System (procs s) (others s) (mail s) (caps_of s) (budget s) v (printed s).
Definition set_printed v s := System (procs s) (others s) (mail s) (caps_of s) (budget s) (labelled s) v.

Definition refusal : Z := u64 (-1).
Definition in_range (slot : Z) : bool := (0 <=? slot) && (slot <? MAX_ACTORS).
Definition alive (slot : Z) s : bool := bool_decide (is_Some (procs s !! slot)) || bool_decide (slot ∈ others s).
Definition box (slot : Z) s : list message := default [] (mail s !! slot).
Definition spawns_left (slot : Z) s : Z := default MAX_SPAWNS_PER_ACTOR (budget s !! slot).
Definition printed_by (slot : Z) s : list Z := default [] (printed s !! slot).
Definition say (slot : Z) (out : list Z) s : system := set_printed (<[slot := printed_by slot s ++ out]> (printed s)) s.

(** ** Programs *)

(** What a program does next: a call, or nothing any more. *)
Inductive next := Calls (num : Z) (a1 a2 a3 : uarg) (k : Z * list Z -> proc unit) | Ends | Busy.

Fixpoint upcoming (fuel : nat) (t : proc unit) : next :=
  match fuel with
  | O => Busy
  | S fuel =>
      match observe t with
      | RetF _ => Ends
      | TauF t => upcoming fuel t
      | VisF e k =>
          match e in userE X return (X -> proc unit) -> next with
          | HalSyscall num a1 a2 a3 => fun k => Calls num a1 a2 a3 k
          end k
      end
  end.

(** Output and yields are nobody else's business: a program runs through them,
    always answered 0, to its next call on shared state. *)
Fixpoint quiet (fuel : nat) (t : proc unit) (out : list Z) : list Z * proc unit :=
  match fuel with
  | O => (out, t)
  | S fuel =>
      match upcoming 8 t with
      | Calls num (In str) _ _ k => if num =? SYS_WRITE then quiet fuel (k (0, [])) (out ++ before_nul str) else (out, t)
      | Calls num _ _ _ k => if num =? SYS_YIELD then quiet fuel (k (0, [])) out else (out, t)
      | _ => (out, t)
      end
  end.
Definition quietly (t : proc unit) : list Z * proc unit := quiet 100 t [].

Definition answer (t : proc unit) (r : Z * list Z) : proc unit :=
  match upcoming 8 t with Calls _ _ _ _ k => k r | _ => t end.

(** [slot] runs [t] up to its next call.  A program that is over without an
    exit leaves its actor among the others. *)
Definition continue (slot : Z) (from : option user_fn) (heard : list (Z * list Z)) (t : proc unit) s : system :=
  let '(out, t) := quietly t in
  let s := match out with [] => s | _ => say slot out s end in
  match upcoming 8 t with
  | Ends => set_alive (delete slot (procs s)) (slot :: others s) s
  | _ => set_procs (<[slot := Process from heard t]> (procs s)) s
  end.

(** ** Capabilities *)

Definition table (slot : Z) s : list capability := default [] (caps_of s !! slot).
Definition allowed (slot op target : Z) s : bool := bool_decide (Capability op target ∈ table slot s).
Definition add_cap (slot op target : Z) s : Z * system :=
  if Z.of_nat (length (table slot s)) <? MAX_CAPS_PER_ACTOR
  then (0, set_caps_of (<[slot := table slot s ++ [Capability op target]]> (caps_of s)) s) else (refusal, s).

Definition room (slot : Z) s : bool := Z.of_nat (length (table slot s)) <? MAX_CAPS_PER_ACTOR.

(** Operation 0 marks a free entry and names no right: an actor with a free
    entry counts as holding it on target 0, and granting it changes nothing. *)
Definition do_grant (slot d op target : Z) s : Z * system :=
  if op =? 0 then (if in_range d && (target =? 0) && room slot s && room d s then 0 else refusal, s)
  else if in_range d && allowed slot op target s then add_cap d op target s else (refusal, s).

(** ** Messages *)

Definition do_send (slot d ty data : Z) s : Z * system :=
  if in_range d && allowed slot CAP_SEND d s && alive d s && (Z.of_nat (length (box d s)) <? MAILBOX_CAPACITY)
  then (0, set_mail (<[d := box d s ++ [Message ty slot data]]> (mail s)) s)
  else (refusal, s).

(** ** The life of an actor *)

Definition kill (slot : Z) s : system :=
  set_alive (delete slot (procs s)) (List.filter (fun i => negb (i =? slot)) (others s)) s.

(** The new occupant of a slot inherits nothing from the last one. *)
Definition occupy (child : Z) (f : user_fn) s : system :=
  continue child (Some f) [] (program_of f)
    (System (procs s) (others s) (delete child (mail s)) (delete child (caps_of s)) (delete child (budget s))
       (labelled s) (printed s)).

Definition free_slot s : option Z := scan (fun i => negb (alive i s)) 0 (Z.to_nat MAX_ACTORS).

Definition spend (slot : Z) s : system := set_budget (<[slot := spawns_left slot s - 1]> (budget s)) s.

(** The three capabilities between a child and its spawner, each made if there
    is room for it. *)
Definition relate (slot child : Z) s : system :=
  (add_cap child CAP_SEND slot (add_cap slot CAP_TERMINATE child (add_cap slot CAP_SEND child s).2).2).2.

Definition do_spawn (slot : Z) (f : user_fn) s : Z * system :=
  if allowed slot CAP_SPAWN 0 s && (0 <? spawns_left slot s) then
    match free_slot s with
    | Some child => (child, relate slot child (spend slot (occupy child f s)))
    | None => (refusal, s)
    end
  else (refusal, s).

Definition do_terminate (slot target : Z) s : Z * system :=
  if in_range target && negb (target =? slot) && allowed slot CAP_TERMINATE target s then (0, kill target s) else (refusal, s).

(** ** Objects *)

(** The bytes that come back are those the object has, up to the length asked
    for. *)
Definition do_read (slot id len : Z) s : Z * list Z :=
  match labelled s !! id with
  | Some (tr, data) =>
      if negb (allowed slot CAP_READ_OBJECT id s) || (tr =? OBJ_REJECTED) then (refusal, [])
      else let got := take (Z.to_nat len) data in (Z.of_nat (length got), got)
  | None => (refusal, [])
  end.

Definition set_object (id trust : Z) (data : list Z) s : system := set_labelled (<[id := (trust, data)]> (labelled s)) s.

(** Writing makes an object untrusted. *)
Definition do_write (slot id : Z) (mem : list Z) (len : Z) s : Z * system :=
  if allowed slot CAP_WRITE_OBJECT id s && bool_decide (is_Some (labelled s !! id)) && (len <=? OBJECT_MAX_BYTES)
  then (len, set_object id OBJ_UNTRUSTED (take (Z.to_nat len) mem) s) else (refusal, s).

(** A store that lost track of an object's contents. *)
Definition forget (id : Z) s : system := set_labelled (delete id (labelled s)) s.

Definition do_promote (slot id : Z) s : Z * system :=
  match labelled s !! id with
  | Some (tr, data) =>
      if negb (allowed slot CAP_PROMOTE_OBJECT 0 s) || (tr =? OBJ_TRUSTED) || (tr =? OBJ_REJECTED) then (refusal, s)
      else (tr + 1, set_object id (tr + 1) data s)
  | None => (refusal, s)
  end.

Definition do_reject (slot id : Z) s : Z * system :=
  match labelled s !! id with
  | Some (_, data) => if allowed slot CAP_PROMOTE_OBJECT 0 s then (0, set_object id OBJ_REJECTED data s) else (refusal, s)
  | None => (refusal, s)
  end.

(** ** System calls *)

(** One call by [slot]: [None] while a receive finds its mailbox empty, and for
    the call that ends the actor.  Calls the scenarios do not make are
    refused. *)
Definition serve (slot num : Z) (a1 a2 a3 : uarg) s : option ((Z * list Z) * system) :=
  let reply (r : Z * system) := Some ((r.1, []), r.2) in
  match a1, a2, a3 with
  | In str, _, _ =>
      if num =? SYS_WRITE
      then Some ((0, []), say slot (before_nul str) s)
      else Some ((refusal, []), s)
  | Fn f, _, _ => if num =? SYS_SPAWN then reply (do_spawn slot f s) else Some ((refusal, []), s)
  | Out _, _, _ =>
      if num =? SYS_RECEIVE then
        match box slot s with
        | [] => None
        | m :: rest => Some ((0, message_bytes m), set_mail (<[slot := rest]> (mail s)) s)
        end
      else Some ((refusal, []), s)
  | Val v, Out len, _ => if num =? SYS_OBJECT_READ then Some (do_read slot (int32 v) len s, s) else Some ((refusal, []), s)
  | Val v, In mem, Val len => if num =? SYS_OBJECT_WRITE then reply (do_write slot (int32 v) mem len s) else Some ((refusal, []), s)
  | Val v, Val w, Val x =>
      if num =? SYS_SEND then reply (do_send slot (int32 v) w x s)
      else if num =? SYS_GRANT then reply (do_grant slot (int32 v) (int32 w) (int32 x) s)
      else if num =? SYS_TERMINATE then reply (do_terminate slot (int32 v) s)
      else if num =? SYS_OBJECT_PROMOTE then reply (do_promote slot (int32 v) s)
      else if num =? SYS_OBJECT_REJECT then reply (do_reject slot (int32 v) s)
      else if num =? SYS_YIELD then Some ((0, []), s)
      else if num =? SYS_EXIT then None
      else Some ((refusal, []), s)
  | _, _, _ => Some ((refusal, []), s)
  end.

(** ** Steps *)

(** [None]: the actor is gone, or waits for a message. *)
Definition step (slot : Z) (s : system) : option system :=
  p ← procs s !! slot;
  match upcoming 8 (p_rest p) with
  | Calls num a1 a2 a3 k =>
      if num =? SYS_EXIT then Some (kill slot s)
      else '(r, s) ← serve slot num a1 a2 a3 s; Some (continue slot (p_from p) (r :: p_heard p) (k r) s)
  | _ => None
  end.

Definition launch (slot : Z) (t : proc unit) (s : system) : system := continue slot None [] t s.

(** Any actor that can run may be the next to run. *)
Definition pstep (s s' : system) : Prop := exists slot, 0 <= slot < MAX_ACTORS /\ step slot s = Some s'.
Definition stopped (s : system) : Prop := forall s', ~ pstep s s'.

(** [I] holds all along, every run ends, and it ends in [P]. *)
Definition always_ends (I P : system -> Prop) (s : system) : Prop :=
  forall s', rtc pstep s s' -> I s' /\ (stopped s' -> P s') /\ exists s'', rtc pstep s' s'' /\ stopped s'' /\ P s''.
Definition bounded (n : nat) (s : system) : Prop := forall m s', nsteps pstep m s s' -> (m < n)%nat.

(** ** Exploration *)

Definition outcomes (s : system) : list system := omap (fun i => step i s) (seqZ 0 MAX_ACTORS).

(** Two states are the same when everything but the programs is: a program is
    determined by its beginning and the answers it was given. *)
Definition key (s : system) : gmap Z (option user_fn * list (Z * list Z)) := (fun p => (p_from p, p_heard p)) <$> procs s.
Definition same (s s' : system) : bool :=
  if negb (bool_decide (key s = key s')) then false
  else if negb (bool_decide (mail s = mail s')) then false
  else if negb (bool_decide (others s = others s')) then false
  else if negb (bool_decide (caps_of s = caps_of s')) then false
  else if negb (bool_decide (budget s = budget s')) then false
  else if negb (bool_decide (labelled s = labelled s')) then false
  else bool_decide (printed s = printed s').

Fixpoint distinct (l : list system) : list system :=
  match l with
  | [] => []
  | s :: l => let l := distinct l in if existsb (same s) l then l else s :: l
  end.

(** The states reached after one step more, layer by layer. *)
Fixpoint layers (fuel : nat) (I P : system -> bool) (front : list system) : bool :=
  match front with
  | [] => true
  | _ =>
      match fuel with
      | O => false
      | S fuel =>
          forallb (fun s => I s && match outcomes s with [] => P s | _ => true end) front &&
          layers fuel I P (distinct (flat_map outcomes front))
      end
  end.

(** ** Why the exploration covers every run *)

Section coverage.
#[local] Opaque quietly upcoming program_of.
(** The programs the scenario started with. *)
Context (origin : Z -> proc unit).

Definition replay (t : proc unit) (heard : list (Z * list Z)) : proc unit :=
  fold_right (fun r t => (quietly (answer t r)).2) (quietly t).2 heard.
Definition beginning (slot : Z) (from : option user_fn) : proc unit :=
  match from with Some f => program_of f | None => origin slot end.
Definition coherent (s : system) : Prop :=
  forall slot p, procs s !! slot = Some p -> p_rest p = replay (beginning slot (p_from p)) (p_heard p).

Lemma coherent_procs s s' : procs s' = procs s -> coherent s -> coherent s'.
Proof. unfold coherent. by intros ->. Qed.

Lemma coherent_delete s s' slot : procs s' = delete slot (procs s) -> coherent s -> coherent s'.
Proof. intros E H i p. rewrite E. intros [_ Hp]%lookup_delete_Some. by apply H. Qed.

Lemma continue_coherent slot from heard t s :
  coherent s -> (quietly t).2 = replay (beginning slot from) heard -> coherent (continue slot from heard t s).
Proof.
  intros H. unfold continue. destruct (quietly t) as [out t'] eqn:E. cbn [snd]. intros Ht.
  set (s0 := match out with [] => s | _ => say slot out s end).
  assert (E0 : procs s0 = procs s) by (unfold s0; by destruct out).
  assert (Hin : coherent (set_procs (<[slot := Process from heard t']> (procs s0)) s0)).
  { rewrite E0. intros i p. cbn [procs set_procs set_alive]. intros [[-> <-]|[_ Hp]]%lookup_insert_Some; [exact Ht | by apply H]. }
  destruct (upcoming 8 t'); [exact Hin| |exact Hin]. apply (coherent_delete s0 _ slot); [done|]. by apply (coherent_procs s).
Qed.

Lemma add_cap_procs slot op target s : procs (add_cap slot op target s).2 = procs s.
Proof. unfold add_cap. by destruct (_ <? _). Qed.

Lemma add_cap_coherent slot op target s : coherent s -> coherent (add_cap slot op target s).2.
Proof. apply coherent_procs, add_cap_procs. Qed.

Lemma spend_coherent slot s : coherent s -> coherent (spend slot s).
Proof. by apply coherent_procs. Qed.

Lemma relate_coherent slot child s : coherent s -> coherent (relate slot child s).
Proof. intros H. unfold relate. by do 3 apply add_cap_coherent. Qed.

Lemma occupy_coherent child f s : coherent s -> coherent (occupy child f s).
Proof. intros H. apply continue_coherent; [exact H | reflexivity]. Qed.

Lemma do_spawn_coherent slot f s : coherent s -> coherent (do_spawn slot f s).2.
Proof.
  intros H. unfold do_spawn. destruct (allowed _ _ _ _ && _); [|done]. destruct (free_slot s) as [child|]; [|done].
  cbn [snd]. by apply relate_coherent, spend_coherent, occupy_coherent.
Qed.

Lemma kill_coherent slot s : coherent s -> coherent (kill slot s).
Proof. exact (coherent_delete s (kill slot s) slot eq_refl). Qed.

(** Apart from spawning and terminating, no call touches the live actors. *)
Lemma do_send_procs slot d ty x s : procs (do_send slot d ty x s).2 = procs s.
Proof. unfold do_send. by destruct (_ && _). Qed.
Lemma do_grant_procs slot d o t s : procs (do_grant slot d o t s).2 = procs s.
Proof. unfold do_grant. destruct (o =? 0); [done|]. destruct (_ && _); [apply add_cap_procs | done]. Qed.
Lemma do_write_procs slot i m n s : procs (do_write slot i m n s).2 = procs s.
Proof. unfold do_write. by destruct (_ && _). Qed.
Lemma do_promote_procs slot i s : procs (do_promote slot i s).2 = procs s.
Proof. unfold do_promote. destruct (labelled s !! i) as [[tr data]|]; [|done]. by destruct (_ || _). Qed.
Lemma do_reject_procs slot i s : procs (do_reject slot i s).2 = procs s.
Proof. unfold do_reject. destruct (labelled s !! i) as [[tr data]|]; [|done]. by destruct (allowed _ _ _ _). Qed.

Lemma do_terminate_coherent slot t s : coherent s -> coherent (do_terminate slot t s).2.
Proof. intros H. unfold do_terminate. destruct (_ && _); [by apply kill_coherent | done]. Qed.

Lemma serve_coherent slot num a1 a2 a3 s r s' :
  serve slot num a1 a2 a3 s = Some (r, s') -> coherent s -> coherent s'.
Proof.
  unfold serve. cbv zeta. intros E H. revert E.
  destruct a1 as [v|f|str|n]; [destruct a2 as [w|g|mem|len]; [destruct a3 as [x| | |]| |destruct a3 as [x| | |]|]| | |];
    repeat (match goal with |- context [num =? ?n] => destruct (num =? n) end);
    try destruct (box slot s); intros E; try discriminate E; injection E as _ <-; try exact H;
    first [ by apply do_spawn_coherent | by apply do_terminate_coherent | apply (coherent_procs s); [|exact H] ];
    first [ apply do_send_procs | apply do_grant_procs | apply do_write_procs | apply do_promote_procs
          | apply do_reject_procs | reflexivity ].
Qed.

Lemma step_coherent slot s s' : step slot s = Some s' -> coherent s -> coherent s'.
Proof.
  unfold step. destruct (procs s !! slot) as [p|] eqn:Ep; [|done]. cbn [mbind option_bind].
  destruct (upcoming 8 (p_rest p)) as [num a1 a2 a3 k| |] eqn:Eu; [|done|done]. intros E H. revert E.
  destruct (num =? SYS_EXIT); [intros [= <-]; by apply kill_coherent|].
  destruct (serve slot num a1 a2 a3 s) as [[r s1]|] eqn:Es; [|done]. cbn [mbind option_bind]. intros [= <-].
  apply continue_coherent; [by eapply serve_coherent|].
  unfold replay. cbn [fold_right]. change (fold_right _ _ (p_heard p)) with (replay (beginning slot (p_from p)) (p_heard p)).
  rewrite <- (H _ _ Ep). unfold answer. by rewrite Eu.
Qed.

Lemma same_eq s s' : coherent s -> coherent s' -> same s s' = true -> s = s'.
Proof.
  intros H H'. unfold same. repeat (case_bool_decide; cbn [negb]; [|done]). intros _.
  assert (Hp : procs s = procs s').
  { apply map_eq. intros i. assert (Hk : key s !! i = key s' !! i) by congruence. unfold key in Hk. rewrite !lookup_fmap in Hk.
    destruct (procs s !! i) as [[f h t]|] eqn:E, (procs s' !! i) as [[f' h' t']|] eqn:E'; try discriminate Hk; [|done].
    injection Hk as <- <-. pose proof (H _ _ E) as Ht. pose proof (H' _ _ E') as Ht'. cbn in Ht, Ht'. by rewrite Ht, Ht'. }
  destruct s, s'. cbn in *. by subst.
Qed.

Lemma distinct_sub l (s : system) : s ∈ distinct l -> s ∈ l.
Proof.
  induction l as [|x l IH]; cbn [distinct]; [done|]. destruct (existsb _ _).
  - intros Hz. right. by apply IH.
  - intros [->|Hz]%elem_of_cons; [by left | right; by apply IH].
Qed.

Lemma distinct_keeps l s : Forall coherent l -> s ∈ l -> s ∈ distinct l.
Proof.
  induction l as [|x l IH]; intros Hc Hs; [done|]. apply List.Forall_cons_iff in Hc as [Hx Hc]. cbn [distinct].
  apply elem_of_cons in Hs as [->|Hs].
  - destruct (existsb (same x) (distinct l)) eqn:E; [|by left]. apply existsb_exists in E as (y & Hy & Hsame).
    apply list_elem_of_In in Hy. rewrite (same_eq x y); [done|done| |done].
    rewrite List.Forall_forall in Hc. by apply Hc, list_elem_of_In, distinct_sub.
  - destruct (existsb (same x) (distinct l)); [|right]; by apply IH.
Qed.

(** ** Soundness of the exploration *)

Lemma outcomes_spec s s' : pstep s s' <-> s' ∈ outcomes s.
Proof.
  unfold outcomes, pstep. rewrite list_elem_of_omap. split; intros (i & Hi & E); exists i; (split; [|exact E]).
  - apply elem_of_seqZ. lia.
  - apply elem_of_seqZ in Hi. lia.
Qed.

Lemma stopped_spec s : stopped s <-> outcomes s = [].
Proof.
  unfold stopped. split.
  - intros H. destruct (outcomes s) as [|s' l] eqn:E; [done|]. destruct (H s'). apply outcomes_spec. rewrite E. by left.
  - intros E s' H. apply outcomes_spec in H. rewrite E in H. by apply elem_of_nil in H.
Qed.

(** [s] is in a layer the exploration has gone through. *)
Definition explored (fuel : nat) (I P : system -> bool) (s : system) : Prop :=
  exists front, s ∈ front /\ Forall coherent front /\ layers fuel I P front = true.

Lemma explored_here fuel I P s : explored fuel I P s ->
  (0 < fuel)%nat /\ I s = true /\ (stopped s -> P s = true).
Proof.
  intros (front & Hs & Hc & He). destruct fuel as [|fuel].
  { destruct front; [by apply elem_of_nil in Hs | discriminate He]. }
  destruct front as [|x front]; [by apply elem_of_nil in Hs|]. cbn [layers] in He. apply andb_prop in He as [He _].
  rewrite forallb_forall in He. specialize (He s (proj1 (list_elem_of_In _ _) Hs)). apply andb_prop in He as [HI HP].
  split; [lia|]. split; [exact HI|]. intros Hst%stopped_spec. by rewrite Hst in HP.
Qed.

Lemma explored_step fuel I P s s' : explored fuel I P s -> pstep s s' -> explored (Nat.pred fuel) I P s'.
Proof.
  intros (front & Hs & Hc & He) Hp. destruct fuel as [|fuel].
  { destruct front; [by apply elem_of_nil in Hs | discriminate He]. }
  destruct front as [|x front]; [by apply elem_of_nil in Hs|]. cbn [layers] in He. apply andb_prop in He as [_ He].
  remember (x :: front) as l eqn:El. cbn [Nat.pred].
  assert (Hall : Forall coherent (flat_map outcomes l)).
  { apply List.Forall_forall. intros y Hy%in_flat_map. destruct Hy as (z & Hz & Hy). rewrite List.Forall_forall in Hc.
    apply list_elem_of_In, outcomes_spec in Hy as (i & _ & Hi). by eapply step_coherent; [exact Hi | apply Hc]. }
  exists (distinct (flat_map outcomes l)). split_and!; [|apply List.Forall_forall|exact He].
  - apply distinct_keeps; [exact Hall|]. apply list_elem_of_In, in_flat_map. exists s.
    split; [by apply list_elem_of_In | by apply list_elem_of_In, outcomes_spec].
  - intros y Hy%list_elem_of_In%distinct_sub%list_elem_of_In. rewrite List.Forall_forall in Hall. by apply Hall.
Qed.

Lemma explored_reach fuel I P s s' : explored fuel I P s -> rtc pstep s s' -> exists fuel', explored fuel' I P s'.
Proof.
  intros He Hr. revert fuel He. induction Hr as [s|s s1 s2 Hs _ IH]; intros fuel He; [by exists fuel|].
  exact (IH _ (explored_step _ _ _ _ _ He Hs)).
Qed.

Lemma explored_ends fuel I P s : explored fuel I P s -> exists s', rtc pstep s s' /\ stopped s' /\ P s' = true.
Proof.
  revert s. induction fuel as [|fuel IH]; intros s He; pose proof (explored_here _ _ _ _ He) as (Hf & _ & HP); [lia|].
  destruct (outcomes s) as [|x l] eqn:E.
  - exists s. apply stopped_spec in E. auto using rtc_refl.
  - assert (Hx : pstep s x) by (apply outcomes_spec; rewrite E; by left).
    destruct (IH x (explored_step _ _ _ _ _ He Hx)) as (s' & Hr & Hs). exists s'. split; [by eapply rtc_l | exact Hs].
Qed.

Lemma explored_bounded fuel I P s : explored fuel I P s -> bounded fuel s.
Proof.
  intros He m. revert fuel s He. induction m as [|m IH]; intros fuel s He s' Hm;
    pose proof (explored_here _ _ _ _ He) as (Hf & _ & _); [lia|].
  inversion Hm as [|? ? s1 ? Hs Hm' E1 E2]; subst. pose proof (IH _ s1 (explored_step _ _ _ _ _ He Hs) s' Hm'). lia.
Qed.

Lemma layers_sound fuel (I P : system -> Prop) `{!forall s, Decision (I s)} `{!forall s, Decision (P s)} s :
  coherent s -> layers fuel (fun s => bool_decide (I s)) (fun s => bool_decide (P s)) [s] = true ->
  always_ends I P s /\ bounded fuel s.
Proof.
  intros Hc He. assert (Hex : explored fuel (fun s => bool_decide (I s)) (fun s => bool_decide (P s)) s).
  { exists [s]. split_and!; [by left | by repeat constructor | exact He]. }
  split; [|exact (explored_bounded _ _ _ _ Hex)]. intros s' Hr. destruct (explored_reach _ _ _ _ _ Hex Hr) as (n & Hn).
  pose proof (explored_here _ _ _ _ Hn) as (_ & HI & HP). destruct (explored_ends _ _ _ _ Hn) as (s2 & Hr2 & Hs2 & HP2).
  apply bool_decide_eq_true in HI, HP2. split_and!; [exact HI | |by exists s2].
  intros Hs. exact (proj1 (bool_decide_eq_true (P s')) (HP Hs)).
Qed.

Lemma launch_coherent slot t s : origin slot = t -> coherent s -> coherent (launch slot t s).
Proof. intros E H. apply continue_coherent; [exact H|]. unfold replay, beginning. by rewrite E. Qed.
End coverage.
