(* ===== verification/Outcomes.v ===== *)
(** * Outcomes: the demo actors together

    The scenarios of [core/main.c] on the abstract machine of System.v, from the
    capabilities of the boot sequence: every interleaving of the actors' system
    calls is explored, with all the other boot actors still alive (the state
    Handover.v proves the boot to start in), with all of them but the four
    scheduling demos, and with none.  Who is alive besides matters for the slots
    that spawning finds. *)
From Stdlib Require Import String Ascii List.
From ITree Require Import Core.ITreeDefinition.
From S2P Require Import Prelude Paging Storage Actor Console Net Syscall Boot User Demos Shell System.

(** ** Scenes *)

Definition boot_labels : gmap Z (Z * list Z) :=
  {[PAYLOAD_OBJECT_ID := (OBJ_UNTRUSTED, []); SUSPICIOUS_OBJECT_ID := (OBJ_UNTRUSTED, [])]}.
Definition boot_caps : gmap Z (list capability) :=
  fold_left (fun m '(slot, op, target) => <[slot := default [] (m !! slot) ++ [Capability op target]]> m) boot_grants ∅.

(** The machine as [kernel_main] leaves it, with the slots [busy] taken by actors
    whose programs are not followed. *)
Definition boot_system (busy : list Z) : system := System ∅ busy ∅ boot_caps {[SHELL_SLOT := 6]} boot_labels ∅.

(** Some of its actors, run up to their first calls. *)
Definition enter_scene (s : system) (c : Z * proc unit) : system := launch c.1 c.2 s.
Definition scene (cast : list (Z * proc unit)) (busy : list Z) : system := fold_left enter_scene cast (boot_system busy).

(** The slots of the other boot actors: all of them still alive, all but the
    four scheduling demos, or none. *)
Definition besides (cast : list (Z * proc unit)) (first : Z) : list Z :=
  List.filter (fun i => negb (existsb (Z.eqb i) (map fst cast))) (seqZ first (15 - first)).
Definition bystanders (cast : list (Z * proc unit)) : list (list Z) := [besides cast 0; besides cast 4; []].

Definition origin_in (cast : list (Z * proc unit)) (slot : Z) : proc unit :=
  match List.find (fun c => c.1 =? slot) cast with Some (_, t) => t | None => mret tt end.

Lemma fold_keeps {A B} (f : A -> B -> A) (Q : A -> Prop) (R : B -> Prop) l a :
  (forall a b, Q a -> R b -> Q (f a b)) -> Forall R l -> Q a -> Q (fold_left f l a).
Proof.
  intros Hf H. revert a. induction H as [|b l Hb H IH]; intros a Ha; [exact Ha|]. cbn [fold_left]. by apply IH, Hf.
Qed.

Lemma scene_coherent cast busy : Forall (fun c => origin_in cast c.1 = c.2) cast -> coherent (origin_in cast) (scene cast busy).
Proof.
  intros H. refine (fold_keeps enter_scene (coherent (origin_in cast)) _ cast (boot_system busy) _ H _).
  - intros s c Hs Hc. exact (launch_coherent _ _ _ _ Hc Hs).
  - intros i p E. discriminate E.
Qed.

(** Every run of a scene, explored by computation. *)
Definition explores (n : nat) (cast : list (Z * proc unit)) (I P : system -> bool) : bool :=
  forallb (fun busy => layers n I P [scene cast busy]) (bystanders cast).

Lemma explores_sound n cast (I P : system -> Prop) `{!forall s, Decision (I s)} `{!forall s, Decision (P s)} :
  Forall (fun c => origin_in cast c.1 = c.2) cast ->
  explores n cast (fun s => bool_decide (I s)) (fun s => bool_decide (P s)) = true ->
  Forall (fun busy => always_ends I P (scene cast busy) /\ bounded n (scene cast busy)) (bystanders cast).
Proof.
  intros Hc He. apply List.Forall_forall. intros busy Hb.
  refine (layers_sound (origin_in cast) n I P _ (scene_coherent cast busy Hc) _).
  unfold explores in He. rewrite forallb_forall in He. by apply He.
Qed.

Ltac explored := refine (explores_sound _ _ _ _ _ _); [repeat constructor | vm_compute; reflexivity].

(** ** The storage pipeline *)

Definition pipeline : list (Z * proc unit) :=
  [(DOWNLOADER_SLOT, actor_downloader); (SCANNER_SLOT, actor_scanner); (READER_SLOT, actor_reader)].

Definition gone (s : system) : Prop := size (procs s) = 0%nat.
Definition said (slot : Z) (l : list Z) (s : system) : Prop := printed s !! slot = Some l.

(** The suspicious object never carries a label that a reader could rely on. *)
Definition label_of (id : Z) (s : system) : option Z := fst <$> labelled s !! id.
Definition marked_never_promoted (s : system) : Prop :=
  label_of SUSPICIOUS_OBJECT_ID s = Some OBJ_UNTRUSTED \/ label_of SUSPICIOUS_OBJECT_ID s = Some OBJ_REJECTED.
Definition pipeline_done (s : system) : Prop :=
  gone s /\ labelled s !! PAYLOAD_OBJECT_ID = Some (OBJ_TRUSTED, text "hello from disk!") /\
  labelled s !! SUSPICIOUS_OBJECT_ID = Some (OBJ_REJECTED, bytes "BADSTUFF payload") /\
  said READER_SLOT (bytes "[Reader] object 0: trusted content " ++ [34] ++ bytes "hello from disk!" ++ [34; 10] ++
    bytes "[Reader] object 1: read refused (rejected -- capability alone wasn't enough)" ++ [10]) s.

#[local] Instance marked_dec s : Decision (marked_never_promoted s) := ltac:(unfold marked_never_promoted; solve_decision).
#[local] Instance pipeline_dec s : Decision (pipeline_done s) := ltac:(unfold pipeline_done, gone, said; solve_decision).

(** C10: the storage pipeline's outcome does not depend on the schedule.  With
    the capabilities of [boot_grants], any of the three companies of bystanders
    and any interleaving of Downloader,
    Scanner, Reader and the two inspectors, every run comes to an end within 40
    steps, with nobody left waiting; the payload is trusted and is what Reader
    prints, the suspicious object is rejected and its read refused, and at no
    moment does the suspicious object carry any other label than untrusted or
    rejected. *)
Theorem storage_pipeline_outcome: Forall (fun busy =>
  always_ends marked_never_promoted pipeline_done (scene pipeline busy) /\ bounded 40 (scene pipeline busy)) (bystanders pipeline).
Proof. explored. Qed.

(** ** Ghost actors *)

Definition ghosts : list (Z * proc unit) := [(COORDINATOR_SLOT, actor_coordinator)].
Definition coordinator_done (s : system) : Prop :=
  gone s /\
  said COORDINATOR_SLOT (bytes "[Coordinator] spawning Worker 1..." ++ [10] ++
    bytes "[Coordinator] sending Worker 1 a task" ++ [10] ++
    bytes "[Coordinator] Worker 1 replied: 49 (7 squared; it will now exit on its own)" ++ [10] ++
    bytes "[Coordinator] spawning Worker 2..." ++ [10] ++
    bytes "[Coordinator] sending Worker 2 a task, then terminating it directly" ++ [10] ++
    bytes "[Coordinator] Worker 2 terminated" ++ [10] ++
    bytes "[Coordinator] attempting a 3rd spawn (quota is 2 per actor)..." ++ [10] ++
    bytes "[Coordinator] denied, as expected (spawn quota exceeded)" ++ [10] ++
    bytes "[Coordinator] exiting" ++ [10]) s.
#[local] Instance coordinator_dec s : Decision (coordinator_done s) := ltac:(unfold coordinator_done, gone, said; solve_decision).

(** the coordinator's transcript is the same in every interleaving with its
    two workers: the first one answers 49, the second is terminated whether or
    not it had answered, the third spawn is over the quota. *)
Theorem coordinator_outcome: Forall (fun busy =>
  always_ends (fun _ => True) coordinator_done (scene ghosts busy) /\ bounded 16 (scene ghosts busy)) (bystanders ghosts).
Proof. explored. Qed.

(** ** The shell's pipe *)

Definition pipe_done (s : system) : Prop :=
  gone s /\ Exists (fun slot => printed_by slot s = bytes "[Pipe] sink received 5 values, sum = 15" ++ [10])
              (seqZ 0 MAX_ACTORS).
#[local] Instance pipe_dec s : Decision (pipe_done s) := ltac:(unfold pipe_done, gone; solve_decision).

Definition piped : list (Z * proc unit) := [(SHELL_SLOT, _ ← shell_pipe []; mret tt)].

(** C37: the shell's [pipe] always delivers: however the shell, the source and
    the sink interleave, the capability the shell delegates arrives before it
    is needed, the mailbox never overflows, and the sink sums all five values. *)
Theorem pipe_outcome: Forall (fun busy =>
  always_ends (fun _ => True) pipe_done (scene piped busy) /\ bounded 20 (scene piped busy)) (bystanders piped).
Proof. explored. Qed.

(** ** The intruder *)

Fixpoint starts (p l : list Z) : bool :=
  match p, l with [], _ => true | a :: p, b :: l => (a =? b) && starts p l | _, _ => false end.
Fixpoint mentions (p l : list Z) : bool := starts p l || match l with [] => false | _ :: l => mentions p l end.

Definition mailbox_trio : list (Z * proc unit) :=
  [(MAILBOX_RECEIVER_SLOT, actor_mailbox_receiver); (MAILBOX_SENDER_SLOT, actor_mailbox_sender);
   (INTRUDER_SLOT, actor_intruder)].

(** Sender has been told that its grant was made: it sends, it grants and it
    exits, and both answers so far are 0, or it is gone. *)
Definition delegated (s : system) : bool :=
  match procs s !! MAILBOX_SENDER_SLOT with
  | Some p => bool_decide (p_heard p = [(0, []); (0, [])])
  | None => true
  end.

(** The intruder's whole authority is the one capability Sender delegates, from
    then on; it reaches Receiver only with it, and nothing else it tries
    succeeds. *)
Definition intruder_confined (s : system) : Prop :=
  table INTRUDER_SLOT s = (if delegated s then [Capability CAP_SEND MAILBOX_RECEIVER_SLOT] else []) /\
  (existsb (fun m => m_sender m =? INTRUDER_SLOT) (box MAILBOX_RECEIVER_SLOT s) ||
     mentions (bytes "sender=6") (printed_by MAILBOX_RECEIVER_SLOT s) = true ->
   allowed INTRUDER_SLOT CAP_SEND MAILBOX_RECEIVER_SLOT s = true) /\
  dom (procs s) ⊆ {[MAILBOX_RECEIVER_SLOT; MAILBOX_SENDER_SLOT; INTRUDER_SLOT]} /\ labelled s = boot_labels.
Definition intruder_failed (s : system) : Prop :=
  dom (procs s) ⊆ {[MAILBOX_RECEIVER_SLOT]} /\
  mentions (bytes "FAILURE: spawn") (printed_by INTRUDER_SLOT s) = false /\
  mentions (bytes "FAILURE: terminate") (printed_by INTRUDER_SLOT s) = false /\
  mentions (bytes "FAILURE: object") (printed_by INTRUDER_SLOT s) = false.
#[local] Instance confined_dec s : Decision (intruder_confined s) := ltac:(unfold intruder_confined; solve_decision).
#[local] Instance failed_dec s : Decision (intruder_failed s) := ltac:(unfold intruder_failed; solve_decision).

(** C12: the intruder is confined in every interleaving.  Until Sender has
    delegated its capability the intruder's capability table is empty, and from
    then on it holds exactly that one; Receiver hears from it only when it holds
    it; its attempts to spawn, to terminate and to read, overwrite or promote the
    payload all fail; and every run ends, with nobody but Receiver possibly still
    waiting. *)
Theorem intruder_is_confined: Forall (fun busy =>
  always_ends intruder_confined intruder_failed (scene mailbox_trio busy) /\ bounded 16 (scene mailbox_trio busy)) (bystanders mailbox_trio).
Proof. explored. Qed.

(** ** Schedules the comments do not foresee *)

Fixpoint follow (schedule : list Z) (s : system) : option system :=
  match schedule with [] => Some s | i :: schedule => s ← step i s; follow schedule s end.

Lemma follow_reach schedule s s' : forallb (fun i => (0 <=? i) && (i <? MAX_ACTORS)) schedule = true ->
  follow schedule s = Some s' -> rtc pstep s s'.
Proof.
  revert s. induction schedule as [|i l IH]; intros s Hr; cbn [follow]; [by intros [= <-]|].
  cbn [forallb] in Hr. apply andb_prop in Hr as [Hi Hr]. destruct (step i s) as [s1|] eqn:E; [|done]. cbn [mbind option_bind].
  intros H. eapply rtc_l; [|exact (IH s1 Hr H)]. exists i. split; [breflect; lia | exact E].
Qed.

(** Preempted before its first send until Sender has delegated, the intruder
    reports a security failure although nothing went wrong. *)
Lemma false_alarm : exists s, rtc pstep (scene mailbox_trio []) s /\
  mentions (bytes "SECURITY FAILURE") (printed_by INTRUDER_SLOT s) = true.
Proof.
  assert (H : (s ← follow [5; 5; 6] (scene mailbox_trio []);
               Some (mentions (bytes "SECURITY FAILURE") (printed_by INTRUDER_SLOT s))) = Some true) by (vm_compute; reflexivity).
  pose proof (follow_reach [5; 5; 6] (scene mailbox_trio [])) as Hr. revert H Hr. generalize (follow [5; 5; 6] (scene mailbox_trio [])).
  intros [s|] H Hr; [|discriminate H]. exists s. split; [by apply Hr | by injection H].
Qed.

(** An inspector that is refused the read examines an empty string and passes
    the object. *)
Lemma inspector_passes_unreadable :
  let s := launch 15 actor_inspector (launch SCANNER_SLOT actor_scanner
             (System ∅ [] {[15 := [Message TASK_INSPECT SCANNER_SLOT SUSPICIOUS_OBJECT_ID]]}
                {[15 := [Capability CAP_SEND SCANNER_SLOT]]} ∅
                {[SUSPICIOUS_OBJECT_ID := (OBJ_UNTRUSTED, bytes "BADSTUFF payload")]} ∅)) in
  match follow [15; 15; 15] s with
  | Some s => box SCANNER_SLOT s = [Message MSG_CHECK_PASS 15 SUSPICIOUS_OBJECT_ID]
  | None => False
  end.
Proof. vm_compute. reflexivity. Qed.

(** The scanner takes any message that is not MSG_CHECK_FAIL, from anyone, for
    a passing verdict. *)
Lemma scanner_fails_open :
  let s := launch SCANNER_SLOT (actor_scan_object SUSPICIOUS_OBJECT_ID)
    (set_mail {[SCANNER_SLOT := [Message MSG_DOWNLOAD_DONE DOWNLOADER_SLOT PAYLOAD_OBJECT_ID]]} (boot_system [])) in
  match follow [9; 9; 9; 9; 9; 9; 9] s with
  | Some s => label_of SUSPICIOUS_OBJECT_ID s = Some OBJ_TRUSTED
  | None => False
  end.
Proof. vm_compute. reflexivity. Qed.
