(* ===== verification/Simulation.v ===== *)
(** * Simulation: the kernel implements the abstract machine

    The handler of Syscall.v against [serve] of System.v.  [models] relates a
    machine to an abstract state: the same live slots, every mailbox and every
    capability table as a list, the remaining spawns, and for each labelled
    object its trust and contents as the store and its disk hold them. *)
From S2P Require Import Prelude Paging Gdt Memory Storage Actor Scheduler Ports Keyboard Rtc Console Net Access Loader.
From S2P Require Import Syscall Boot User Demos System.

(** ** One actor *)
Section actors.
Context {L : layout} {LOK : layout_ok L} {KL : klayout} {KC : kcode}.
Context (Hcode : actor_trampoline_addr <> schedule_next_ret).
Implicit Types (k : kern) (s : system).

Record slot_models (i : Z) s (a : actor) : Prop := SlotModels {
  sm_alive : alive i s = negb (is_dead a);
  sm_mail : mailbox_ok a;
  sm_box : queue a = box i s;
  sm_caps : forall j, 0 <= j < MAX_CAPS_PER_ACTOR -> caps a !!! j = default (Capability 0 0) (table i s !! Z.to_nat j);
  sm_ops : Forall (fun c => c_op c <> 0) (table i s);
  sm_room : Z.of_nat (length (table i s)) <= MAX_CAPS_PER_ACTOR;
  sm_budget : spawn_quota a - spawn_count a = spawns_left i s }.

Record kmodels k s : Prop := KModels {
  km_slot : forall i, 0 <= i < MAX_ACTORS -> slot_models i s (act k i);
  km_range : forall i, alive i s = true -> 0 <= i < MAX_ACTORS }.

(** What the relation looks at. *)
Record same_view (a a' : actor) : Prop := SameView {
  v_dead : is_dead a' = is_dead a;
  v_mail : mailbox a' = mailbox a;
  v_head : mailbox_head a' = mailbox_head a;
  v_count : mailbox_count a' = mailbox_count a;
  v_caps : caps a' = caps a;
  v_spawns : spawn_count a' = spawn_count a;
  v_quota : spawn_quota a' = spawn_quota a }.

Lemma same_view_refl a : same_view a a.
Proof. by split. Qed.

Lemma same_view_trans a b c : same_view a b -> same_view b c -> same_view a c.
Proof. intros [] []. split; congruence. Qed.

Lemma slot_models_view i s a a' : same_view a a' -> slot_models i s a -> slot_models i s a'.
Proof.
  intros [Vd Vm Vh Vc Vp Vs Vq] [Ha [Hh Hn] Hb Hc Ho Hr Hs].
  split; rewrite ?Vd, ?Vp, ?Vs, ?Vq; try done.
  - split; by rewrite ?Vh, ?Vc.
  - unfold queue. by rewrite Vm, Vh, Vc.
Qed.

Lemma kmodels_view k k' s : (forall i, 0 <= i < MAX_ACTORS -> same_view (act k i) (act k' i)) -> kmodels k s -> kmodels k' s.
Proof. intros Hv [Hs Hr]. split; [|exact Hr]. intros i Hi. by apply (slot_models_view _ _ (act k i)); [apply Hv | apply Hs]. Qed.

Lemma kmodels_act k k' s : (forall i, act k' i = act k i) -> kmodels k s -> kmodels k' s.
Proof. intros Ha. apply kmodels_view. intros i _. rewrite Ha. apply same_view_refl. Qed.

(** Abstract states that agree slot by slot. *)
Record same_slot (i : Z) s s' : Prop := SameSlot {
  ss_alive : alive i s' = alive i s; ss_box : box i s' = box i s;
  ss_table : table i s' = table i s; ss_budget : spawns_left i s' = spawns_left i s }.

Lemma slot_models_same i s s' a : same_slot i s s' -> slot_models i s a -> slot_models i s' a.
Proof. intros [Ea Eb Et Es] []. by split; rewrite ?Ea, ?Eb, ?Et, ?Es. Qed.

(** An update of one slot on both sides. *)
Lemma kmodels_upd k k' s s' d :
  kmodels k s -> (forall i, alive i s' = true -> 0 <= i < MAX_ACTORS) ->
  (forall i, 0 <= i < MAX_ACTORS -> i <> d -> same_view (act k i) (act k' i) /\ same_slot i s s') ->
  (0 <= d < MAX_ACTORS -> slot_models d s' (act k' d)) -> kmodels k' s'.
Proof.
  intros [Hs _] Hr Ho Hd. split; [|exact Hr]. intros i Hi. destruct (Z.eq_dec i d) as [->|Hne]; [by apply Hd|].
  destruct (Ho i Hi Hne) as [Hv Hss]. apply (slot_models_same _ s); [exact Hss|].
  apply (slot_models_view _ _ (act k i)); [exact Hv | by apply Hs].
Qed.

(** A call that returned, on both sides. *)
Definition simulates (r : Z * kern) (r' : Z * system) : Prop := r'.1 = u64 r.1 /\ kmodels r.2 r'.2.

Lemma simulates_refused k k' s : kmodels k s -> (forall i, act k' i = act k i) -> simulates (-1, k') (refusal, s).
Proof. intros H Ha. split; [done|]. by apply (kmodels_act k). Qed.

(** ** Capabilities *)

Lemma km_tables k s : kmodels k s -> tables k (fun i => table i s).
Proof. intros [H _] i Hi. apply (sm_caps _ _ _ (H i Hi)). Qed.

Lemma allowed_holds k s i op t : kmodels k s -> 0 <= i < MAX_ACTORS -> op <> 0 ->
  (allowed i op t s = true <-> holds k i op t).
Proof.
  intros H Hi Ho. unfold allowed. rewrite bool_decide_eq_true.
  symmetry. apply (tables_hold k (fun i => table i s)); [by apply km_tables | done | done | apply (sm_room _ _ _ (km_slot _ _ H i Hi))].
Qed.

Lemma allowed_has k s i op t : kmodels k s -> 0 <= i < MAX_ACTORS -> op <> 0 -> actor_has_cap i op t k = allowed i op t s.
Proof.
  intros H Hi Ho. apply eq_true_iff_eq. rewrite has_cap_spec. symmetry. by apply allowed_holds.
Qed.

Lemma table_set d l i s : table i (set_caps_of (<[d := l]> (caps_of s)) s) = if d =? i then l else table i s.
Proof.
  unfold table. cbn [caps_of set_caps_of]. destruct (Z.eqb_spec d i) as [->|]; [by rewrite lookup_insert_eq|by rewrite lookup_insert_ne].
Qed.

Lemma add_cap_sim k s d op t : kmodels k s -> 0 <= d < MAX_ACTORS -> op <> 0 ->
  simulates (actor_add_cap d op t k) (add_cap d op t s).
Proof.
  intros H Hd Ho. pose proof (km_slot _ _ H d Hd) as Hs. pose proof (sm_room _ _ _ Hs) as Hroom. unfold add_cap.
  destruct (Z.ltb_spec (Z.of_nat (length (table d s))) MAX_CAPS_PER_ACTOR) as [Hlt|Hge].
  - pose proof (grant_tables d op t k _ (km_tables _ _ H) Hd (sm_ops _ _ _ Hs) Hlt) as Ht.
    unfold actor_grant in Ht. rewrite (proj2 (bad_slot_false _) Hd) in Ht.
    destruct (actor_add_cap d op t k) as [rc k'] eqn:E. cbn [snd] in Ht.
    destruct (add_cap_spec _ _ _ _ _ _ E) as [(-> & -> & Hfull)|(-> & i & Hi & Hz & ->)].
    { exfalso. apply (Hfull (Z.of_nat (length (table d s)))); [lia|]. rewrite (sm_caps _ _ _ Hs) by lia.
      by rewrite Nat2Z.id, lookup_ge_None_2. }
    split; [done|]. cbn [snd]. apply (kmodels_upd k _ s _ d); [exact H | apply (km_range _ _ H)|..].
    + intros j Hj Hne. rewrite act_upd_ne by done. split; [apply same_view_refl|]. split; try done.
      rewrite table_set. by destruct (Z.eqb_spec d j).
    + intros _. specialize (Ht d Hd). cbv beta in Ht. rewrite act_upd_eq in Ht |- *. rewrite Z.eqb_refl in Ht.
      destruct Hs as [Ha Hm Hb Hc Hops Hr Hbg]. split; try done; rewrite ?table_set, ?Z.eqb_refl.
      * by destruct Hm.
      * exact Ht.
      * apply Forall_app. split; [exact Hops|]. by apply Forall_singleton.
      * rewrite length_app. cbn [length]. lia.
  - destruct (actor_add_cap d op t k) as [rc k'] eqn:E.
    destruct (add_cap_spec _ _ _ _ _ _ E) as [(-> & -> & Hfull)|(-> & i & Hi & Hz & ->)]; [by split|].
    exfalso. rewrite (sm_caps _ _ _ Hs) in Hz by done.
    destruct (lookup_lt_is_Some_2 (table d s) (Z.to_nat i)) as [c Ec]; [lia|]. rewrite Ec in Hz. cbn in Hz.
    pose proof (sm_ops _ _ _ Hs) as Hops. rewrite Forall_lookup in Hops. by apply (Hops _ _ Ec).
Qed.

(** Every entry of a table is a capability of the list or free. *)
Lemma entry_cases k s i j : kmodels k s -> 0 <= i < MAX_ACTORS -> 0 <= j < MAX_CAPS_PER_ACTOR ->
  (j < Z.of_nat (length (table i s)) /\ c_op (caps (act k i) !!! j) <> 0) \/
  (Z.of_nat (length (table i s)) <= j /\ caps (act k i) !!! j = Capability 0 0).
Proof.
  intros H Hi Hj. pose proof (km_slot _ _ H i Hi) as Hs. rewrite (sm_caps _ _ _ Hs) by done.
  destruct (table i s !! Z.to_nat j) as [c|] eqn:E; cbn.
  - left. split; [apply lookup_lt_Some in E; lia|]. pose proof (sm_ops _ _ _ Hs) as Ho. rewrite Forall_lookup in Ho. by apply (Ho _ _ E).
  - right. apply lookup_ge_None_1 in E. split; [lia | done].
Qed.

(** Operation 0 is held on target 0, by an actor with a free entry. *)
Lemma has_free k s i t : kmodels k s -> 0 <= i < MAX_ACTORS -> actor_has_cap i 0 t k = (t =? 0) && room i s.
Proof.
  intros H Hi. apply eq_true_iff_eq. rewrite has_cap_spec, andb_true_iff. unfold room, holds, in_table. split.
  - intros (j & Hj & E). destruct (entry_cases k s i j H Hi Hj) as [[_ Hn]|[Hl E']]; [by rewrite E in Hn|].
    rewrite E' in E. injection E as <-. split; lia.
  - intros [Ht Hr]. breflect. exists (Z.of_nat (length (table i s))). split; [lia|]. subst t.
    destruct (entry_cases k s i (Z.of_nat (length (table i s))) H Hi ltac:(lia)) as [[? _]|[_ E]]; [lia | exact E].
Qed.

Lemma add_free_sim k s d : kmodels k s -> 0 <= d < MAX_ACTORS ->
  simulates (actor_add_cap d 0 0 k) (if room d s then 0 else refusal, s).
Proof.
  intros H Hd. unfold room. destruct (actor_add_cap d 0 0 k) as [rc k'] eqn:E.
  pose proof (entry_cases k s d) as Hent. destruct (add_cap_spec _ _ _ _ _ _ E) as [(-> & -> & Hfull)|(-> & i & Hi & Hz & ->)].
  - assert (Hge : MAX_CAPS_PER_ACTOR <= Z.of_nat (length (table d s))).
    { apply Z.nlt_ge. intros Hlt. destruct (Hent (Z.of_nat (length (table d s))) H Hd ltac:(lia)) as [[? _]|[_ Ee]]; [lia|].
      apply (Hfull (Z.of_nat (length (table d s)))); [lia | by rewrite Ee]. }
    zcmp. by apply (simulates_refused k).
  - destruct (Hent i H Hd Hi) as [[_ ?]|[Hl Ei]]; [done|]. zcmp. split; [done|]. cbn [snd].
    apply (kmodels_upd k _ s _ d); [exact H | apply (km_range _ _ H)|..].
    + intros j Hj Hne. rewrite act_upd_ne by done. split; [apply same_view_refl | by split].
    + intros _. rewrite act_upd_eq. destruct (km_slot _ _ H d Hd) as [Ha Hm Hb Hc Hops Hr Hbg]. split; try done; [by destruct Hm|].
      intros j Hj. cbn [caps set_caps]. rewrite <- Hc by done. destruct (Z.eq_dec i j) as [<-|Hne].
      * by rewrite lookup_total_insert_eq, Ei.
      * by rewrite lookup_total_insert_ne.
Qed.

Lemma in_range_spec d : in_range d = negb (bad_slot d).
Proof. unfold in_range, bad_slot. by rewrite (Z.leb_antisym d 0), (Z.leb_antisym d MAX_ACTORS), negb_orb, negb_involutive. Qed.

(** [actor_delegate]. *)
Lemma grant_sim k s d op t : kmodels k s -> 0 <= current_actor k < MAX_ACTORS ->
  simulates (actor_delegate d op t k) (do_grant (current_actor k) d op t s).
Proof.
  intros H Hc. unfold actor_delegate, do_grant. rewrite in_range_spec.
  change (actor_has_cap _ op t (hal_disable_interrupts k)) with (actor_has_cap (current_actor k) op t k).
  assert (H0 : kmodels (hal_disable_interrupts k) s) by by apply (kmodels_act k).
  destruct (bad_slot d) eqn:Ed; cbn [negb andb]; [destruct (op =? 0); by apply (simulates_refused k)|]. apply bad_slot_false in Ed.
  destruct (Z.eqb_spec op 0) as [->|Ho].
  - rewrite (has_free k s) by done. destruct (Z.eqb_spec t 0) as [->|]; cbn [negb andb]; [|by apply (simulates_refused k)].
    destruct (room (current_actor k) s); cbn [negb andb]; [|by apply (simulates_refused k)].
    pose proof (add_free_sim _ s d H0 Ed) as Hs. destruct (actor_add_cap d 0 0 _) as [rc k1]. destruct Hs as [Hrc Hk].
    split; [exact Hrc | by apply (kmodels_act k1)].
  - rewrite (allowed_has k s) by done. destruct (allowed _ op t s); cbn [negb]; [|by apply (simulates_refused k)].
    pose proof (add_cap_sim _ s d op t H0 Ed Ho) as Hs. destruct (actor_add_cap d op t _) as [rc k1]. destruct Hs as [Hrc Hk].
    split; [exact Hrc | by apply (kmodels_act k1)].
Qed.

(** ** Messages *)

Lemma box_set d q i s : box i (set_mail (<[d := q]> (mail s)) s) = if d =? i then q else box i s.
Proof.
  unfold box. cbn [mail set_mail]. destruct (Z.eqb_spec d i) as [->|]; [by rewrite lookup_insert_eq|by rewrite lookup_insert_ne].
Qed.

Lemma send_kept {A} (f : actor -> A) d ty x k j :
  (forall m h c a, f (set_mailbox m h c a) = f a) -> (forall a, state a = ACTOR_BLOCKED -> f (set_state ACTOR_READY a) = f a) ->
  f (act (actor_send d ty x k).2 j) = f (act k j).
Proof.
  intros Hm Hst. unfold actor_send. cbv zeta. destruct (bad_slot d); [done|].
  destruct (negb _); [done|]. destruct (is_dead _); [done|]. destruct (_ <=? _); [done|]. cbn [snd]. rewrite act_enable.
  set (k1 := upd d _ _). assert (H1 : f (act k1 j) = f (act k j)) by (unfold k1; rewrite act_upd; by destruct (d =? j)).
  destruct (state (act k1 d)) eqn:E; try exact H1. rewrite act_upd. destruct (Z.eqb_spec d j) as [<-|]; [|exact H1].
  by rewrite Hst.
Qed.

Lemma mail_length k s d : kmodels k s -> 0 <= d < MAX_ACTORS -> Z.of_nat (length (box d s)) = mailbox_count (act k d).
Proof.
  intros H Hd. destruct (km_slot _ _ H d Hd) as [_ [_ Hc] <- _ _ _ _]. apply length_ring. lia.
Qed.

Lemma send_sim k s d ty x : kmodels k s -> 0 <= current_actor k < MAX_ACTORS ->
  simulates (actor_send d ty x k) (do_send (current_actor k) d ty x s).
Proof.
  intros H Hc. destruct (actor_send d ty x k) as [rc k'] eqn:E.
  destruct (send_spec d ty x k rc k') as (Hiff & Hno & Hyes); [intros i Hi; apply (sm_mail _ _ _ (km_slot _ _ H i Hi)) | done | done |].
  unfold do_send. rewrite in_range_spec.
  destruct (negb (bad_slot d) && allowed _ _ _ _ && alive d s && _) eqn:C.
  - apply andb_prop in C as [C C4]. apply andb_prop in C as [C C3]. apply andb_prop in C as [C1 C2].
    apply negb_true_iff, bad_slot_false in C1. pose proof (km_slot _ _ H d C1) as Hs.
    assert (Hrc : rc = 0).
    { apply Hiff. split_and!; [lia|lia| | |].
      - by apply (allowed_holds k s).
      - rewrite (sm_alive _ _ _ Hs) in C3. by apply is_dead_false, negb_true_iff.
      - rewrite (sm_box _ _ _ Hs). breflect. lia. }
    destruct (Hyes Hrc) as (Hq & Hst & Ho). subst rc. split; [done|]. cbn [snd].
    assert (Hk : forall B (f : actor -> B), (forall m h c a, f (set_mailbox m h c a) = f a) ->
       (forall a, state a = ACTOR_BLOCKED -> f (set_state ACTOR_READY a) = f a) -> f (act k' d) = f (act k d)).
    { intros B f Hf1 Hf2. rewrite <- (send_kept f d ty x k d Hf1 Hf2). by rewrite E. }
    apply (kmodels_upd k k' s _ d); [exact H | apply (km_range _ _ H)|..].
    + intros i Hi Hne. rewrite Ho by done. split; [apply same_view_refl|]. split; try done. rewrite box_set.
      by destruct (Z.eqb_spec d i).
    + intros _. pose proof (mail_length k s d H C1) as Hlen. destruct Hs as [Ha [Hh Hn] Hb Hcaps Hops Hroom Hbg].
      assert (Hlt : mailbox_count (act k d) < MAILBOX_CAPACITY) by (breflect; lia).
      assert (Hmb : mailbox_ok (act k' d)).
      { assert (Hhead : mailbox_head (act k' d) = mailbox_head (act k d)
                  /\ mailbox_count (act k' d) = mailbox_count (act k d) + 1).
        { revert E. unfold actor_send. cbv zeta. rewrite (proj2 (bad_slot_false d) C1).
          change (actor_has_cap _ CAP_SEND d _) with (actor_has_cap (current_actor k) CAP_SEND d k).
          rewrite (allowed_has k s), C2 by done. cbn [negb]. autorewrite with kact.
          rewrite Ha in C3. apply negb_true_iff in C3. rewrite C3. zcmp. intros [= <-]. autorewrite with kact.
          destruct (state _); rewrite ?act_upd_eq; autorewrite with kact; done. }
        destruct Hhead as [E1 E2]. split; rewrite ?E1, ?E2; lia. }
      split; try exact Hmb; rewrite ?box_set, ?Z.eqb_refl.
      * change (alive d s = negb (is_dead (act k' d))). rewrite Ha. f_equal. symmetry. apply Hk; [done|].
        intros a Ea. unfold is_dead. cbn [state set_state]. by rewrite Ea.
      * by rewrite Hq, Hb.
      * intros j Hj. rewrite (Hk _ caps) by done. by apply Hcaps.
      * exact Hops.
      * exact Hroom.
      * by rewrite (Hk _ spawn_quota), (Hk _ spawn_count) by done.
  - assert (Hrc : rc <> 0).
    { intros ->. destruct (proj1 Hiff eq_refl) as (Hd & Hh & Hst & Hlen). pose proof (km_slot _ _ H d Hd) as Hs.
      rewrite (proj2 (bad_slot_false d) Hd) in C. rewrite (proj2 (allowed_holds k s _ CAP_SEND d H Hc ltac:(done)) Hh) in C.
      rewrite (sm_alive _ _ _ Hs), (proj2 (is_dead_false _) Hst) in C. rewrite (sm_box _ _ _ Hs) in Hlen. cbn [negb andb] in C.
      breflect. lia. }
    destruct (Hno Hrc) as [-> Ha]. apply (simulates_refused k); [exact H|]. intros i. unfold act. by rewrite Ha.
Qed.

Lemma dequeue_sim k s m rest : kmodels k s -> 0 <= current_actor k < MAX_ACTORS -> box (current_actor k) s = m :: rest ->
  mailbox (act k (current_actor k)) !!! mailbox_head (act k (current_actor k)) = m /\
  kmodels (dequeue k) (set_mail (<[current_actor k := rest]> (mail s)) s).
Proof.
  intros H Hc Hb. pose proof (mail_length k s _ H Hc) as Hlen. rewrite Hb in Hlen. cbn [length] in Hlen.
  pose proof (km_slot _ _ H _ Hc) as Hs. destruct (queue_pop _ (sm_mail _ _ _ Hs) ltac:(lia)) as [Hpop Hok].
  rewrite (sm_box _ _ _ Hs), Hb in Hpop. injection Hpop as Hm Hrest. split; [done|].
  apply (kmodels_upd k _ s _ (current_actor k)); [exact H | apply (km_range _ _ H)|..].
  - intros i Hi Hne. unfold dequeue. rewrite act_upd_ne by done. split; [apply same_view_refl|]. split; try done.
    rewrite box_set. by destruct (Z.eqb_spec (current_actor k) i).
  - intros _. unfold dequeue. rewrite act_upd_eq. destruct Hs as [Ha _ _ Hcaps Hops Hroom Hbg].
    split; try done. rewrite box_set, Z.eqb_refl. done.
Qed.

(** ** The life of an actor *)

Lemma alive_kill t i s : alive i (kill t s) = negb (i =? t) && alive i s.
Proof.
  unfold alive, kill. cbn [procs others set_alive]. destruct (Z.eqb_spec i t) as [->|Hne]; cbn [negb andb].
  - rewrite lookup_delete_eq. rewrite (bool_decide_eq_false_2 (is_Some None)) by (by intros [? ?]). cbn [orb].
    apply bool_decide_eq_false_2. intros Hin. apply list_elem_of_In, List.filter_In in Hin as [_ Hb].
    by rewrite Z.eqb_refl in Hb.
  - rewrite lookup_delete_ne by done. f_equal. apply bool_decide_ext. rewrite !list_elem_of_In, !List.filter_In.
    rewrite (proj2 (Z.eqb_neq i t) Hne). tauto.
Qed.

Lemma kill_sim k s t : kmodels k s -> 0 <= t < MAX_ACTORS -> kmodels (upd t (set_state ACTOR_DEAD) k) (kill t s).
Proof.
  intros H Ht. apply (kmodels_upd k _ s _ t); [exact H|..].
  - intros i. rewrite alive_kill. intros Hi. apply andb_prop in Hi as [_ Hi]. by apply (km_range _ _ H).
  - intros i Hi Hne. rewrite act_upd_ne by done. split; [apply same_view_refl|]. split; try done.
    rewrite alive_kill. by rewrite (proj2 (Z.eqb_neq i t) Hne).
  - intros _. rewrite act_upd_eq. destruct (km_slot _ _ H t Ht) as [Ha [Hh Hn] Hb Hcaps Hops Hroom Hbg].
    split; try done. by rewrite alive_kill, Z.eqb_refl.
Qed.

Lemma terminate_sim k s t : kmodels k s -> 0 <= current_actor k < MAX_ACTORS ->
  simulates (actor_terminate t k) (do_terminate (current_actor k) t s).
Proof.
  intros H Hc. unfold actor_terminate, do_terminate. rewrite in_range_spec.
  destruct (bad_slot t) eqn:Eb; cbn [negb andb orb]; [by apply (simulates_refused k)|]. apply bad_slot_false in Eb.
  destruct (t =? current_actor k); cbn [negb andb]; [by apply (simulates_refused k)|].
  change (actor_has_cap _ CAP_TERMINATE t (hal_disable_interrupts k)) with (actor_has_cap (current_actor k) CAP_TERMINATE t k).
  rewrite (allowed_has k s) by done. destruct (allowed _ CAP_TERMINATE t s); cbn [negb]; [|by apply (simulates_refused k)].
  split; [done|]. cbn [snd]. apply (kmodels_act (upd t (set_state ACTOR_DEAD) (hal_disable_interrupts k))); [done|].
  apply kill_sim; [|done]. by apply (kmodels_act k).
Qed.

Lemma alive_continue slot from heard t s i : alive i (continue slot from heard t s) = (i =? slot) || alive i s.
Proof.
  unfold continue. destruct (quietly t) as [out t']. set (s0 := match out with [] => s | _ => say slot out s end).
  assert (E0 : alive i s0 = alive i s) by (unfold s0; by destruct out).
  assert (Hin : alive i (set_procs (<[slot := Process from heard t']> (procs s0)) s0) = (i =? slot) || alive i s).
  { rewrite <- E0. unfold alive. cbn [procs others set_procs set_alive]. destruct (Z.eqb_spec i slot) as [->|Hne]; cbn [orb].
    - by rewrite lookup_insert_eq, bool_decide_eq_true_2.
    - by rewrite lookup_insert_ne. }
  destruct (upcoming 8 t'); [exact Hin| |exact Hin]. rewrite <- E0. unfold alive. cbn [procs others set_alive].
  destruct (Z.eqb_spec i slot) as [->|Hne]; cbn [orb].
  - rewrite (bool_decide_eq_true_2 (slot ∈ _)) by by left. by rewrite orb_true_r.
  - rewrite lookup_delete_ne by done. f_equal. apply bool_decide_ext. rewrite elem_of_cons. tauto.
Qed.

Lemma continue_rest slot from heard t s : let s' := continue slot from heard t s in
  mail s' = mail s /\ caps_of s' = caps_of s /\ budget s' = budget s /\ labelled s' = labelled s.
Proof.
  cbv zeta. unfold continue. destruct (quietly t) as [out t']. set (s0 := match out with [] => s | _ => say slot out s end).
  assert (E0 : mail s0 = mail s /\ caps_of s0 = caps_of s /\ budget s0 = budget s /\ labelled s0 = labelled s)
    by (unfold s0; by destruct out).
  by destruct (upcoming 8 t').
Qed.

(** The program that goes on has heard what it was given. *)
Lemma continue_heard slot from heard t s : upcoming 8 (quietly t).2 <> Ends ->
  p_heard <$> procs (continue slot from heard t s) !! slot = Some heard.
Proof.
  intros H. unfold continue. destruct (quietly t) as [out t']. cbn [snd] in H.
  destruct (upcoming 8 t'); [|done|]; cbn [procs set_procs set_alive]; by rewrite lookup_insert_eq.
Qed.

(** Following a program further changes nothing the kernel knows of. *)
Lemma continue_sim k s slot from heard t : kmodels k s -> alive slot s = true -> kmodels k (continue slot from heard t s).
Proof.
  intros H Ha. destruct (continue_rest slot from heard t s) as (E1 & E2 & E3 & _).
  assert (Hal : forall i, alive i (continue slot from heard t s) = alive i s).
  { intros i. rewrite alive_continue. destruct (Z.eqb_spec i slot) as [->|]; [by rewrite Ha | done]. }
  split; [|intros i; rewrite Hal; apply (km_range _ _ H)]. intros i Hi. apply (slot_models_same i s); [|by apply (km_slot _ _ H)].
  split; [apply Hal | unfold box; by rewrite E1 | unfold table; by rewrite E2 | unfold spawns_left; by rewrite E3].
Qed.

(** The new occupant of a dead slot. *)
Lemma occupy_sim k k' s child f sp cr m e : kmodels k s -> 0 <= child < MAX_ACTORS ->
  (forall j, j <> child -> act k' j = act k j) -> act k' child = fresh_actor sp cr m e (act k child) ->
  kmodels k' (occupy child f s).
Proof.
  intros H Hch Ho Hf. unfold occupy. set (s0 := System _ _ _ _ _ _ _).
  destruct (continue_rest child (Some f) [] (program_of f) s0) as (E1 & E2 & E3 & _).
  pose proof (alive_continue child (Some f) [] (program_of f) s0) as Hal.
  set (s' := continue _ _ _ _ _) in *. clearbody s'.
  apply (kmodels_upd k k' s _ child); [exact H|..].
  - intros i. rewrite Hal. destruct (Z.eqb_spec i child) as [->|]; [done|]. apply (km_range _ _ H).
  - intros i Hi Hne. rewrite Ho by done. split; [apply same_view_refl|]. split.
    + rewrite Hal. by rewrite (proj2 (Z.eqb_neq i child) Hne).
    + unfold box. rewrite E1. cbn [mail s0]. by rewrite lookup_delete_ne.
    + unfold table. rewrite E2. cbn [caps_of s0]. by rewrite lookup_delete_ne.
    + unfold spawns_left. rewrite E3. cbn [budget s0]. by rewrite lookup_delete_ne.
  - intros _. rewrite Hf.
    assert (Et : table child s' = []) by (unfold table; rewrite E2; cbn [caps_of s0]; by rewrite lookup_delete_eq).
    split; rewrite ?Et.
    + by rewrite Hal, Z.eqb_refl.
    + by split.
    + unfold box. rewrite E1. cbn [mail s0]. by rewrite lookup_delete_eq.
    + intros j Hj. cbn [caps fresh_actor]. unfold MAX_CAPS_PER_ACTOR in *. by rewrite fill_in, lookup_nil by lia.
    + by apply Forall_nil.
    + done.
    + unfold spawns_left. rewrite E3. cbn [budget s0]. by rewrite lookup_delete_eq.
Qed.

Lemma spend_sim k s d : kmodels k s -> 0 <= d < MAX_ACTORS ->
  kmodels (upd d (fun a => set_spawn_count (spawn_count a + 1) a) k) (spend d s).
Proof.
  intros H Hd. assert (Hb : forall i, spawns_left i (spend d s) = if d =? i then spawns_left d s - 1 else spawns_left i s).
  { intros i. unfold spend, spawns_left. cbn [budget set_budget].
    destruct (Z.eqb_spec d i) as [->|]; [by rewrite lookup_insert_eq|by rewrite lookup_insert_ne]. }
  apply (kmodels_upd k _ s _ d); [exact H | apply (km_range _ _ H)|..].
  - intros i Hi Hne. rewrite act_upd_ne by done. split; [apply same_view_refl|]. split; try done. rewrite Hb.
    by destruct (Z.eqb_spec d i).
  - intros _. rewrite act_upd_eq. destruct (km_slot _ _ H d Hd) as [Ha [Hh Hn] Hq Hcaps Hops Hroom Hbg].
    split; try done. rewrite Hb, Z.eqb_refl. cbn [spawn_quota spawn_count set_spawn_count]. lia.
Qed.

Lemma free_slot_sim k s : kmodels k s -> scan (fun i => is_dead (act k i)) 0 (Z.to_nat MAX_ACTORS) = free_slot s.
Proof.
  intros H. apply scan_ext. intros i Hi. rewrite (sm_alive _ _ _ (km_slot _ _ H i ltac:(unfold MAX_ACTORS in *; lia))).
  by rewrite negb_involutive.
Qed.

(** ** Spawning *)

(** The page allocator has no page to give, or none inside the window an
    address space keeps private. *)
Definition short_of_memory k : Prop :=
  (alloc_page (mem k)).1 = 0 \/ PRIVATE_WINDOW_END < (alloc_page (mem k)).1 + ACTOR_STACK_SIZE.

Lemma spawn_result live k e r k' : kcore live k -> actor_spawn e k = (r, k') ->
  (r = -1 /\ (forall i, act k' i = act k i) /\
   (scan (fun i => is_dead (act k i)) 0 (Z.to_nat MAX_ACTORS) = None \/ short_of_memory k)) \/
  (scan (fun i => is_dead (act k i)) 0 (Z.to_nat MAX_ACTORS) = Some r /\ 0 <= r < MAX_ACTORS).
Proof.
  intros Hc. unfold actor_spawn, short_of_memory. destruct (scan _ 0 _) as [i|] eqn:Es; [|intros [= <- <-]; left; auto].
  apply scan_Some in Es as Hi. destruct Hi as (Hi & _ & _). unfold MAX_ACTORS in Hi.
  destruct (alloc_page (mem k)) as [a m] eqn:Ea. cbn [fst].
  destruct (alloc_page_spec _ _ _ _ (kc_mem _ _ Hc) Ea) as [(-> & _)|(Ha0 & Hok & _ & Hm & _)]; [intros [= <- <-]; left; auto|].
  destruct (Z.eqb_spec a 0); [done|]. cbn [pg set_mem].
  destruct (decide (a + ACTOR_STACK_SIZE <= PRIVATE_WINDOW_END)) as [Hwin|Hwin].
  - destruct (create_ok i a ACTOR_STACK_SIZE (pg k)) as (p & Ep & _);
      [apply Hc | unfold MAX_ACTORS; lia | destruct Hok as (_ & ? & _); unfold MEM_BASE, COMMONS_END in *; lia | done | done
      | by destruct Hok | done |].
    rewrite Ep. destruct (Z.eqb_spec (pml4_of i) 0) as [Hz|].
    { exfalso. unfold pml4_of in Hz. pose proof (@lo_bounds _ LOK) as Hbd.
      rewrite List.Forall_cons_iff in Hbd. destruct Hbd as [[Hbd _] _]. lia. }
    destruct (fake_frame _ _) as [ks sp]. intros [= <- <-]. right. split; [done|]. unfold MAX_ACTORS. lia.
  - destruct (hal_address_space_create _ _ _ _) as [cr p]. destruct (cr =? 0); [intros [= <- <-]; left; split_and!; [done|done|]; right; right; lia|].
    destruct (fake_frame _ _) as [ks sp]. intros [= <- <-]. right. split; [done|]. unfold MAX_ACTORS. lia.
Qed.

Lemma relate_sim k s slot child : kmodels k s -> 0 <= slot < MAX_ACTORS -> 0 <= child < MAX_ACTORS ->
  kmodels (actor_add_cap child CAP_SEND slot (actor_add_cap slot CAP_TERMINATE child (actor_add_cap slot CAP_SEND child k).2).2).2
    (relate slot child s).
Proof.
  intros H Hs Hc. unfold relate.
  pose proof (add_cap_sim k s slot CAP_SEND child H Hs ltac:(done)) as [_ H1].
  pose proof (add_cap_sim _ _ slot CAP_TERMINATE child H1 Hs ltac:(done)) as [_ H2].
  apply (add_cap_sim _ _ child CAP_SEND slot H2 Hc ltac:(done)).
Qed.

(** A spawn does what [do_spawn] says, unless it finds no memory for the stack;
    then nothing changes. *)
Lemma spawn_sim live k s e f : kcore live k -> kmodels k s -> 0 <= current_actor k < MAX_ACTORS ->
  alive (current_actor k) s = true ->
  simulates (actor_spawn_child e k) (do_spawn (current_actor k) f s) \/
  (short_of_memory k /\ (actor_spawn_child e k).1 = -1 /\ kmodels (actor_spawn_child e k).2 s).
Proof.
  intros Hk H Hc Hal. unfold actor_spawn_child, spawn_checked, do_spawn. cbv zeta.
  set (k0 := hal_disable_interrupts k). assert (H0 : kmodels k0 s) by by apply (kmodels_act k).
  assert (Hk0 : kcore live k0) by by apply (kcore_frame live k).
  assert (E0 : current_actor k0 = current_actor k /\ (forall i, act k0 i = act k i) /\ mem k0 = mem k) by done.
  clearbody k0. destruct E0 as (Ec & Ea & Em). rewrite Ec, Ea, (allowed_has k0 s) by done.
  destruct (allowed _ CAP_SPAWN 0 s); cbn [negb andb]; [|left; by apply (simulates_refused k)].
  pose proof (sm_budget _ _ _ (km_slot _ _ H _ Hc)) as Hb.
  destruct (Z.leb_spec (spawn_quota (act k (current_actor k))) (spawn_count (act k (current_actor k)))) as [Hq|Hq]; zcmp;
    [left; by apply (simulates_refused k)|].
  destruct (actor_spawn e k0) as [r k1] eqn:Es. pose proof (free_slot_sim _ _ H0) as Hfree.
  destruct (spawn_result live k0 e r k1 Hk0 Es) as [(-> & Hsame & Hwhy)|[Hscan Hr]].
  { zcmp. destruct Hwhy as [Hnone|Hmem]; [left | right].
    - rewrite <- Hfree, Hnone. apply (simulates_refused k); [exact H|]. intros i. rewrite act_enable, Hsame. apply Ea.
    - unfold short_of_memory in *. rewrite <- Em. split; [exact Hmem|]. split; [done|]. cbn [snd].
      apply (kmodels_act k0); [|exact H0]. intros i. rewrite act_enable. apply Hsame. }
  left. rewrite <- Hfree, Hscan. destruct (spawn_slots _ _ _ _ Es) as (Ecur & _ & _ & [(-> & _)|(_ & Hd & Ho & sp & cr & m & Hf)]); [lia|].
  zcmp. assert (Hne : current_actor k <> r).
  { intros E. rewrite (sm_alive _ _ _ (km_slot _ _ H _ Hc)), <- Ea, E in Hal. apply is_dead_true in Hd. by rewrite Hd in Hal. }
  pose proof (occupy_sim k0 k1 s r f sp cr m e H0 Hr Ho Hf) as H1.
  pose proof (relate_sim _ _ _ r (spend_sim k1 _ _ H1 Hc) Hc Hr) as H2.
  destruct (actor_add_cap _ CAP_SEND r _) as [r3 k3]. destruct (actor_add_cap _ CAP_TERMINATE r _) as [r4 k4].
  destruct (actor_add_cap r CAP_SEND _ _) as [r5 k5]. cbn [snd] in H2. split; cbn [fst snd].
  - symmetry. apply u64_small. unfold in_u64, MAX_ACTORS in *. lia.
  - by apply (kmodels_act k5).
Qed.

(** ** Switching *)

Lemma reap_current k : current_actor (reap_dead_actors k) = current_actor k.
Proof.
  unfold reap_dead_actors. generalize (Z.to_nat MAX_ACTORS) as n. intros n.
  refine (loop_ind (fun _ k2 => current_actor k2 = current_actor k) reap_one 0 n k eq_refl _).
  intros i k' _ IH. unfold reap_one. destruct (i =? _); [done|]. by destruct (_ && _).
Qed.

Lemma switch_dead sv k j : -1 <= current_actor k < MAX_ACTORS ->
  is_dead (act (switch_to_next sv k).2 j) = is_dead (act k j).
Proof.
  intros Hc. unfold switch_to_next. destruct (pick_next k) as [next|] eqn:Ep; [|done].
  destruct (pick_next_spec k next Hc Ep) as [_ Hrun].
  assert (Hnext : forall k', (forall i, act k' i = act k i) ->
    is_dead (act (upd next (set_state ACTOR_RUNNING) k') j) = is_dead (act k j)).
  { intros k' Ha. rewrite act_upd, !Ha. destruct (Z.eqb_spec next j) as [<-|]; [|done].
    unfold runnable in Hrun. unfold is_dead. cbn [state set_state]. by destruct (state (act k next)). }
  destruct (next =? current_actor k); cbn [snd].
  - rewrite act_enable. by apply Hnext.
  - rewrite (switch_kept is_dead) by done. rewrite act_set_tss. by apply Hnext.
Qed.

Lemma schedule_view sv k j : -1 <= current_actor k < MAX_ACTORS -> same_view (act k j) (act (schedule_next sv k).2 j).
Proof.
  intros Hc. split; [|by apply (schedule_kept mailbox)|by apply (schedule_kept mailbox_head)|by apply (schedule_kept mailbox_count)
    |by apply (schedule_kept caps)|by apply (schedule_kept spawn_count)|by apply (schedule_kept spawn_quota)].
  unfold schedule_next. rewrite switch_dead by (rewrite reap_current; exact Hc).
  rewrite (reap_kept is_dead) by done. by rewrite act_disable.
Qed.

Lemma kmodels_schedule sv k s : kmodels k s -> -1 <= current_actor k < MAX_ACTORS -> kmodels (schedule_next sv k).2 s.
Proof. intros H Hc. apply (kmodels_view k); [|exact H]. intros i _. by apply schedule_view. Qed.

(** The current actor stops, alive. *)
Lemma kmodels_stop k s st fr : kmodels k s -> 0 <= current_actor k < MAX_ACTORS -> alive (current_actor k) s = true ->
  st <> ACTOR_DEAD -> kmodels (set_frame (current_actor k) fr (upd (current_actor k) (set_state st) k)) s.
Proof.
  intros H Hc Hal Hst. apply (kmodels_act (upd (current_actor k) (set_state st) k)); [done|].
  apply (kmodels_view k); [|exact H]. intros i Hi. rewrite act_upd. destruct (Z.eqb_spec (current_actor k) i) as [<-|]; [|apply same_view_refl].
  rewrite (sm_alive _ _ _ (km_slot _ _ H _ Hc)) in Hal. apply negb_true_iff in Hal. split; try done. rewrite Hal.
  by apply is_dead_false.
Qed.

(** Conversion unfolds the scheduler last. *)
#[local] Strategy 50 [actor_yield actor_exit actor_receive leave].
#[local] Strategy 100 [schedule_next receive_loop resume].

Lemma receive_sim live k s : kinv live k -> kmodels k s -> 0 <= current_actor k < MAX_ACTORS ->
  in_own_stack (current_actor k) (c_rsp (kcpu k)) -> halted k = false -> alive (current_actor k) s = true ->
  match box (current_actor k) s with
  | m :: rest => exists k', actor_receive k = (Some m, k') /\ current_actor k' = current_actor k /\ mem k' = mem k /\ pg k' = pg k /\
                   kmodels k' (set_mail (<[current_actor k := rest]> (mail s)) s)
  | [] => exists k' live' k0, actor_receive k = (None, k') /\ kmodels k' s /\ scheduled live' k0 false k'
  end.
Proof.
  intros Hk H Hc Hst Hh Hal. unfold actor_receive. set (k0 := hal_disable_interrupts k).
  assert (H0 : kmodels k0 s) by by apply (kmodels_act k). assert (Hk0 : kinv live k0) by by apply kinv_irq.
  assert (E : current_actor k0 = current_actor k /\ kcpu k0 = kcpu k /\ halted k0 = halted k /\ mem k0 = mem k /\ pg k0 = pg k) by done.
  destruct E as (E1 & E2 & E3 & E4 & E5). pose proof (mail_length k0 s (current_actor k) H0 Hc) as Hlen. clearbody k0.
  destruct (box (current_actor k) s) as [|m rest] eqn:Eb; cbn [length] in Hlen.
  - destruct (receive_schedules Hcode live k0) as (k1 & live1 & Er & Hs);
      [exact Hk0 | lia | by rewrite E1, E2 | congruence | by rewrite E1, <- Hlen |].
    exists k1, live1, k0. split; [exact Er|]. split; [|exact Hs]. revert Er. cbn [receive_loop]. rewrite E1, <- Hlen. cbn [Z.of_nat Z.eqb].
    rewrite <- E1. pose proof (kmodels_schedule (SaveActor (current_actor k0)) _ s
      (kmodels_stop k0 s ACTOR_BLOCKED FReceive H0 ltac:(lia) ltac:(congruence) ltac:(done))
      ltac:(cbn [current_actor set_frame upd set_actors]; lia)) as Hm.
    destruct (schedule_next _ _) as [b k2]. cbn [snd] in Hm. destruct b; [|by intros [= <-]].
    cbn [receive_loop]. destruct (mailbox_count _ =? 0); [intros [= <-]; by apply (kmodels_act k2) | done].
  - rewrite receive_loop_nonempty by (rewrite E1, <- Hlen; lia).
    destruct (dequeue_sim k0 s m rest H0) as [Hm Hd]; [lia | by rewrite E1 |]. rewrite Hm.
    eexists. split; [reflexivity|]. split_and!; [exact E1 | exact E4 | exact E5 |]. rewrite <- E1. by apply (kmodels_act (dequeue k0)).
Qed.

(** A switch that stayed or went: what was abandoned, and where it landed. *)
Lemma leave_sim live k s st fr b k' s' : kinv live k -> 0 <= current_actor k < MAX_ACTORS ->
  in_own_stack (current_actor k) (c_rsp (kcpu k)) -> halted k = false ->
  (st = ACTOR_READY /\ fr = FYield \/ st = ACTOR_DEAD /\ fr = FExit) ->
  kmodels (set_frame (current_actor k) fr (upd (current_actor k) (set_state st) k)) s' ->
  leave st fr k = (b, k') -> kmodels k' s' /\ exists live' k0, scheduled live' k0 b k'.
Proof.
  intros Hk Hc Hst Hh Hcase H E. unfold leave in E. split.
  - pose proof (kmodels_schedule (SaveActor (current_actor k)) _ s' H ltac:(cbn [current_actor set_frame upd set_actors]; lia)) as Hm.
    by rewrite E in Hm.
  - destruct (yield_schedules Hcode live k st fr b k' Hk ltac:(lia) Hst Hh Hcase E) as (live' & k0 & Hs). by exists live', k0.
Qed.

Lemma yield_sim live k s b k' : kinv live k -> kmodels k s -> 0 <= current_actor k < MAX_ACTORS ->
  in_own_stack (current_actor k) (c_rsp (kcpu k)) -> halted k = false -> alive (current_actor k) s = true ->
  actor_yield k = (b, k') -> kmodels k' s /\ exists live' k0, scheduled live' k0 b k'.
Proof.
  intros Hk H Hc Hst Hh Hal. rewrite yield_leave by lia.
  apply (leave_sim live _ s ACTOR_READY FYield); [by apply kinv_irq | done | done | done | by left |].
  apply (kmodels_stop (hal_disable_interrupts k) s ACTOR_READY FYield); [by apply (kmodels_act k) | done..].
Qed.

Lemma exit_sim live k s b k' : kinv live k -> kmodels k s -> 0 <= current_actor k < MAX_ACTORS ->
  in_own_stack (current_actor k) (c_rsp (kcpu k)) -> halted k = false ->
  actor_exit k = (b, k') -> kmodels k' (kill (current_actor k) s) /\ exists live' k0, scheduled live' k0 b k'.
Proof.
  intros Hk H Hc Hst Hh. rewrite exit_leave.
  apply (leave_sim live _ s ACTOR_DEAD FExit); [by apply kinv_irq | done | done | done | by right |].
  apply (kmodels_act (upd (current_actor k) (set_state ACTOR_DEAD) (hal_disable_interrupts k))); [done|].
  apply kill_sim; [by apply (kmodels_act k) | done].
Qed.

(** What landing adds: a suspended receive is completed. *)
Definition landed_models (l : landing) k s : Prop :=
  match l with
  | LReceived m => exists rest, box (current_actor k) s = m :: rest /\
                     kmodels k (set_mail (<[current_actor k := rest]> (mail s)) s)
  | _ => kmodels k s
  end.

Lemma resume_sim live k0 k s l k' : scheduled live k0 false k -> kmodels k s -> resume k = (l, k') -> landed_models l k' s.
Proof.
  intros [Hc Hcase] H E. destruct Hcase as [[_ Hh]|[(? & _)|(_ & Hh & H1 & Hl & _)]]; [| done |].
  { unfold resume in E. rewrite Hh in E. by injection E as <- <-. }
  pose proof (kc_cur _ _ Hc) as Hcur.
  destruct Hl as (H0 & Hrip & _ & _ & _ & Hnx & Hm). unfold resume in E. rewrite Hh, Hrip in E.
  destruct (frames k !!! current_actor k) eqn:Ef; cbn [resume_addr] in E.
  - rewrite Z.eqb_refl in E. injection E as <- <-. by apply (kmodels_act k).
  - destruct (Z.eqb_spec schedule_next_ret actor_trampoline_addr); [congruence|]. injection E as <- <-. by apply (kmodels_act k).
  - done.
  - destruct (Z.eqb_spec schedule_next_ret actor_trampoline_addr); [congruence|]. revert E.
    set (k1 := hal_disable_interrupts _). assert (Hk1 : kmodels k1 s) by by apply (kmodels_act k).
    assert (E1 : current_actor k1 = current_actor k /\ (forall i, act k1 i = act k i)) by done.
    clearbody k1. destruct E1 as (E1 & E2). specialize (Hm eq_refl).
    pose proof (mail_length k s (current_actor k) H ltac:(lia)) as Hlen.
    rewrite receive_loop_nonempty by (rewrite E1, E2; lia). intros [= <- <-]. cbn [landed_models].
    destruct (box (current_actor k) s) as [|m rest] eqn:Eb; cbn [length] in Hlen; [lia|].
    destruct (dequeue_sim k1 s m rest Hk1) as [Em Hd]; [lia | by rewrite E1 |].
    exists rest. change (current_actor (hal_enable_interrupts (dequeue k1))) with (current_actor k1). rewrite Em, E1.
    split; [done|]. rewrite E1 in Hd. by apply (kmodels_act (dequeue k1)).
Qed.
End actors.

(** ** Objects *)
Section objects.
Context {D : Type} `{!BlockDevice D} `{!BlockDeviceLaws D}.
Implicit Types (st : storage D) (s : system).

(** The drive refuses to read the object's sectors, or to write them. *)
Definition read_fails (id : Z) st : Prop :=
  (disk_read (lba (obj st id)) SECTORS_PER_OBJECT (scratch st) (disk st)).1.1 <> 0.
Definition write_fails (id : Z) st : Prop :=
  exists sc, (disk_write (lba (obj st id)) SECTORS_PER_OBJECT sc (disk st)).1 <> 0.

Record object_models st (id tr : Z) (data : list Z) : Prop := ObjectModels {
  om_id : 0 <= id < MAX_OBJECTS;
  om_live : live st id = true;
  om_trust : trust (obj st id) = tr;
  om_size : size_bytes (obj st id) = Z.of_nat (length data);
  om_data : forall i, 0 <= i < Z.of_nat (length data) -> data_byte st id i = byte_in data i }.
Definition omodels st s : Prop := forall id tr data, labelled s !! id = Some (tr, data) -> object_models st id tr data.

Lemma om_good st id tr data : sto_inv st -> object_models st id tr data ->
  bad_id id st = false /\ Z.of_nat (length data) <= OBJECT_MAX_BYTES /\
  lba (obj st id) = OBJECT_DATA_BASE_LBA + id * SECTORS_PER_OBJECT.
Proof.
  intros Hi [Hid Hl _ Hsz _]. pose proof (si_obj _ Hi id Hid) as Ho. split_and!.
  - unfold bad_id. rewrite Hl. zcmp. done.
  - rewrite <- Hsz. apply Ho.
  - apply (ok_lba _ _ Ho). by apply live_true.
Qed.

(** Only the object an operation names can change. *)
Lemma om_frame st st' id tr data : object_models st id tr data -> obj st' id = obj st id ->
  Z.of_nat (length data) <= OBJECT_MAX_BYTES ->
  (forall i, 0 <= i < OBJECT_MAX_BYTES -> data_byte st' id i = data_byte st id i) -> object_models st' id tr data.
Proof.
  intros [Hid Hl Ht Hs Hd] Ho Hlen Hb. split; [done | unfold live in *; by rewrite Ho | by rewrite Ho | by rewrite Ho|].
  intros i Hi. rewrite Hb by lia. by apply Hd.
Qed.

Lemma omodels_update st st' s id tr data : sto_inv st -> omodels st s ->
  (forall j, j <> id -> obj st' j = obj st j) ->
  (forall j i, 0 <= j < MAX_OBJECTS -> 0 <= i < OBJECT_MAX_BYTES -> j <> id -> data_byte st' j i = data_byte st j i) ->
  object_models st' id tr data -> omodels st' (set_object id tr data s).
Proof.
  intros Hi H Ho Hb Hid j tr' data'. unfold set_object. cbn [labelled set_labelled].
  intros [[-> [= <- <-]]|[Hne E]]%lookup_insert_Some; [exact Hid|]. pose proof (H _ _ _ E) as Hj.
  apply (om_frame st); [exact Hj | by apply Ho | apply (om_good st j tr' data' Hi Hj)|].
  intros i Hii. apply Hb; [apply Hj | exact Hii | done].
Qed.

Lemma omodels_same st st' s : sto_inv st -> omodels st s -> (forall j, obj st' j = obj st j) ->
  (forall j i, 0 <= j < MAX_OBJECTS -> 0 <= i < OBJECT_MAX_BYTES -> data_byte st' j i = data_byte st j i) -> omodels st' s.
Proof.
  intros Hi H Ho Hb j tr data E. pose proof (H _ _ _ E) as Hj.
  apply (om_frame st); [exact Hj | apply Ho | apply (om_good st j tr data Hi Hj)|]. intros i Hii. apply Hb; [apply Hj | exact Hii].
Qed.

Lemma omodels_labels st s s' : labelled s' = labelled s -> omodels st s -> omodels st s'.
Proof. unfold omodels. by intros ->. Qed.

Lemma om_trust_range st id tr data : sto_inv st -> object_models st id tr data -> 0 <= tr <= OBJ_REJECTED.
Proof. intros Hi H. rewrite <- (om_trust _ _ _ _ H). apply (si_obj _ Hi id (om_id _ _ _ _ H)). Qed.

(** [set_obj] of a trust level, saved. *)
Lemma relabel_models st s id tr data t : sto_inv st -> omodels st s -> labelled s !! id = Some (tr, data) ->
  omodels (directory_save (set_obj id (with_trust t (obj st id)) st)) (set_object id t data s).
Proof.
  intros Hi H E. pose proof (H _ _ _ E) as Ho.
  apply (omodels_update st); [done | done | | |].
  - intros j Hne. rewrite obj_save, obj_set. by rewrite (proj2 (Z.eqb_neq id j)) by congruence.
  - intros j i Hj Hii _. rewrite save_data by lia. done.
  - destruct Ho as [Hid Hl Ht Hs Hd]. split; rewrite ?live_save; unfold live in *; rewrite ?obj_save, ?obj_set, ?Z.eqb_refl; try done.
    intros i Hii. rewrite save_data by lia. by apply Hd.
Qed.

Lemma promote_sim st s slot id : sto_inv st -> omodels st s -> is_Some (labelled s !! id) ->
  allowed slot CAP_PROMOTE_OBJECT 0 s = true ->
  (do_promote slot id s).1 = u64 (storage_promote id st).1 /\ omodels (storage_promote id st).2 (do_promote slot id s).2.
Proof.
  intros Hi H [[tr data] E] Ha. pose proof (H _ _ _ E) as Ho. destruct (om_good _ _ _ _ Hi Ho) as (Hb & _).
  pose proof (om_trust_range _ _ _ _ Hi Ho) as Htr. unfold do_promote, storage_promote. rewrite E, Ha, Hb, (om_trust _ _ _ _ Ho). cbn [negb orb].
  destruct (_ || _); [done|]. cbn [fst snd]. split; [|by apply (relabel_models st s id tr)].
  symmetry. apply u64_small. unfold in_u64, OBJ_REJECTED in *. lia.
Qed.

Lemma reject_sim st s slot id : sto_inv st -> omodels st s -> is_Some (labelled s !! id) ->
  allowed slot CAP_PROMOTE_OBJECT 0 s = true ->
  (do_reject slot id s).1 = u64 (storage_reject id st).1 /\ omodels (storage_reject id st).2 (do_reject slot id s).2.
Proof.
  intros Hi H [[tr data] E] Ha. pose proof (H _ _ _ E) as Ho. destruct (om_good _ _ _ _ Hi Ho) as (Hb & _).
  unfold do_reject, storage_reject. rewrite E, Ha, Hb. cbn [fst snd]. split; [done|]. by apply (relabel_models st s id tr).
Qed.

Lemma read_sim st s slot id len rc buf st' : sto_inv st -> omodels st s -> is_Some (labelled s !! id) ->
  allowed slot CAP_READ_OBJECT id s = true -> 0 <= len -> storage_read id ∅ len st = (rc, buf, st') ->
  omodels st' s /\
  (do_read slot id len s = (u64 rc, take_arr buf 0 (Z.to_nat rc)) \/ read_fails id st /\ rc = -1).
Proof.
  intros Hi H [[tr data] E] Ha Hlen. pose proof (H _ _ _ E) as Ho. destruct (om_good _ _ _ _ Hi Ho) as (Hb & Hmax & Hlba).
  unfold storage_read, do_read. rewrite E, Ha, Hb, (om_trust _ _ _ _ Ho). cbn [negb orb].
  destruct (tr =? OBJ_REJECTED); [intros [= <- <- <-]; by auto|].
  destruct (disk_read _ _ _ _) as [[rc0 sc] d] eqn:Er.
  destruct (disk_read_spec _ _ _ _ _ _ _ Er ltac:(done)) as (Hrd & _ & Hkeep). rewrite Hlba in Hrd.
  assert (Hsame : omodels (set_scratch sc d st) s).
  { apply (omodels_same st); [done | done | done|]. intros j i Hj Hii. apply Hkeep. }
  destruct (Z.eqb_spec rc0 0) as [->|Hfail]; cbn [negb].
  2: { intros [= <- <- <-]. split; [exact Hsame|]. right. split; [|done]. unfold read_fails. by rewrite Er. }
  change (obj (set_scratch sc d st) id) with (obj st id). rewrite (om_size _ _ _ _ Ho).
  set (n := if len <? Z.of_nat (length data) then len else Z.of_nat (length data)).
  assert (Hn : 0 <= n <= Z.of_nat (length data) /\ Z.of_nat (length (take (Z.to_nat len) data)) = n).
  { rewrite length_take. unfold n. bdestruct_all; lia. }
  assert (En : n = Z.min len (Z.of_nat (length data))) by (unfold n; bdestruct_all; lia).
  clearbody n. destruct Hn as [Hn Htk]. intros [= <- <- <-]. rewrite int32_len by lia. split; [exact Hsame|]. left.
  rewrite Htk. f_equal.
  - symmetry. apply u64_small. unfold in_u64, OBJECT_MAX_BYTES, SECTORS_PER_OBJECT in *. lia.
  - apply list_eq. intros j. destruct (decide (j < Z.to_nat n)%nat) as [Hj|Hj].
    + unfold take_arr. rewrite list_lookup_fmap, lookup_seqZ_lt by lia. cbn. rewrite fill_in by lia.
      rewrite Hrd by (try reflexivity; try apply object_sectors, Ho; unfold OBJECT_MAX_BYTES, SECTORS_PER_OBJECT in *; lia).
      pose proof (om_data _ _ _ _ Ho (Z.of_nat j) ltac:(lia)) as Hd. unfold data_byte in Hd. rewrite lookup_take_lt by lia.
      rewrite ?Z.sub_0_r, ?Z.add_0_l, Hd. unfold byte_in. rewrite Nat2Z.id.
      destruct (lookup_lt_is_Some_2 data j) as [x ->]; [lia|done].
    + rewrite !lookup_ge_None_2; [done| |lia]. unfold take_arr. rewrite length_map, length_seqZ. lia.
Qed.

Lemma write_sim st s slot id l len rc st' : sto_inv st -> omodels st s -> is_Some (labelled s !! id) ->
  allowed slot CAP_WRITE_OBJECT id s = true -> 0 <= len -> (len <= OBJECT_MAX_BYTES -> length l = Z.to_nat len) ->
  (forall i, in_u8 (byte_in l i)) -> storage_write id (fun i => byte_in l i) len st = (rc, st') ->
  (do_write slot id l len s).1 = u64 rc /\ omodels st' (do_write slot id l len s).2 \/
  write_fails id st /\ rc = -1 /\ omodels st' (forget id s).
Proof.
  intros Hi H [[tr data] E] Ha Hlen Hll H8. pose proof (H _ _ _ E) as Ho. destruct (om_good _ _ _ _ Hi Ho) as (Hb & Hmax & Hlba).
  unfold storage_write, do_write. rewrite E, Ha, Hb. rewrite (bool_decide_eq_true_2 (is_Some _)) by by eexists. cbn [andb].
  rewrite Z.leb_antisym. destruct (Z.ltb_spec OBJECT_MAX_BYTES len) as [|Hle]; cbn [negb]; [intros [= <- <-]; by left|].
  set (sc := fill 0 _ 0 _ _). specialize (Hll Hle).
  assert (Hs : sectors_ok (lba (obj st id)) SECTORS_PER_OBJECT) by (rewrite Hlba; apply object_sectors, Ho).
  destruct (disk_write _ _ sc _) as [rc0 d] eqn:Ew.
  change (obj (set_scratch sc d st) id) with (obj st id).
  destruct (disk_write_spec _ _ _ _ _ _ Ew Hs) as [Hwr Hout]. rewrite Hlba in Hwr, Hout.
  assert (Hid : 0 <= id < MAX_OBJECTS) by apply Ho. cbn [fst snd].
  assert (Hframe : forall j i, 0 <= j < MAX_OBJECTS -> 0 <= i < OBJECT_MAX_BYTES -> j <> id ->
    data_byte (set_scratch sc d st) j i = data_byte st j i).
  { intros j i Hj Hii Hne. apply Hout. unfold OBJECT_MAX_BYTES, SECTORS_PER_OBJECT in *. lia. }
  destruct (Z.eqb_spec rc0 0) as [->|Hfail]; cbn [negb]; intros [= <- <-].
  2: { right. split; [exists sc; by rewrite Ew|]. split; [done|]. intros j tr' data'. cbn [labelled forget set_labelled].
       intros [Hne Ej]%lookup_delete_Some. pose proof (H _ _ _ Ej) as Hj.
       apply (om_frame st); [exact Hj | done | apply (om_good st j tr' data' Hi Hj)|]. intros i Hii. apply Hframe; [apply Hj | exact Hii | done]. }
  left. rewrite int32_len by lia. unfold OBJECT_MAX_BYTES, SECTORS_PER_OBJECT in *.
  split; [symmetry; apply u64_small; unfold in_u64; lia|]. rewrite firstn_all2 by lia.
  apply (omodels_update st); [done | done | | |].
  - intros j Hne. rewrite obj_save, obj_set. by rewrite (proj2 (Z.eqb_neq id j)) by congruence.
  - intros j i Hj Hii Hne. rewrite save_data by lia. exact (Hframe j i Hj Hii Hne).
  - split; rewrite ?live_save; unfold live; rewrite ?obj_save, ?obj_set, ?Z.eqb_refl; try done.
    + exact (om_live _ _ _ _ Ho).
    + cbn [size_bytes]. lia.
    + intros i Hii. rewrite save_data by lia. unfold data_byte. cbn [disk set_obj set_scratch]. rewrite Hwr; [|done| |lia].
      * unfold sc. rewrite fill_in by lia. rewrite Z.sub_0_r. zcmp. done.
      * intros j Hj. unfold sc. rewrite fill_in by lia. rewrite Z.sub_0_r. case_match_goal; [apply H8 | unfold in_u8; lia].
Qed.
End objects.

(** ** System calls *)
Section calls.
Context {L : layout} {LOK : layout_ok L} {KL : klayout} {KC : kcode}.
Context {B D N : Type} `{!PortBus B} `{!BlockDevice D} `{!BlockDeviceLaws D} `{!NetDevice N}.
Context (Hcode : actor_trampoline_addr <> schedule_next_ret).
Abbreviation world := (world B D N).
Implicit Types (w : world) (k : kern) (s : system).

Definition models w s : Prop := kmodels (w_kern w) s /\ omodels (w_sto w) s.

(** The register [reg] carries the argument [u]: a value, the address of a
    function, of bytes to read, or of room for that many bytes. *)
Definition passes k (reg : Z) (u : uarg) : Prop :=
  match u with
  | Val v => reg = v
  | Fn _ => True
  | In mem => load_bytes reg (length mem) k = Ok mem
  | Out size => forall l, Z.of_nat (length l) <= size -> exists k', store_bytes reg l k = Ok k'
  end.

(** The calls [serve] describes, on labelled objects. *)
Inductive request (fuel : nat) s : Z -> uarg -> uarg -> uarg -> Prop :=
| RqWrite str u2 u3 : 0 ∈ str -> (length str <= fuel)%nat -> request fuel s SYS_WRITE (In str) u2 u3
| RqYield v x y : request fuel s SYS_YIELD (Val v) (Val x) (Val y)
| RqExit v x y : request fuel s SYS_EXIT (Val v) (Val x) (Val y)
| RqSend d ty x : request fuel s SYS_SEND (Val d) (Val ty) (Val x)
| RqReceive size u2 u3 : 24 <= size -> request fuel s SYS_RECEIVE (Out size) u2 u3
| RqGrant d op t : request fuel s SYS_GRANT (Val d) (Val op) (Val t)
| RqSpawn f u2 u3 : request fuel s SYS_SPAWN (Fn f) u2 u3
| RqTerminate t x y : request fuel s SYS_TERMINATE (Val t) (Val x) (Val y)
| RqRead id len : is_Some (labelled s !! int32 id) -> in_u32 len ->
    request fuel s SYS_OBJECT_READ (Val id) (Out len) (Val len)
| RqWriteObject id mem len : is_Some (labelled s !! int32 id) -> in_u32 len -> len <= Z.of_nat (length mem) ->
    request fuel s SYS_OBJECT_WRITE (Val id) (In mem) (Val len)
| RqPromote id x y : is_Some (labelled s !! int32 id) -> request fuel s SYS_OBJECT_PROMOTE (Val id) (Val x) (Val y)
| RqReject id x y : is_Some (labelled s !! int32 id) -> request fuel s SYS_OBJECT_REJECT (Val id) (Val x) (Val y).

(** The call returns [r], with [mem] stored at [reg], in a machine [s] models. *)
Definition answers (reg : Z) (o : outcome world) (r : Z) (mem : list Z) s : Prop :=
  exists w' k, o = Back r w' /\ models w' s /\ store_bytes reg mem k = Ok (w_kern w').

(** The machine has less than [serve] counts on: no page for the stack of a new
    actor, or a drive that refuses the access.  A write that failed may have
    changed any of the object's bytes, so the state it leaves does not follow
    that object any more. *)
Inductive falls_short w s : Z -> uarg -> system -> Prop :=
| FsSpawn f : short_of_memory (w_kern w) -> falls_short w s SYS_SPAWN (Fn f) s
| FsRead id : read_fails (int32 id) (w_sto w) -> falls_short w s SYS_OBJECT_READ (Val id) s
| FsWrite id : write_fails (int32 id) (w_sto w) -> falls_short w s SYS_OBJECT_WRITE (Val id) (forget (int32 id) s).

(** The call does not return for now: another actor runs, or the machine halts.
    A message another actor had been waiting for is stored through the pointer
    it waited with, which may be bad. *)
Inductive hands_over w s : outcome world -> Prop :=
| HandsOver l w' : landed_models l (w_kern w') s -> omodels (w_sto w') s -> hands_over w s (Switched l w')
| BadBuffer m k va : landed_models (LReceived m) k s ->
    store_bytes (w_recv w !!! current_actor k) (message_bytes m) k = Fault va -> hands_over w s (Crashed va)
| KernelBuffer m k va : landed_models (LReceived m) k s ->
    store_bytes (w_recv w !!! current_actor k) (message_bytes m) k = Overwrites va -> hands_over w s (Overwrote va).

(** ** Memory *)

Lemma load_byte_u8 va k b : load_byte va k = Ok b -> in_u8 b.
Proof. unfold load_byte. destruct (translate _ _); [|done]. intros [= <-]. apply u8_range. Qed.

Lemma load_bytes_u8 va n k l : load_bytes va n k = Ok l -> forall i, in_u8 (byte_in l i).
Proof.
  intros H i. assert (Hall : Forall in_u8 l).
  { revert va l H. induction n as [|n IH]; intros va l; cbn [load_bytes]; [by intros [= <-]; constructor|].
    destruct (load_byte va k) as [b| |] eqn:E; [|done..]. cbn [bind_access].
    destruct (load_bytes (va + 1) n k) as [l'| |] eqn:E'; [|done..]. intros [= <-].
    constructor; [by eapply load_byte_u8 | by eapply IH]. }
  unfold byte_in. destruct (l !! Z.to_nat i) as [b|] eqn:E; [|unfold in_u8; cbn; lia]. cbn. by eapply Forall_lookup.
Qed.

Lemma load_bytes_take va k l n : load_bytes va (length l) k = Ok l -> (n <= length l)%nat -> load_bytes va n k = Ok (take n l).
Proof.
  revert va n. induction l as [|b l IH]; intros va [|n]; cbn [length load_bytes]; intros H Hn; try done; [lia|].
  destruct (load_byte va k) as [b'| |]; [|done..]. cbn [bind_access] in *.
  destruct (load_bytes (va + 1) (length l) k) as [l'| |] eqn:E; [|done..]. injection H as -> ->.
  rewrite (IH _ n) by (done || lia). done.
Qed.

(** Whether a store succeeds depends on the page tables alone. *)
Lemma store_bytes_same va l k k' k1 : pg k' = pg k -> cr3 (mach (mem k')) = cr3 (mach (mem k)) ->
  store_bytes va l k = Ok k1 -> exists k2, store_bytes va l k' = Ok k2.
Proof.
  revert va k k'. induction l as [|b l IH]; intros va k k' Ep Ec; cbn [store_bytes]; [by eexists|].
  assert (Et : translate va k' = translate va k) by (unfold translate; by rewrite Ep, Ec).
  unfold store_byte. rewrite Et. destruct (translate va k) as [pa|]; [|done]. destruct (pa <? COMMONS_END); [done|].
  cbn [bind_access]. by apply IH.
Qed.

Lemma write_user_prints str : forall fuel va k c, con_ok c -> 0 ∈ str -> (length str <= fuel)%nat ->
  load_bytes va (length str) k = Ok str -> exists c', write_user fuel va k c = Ok (Some (Some c')).
Proof.
  induction str as [|b str IH]; intros fuel va k c Hc Hin Hf; cbn [length load_bytes] in *; [by apply not_elem_of_nil in Hin|].
  destruct fuel as [|fuel]; [lia|]. cbn [write_user]. destruct (load_byte va k) as [b'| |]; [|done..]. cbn [bind_access].
  destruct (load_bytes (va + 1) (length str) k) as [l'| |] eqn:E; [|done..]. intros [= -> ->].
  destruct (Z.eqb_spec b 0); [by eexists|]. destruct (putchar_ok b c Hc) as (c1 & -> & Hc1 & _).
  apply (IH fuel (va + 1) k c1); [done | | lia | done]. apply elem_of_cons in Hin. by destruct Hin as [<-|].
Qed.

Lemma models_store va l k k' s : store_bytes va l k = Ok k' -> kmodels k s -> kmodels k' s.
Proof. intros E. destruct (store_bytes_frame _ _ _ _ E) as [m ->]. by apply kmodels_act. Qed.

Lemma answers_plain r w s : models w s -> answers 0 (Back r w) r [] s.
Proof. intros H. by exists w, (w_kern w). Qed.

(** ** The kernel's operations *)

Lemma kern_call_answers f w r : simulates (f (w_kern w)) r -> omodels (w_sto w) r.2 ->
  answers 0 (kern_call f w) r.1 [] r.2.
Proof.
  unfold kern_call. destruct (f (w_kern w)) as [rc k]. intros [-> Hk] Ho. by apply answers_plain.
Qed.

Lemma sto_call_answers (f : storage D -> Z * storage D) w (r : Z * system) :
  r.1 = u64 (f (w_sto w)).1 -> omodels (f (w_sto w)).2 r.2 -> kmodels (w_kern w) r.2 -> answers 0 (sto_call f w) r.1 [] r.2.
Proof. unfold sto_call. destruct (f (w_sto w)) as [rc st]. intros -> Ho Hk. by apply answers_plain. Qed.

(** ** Leaving *)

(** A switch that goes away lands somewhere. *)
Lemma land_hands_over live k0 k w s : scheduled live k0 false k -> kmodels k s -> omodels (w_sto w) s -> hands_over w s (land k w).
Proof.
  intros Hs H Ho. unfold land. destruct (resume k) as [l k'] eqn:E. pose proof (resume_sim Hcode live k0 k s l k' Hs H E) as Hl.
  destruct l as [| |m| |]; try by constructor.
  destruct (store_bytes _ _ _) as [k2|va|va] eqn:Es; cbn [bind_access finish].
  - constructor; [|done]. destruct Hl as (rest & Hb & Hk). destruct (store_bytes_frame _ _ _ _ Es) as [mm ->]. exists rest.
    split; [exact Hb | by apply (kmodels_act k')].
  - by eapply BadBuffer.
  - by eapply KernelBuffer.
Qed.

(** A dead actor is not switched back to. *)
Lemma dead_not_next sv k : -1 <= current_actor k < MAX_ACTORS -> is_dead (act k (current_actor k)) = true ->
  (switch_to_next sv k).1 = false.
Proof.
  intros Hc Hd. unfold switch_to_next. destruct (pick_next k) as [next|] eqn:Ep; [|done].
  destruct (pick_next_spec k next Hc Ep) as [_ Hrun]. destruct (Z.eqb_spec next (current_actor k)) as [->|]; [|done].
  unfold runnable in Hrun. apply is_dead_true in Hd. by rewrite Hd in Hrun.
Qed.

Lemma dead_is_gone sv k : -1 <= current_actor k < MAX_ACTORS -> is_dead (act k (current_actor k)) = true ->
  (schedule_next sv k).1 = false.
Proof.
  intros Hc Hd. unfold schedule_next. apply dead_not_next; rewrite reap_current; [exact Hc|].
  rewrite (reap_kept is_dead) by done. by rewrite act_disable.
Qed.

Lemma exit_is_gone k : 0 <= current_actor k < MAX_ACTORS -> (leave ACTOR_DEAD FExit k).1 = false.
Proof.
  intros Hc. unfold leave. apply dead_is_gone; cbn [current_actor set_frame upd set_actors]; [lia|].
  change (act (set_frame ?i ?f ?k2) ?j) with (act k2 j). by rewrite act_upd_eq.
Qed.

Lemma sys_yield_models w s : machine_ok w -> in_syscall (w_kern w) -> models w s ->
  alive (current_actor (w_kern w)) s = true ->
  answers 0 (sys_yield w) 0 [] s \/ hands_over w s (sys_yield w).
Proof.
  intros Hw [Hh H0 Hst _] [Hk Ho] Hal. destruct (sound_kinv _ (ok_kern _ Hw) Hh) as [live Hi].
  pose proof (kc_cur _ _ (proj1 Hi)) as Hcur. unfold sys_yield. destruct (actor_yield (w_kern w)) as [b k'] eqn:E.
  destruct (yield_sim Hcode live _ s b k' Hi Hk ltac:(lia) Hst Hh Hal E) as (Hm & live' & k0 & Hs).
  destruct b; [left; by apply answers_plain | right; by eapply land_hands_over].
Qed.

Lemma sys_exit_models w s : machine_ok w -> in_syscall (w_kern w) -> models w s ->
  hands_over w (kill (current_actor (w_kern w)) s) (sys_exit w).
Proof.
  intros Hw [Hh H0 Hst _] [Hk Ho]. destruct (sound_kinv _ (ok_kern _ Hw) Hh) as [live Hi].
  pose proof (kc_cur _ _ (proj1 Hi)) as Hcur. unfold sys_exit. destruct (actor_exit (w_kern w)) as [b k'] eqn:E.
  destruct (exit_sim Hcode live _ s b k' Hi Hk ltac:(lia) Hst Hh E) as (Hm & live' & k0 & Hs).
  pose proof (exit_is_gone (hal_disable_interrupts (w_kern w)) ltac:(cbn [current_actor hal_disable_interrupts set_irq]; lia)) as Hg.
  rewrite exit_leave in E. rewrite E in Hg. cbn [fst] in Hg. subst b. by eapply land_hands_over.
Qed.

Lemma sys_receive_models a1 size w s : machine_ok w -> in_syscall (w_kern w) -> models w s ->
  alive (current_actor (w_kern w)) s = true -> passes (w_kern w) a1 (Out size) -> 24 <= size ->
  match box (current_actor (w_kern w)) s with
  | m :: rest => answers a1 (sys_receive a1 w) 0 (message_bytes m) (set_mail (<[current_actor (w_kern w) := rest]> (mail s)) s)
  | [] => hands_over (set_recv (<[current_actor (w_kern w) := a1]> (w_recv w)) w) s (sys_receive a1 w)
  end.
Proof.
  intros Hw [Hh H0 Hst _] [Hk Ho] Hal Hp Hsz. destruct (sound_kinv _ (ok_kern _ Hw) Hh) as [live Hi].
  pose proof (kc_cur _ _ (proj1 Hi)) as Hcur. unfold sys_receive. set (w1 := set_recv _ w). change (w_kern w1) with (w_kern w).
  pose proof (receive_sim Hcode live _ s Hi Hk ltac:(lia) Hst Hh Hal) as Hr.
  destruct (box (current_actor (w_kern w)) s) as [|m rest].
  - destruct Hr as (k' & live' & k0 & -> & Hm & Hs). by eapply land_hands_over.
  - destruct Hr as (k' & -> & _ & Em & Ep & Hm). destruct (Hp (message_bytes m)) as [k1 Es]; [assert (length (message_bytes m) = 24%nat) as -> by reflexivity; lia|].
    destruct (store_bytes_same a1 _ _ k' k1 Ep ltac:(by rewrite Em) Es) as [k2 Es2]. rewrite Es2. cbn [bind_access finish].
    exists (set_kern k2 w1), k'. split; [done|]. split; [|done]. split; [by eapply models_store | exact Ho].
Qed.

(** ** Objects *)

Lemma kmodels_labels k s m : kmodels k s -> kmodels k (set_labelled m s).
Proof. intros [Hs Hr]. split; [|exact Hr]. intros i Hi. apply (slot_models_same i s); [by split | by apply Hs]. Qed.
Lemma kmodels_object k s id tr data : kmodels k s -> kmodels k (set_object id tr data s).
Proof. apply kmodels_labels. Qed.
#[local] Hint Resolve kmodels_object : core.

(** A call on an object without the capability is refused, as [serve] refuses it. *)
Lemma with_cap_answers op t w s reg o r mem s' : kmodels (w_kern w) s -> 0 <= current_actor (w_kern w) < MAX_ACTORS -> op <> 0 ->
  models w s -> (allowed (current_actor (w_kern w)) op t s = true -> answers reg o r mem s') ->
  (allowed (current_actor (w_kern w)) op t s = false -> r = refusal /\ mem = [] /\ s' = s) ->
  answers reg (with_cap op t w o) r mem s'.
Proof.
  intros Hk Hc Hop Hm Hyes Hno. unfold with_cap, actor_current_has_cap. zcmp. rewrite (allowed_has _ s) by done.
  destruct (allowed _ op t s); [by apply Hyes|]. destruct (Hno eq_refl) as (-> & -> & ->). by exists w, (w_kern w).
Qed.

(** The same for a call that may fall short. *)
Lemma with_cap_short op t w s reg o r mem s' (F : Prop) s2 : kmodels (w_kern w) s -> 0 <= current_actor (w_kern w) < MAX_ACTORS -> op <> 0 ->
  models w s -> (allowed (current_actor (w_kern w)) op t s = true -> answers reg o r mem s' \/ F /\ answers 0 o refusal [] s2) ->
  (allowed (current_actor (w_kern w)) op t s = false -> r = refusal /\ mem = [] /\ s' = s) ->
  answers reg (with_cap op t w o) r mem s' \/ F /\ answers 0 (with_cap op t w o) refusal [] s2.
Proof.
  intros Hk Hc Hop Hm Hyes Hno. unfold with_cap, actor_current_has_cap. zcmp. rewrite (allowed_has _ s) by done.
  destruct (allowed _ op t s); [by apply Hyes|]. left. destruct (Hno eq_refl) as (-> & -> & ->). by exists w, (w_kern w).
Qed.

Lemma sys_object_read_models id a2 len w s : machine_ok w -> models w s -> 0 <= current_actor (w_kern w) < MAX_ACTORS ->
  is_Some (labelled s !! int32 id) -> in_u32 len -> passes (w_kern w) a2 (Out len) ->
  let r := do_read (current_actor (w_kern w)) (int32 id) len s in
  let o := with_cap CAP_READ_OBJECT (int32 id) w (sys_object_read id a2 len w) in
  answers a2 o r.1 r.2 s \/ read_fails (int32 id) (w_sto w) /\ answers 0 o refusal [] s.
Proof.
  intros Hw [Hk Ho] Hc Hl H32 Hp r o. subst o. apply (with_cap_short _ _ _ s); [done..| |].
  - intros Ha. unfold sys_object_read. rewrite (u32_small _ H32).
    destruct (storage_read _ _ _ _) as [[rc buf] st] eqn:E. unfold in_u32 in H32.
    destruct (read_sim _ _ _ _ len rc buf st (ok_sto _ Hw) Ho Hl Ha ltac:(lia) E) as [Ho' [Hr|[Hf ->]]].
    2: { right. split; [exact Hf|]. by apply answers_plain. }
    left. fold r in Hr. assert (Hlen : Z.of_nat (length r.2) <= len).
    { unfold r, do_read. destruct Hl as [[tr data] ->]. destruct (_ || _); cbn [snd length]; [lia|]. rewrite length_take. lia. }
    rewrite Hr in Hlen |- *. cbn [fst snd] in *. destruct (Hp _ Hlen) as [k1 Es].
    change (w_kern (set_sto st w)) with (w_kern w). rewrite Es. cbn [bind_access finish].
    exists (set_kern k1 (set_sto st w)), (w_kern w). split; [done|]. split; [|done].
    split; [by eapply models_store | exact Ho'].
  - intros Ha. unfold r, do_read. destruct Hl as [[tr data] ->]. by rewrite Ha.
Qed.

Lemma sys_object_write_models id a2 mem len w s : machine_ok w -> models w s -> 0 <= current_actor (w_kern w) < MAX_ACTORS ->
  is_Some (labelled s !! int32 id) -> in_u32 len -> len <= Z.of_nat (length mem) -> passes (w_kern w) a2 (In mem) ->
  let r := do_write (current_actor (w_kern w)) (int32 id) mem len s in
  let o := with_cap CAP_WRITE_OBJECT (int32 id) w (sys_object_write id a2 len w) in
  answers 0 o r.1 [] r.2 \/ write_fails (int32 id) (w_sto w) /\ answers 0 o refusal [] (forget (int32 id) s).
Proof.
  intros Hw [Hk Ho] Hc Hl H32 Hlen Hp r o. subst o. apply (with_cap_short _ _ _ s); [done..| |].
  - intros Ha. unfold sys_object_write. rewrite (u32_small _ H32). unfold in_u32 in H32.
    destruct Hl as [[tr data] El]. destruct (om_good _ _ _ _ (ok_sto _ Hw) (Ho _ _ _ El)) as (-> & _). cbn [orb].
    rewrite (load_bytes_take _ _ mem) by (done || lia).
    set (l := if OBJECT_MAX_BYTES <? len then [] else take (Z.to_nat len) mem).
    assert (H8 : forall i, in_u8 (byte_in l i)).
    { intros i. unfold l. destruct (_ <? _); [unfold in_u8, byte_in; rewrite lookup_nil; cbn; lia|].
      eapply load_bytes_u8. apply (load_bytes_take _ _ mem (Z.to_nat len) Hp). lia. }
    assert (Hll : len <= OBJECT_MAX_BYTES -> l = take (Z.to_nat len) mem) by (intros; unfold l; by zcmp).
    assert (Er : r = do_write (current_actor (w_kern w)) (int32 id) l len s).
    { unfold r, do_write. destruct (Z.leb_spec len OBJECT_MAX_BYTES) as [Hle|]; [|by rewrite !andb_false_r].
      rewrite (Hll Hle), take_take, Nat.min_id. done. }
    replace (if OBJECT_MAX_BYTES <? len then Ok [] else Ok (take (Z.to_nat len) mem)) with (Ok l) by (unfold l; by destruct (_ <? _)).
    cbn [bind_access]. destruct (storage_write _ _ _ _) as [rc st] eqn:E.
    destruct (write_sim _ _ (current_actor (w_kern w)) (int32 id) l len rc st (ok_sto _ Hw) Ho ltac:(by eexists) Ha ltac:(lia)
      ltac:(intros Hle; rewrite (Hll Hle), length_take; lia) H8 E)
      as [[Hr Ho']|(Hf & -> & Ho')].
    2: { right. split; [exact Hf|]. apply answers_plain. by split; [apply kmodels_labels|]. }
    left. rewrite <- Er in Hr, Ho'. cbn [finish]. rewrite Hr. apply answers_plain. split; [|exact Ho'].
    unfold r, do_write. destruct (_ && _); cbn [snd]; auto.
  - intros Ha. unfold r, do_write. by rewrite Ha.
Qed.

Lemma sto_call_models (f : storage D -> Z * storage D) w s (r : Z * system) : models w s -> 0 <= current_actor (w_kern w) < MAX_ACTORS ->
  (allowed (current_actor (w_kern w)) CAP_PROMOTE_OBJECT 0 s = true -> r.1 = u64 (f (w_sto w)).1 /\ omodels (f (w_sto w)).2 r.2) ->
  (allowed (current_actor (w_kern w)) CAP_PROMOTE_OBJECT 0 s = false -> r = (refusal, s)) -> kmodels (w_kern w) r.2 ->
  answers 0 (with_cap CAP_PROMOTE_OBJECT 0 w (sto_call f w)) r.1 [] r.2.
Proof.
  intros Hm Hc Hyes Hno Hk. apply (with_cap_answers _ _ _ s); [apply Hm | done..| |].
  - intros Ha. destruct (Hyes Ha) as [H1 H2]. by apply sto_call_answers.
  - intros Ha. by rewrite (Hno Ha).
Qed.

Lemma relate_labelled slot child s : labelled (relate slot child s) = labelled s.
Proof. unfold relate. assert (E : forall d o t s', labelled (add_cap d o t s').2 = labelled s') by (intros; unfold add_cap; by destruct (_ <? _)). by rewrite !E. Qed.
Lemma do_grant_labelled slot d o t s : labelled (do_grant slot d o t s).2 = labelled s.
Proof. unfold do_grant. destruct (o =? 0); [done|]. destruct (_ && _); [|done]. unfold add_cap. by destruct (_ <? _). Qed.
Lemma spend_labelled slot s : labelled (spend slot s) = labelled s.
Proof. done. Qed.
Lemma occupy_labelled child f s : labelled (occupy child f s) = labelled s.
Proof.
  unfold occupy. set (s0 := System _ _ _ _ _ _ _). destruct (continue_rest child (Some f) [] (program_of f) s0) as (_ & _ & _ & E).
  exact E.
Qed.
Lemma do_spawn_labelled slot f s : labelled (do_spawn slot f s).2 = labelled s.
Proof.
  unfold do_spawn. destruct (_ && _); [|done]. destruct (free_slot s) as [child|]; [|done]. cbn [snd].
  by rewrite relate_labelled, spend_labelled, occupy_labelled.
Qed.

Lemma promote_models id w s : machine_ok w -> models w s -> 0 <= current_actor (w_kern w) < MAX_ACTORS -> is_Some (labelled s !! id) ->
  let r := do_promote (current_actor (w_kern w)) id s in
  answers 0 (with_cap CAP_PROMOTE_OBJECT 0 w (sto_call (storage_promote id) w)) r.1 [] r.2.
Proof.
  intros Hw Hm Hc Hl r. apply (sto_call_models _ w s r); [done | done | | |].
  - intros Ha. apply promote_sim; [apply Hw | apply Hm | done | done].
  - intros Ha. unfold r, do_promote. destruct Hl as [[tr data] ->]. by rewrite Ha.
  - unfold r, do_promote. destruct Hl as [[tr data] ->]. destruct (_ || _); cbn [snd]; [|apply kmodels_object]; apply Hm.
Qed.

Lemma reject_models id w s : machine_ok w -> models w s -> 0 <= current_actor (w_kern w) < MAX_ACTORS -> is_Some (labelled s !! id) ->
  let r := do_reject (current_actor (w_kern w)) id s in
  answers 0 (with_cap CAP_PROMOTE_OBJECT 0 w (sto_call (storage_reject id) w)) r.1 [] r.2.
Proof.
  intros Hw Hm Hc Hl r. apply (sto_call_models _ w s r); [done | done | | |].
  - intros Ha. apply reject_sim; [apply Hw | apply Hm | done | done].
  - intros Ha. unfold r, do_reject. destruct Hl as [[tr data] ->]. by rewrite Ha.
  - unfold r, do_reject. destruct Hl as [[tr data] ->]. destruct (allowed _ _ _ _); cbn [snd]; [apply kmodels_object|]; apply Hm.
Qed.

(** ** The handler implements the abstract machine *)

(** The register a call's results go through. *)
Definition out_reg (u1 u2 : uarg) (a1 a2 : Z) : Z :=
  match u1, u2 with Out _, _ => a1 | _, Out _ => a2 | _, _ => 0 end.

Lemma sys_write_models fuel a1 str w s : machine_ok w -> models w s -> passes (w_kern w) a1 (In str) -> 0 ∈ str ->
  (length str <= fuel)%nat -> answers 0 (sys_write fuel a1 w) 0 [] (say (current_actor (w_kern w)) (before_nul str) s).
Proof.
  intros Hw [Hk Ho] Hp Hin Hf. unfold sys_write.
  destruct (write_user_prints str fuel a1 (w_kern w) _ (set_window_ok (actor_current_window (w_kern w)) _ (ok_con _ Hw)) Hin Hf Hp)
    as [c' ->].
  cbn [bind_access finish]. apply answers_plain. split; [|exact Ho]. destruct Hk as [Hs Hr]. split; [|exact Hr].
  intros i Hi. apply (slot_models_same i s); [by split | by apply Hs].
Qed.

Lemma spawn_models a1 f w s : machine_ok w -> in_syscall (w_kern w) -> models w s -> alive (current_actor (w_kern w)) s = true ->
  let r := do_spawn (current_actor (w_kern w)) f s in
  answers 0 (kern_call (actor_spawn_child a1) w) r.1 [] r.2 \/
  short_of_memory (w_kern w) /\ answers 0 (kern_call (actor_spawn_child a1) w) refusal [] s.
Proof.
  intros Hw [Hh H0 _ _] [Hk Ho] Hal r. destruct (sound_kinv _ (ok_kern _ Hw) Hh) as [live Hi].
  pose proof (kc_cur _ _ (proj1 Hi)) as Hcur.
  destruct (spawn_sim live _ s a1 f (proj1 Hi) Hk ltac:(lia) Hal) as [Hs|(Hm & Hr & Hk')]; [left | right].
  - apply (kern_call_answers _ w r); [exact Hs|]. apply (omodels_labels _ s); [apply do_spawn_labelled | exact Ho].
  - split; [exact Hm|]. apply (kern_call_answers _ w (refusal, s)); [|exact Ho]. split; [by rewrite Hr | exact Hk'].
Qed.

Lemma handler_serves fuel num a1 a2 a3 u1 u2 u3 w s :
  machine_ok w -> in_syscall (w_kern w) -> models w s -> alive (current_actor (w_kern w)) s = true ->
  request fuel s num u1 u2 u3 -> passes (w_kern w) a1 u1 -> passes (w_kern w) a2 u2 -> passes (w_kern w) a3 u3 ->
  let slot := current_actor (w_kern w) in
  let o := syscall_handler fuel num a1 a2 a3 w in
  match serve slot num u1 u2 u3 s with
  | Some ((r, mem), s') =>
      answers (out_reg u1 u2 a1 a2) o r mem s' \/
      num = SYS_YIELD /\ hands_over w s o \/
      (exists s2, falls_short w s num u1 s2 /\ answers 0 o refusal [] s2)
  | None =>
      num = SYS_EXIT /\ hands_over w (kill slot s) o \/
      num = SYS_RECEIVE /\ box slot s = [] /\ hands_over (set_recv (<[slot := a1]> (w_recv w)) w) s o
  end.
Proof.
  intros Hw Hin Hm Hal Hreq P1 P2 P3 slot o.
  assert (Hc : 0 <= current_actor (w_kern w) < MAX_ACTORS).
  { destruct (sound_kinv _ (ok_kern _ Hw) (is_run _ Hin)) as [live Hi]. pose proof (kc_cur _ _ (proj1 Hi)). pose proof (is_cur _ Hin). lia. }
  destruct Hreq; cbn [passes] in P1, P2, P3; subst a1 a2 a3 || subst a1 a3 || subst a1 a2 || subst a1 || idtac.
  - left. by apply sys_write_models.
  - destruct (sys_yield_models w s Hw Hin Hm Hal) as [H|H]; [left; exact H | right; left; by split].
  - left. split; [done|]. by apply sys_exit_models.
  - left. refine (kern_call_answers _ w _ (send_sim _ s (int32 d) ty x (proj1 Hm) Hc) _).
    apply (omodels_labels _ s); [|apply Hm]. unfold do_send. by destruct (_ && _).
  - cbn [serve Z.eqb SYS_RECEIVE]. pose proof (sys_receive_models a1 size w s Hw Hin Hm Hal P1 ltac:(done)) as Hr. fold slot in Hr. unfold o. cbn [out_reg].
    destruct (box slot s) as [|m rest]; [right | left; exact Hr]. split; [done|]. split; [done|]. exact Hr.
  - left. refine (kern_call_answers _ w _ (grant_sim _ s (int32 d) (int32 op) (int32 t) (proj1 Hm) Hc) _).
    apply (omodels_labels _ s); [|apply Hm]. apply do_grant_labelled.
  - destruct (spawn_models a1 f w s Hw Hin Hm Hal) as [H|[H1 H2]]; [left; exact H | right; right].
    exists s. split; [by apply FsSpawn | exact H2].
  - left. refine (kern_call_answers _ w _ (terminate_sim _ s (int32 t) (proj1 Hm) Hc) _).
    apply (omodels_labels _ s); [|apply Hm]. unfold do_terminate. by destruct (_ && _).
  - pose proof (sys_object_read_models id a2 len w s Hw Hm Hc ltac:(done) ltac:(done) P2) as Hr. cbv zeta in Hr. fold slot in Hr.
    change (serve slot SYS_OBJECT_READ (Val id) (Out len) (Val len) s) with (Some (do_read slot (int32 id) len s, s)).
    destruct (do_read slot (int32 id) len s) as [r mem]. destruct Hr as [Hr|[Hf Hr]]; [left; exact Hr | right; right].
    exists s. split; [by apply FsRead | exact Hr].
  - destruct (sys_object_write_models id a2 mem len w s Hw Hm Hc ltac:(done) ltac:(done) ltac:(done) P2) as [Hr|[Hf Hr]];
      [left; exact Hr | right; right]. exists (forget (int32 id) s). split; [by apply FsWrite | exact Hr].
  - left. exact (promote_models (int32 id) w s Hw Hm Hc ltac:(done)).
  - left. exact (reject_models (int32 id) w s Hw Hm Hc ltac:(done)).
Qed.


(** ** The programs *)

Lemma alive_others i s s' : procs s' = procs s -> others s' = others s -> alive i s' = alive i s.
Proof. unfold alive. by intros -> ->. Qed.

Lemma alive_relate slot child s i : alive i (relate slot child s) = alive i s.
Proof.
  apply alive_others; unfold relate; [by rewrite !add_cap_procs|].
  assert (E : forall d o t s', others (add_cap d o t s').2 = others s') by (intros; unfold add_cap; by destruct (_ <? _)). by rewrite !E.
Qed.
Lemma alive_spend slot s i : alive i (spend slot s) = alive i s.
Proof. done. Qed.
Lemma alive_occupy child f s i : alive i (occupy child f s) = (i =? child) || alive i s.
Proof. unfold occupy. rewrite alive_continue. done. Qed.

Lemma do_spawn_alive slot f s i : alive i s = true -> alive i (do_spawn slot f s).2 = true.
Proof.
  intros H. unfold do_spawn. destruct (_ && _); [|done]. destruct (free_slot s) as [child|]; [|done]. cbn [snd].
  rewrite alive_relate, alive_spend, alive_occupy, H. apply orb_true_r.
Qed.

Lemma do_terminate_alive slot t s : alive slot s = true -> alive slot (do_terminate slot t s).2 = true.
Proof.
  intros H. unfold do_terminate. destruct (in_range t && _ && _) eqn:E; [|done]. cbn [snd]. rewrite alive_kill, H.
  apply andb_prop in E as [E _]. apply andb_prop in E as [_ E]. by rewrite Z.eqb_sym, E.
Qed.

Lemma do_alive slot s (r : Z * system) : procs r.2 = procs s -> others r.2 = others s -> alive slot s = true -> alive slot r.2 = true.
Proof. intros E1 E2 <-. by apply alive_others. Qed.

(** A caller survives any call that answers it. *)
Lemma serve_alive fuel slot num u1 u2 u3 s r s' : request fuel s num u1 u2 u3 -> serve slot num u1 u2 u3 s = Some (r, s') ->
  alive slot s = true -> alive slot s' = true.
Proof.
  intros Hreq E Hal. destruct Hreq; try (injection E as <- <-; exact Hal); try discriminate E.
  - injection E as <- <-. apply (do_alive _ s); [apply do_send_procs | unfold do_send; by destruct (_ && _) | done].
  - cbn [serve Z.eqb SYS_RECEIVE Pos.eqb] in E. destruct (box slot s); [discriminate E|]. by injection E as <- <-.
  - injection E as <- <-. apply (do_alive _ s); [apply do_grant_procs | | done].
    unfold do_grant. destruct (int32 op =? 0); [done|]. destruct (_ && _); [|done]. unfold add_cap. by destruct (_ <? _).
  - injection E as <- <-. by apply do_spawn_alive.
  - injection E as <- <-. by apply do_terminate_alive.
  - injection E as <- <-. apply (do_alive _ s); [apply do_write_procs | unfold do_write; by destruct (_ && _) | done].
  - injection E as <- <-. apply (do_alive _ s); [apply do_promote_procs | | done].
    unfold do_promote. destruct (labelled s !! int32 id) as [[tr data]|]; [|done]. by destruct (_ || _).
  - injection E as <- <-. apply (do_alive _ s); [apply do_reject_procs | | done].
    unfold do_reject. destruct (labelled s !! int32 id) as [[tr data]|]; [|done]. by destruct (allowed _ _ _ _).
Qed.

Lemma step_calls slot s p num u1 u2 u3 next : procs s !! slot = Some p -> upcoming 8 (p_rest p) = Calls num u1 u2 u3 next ->
  step slot s = if num =? SYS_EXIT then Some (kill slot s)
    else '(r, s) ← serve slot num u1 u2 u3 s; Some (continue slot (p_from p) (r :: p_heard p) (next r) s).
Proof. intros E1 E2. unfold step. rewrite E1. cbn [mbind option_bind]. by rewrite E2. Qed.

Lemma models_continue w s slot from heard t : models w s -> alive slot s = true -> models w (continue slot from heard t s).
Proof.
  intros [Hk Ho] Hal. split; [by apply continue_sim|]. apply (omodels_labels _ s); [|done]. apply continue_rest.
Qed.

Lemma falls_short_alive w s num u1 s2 i : falls_short w s num u1 s2 -> alive i s2 = alive i s.
Proof. by destruct 1. Qed.

(** C6: the machine runs the programs.  Let the program of the actor that is
    running be about to make the call the registers carry, one of those of C1.
    If the handler returns [r], the bytes [mem] it stored through the caller's
    pointer are there, and the program that hears exactly [r] and [mem] and goes
    on from there is the abstract actor's step, to a state that models the
    machine; unless the machine falls short as in C1, where the program hears
    the refusal.  Output and yields, which the abstract machine runs through,
    change nothing of what it records.  An exit is the abstract step that ends
    the actor; a receive that hands over is an abstract actor that cannot step. *)
Theorem kernel_runs_the_programs fuel num a1 a2 a3 u1 u2 u3 w s p next :
  machine_ok w -> in_syscall (w_kern w) -> models w s ->
  procs s !! current_actor (w_kern w) = Some p -> upcoming 8 (p_rest p) = Calls num u1 u2 u3 next ->
  request fuel s num u1 u2 u3 -> passes (w_kern w) a1 u1 -> passes (w_kern w) a2 u2 -> passes (w_kern w) a3 u3 ->
  let slot := current_actor (w_kern w) in
  match syscall_handler fuel num a1 a2 a3 w with
  | Back r w' => exists mem k s2,
      let s' := continue slot (p_from p) ((r, mem) :: p_heard p) (next (r, mem)) s2 in
      store_bytes (out_reg u1 u2 a1 a2) mem k = Ok (w_kern w') /\ models w' s' /\
      (step slot s = Some s' \/ falls_short w s num u1 s2 /\ r = refusal /\ mem = [])
  | o =>
      num = SYS_EXIT /\ step slot s = Some (kill slot s) /\ hands_over w (kill slot s) o \/
      num = SYS_YIELD /\ hands_over w s o \/
      num = SYS_RECEIVE /\ step slot s = None /\ hands_over (set_recv (<[slot := a1]> (w_recv w)) w) s o
  end.
Proof.
  intros Hw Hin Hm Hp Hu Hreq P1 P2 P3 slot.
  assert (Hal : alive slot s = true) by (unfold alive, slot; by rewrite Hp).
  pose proof (handler_serves fuel num a1 a2 a3 u1 u2 u3 w s Hw Hin Hm Hal Hreq P1 P2 P3) as H. cbv zeta in H. fold slot in H.
  pose proof (step_calls slot s p num u1 u2 u3 next Hp Hu) as Hstep.
  generalize dependent (syscall_handler fuel num a1 a2 a3 w). intros o H.
  destruct (serve slot num u1 u2 u3 s) as [[[r mem] s1]|] eqn:Es.
  - assert (He : (num =? SYS_EXIT) = false) by (apply Z.eqb_neq; intros ->; inversion Hreq; subst; discriminate Es).
    rewrite He in Hstep. cbn [mbind option_bind] in Hstep.
    destruct H as [(w' & k1 & -> & Hm' & Hst)|[[-> Hh]|(s2 & Hs & w' & k1 & -> & Hm' & Hst)]].
    + exists mem, k1, s1. cbv zeta. split_and!; [exact Hst| |by left]. apply models_continue; [exact Hm'|].
      by apply (serve_alive fuel slot num u1 u2 u3 s (r, mem)).
    + destruct Hh; right; left; (split; [done|]); by econstructor.
    + exists [], (w_kern w'), s2. cbv zeta. split_and!; [done| |by right]. apply models_continue; [exact Hm'|].
      by rewrite (falls_short_alive _ _ _ _ _ slot Hs).
  - destruct H as [[-> Hh]|(-> & Hb & Hh)].
    + assert (Hk : step slot s = Some (kill slot s)) by exact Hstep. destruct Hh; left; (split; [done|]); (split; [exact Hk|]); by econstructor.
    + assert (Hn : step slot s = None) by exact Hstep. destruct Hh; right; right; (split; [done|]); (split; [exact Hn|]); by econstructor.
Qed.
End calls.

(** ** Good buffers *)

(** The stack page of the actor that calls is room for results. *)
Lemma own_page_is_room {L : layout} {LOK : layout_ok L} {KL : klayout} {KC : kcode} live k reg size : kinv live k -> in_syscall k ->
  stack_page (act k (current_actor k)) <= reg -> reg + size <= stack_page (act k (current_actor k)) + ACTOR_STACK_SIZE ->
  passes k reg (Out size).
Proof.
  intros [Hc Hr] [_ H0 _ Hs] Hlo Hhi l Hl. pose proof (kc_cur _ _ Hc) as Hcur.
  pose proof (proj2 (Hr (current_actor k) ltac:(lia)) eq_refl) as Hrun.
  destruct (so_alive _ _ _ _ _ _ _ (kc_slot _ _ Hc (current_actor k) ltac:(lia))) as (_ & _ & prog & Hsp & _); [by rewrite Hrun|].
  destruct (own_page_maps _ _ _ _ Hsp Hs) as [Hp Hm].
  destruct (store_bytes_maps reg reg l k) as (m & -> & _); [|by eexists]. split; [lia|]. intros i Hi.
  set (page := stack_page _) in *. replace (reg + i) with (page + (reg - page + i)) by lia. apply Hm. lia.
Qed.

(** ** A machine and the state that models it *)
Module SimulationDemo.
Import RamDisk Demo SyscallDemo.

(** [slot_models], as a test. *)
Definition slot_check (i : Z) (s : system) (a : actor) : bool :=
  eqb (alive i s) (negb (is_dead a)) &&
  ((0 <=? mailbox_head a) && (mailbox_head a <? MAILBOX_CAPACITY)) &&
  ((0 <=? mailbox_count a) && (mailbox_count a <=? MAILBOX_CAPACITY)) &&
  bool_decide (queue a = box i s) &&
  forallb (fun j => bool_decide (caps a !!! j = default (Capability 0 0) (table i s !! Z.to_nat j))) (seqZ 0 MAX_CAPS_PER_ACTOR) &&
  forallb (fun c => negb (c_op c =? 0)) (table i s) &&
  (Z.of_nat (length (table i s)) <=? MAX_CAPS_PER_ACTOR) &&
  (spawn_quota a - spawn_count a =? spawns_left i s).

Lemma slot_check_ok i s a : slot_check i s a = true -> slot_models i s a.
Proof.
  unfold slot_check. intros H. repeat (apply andb_prop in H as [H ?]). split.
  - by apply eqb_prop.
  - repeat match goal with E : (_ && _) = true |- _ => apply andb_prop in E as [? ?] end. split; lia.
  - by eapply bool_decide_eq_true_1.
  - intros j Hj. assert (Hall : Forall (fun j => bool_decide (caps a !!! j = default (Capability 0 0) (table i s !! Z.to_nat j)) = true)
      (seqZ 0 MAX_CAPS_PER_ACTOR)) by (by apply List.Forall_forall, List.forallb_forall).
    rewrite List.Forall_forall in Hall. apply bool_decide_eq_true_1 with (1 := Hall j ltac:(apply list_elem_of_In, elem_of_seqZ; lia)).
  - apply List.Forall_forall. intros c Hc. pose proof (proj1 (List.forallb_forall _ _) H2 c Hc) as Hc0. cbv beta in Hc0. by apply negb_true_iff, Z.eqb_neq in Hc0.
  - lia.
  - lia.
Qed.

(** [SyscallDemo.world0]: actor 0 runs, with three capabilities, and object 0
    holds the stored program. *)
Definition state0 : system :=
  System ∅ [0] ∅ {[0 := [Capability CAP_SPAWN 0; Capability CAP_READ_OBJECT 0; Capability CAP_CREATE_OBJECT 0]]} ∅
    {[0 := (OBJ_UNTRUSTED, LoaderDemo.image2)]} ∅.

Lemma state0_checks : forallb (fun i => slot_check i state0 (act kernS i)) (seqZ 0 MAX_ACTORS) = true.
Proof. vm_compute. reflexivity. Qed.

Lemma world0_object : forallb (fun i => data_byte (w_sto world0) 0 i =? byte_in LoaderDemo.image2 i) (seqZ 0 14) = true /\
  Storage.live (w_sto world0) 0 = true /\ trust (obj (w_sto world0) 0) = OBJ_UNTRUSTED /\ size_bytes (obj (w_sto world0) 0) = 14.
Proof. vm_compute. split_and!; reflexivity. Qed.

Lemma checked (P : Z -> bool) n i : forallb P (seqZ 0 n) = true -> 0 <= i < n -> P i = true.
Proof. intros H Hi. apply (proj1 (List.forallb_forall _ _) H). apply list_elem_of_In, elem_of_seqZ. lia. Qed.

Lemma state0_kern k : forallb (fun i => slot_check i state0 (act k i)) (seqZ 0 MAX_ACTORS) = true -> kmodels k state0.
Proof.
  intros H. split; [intros i Hi; by apply slot_check_ok, (checked (fun i => slot_check i state0 (act k i)) MAX_ACTORS)|].
  intros i. unfold alive. cbn [procs others state0]. rewrite lookup_empty.
  rewrite (bool_decide_eq_false_2 (is_Some None)) by (by intros [? ?]). cbn [orb].
  intros Hi%bool_decide_eq_true_1. apply elem_of_cons in Hi as [->|Hi]; [unfold MAX_ACTORS; lia | by apply not_elem_of_nil in Hi].
Qed.

Lemma state0_store (st : storage ram_disk) : forallb (fun i => data_byte st 0 i =? byte_in LoaderDemo.image2 i) (seqZ 0 14) = true ->
  Storage.live st 0 = true /\ trust (obj st 0) = OBJ_UNTRUSTED /\ size_bytes (obj st 0) = 14 -> omodels st state0.
Proof.
  intros Hd (Hl & Ht & Hs) id tr data. cbn [labelled state0]. intros [<- [= <- <-]]%lookup_singleton_Some.
  split; [unfold MAX_OBJECTS; lia | exact Hl | exact Ht | exact Hs|].
  intros i Hi. apply Z.eqb_eq. by apply (checked (fun i => data_byte st 0 i =? byte_in LoaderDemo.image2 i) 14).
Qed.

Lemma world0_models : models world0 state0.
Proof.
  split; [exact (state0_kern kernS state0_checks)|]. destruct world0_object as [Hd Ho]. exact (state0_store (w_sto world0) Hd Ho).
Qed.

Lemma own_page0 : stack_page (act (w_kern world0) 0) = buffer.
Proof. vm_compute. reflexivity. Qed.

(** The drive in memory refuses nothing. *)
Lemma ram_does_not_fall_short {B N} (w : world B ram_disk N) s id s2 : ~ falls_short w s SYS_OBJECT_READ (Val id) s2.
Proof. inversion 1 as [|? Hf|]. by apply Hf. Qed.


(** The same machine, its actor running a program that reads the object. *)
Definition reads_it : proc unit := _ ← user_object_read 0 20; user_exit.
Definition after_read : Z * list Z -> proc unit :=
  match upcoming 8 reads_it with Calls _ _ _ _ k => k | _ => fun _ => reads_it end.
Lemma reads_it_calls : upcoming 8 reads_it = Calls SYS_OBJECT_READ (Val 0) (Out 20) (Val 20) after_read.
Proof.
  assert (H : match upcoming 8 reads_it with Calls num (Val v) (Out n) (Val l) _ => (num, v, n, l) | _ => (0, 0, 0, 0) end
    = (SYS_OBJECT_READ, 0, 20, 20)) by (vm_compute; reflexivity).
  unfold after_read. destruct (upcoming 8 reads_it) as [num [] [] []| |]; try discriminate H. by injection H as -> -> -> ->.
Qed.
Lemma after_read_exits r : upcoming 8 (quietly (after_read r)).2 <> Ends.
Proof.
  assert (H : match upcoming 8 (quietly (after_read r)).2 with Ends => true | _ => false end = false) by (destruct r; vm_compute; reflexivity).
  intros E. by rewrite E in H.
Qed.
Definition state1 : system := set_alive {[0 := Process None [] reads_it]} [] state0.

Lemma world0_models1 : models world0 state1.
Proof.
  destruct world0_models as [[Hs Hr] Ho].
  assert (Hal : forall i, alive i state1 = alive i state0).
  { intros i. unfold alive. cbn [procs others state1 state0 set_alive]. rewrite lookup_empty.
    rewrite (bool_decide_eq_false_2 (is_Some None)) by (by intros [? ?]). destruct (Z.eq_dec i 0) as [->|Hne].
    - by rewrite lookup_singleton_eq.
    - rewrite lookup_singleton_ne by congruence. rewrite (bool_decide_eq_false_2 (is_Some None)) by (by intros [? ?]). cbn [orb].
      apply bool_decide_ext. rewrite elem_of_cons. split; [intros H; by right | intros [->|H]; done]. }
  split; [|exact Ho]. split; [|intros i; rewrite Hal; apply Hr].
  intros i Hi. apply (slot_models_same i state0); [by split; rewrite ?Hal | by apply Hs].
Qed.

Lemma step_hears : exists s', step 0 state1 = Some s' /\ p_heard <$> procs s' !! 0 = Some [(14, LoaderDemo.image2)].
Proof.
  assert (H : p_heard <$> (s ← step 0 state1; procs s !! 0) = Some [(14, LoaderDemo.image2)]) by (vm_compute; reflexivity).
  revert H. generalize (step 0 state1). intros [s'|] H; [exists s'; exact (conj eq_refl H) | discriminate H].
Qed.

(** The actor's step, by the machine: it hears 14 and the program's bytes. *)
Lemma kernel_runs_the_programs_witness :
  exists w' k s', syscall_handler 1 SYS_OBJECT_READ 0 buffer 20 world0 = Back 14 w' /\ step 0 state1 = Some s' /\ models w' s' /\
    p_heard <$> procs s' !! 0 = Some [(14, LoaderDemo.image2)] /\ store_bytes buffer LoaderDemo.image2 k = Ok (w_kern w').
Proof.
  assert (E0 : current_actor (w_kern world0) = 0) by apply kernS_flags.
  assert (Hr : request 1 state1 SYS_OBJECT_READ (Val 0) (Out 20) (Val 20)).
  { apply RqRead; [by eexists | unfold in_u32; lia]. }
  assert (Hp : passes (w_kern world0) buffer (Out 20)).
  { destruct kernS_inv as [live Hi]. change kernS with (w_kern world0) in Hi. apply (own_page_is_room live _ _ _ Hi world0_in_syscall);
      rewrite E0, own_page0; unfold buffer, ACTOR_STACK_SIZE; lia. }
  assert (Hpr : procs state1 !! current_actor (w_kern world0) = Some (Process None [] reads_it)) by (rewrite E0; reflexivity).
  assert (Hrax : rax (syscall_handler 1 SYS_OBJECT_READ 0 buffer 20 world0) = Some 14) by (vm_compute; reflexivity).
  pose proof (kernel_runs_the_programs demo_codes 1 SYS_OBJECT_READ 0 buffer 20 (Val 0) (Out 20) (Val 20) world0 state1
    _ _ world0_ok world0_in_syscall world0_models1 Hpr reads_it_calls Hr eq_refl Hp eq_refl) as M.
  pose proof step_hears as Hs.
  cbv zeta in M. rewrite E0 in M. revert M Hrax Hs. generalize (syscall_handler 1 SYS_OBJECT_READ 0 buffer 20 world0).
  intros [r w'| | | | |] M Hrax Hs; try discriminate Hrax. injection Hrax as ->. destruct Hs as (s' & Es & Eh).
  destruct M as (mem & k & s2 & Hst & Hm & [E|[Hf _]]); [|by destruct (ram_does_not_fall_short _ _ _ _ Hf)].
  pose proof E as Ec. rewrite Es in Ec. apply (inj Some) in Ec. rewrite <- Ec in Hm.
  pose proof (continue_heard 0 (p_from (Process None [] reads_it)) ((14, mem) :: p_heard (Process None [] reads_it)) (after_read (14, mem)) s2
    (after_read_exits _)) as Hh.
  rewrite <- Ec, Eh in Hh. injection Hh as Hh. rewrite <- Hh in Hst.
  exists w', k, s'. exact (conj eq_refl (conj Es (conj Hm (conj Eh Hst)))).
Defined.
End SimulationDemo.
