(* ===== verification/Handover.v ===== *)
(** * Handover: what the boot starts is the scene the outcomes are about

    [kernel_main] of Boot.v ends in a machine that [boot_system] of Outcomes.v
    models: fifteen live actors with empty mailboxes, the capabilities of
    [boot_grants] in their tables, their spawn quotas, and, on a disk without a
    directory, the two demo objects, empty and untrusted. *)
From Stdlib Require Import String Ascii List.
From S2P Require Import Prelude Paging Gdt Memory Storage Actor Scheduler Isolation Ports Pic Keyboard Rtc Console Net Access Place Loader E820.
From S2P Require Import Syscall Interrupts Machine Boot User Demos System Outcomes Simulation.

(** ** Objects on a blank disk *)
Section objects.
Context {D : Type} `{!BlockDevice D} `{!BlockDeviceLaws D}.
Implicit Types (st : storage D).

(** The objects so far: all live, untrusted and empty, with these first
    characters of their names. *)
Definition created st (cs : list Z) : Prop :=
  object_count st = Z.of_nat (length cs) /\
  forall i c, 0 <= i -> cs !! Z.to_nat i = Some c ->
    Storage.live st i = true /\ trust (obj st i) = OBJ_UNTRUSTED /\ size_bytes (obj st i) = 0 /\ name (obj st i) !!! 0 = c.

Definition no_directory (d : D) : Prop :=
  le32 (disk_byte d (DIRECTORY_LBA * 512)) (disk_byte d (DIRECTORY_LBA * 512 + 1)) (disk_byte d (DIRECTORY_LBA * 512 + 2))
    (disk_byte d (DIRECTORY_LBA * 512 + 3)) <> DIRECTORY_MAGIC.

Lemma init_created st : no_directory (disk st) -> created (storage_init st) [].
Proof.
  intros Hm. unfold storage_init, directory_load.
  set (f := fun i st => Object 0 (<[0 := 0]> (name (obj st i))) 0 0 OBJ_UNTRUSTED).
  set (st0 := loop _ 0 (Z.to_nat MAX_OBJECTS) st).
  destruct (count_set_loop f (Z.to_nat MAX_OBJECTS) 0 st) as (_ & Hdb & Hdk).
  change (loop (fun i st => set_obj i (f i st) st) 0 (Z.to_nat MAX_OBJECTS) st) with st0 in Hdb, Hdk. clearbody f.
  cbn [set_count dir_buf disk]. rewrite Hdb, Hdk.
  destruct (disk_read DIRECTORY_LBA 1 (dir_buf st) (disk st)) as [[rc buf] d] eqn:Er.
  destruct (disk_read_spec _ _ _ _ _ _ _ Er ltac:(done)) as [Hrd _].
  assert (H0 : forall b e, created (set_dir b e (set_count 0 st0)) []) by (intros b e; split; [done | intros i c _ H; by rewrite lookup_nil in H]).
  destruct (Z.eqb_spec rc 0) as [->|]; cbn [negb]; [|apply H0].
  assert (Hs : sectors_ok DIRECTORY_LBA 1) by done.
  pose proof (Hrd eq_refl Hs 0 ltac:(lia)) as H1. pose proof (Hrd eq_refl Hs 1 ltac:(lia)) as H2.
  pose proof (Hrd eq_refl Hs 2 ltac:(lia)) as H3. pose proof (Hrd eq_refl Hs 3 ltac:(lia)) as H4.
  rewrite Z.add_0_r in H1. unfold no_directory in Hm. rewrite H1, H2, H3, H4.
  destruct (Z.eqb_spec (le32 (disk_byte (disk st) (DIRECTORY_LBA * 512)) (disk_byte (disk st) (DIRECTORY_LBA * 512 + 1))
    (disk_byte (disk st) (DIRECTORY_LBA * 512 + 2)) (disk_byte (disk st) (DIRECTORY_LBA * 512 + 3))) DIRECTORY_MAGIC); [done|].
  apply H0.
Qed.

Lemma name_first nm (m : gmap Z Z) : nm 0 <> 0 -> copy_name 0 nm m !!! 0 = nm 0.
Proof.
  intros H0. assert (Hl : 0 < name_len nm).
  { unfold name_len. destruct (scan _ 0 15) as [i|] eqn:E; [|done]. apply scan_Some in E as (Hi & Hp & _). cbv beta in Hp.
    destruct (Z.eq_dec i 0) as [->|]; [lia|]. lia. }
  unfold copy_name. rewrite aget_insert. zcmp. by rewrite fill_in by lia.
Qed.

(** A name with a new first character is a new object. *)
Lemma create_created nm st cs : created st cs -> Z.of_nat (length cs) < MAX_OBJECTS -> nm 0 <> 0 -> Forall (fun c => c <> nm 0) cs ->
  (storage_create_object nm st).1 = Z.of_nat (length cs) /\ created (storage_create_object nm st).2 (cs ++ [nm 0]).
Proof.
  intros [Hn Ho] Hlen H0 Hcs. unfold storage_create_object.
  assert (Hex : find_by_name nm st = -1).
  { unfold find_by_name. destruct (scan _ 0 _) as [i|] eqn:Es; [|done]. apply scan_Some in Es as (Hi & Hp & _). exfalso.
    rewrite Hn, Z2Nat.id in Hi by lia. destruct (lookup_lt_is_Some_2 cs (Z.to_nat i)) as [c Ec]; [lia|].
    destruct (Ho i c ltac:(lia) Ec) as (_ & _ & _ & Hc). rewrite Forall_lookup in Hcs. specialize (Hcs _ _ Ec).
    apply andb_prop in Hp as [_ Hp]. unfold name_eq in Hp. cbn [name_eq_from] in Hp. rewrite Hc in Hp.
    destruct (Z.eqb_spec c (nm 0)); [congruence | done]. }
  rewrite Hex. cbn [Z.leb Z.compare]. unfold alloc_object.
  destruct (scan _ 0 _) as [i|] eqn:Es.
  { apply scan_Some in Es as (Hi & Hp & _). exfalso. rewrite Hn in Hi.
    destruct (lookup_lt_is_Some_2 cs (Z.to_nat i)) as [c Ec]; [lia|]. destruct (Ho i c ltac:(lia) Ec) as (Hl & _).
    unfold Storage.live in Hl. by rewrite Hp in Hl. }
  rewrite Hn. zcmp. cbn [fst snd init_object]. split; [done|]. split.
  - unfold directory_save. destruct (disk_write _ _ _ _). rewrite length_app. cbn. lia.
  - intros i c Hi Hc. rewrite live_save. unfold Storage.live. rewrite !obj_save, !obj_set.
    destruct (Z.eqb_spec (Z.of_nat (length cs)) i) as [<-|Hne].
    + rewrite Nat2Z.id, lookup_app_r, Nat.sub_diag in Hc by lia. injection Hc as <-. split_and!; try done. cbn [name].
      by apply name_first.
    + rewrite lookup_app_l in Hc by (apply lookup_lt_Some in Hc; rewrite length_app in Hc; cbn in Hc; lia). by apply Ho.
Qed.

(** Writing the last object leaves the others. *)
Lemma write_created id f len st cs c : created st (cs ++ [c]) -> id = Z.of_nat (length cs) -> 
  forall i, 0 <= i < id -> obj (storage_write id f len st).2 i = obj st i.
Proof.
  intros _ -> i Hi. unfold storage_write. destruct (bad_id _ st); [done|]. destruct (_ <? len); [done|].
  destruct (disk_write _ _ _ _) as [rc d]. destruct (negb _); [done|]. cbn [snd]. rewrite obj_save, obj_set. by zcmp.
Qed.
End objects.

(** ** The actor table *)
Section actors.
Context {L : layout} {LOK : layout_ok L} {KL : klayout} {KC : kcode} {IC : icode} {IM : image}.
Context (Hcode : actor_trampoline_addr <> schedule_next_ret).
Implicit Types (k : kern).

(** Nothing sent, nothing spawned. *)
Record unused (a : actor) : Prop := Unused {
  un_head : mailbox_head a = 0; un_count : mailbox_count a = 0; un_spawns : spawn_count a = 0;
  un_quota : spawn_quota a = MAX_SPAWNS_PER_ACTOR }.
Definition all_unused k : Prop := forall i, 0 <= i < MAX_ACTORS -> unused (act k i).

Lemma init_unused k : all_unused (scheduler_init k).
Proof.
  intros i Hi. unfold scheduler_init. autorewrite with kact. rewrite upd_loop. unfold MAX_ACTORS in *. zcmp. by split.
Qed.

Lemma spawn_all_unused es k : all_unused k -> all_unused (spawn_all es k).
Proof.
  unfold spawn_all. revert k. induction es as [|e es IH]; intros k H; [exact H|]. apply IH. clear IH.
  destruct (actor_spawn e k) as [r k'] eqn:E. cbn [snd].
  destruct (spawn_slots _ _ _ _ E) as (_ & _ & _ & [(_ & Ha)|(Hr & _ & Ho & sp & cr & m & Hf)]); intros i Hi.
  - unfold act. rewrite Ha. by apply H.
  - destruct (Z.eq_dec i r) as [->|Hne]; [rewrite Hf; by split | rewrite Ho by done; by apply H].
Qed.

(** Handing out capabilities changes the capability tables only. *)
Lemma grants_kept {A} (f : actor -> A) l k j : (forall c a, f (set_caps c a) = f a) -> f (act (grant_all l k) j) = f (act k j).
Proof.
  intros Hf. unfold grant_all. revert k. induction l as [|[[s o] t] l IH]; intros k; [done|]. cbn [fold_left]. rewrite IH.
  unfold actor_grant. destruct (bad_slot s); [done|]. unfold actor_add_cap. destruct (scan _ _ _); [|done]. cbn [snd].
  by apply (upd_kept f).
Qed.

Lemma shell_slot_good : bad_slot SHELL_SLOT = false.
Proof. done. Qed.

Lemma authority_kept {A} (f : actor -> A) k j : (forall c a, f (set_caps c a) = f a) -> (forall v a, f (set_quota v a) = f a) ->
  (forall v a, f (set_window v a) = f a) -> f (act (boot_authority k) j) = f (act k j).
Proof.
  intros Hc Hq Hw. unfold boot_authority, actor_set_window, actor_set_spawn_quota. rewrite shell_slot_good. cbn [snd].
  rewrite (upd_kept f) by done. rewrite (upd_kept f) by done. by apply grants_kept.
Qed.

Lemma authority_quota k j : spawn_quota (act (boot_authority k) j) = if SHELL_SLOT =? j then 6 else spawn_quota (act k j).
Proof.
  unfold boot_authority, actor_set_window, actor_set_spawn_quota. rewrite shell_slot_good. cbn [snd]. rewrite (upd_kept spawn_quota) by done. rewrite act_upd.
  destruct (SHELL_SLOT =? j); [done|]. by apply (grants_kept spawn_quota).
Qed.

Lemma authority_tables k : tables k (fun _ => []) -> tables (boot_authority k) (fun s => given s boot_grants).
Proof.
  intros H. unfold boot_authority, actor_set_window, actor_set_spawn_quota. do 2 (apply upd_tables; [done|]).
  destruct boot_grants_fit as [Hok Hfit]. by apply (grants_tables []).
Qed.

Lemma caps_given l (m : gmap Z (list capability)) s :
  default [] (fold_left (fun m '(slot, op, target) => <[slot := default [] (m !! slot) ++ [Capability op target]]> m) l m !! s) =
  default [] (m !! s) ++ given s l.
Proof.
  revert m. induction l as [|[[d o] t] l IH]; intros m; [cbn; by rewrite app_nil_r|]. cbn [fold_left]. rewrite IH. unfold given.
  cbn [omap list_omap]. destruct (Z.eqb_spec d s) as [->|Hne].
  - rewrite lookup_insert_eq. cbn [default from_option id]. by rewrite <- app_assoc.
  - by rewrite lookup_insert_ne by done.
Qed.

Lemma boot_fields busy : mail (boot_system busy) = ∅ /\ caps_of (boot_system busy) = boot_caps /\
  budget (boot_system busy) = {[SHELL_SLOT := 6]}.
Proof. by split_and!. Qed.
Lemma boot_caps_fold : boot_caps =
  fold_left (fun m '(slot, op, target) => <[slot := default [] (m !! slot) ++ [Capability op target]]> m) boot_grants ∅.
Proof. reflexivity. Qed.
Lemma table_of s s' : table s s' = default [] (caps_of s' !! s).
Proof. reflexivity. Qed.
Lemma boot_tables_given s busy : table s (boot_system busy) = given s boot_grants.
Proof.
  destruct (boot_fields busy) as (_ & E & _). rewrite table_of, E, boot_caps_fold. generalize boot_grants. intros l.
  by rewrite caps_given, lookup_empty.
Qed.

(** Fifteen actors in their slots, and authority handed out. *)
Lemma authority_models k : packed k actor_entries -> all_unused k -> tables k (fun _ => []) ->
  kmodels (boot_authority k) (boot_system (seqZ 0 15)).
Proof.
  intros [_ Hp] Hu Ht. pose proof (authority_tables k Ht) as Hc.
  assert (Hal : forall i, alive i (boot_system (seqZ 0 15)) = (0 <=? i) && (i <? 15)).
  { intros i. unfold alive. cbn [procs others boot_system]. rewrite lookup_empty.
    rewrite (bool_decide_eq_false_2 (is_Some None)) by (by intros [? ?]). cbn [orb]. apply eq_true_iff_eq.
    rewrite bool_decide_eq_true, elem_of_seqZ. rewrite andb_true_iff, Z.leb_le, Z.ltb_lt. lia. }
  split; [|intros i; rewrite Hal; unfold MAX_ACTORS; lia]. intros i Hi. destruct (Hu i Hi) as [U1 U2 U3 U4].
  assert (Hst : state (act (boot_authority k) i) = state (act k i)) by by apply (authority_kept state).
  split.
  - rewrite Hal. specialize (Hp i Hi). unfold is_dead. rewrite Hst. destruct (actor_entries !! Z.to_nat i) as [e|] eqn:E.
    + destruct Hp as [-> _]. apply lookup_lt_Some in E. rewrite image_actors in E. rewrite bool_decide_eq_false_2 by done. cbn [negb]. zcmp. done.
    + rewrite Hp. apply lookup_ge_None_1 in E. rewrite image_actors in E. rewrite bool_decide_eq_true_2 by done. cbn [negb]. zcmp. done.
  - split; rewrite ?(authority_kept mailbox_head), ?(authority_kept mailbox_count), ?U1, ?U2 by done; done.
  - unfold queue. rewrite (authority_kept mailbox), (authority_kept mailbox_head), (authority_kept mailbox_count), U2 by done.
    unfold box. cbn [mail boot_system]. by rewrite lookup_empty.
  - rewrite boot_tables_given. by apply Hc.
  - rewrite boot_tables_given. apply given_ops, boot_grants_fit.
  - rewrite boot_tables_given. apply boot_grants_fit.
  - rewrite authority_quota, (authority_kept spawn_count), U3, U4 by done. unfold spawns_left. cbn [budget boot_system].
    destruct (Z.eqb_spec SHELL_SLOT i) as [<-|Hne]; [by rewrite lookup_singleton_eq | by rewrite lookup_singleton_ne by done].
Qed.
End actors.

(** ** The machine the scheduler starts *)
Section handover.
Context {L : layout} {LOK : layout_ok L} {KL : klayout} {KC : kcode} {IC : icode} {IM : image}.
Context {B D N : Type} `{!PortBus B} `{!BlockDevice D} `{!BlockDeviceLaws D} `{!NetDevice N}.
Context (Hcode : actor_trampoline_addr <> schedule_next_ret).
Implicit Types (w : world B D N) (b : boot B D N) (k : kern).

Lemma first_acts k i : frames k !!! current_actor k = FTrampoline -> act (resume k).2 i = act k i.
Proof. intros Hf. unfold resume. destruct (halted k); [done|]. destruct (_ =? _); [done|]. cbv zeta. change (frames (hal_enable_interrupts k)) with (frames k).
  change (current_actor (hal_enable_interrupts k)) with (current_actor k). by rewrite Hf.
Qed.

(** The first switch starts an actor, or stops a machine without any. *)
Lemma start_models w w' : booting (w_kern w) -> final (boot_start w) = Some w' ->
  (forall s, kmodels (w_kern w) s -> kmodels (w_kern w') s) /\ w_sto w' = w_sto w /\
  forall i, is_dead (act (w_kern w') i) = is_dead (act (w_kern w) i).
Proof.
  intros Hb. unfold boot_start, scheduler_start. set (k0 := hal_enable_interrupts (w_kern w)).
  assert (Ea : forall i, act k0 i = act (w_kern w) i) by done.
  assert (Hb0 : booting k0).
  { destruct (bt_inv _ Hb) as [live Hi]. apply (booting_step (w_kern w)); try done; [| |by auto]; [exists live; by apply kinv_irq | apply isolated_irq, Hb]. }
  clearbody k0. destruct (start_switches Hcode _ Hb0) as (k' & live & E & _ & Hl).
  pose proof (fun i => schedule_view SaveScheduler k0 i ltac:(rewrite (bt_cur _ Hb0); done)) as Hv.
  pose proof (schedule_frames SaveScheduler k0) as Hf. rewrite E in Hv, Hf |- *. cbn [snd] in Hv, Hf.
  pose proof (fun i => first_acts k' i ltac:(rewrite Hf; apply (bt_fresh _ Hb0))) as Hact.
  unfold land. destruct (resume k') as [l k2]. cbn [fst snd] in Hl, Hact.
  assert (Hv2 : forall i, same_view (act (w_kern w) i) (act k2 i)) by (intros i; rewrite Hact, <- Ea; apply Hv).
  assert (Hall : forall s, kmodels (w_kern w) s -> kmodels k2 s) by (intros s; apply kmodels_view; auto).
  assert (Hd : forall i, is_dead (act k2 i) = is_dead (act (w_kern w) i)) by (intros i; apply (v_dead _ _ (Hv2 i))).
  destruct l; try (by destruct Hl); cbn [final]; intros [= <-]; split_and!; exact Hall || exact Hd || reflexivity.
Qed.

(** ** Labels *)

Lemma print_sto str w w' : print str w = Some w' -> w_sto w' = w_sto w.
Proof. unfold print. destruct (Console.hal_console_write _ _); [by intros [= <-] | done]. Qed.
Lemma print_dec_sto v w w' : print_dec v w = Some w' -> w_sto w' = w_sto w.
Proof. unfold print_dec. destruct (hal_console_write_dec64 _ _); [by intros [= <-] | done]. Qed.

Lemma blank_models st s : (forall i, 0 <= i < 2 -> Storage.live st i = true /\ trust (obj st i) = OBJ_UNTRUSTED /\ size_bytes (obj st i) = 0) ->
  labelled s = boot_labels -> omodels st s.
Proof.
  intros Ho Hs id tr data. rewrite Hs. unfold boot_labels, PAYLOAD_OBJECT_ID, SUSPICIOUS_OBJECT_ID.
  assert (Hobj : forall i, 0 <= i < 2 -> object_models st i OBJ_UNTRUSTED []).
  { intros i Hi. destruct (Ho i Hi) as (H1 & H2 & H3). split; [unfold MAX_OBJECTS; lia | done..|]. cbn [length]. lia. }
  intros [[<- [= <- <-]]|[_ [<- [= <- <-]]%lookup_singleton_Some]]%lookup_insert_Some; by apply Hobj.
Qed.

Lemma objects_models w w3 s : no_directory (disk (w_sto w)) -> boot_objects (boot_actors w) = Some w3 -> labelled s = boot_labels ->
  omodels (w_sto w3) s.
Proof.
  intros Hd E Hs. assert (H0 : created (w_sto (boot_actors w)) []) by by apply init_created.
  generalize dependent (boot_actors w). intros w0 E H0. unfold boot_objects, create_object in E.
  destruct (create_created (c_string "payload.bin") _ [] H0) as [R1 C1]; [done | done | constructor|].
  destruct (storage_create_object (c_string "payload.bin") (w_sto w0)) as [id1 st1]. cbn [fst snd] in *.
  destruct (create_created (c_string "suspicious.bin") st1 _ C1) as [R2 C2]; [done | done | by repeat constructor|].
  change (w_sto (set_sto st1 w0)) with st1 in E.
  destruct (storage_create_object (c_string "suspicious.bin") st1) as [id2 st2]. cbn [fst snd] in *.
  set (w2 := set_sto st2 (set_sto st1 w0)) in E. assert (S2 : w_sto w2 = st2) by done. clearbody w2.
  apply bind_Some in E as (w4 & P4 & E). apply print_sto in P4. apply bind_Some in E as (w5 & P5 & E). apply print_dec_sto in P5.
  apply bind_Some in E as (w6 & P6 & E). apply print_sto in P6. apply bind_Some in E as (w7 & P7 & E). apply print_dec_sto in P7.
  apply bind_Some in E as (w8 & P8 & E). apply print_sto in P8.
  assert (S8 : w_sto w8 = st2) by congruence. rewrite S8 in E. clear P4 P5 P6 P7 P8 S8.
  destruct (create_created (c_string "hello.bin") st2 _ C2) as [R3 C3]; [done | done | by repeat constructor|].
  destruct (storage_create_object (c_string "hello.bin") st2) as [id3 st3]. cbn [fst snd] in *.
  change (w_sto (set_sto st3 w8)) with st3 in E.
  pose proof (write_created id3 (fun i => default 0 (hello_blob !! Z.to_nat i)) (u32 (Z.of_nat (length hello_blob))) st3 [112; 115] 104 C3 R3) as Hw.
  destruct (storage_write id3 _ _ st3) as [rc st4]. cbn [snd] in Hw.
  set (w9 := set_sto st4 (set_sto st3 w8)) in E. assert (S9 : w_sto w9 = st4) by done. clearbody w9.
  apply bind_Some in E as (wa & Pa & E). apply print_sto in Pa. apply bind_Some in E as (wb & Pb & E). apply print_dec_sto in Pb.
  apply bind_Some in E as (wc & Pc & E). apply print_sto in Pc. apply bind_Some in E as (wd & Pd & E). apply print_dec_sto in Pd.
  apply print_sto in E. assert (S3 : w_sto w3 = st4) by congruence. rewrite S3.
  apply blank_models; [|exact Hs]. intros i Hi. cbn in R3. unfold Storage.live. rewrite Hw by lia.
  assert (Hc : exists c, [112; 115; 104] !! Z.to_nat i = Some c).
  { apply lookup_lt_is_Some_2. cbn [length]. lia. }
  destruct Hc as [c Hc]. destruct (proj2 C3 i c ltac:(lia) Hc) as (H1 & H2 & H3 & _). split_and!; [exact H1 | exact H2 | exact H3].
Qed.

(** Following the programs of live slots changes nothing the kernel knows of. *)
Definition adds_slot (slots : list Z) s s' : Prop :=
  (forall i, alive i s' = existsb (Z.eqb i) slots || alive i s) /\ mail s' = mail s /\ caps_of s' = caps_of s /\
  budget s' = budget s /\ labelled s' = labelled s.

Lemma fold_adds (f : system -> Z * proc unit -> system) l s :
  (forall s c, adds_slot [c.1] s (f s c)) -> adds_slot (map fst l) s (fold_left f l s).
Proof.
  intros Hf. revert s. induction l as [|c l IH]; intros s; [by split_and!|].
  destruct (IH (f s c)) as (E1 & E2 & E3 & E4 & E5). destruct (Hf s c) as (F1 & F2 & F3 & F4 & F5). cbn [fold_left map].
  split_and!; [|congruence..]. intros i. rewrite E1, F1. cbn [existsb]. by destruct (i =? c.1), (existsb (Z.eqb i) (map fst l)).
Qed.

Lemma enter_adds s c : adds_slot [c.1] s (enter_scene s c).
Proof.
  unfold enter_scene, launch. split; [|apply continue_rest]. intros i. rewrite alive_continue. cbn [existsb]. by rewrite orb_false_r.
Qed.

Lemma scene_adds cast busy : adds_slot (map fst cast) (boot_system busy) (scene cast busy).
Proof. exact (fold_adds enter_scene cast (boot_system busy) enter_adds). Qed.

Lemma besides_alive cast i : Forall (fun c => 0 <= c.1 < 15) cast ->
  existsb (Z.eqb i) (map fst cast) || alive i (boot_system (besides cast 0)) = alive i (boot_system (seqZ 0 15)).
Proof.
  intros Hc. unfold alive. cbn [procs others boot_system]. rewrite !lookup_empty.
  rewrite !(bool_decide_eq_false_2 (is_Some None)) by (by intros [? ?]). cbn [orb]. apply eq_true_iff_eq.
  rewrite orb_true_iff, !bool_decide_eq_true. unfold besides. rewrite !list_elem_of_In, List.filter_In, <- !list_elem_of_In, !elem_of_seqZ.
  rewrite Z.sub_0_r, negb_true_iff. split.
  - intros [H|[H _]]; [|exact H]. apply existsb_exists in H as (x & Hin & E). apply List.in_map_iff in Hin as (c & <- & Hin).
    rewrite List.Forall_forall in Hc. specialize (Hc _ Hin). lia.
  - intros Hi. destruct (existsb (Z.eqb i) (map fst cast)) eqn:E; [by left | by right].
Qed.

Lemma same_fields i s s' : alive i s' = alive i s -> mail s' = mail s -> caps_of s' = caps_of s -> budget s' = budget s -> same_slot i s s'.
Proof. intros E1 E2 E3 E4. split; [exact E1 | unfold box; by rewrite E2 | by rewrite !table_of, E3 | unfold spawns_left; by rewrite E4]. Qed.

Lemma scene_models k cast : Forall (fun c => 0 <= c.1 < 15) cast -> kmodels k (boot_system (seqZ 0 15)) ->
  kmodels k (scene cast (besides cast 0)).
Proof.
  intros Hc [Hs Hr]. destruct (scene_adds cast (besides cast 0)) as (E1 & E2 & E3 & E4 & _).
  revert E1 E2 E3 E4. generalize (scene cast (besides cast 0)). intros s E1 E2 E3 E4.
  assert (Hv : forall i, same_slot i (boot_system (seqZ 0 15)) s).
  { destruct (boot_fields (besides cast 0)) as (F2 & F3 & F4). destruct (boot_fields (seqZ 0 15)) as (G2 & G3 & G4).
    intros i. apply same_fields; [by rewrite E1, besides_alive | congruence..]. }
  split; [intros i Hi; apply (slot_models_same i (boot_system (seqZ 0 15))); [apply Hv | by apply Hs]|].
  intros i Hi. apply Hr. by rewrite <- (ss_alive _ _ _ (Hv i)).
Qed.

(** C5: the scenes of Outcomes.v are what [kernel_main] starts.  When the boot
    has spawned its fifteen actors, the machine it hands over is modelled by
    [scene cast (besides cast 0)], for any cast of them: the slots that are
    live, every mailbox, every capability table and every spawn quota; and on a
    disk without a directory also the labels and contents of the two demo
    objects. *)
Theorem boot_starts_the_scene fuel (firmware : gmap Z Z) ap dma b bus o g t w' cast :
  power_on b -> (forall x, in_u8 (firmware !!! x)) -> Forall (fun n => n <= 2 ^ 31) dma -> drained fuel b bus ->
  kernel_main fuel firmware ap dma b = Some (o, g, t) -> final o = Some w' ->
  state (act (w_kern w') SHELL_SLOT) <> ACTOR_DEAD -> Forall (fun c => 0 <= c.1 < 15) cast ->
  kmodels (w_kern w') (scene cast (besides cast 0)) /\
  (no_directory (disk (w_sto (b_world b))) -> omodels (w_sto w') (scene cast (besides cast 0))).
Proof.
  intros Hb Hf Hd Hdr E Ef Hlive Hcast.
  destruct (kernel_main_ok fuel firmware ap dma b bus Hcode Hb Hf Hd Hdr)
    as (w1 & o' & w2 & g' & t' & E' & Ef' & _ & _ & _ & _ & w3 & w5 & S1 & E3 & -> & S5 & K5 & Hb5).
  rewrite E in E'. injection E' as -> -> ->. rewrite Ef in Ef'. injection Ef' as <-.
  destruct (actors_in_order w1) as (up & _ & Hp & Hup).
  destruct (start_models w5 w' Hb5 Ef) as (Hk' & Hs' & Hd').
  rewrite Hup in Hp.
  2: { rewrite <- is_dead_false in Hlive |- *. rewrite Hd', K5 in Hlive. by rewrite <- (authority_kept is_dead). }
  assert (Hk5 : kmodels (w_kern w5) (boot_system (seqZ 0 15))).
  { rewrite K5. apply authority_models; [exact Hp | apply spawn_all_unused, init_unused | apply spawn_all_tables, init_tables]. }
  split; [apply Hk', scene_models; done|]. intros Hn.
  rewrite Hs', S5. apply (objects_models w1); [by rewrite S1 | exact E3|].
  by destruct (scene_adds cast (besides cast 0)) as (_ & _ & _ & _ & El).
Qed.
End handover.

(** ** A boot that starts them all *)
Module HandoverDemo.
Import RamDisk Demo SyscallDemo BootDemo.
#[local] Existing Instances demo_icode demo_image.

Lemma demo_boots : match kernel_main 3 firmware_table 0 [1; 1; 1] machine_off with
  | Some (o, _, _) => match final o with Some w => is_dead (act (w_kern w) SHELL_SLOT) = false | None => False end
  | None => False
  end.
Proof. vm_compute. reflexivity. Qed.

(** The machine of [BootDemo], with its zeroed disk, starts the scene of the
    storage pipeline. *)
Lemma boot_starts_the_scene_witness :
  exists o w' g t, kernel_main 3 firmware_table 0 [1; 1; 1] machine_off = Some (o, g, t) /\ final o = Some w' /\
    models w' (scene pipeline (besides pipeline 0)).
Proof.
  assert (Hd : Forall (fun n => n <= 2 ^ 31) [1; 1; 1]) by (repeat (apply List.Forall_cons; [lia|]); apply List.Forall_nil).
  assert (Hc : Forall (fun c => 0 <= c.1 < 15) pipeline).
  { unfold pipeline. repeat (apply List.Forall_cons; [cbn [fst]; unfold DOWNLOADER_SLOT, SCANNER_SLOT, READER_SLOT; lia|]). apply List.Forall_nil. }
  pose proof demo_boots as Hl. destruct (kernel_main 3 firmware_table 0 [1; 1; 1] machine_off) as [[[o g] t]|] eqn:E; [|destruct Hl].
  destruct (final o) as [w'|] eqn:Ef; [|destruct Hl]. exists o, w', g, t. split; [reflexivity|]. split; [exact Ef|].
  destruct (boot_starts_the_scene demo_codes 3 firmware_table 0 [1; 1; 1] machine_off [] o g t w' pipeline machine_off_ok firmware_u8 Hd
    machine_off_drains E Ef (proj1 (is_dead_false _) Hl) Hc) as [Hk Ho].
  split; [exact Hk|]. apply Ho. vm_compute. discriminate.
Defined.
End HandoverDemo.
